(** * Expense tracker: the e-mail import and categorization pipeline

    A shallow embedding of the TypeScript sources
      - [utils/jsonParser.ts]        (class RobustJSONParser),
      - [utils/aiCategorization.ts]  (batchCategorizeExpenses and its parsers),
      - [utils/gmailIntegration.ts]  (field extraction, keyword classifier,
                                      storage calls, processEmailsFromSender),
      - [utils/validation.ts]        (validateExpense),
      - [pages/api/expenses/*]       (the three storage handlers),
    together with the parts of the JavaScript runtime they rely on
    (strings of UTF-16 code units, regular expressions with backtracking,
    JSON.parse, parseFloat, Date, atob).  Console output and the delays
    between requests are left out. *)

From Stdlib Require Import List NArith ZArith Bool Arith Lia String Ascii.
Import ListNotations.

Set Implicit Arguments.

(* ------------------------------------------------------------------ *)
(** ** JavaScript strings *)
(* ------------------------------------------------------------------ *)

Module JS.

(** A JavaScript string is a sequence of UTF-16 code units. *)
Definition jsstring := list N.

(** Literals are written as Rocq strings.  In the argument of [u] the
    character [~] stands for the double quote (code unit 34); every
    other character stands for itself. *)
Definition unit_of_ascii (a : ascii) : N :=
  if N.eqb (N_of_ascii a) 126 then 34%N else N_of_ascii a.

Definition u (s : string) : jsstring :=
  List.map unit_of_ascii (list_ascii_of_string s).

Fixpoint eqb (a b : jsstring) : bool :=
  match a, b with
  | [], [] => true
  | x :: a', y :: b' => N.eqb x y && eqb a' b'
  | _, _ => false
  end.

(** WhiteSpace and LineTerminator code points: what [\s] matches and
    what [String.prototype.trim] strips. *)
Definition isSpace (c : N) : bool :=
  ((9 <=? c) && (c <=? 13) || (c =? 32) || (c =? 160) || (c =? 5760)
   || (8192 <=? c) && (c <=? 8202) || (c =? 8232) || (c =? 8233)
   || (c =? 8239) || (c =? 8287) || (c =? 12288) || (c =? 65279))%N.

Fixpoint trimStart (s : jsstring) : jsstring :=
  match s with
  | c :: t => if isSpace c then trimStart t else s
  | [] => []
  end.

Definition trimEnd (s : jsstring) : jsstring := rev (trimStart (rev s)).

Definition trim (s : jsstring) : jsstring := trimEnd (trimStart s).

Fixpoint startsWith (s p : jsstring) : bool :=
  match p, s with
  | [], _ => true
  | x :: p', y :: s' => N.eqb x y && startsWith s' p'
  | _ :: _, [] => false
  end.

Definition endsWith (s p : jsstring) : bool := startsWith (rev s) (rev p).

(** [s.includes(p)] *)
Fixpoint includes (s p : jsstring) : bool :=
  startsWith s p || match s with [] => false | _ :: t => includes t p end.

(** [s.substring(i, j)] for [i <= j]. *)
Definition substring (s : jsstring) (i j : nat) : jsstring :=
  firstn (j - i) (skipn i s).

(** [s.split(sep)] for a separator of one code unit. *)
Fixpoint split_go (sep : N) (s cur : jsstring) : list jsstring :=
  match s with
  | [] => [rev cur]
  | c :: t => if N.eqb c sep then rev cur :: split_go sep t []
              else split_go sep t (c :: cur)
  end.

Definition split (sep : N) (s : jsstring) : list jsstring := split_go sep s [].

(** [s.replace(a, b)] with a single code unit as string pattern: the
    first occurrence only. *)
Fixpoint replaceFirstUnit (a : N) (b : jsstring) (s : jsstring) : jsstring :=
  match s with
  | [] => []
  | c :: t => if N.eqb c a then b ++ t else c :: replaceFirstUnit a b t
  end.

(** Truthiness of a string: the empty string is falsy. *)
Definition truthy (s : jsstring) : bool :=
  match s with [] => false | _ => true end.

Definition isDigit (c : N) : bool := ((48 <=? c) && (c <=? 57))%N.
Definition isUpper (c : N) : bool := ((65 <=? c) && (c <=? 90))%N.
Definition isLower (c : N) : bool := ((97 <=? c) && (c <=? 122))%N.

Fixpoint natDigits (fuel n : nat) (acc : jsstring) : jsstring :=
  match fuel with
  | O => acc
  | S f =>
      let acc' := N.of_nat (48 + n mod 10) :: acc in
      if n / 10 =? 0 then acc' else natDigits f (n / 10) acc'
  end.

(** Decimal text of a natural number. *)
Definition natToString (n : nat) : jsstring := natDigits (S n) n [].

End JS.

Import JS.

(* ------------------------------------------------------------------ *)
(** ** Regular expressions *)
(* ------------------------------------------------------------------ *)

(** A backtracking matcher with the semantics of ECMAScript regular
    expressions for the constructs the sources use: greedy quantifiers,
    ordered alternatives, capture groups, [^] and [$] without the [m] flag,
    leftmost match, the [g] flag of [replace] and [match].  No pattern of
    the sources puts a capture group under a quantifier. *)
Module Regex.

Inductive re : Type :=
| Eps
| Chr (p : N -> bool)
| Seq (a b : re)
| Alt (a b : re)
| Star (a : re)
| Group (i : nat) (a : re)
| Bol
| Eol.

Definition Plus (a : re) : re := Seq a (Star a).

Fixpoint seqs (l : list re) : re :=
  match l with
  | [] => Eps
  | [a] => a
  | a :: t => Seq a (seqs t)
  end.

(** A literal code unit, and the same under the [i] flag (the sources
    only use ASCII letters in patterns with that flag). *)
Definition c (x : N) : re := Chr (N.eqb x).

Definition foldCase (x : N) : N := if isUpper x then (x + 32)%N else x.
Definition ci (x : N) : re := Chr (fun y => N.eqb (foldCase x) (foldCase y)).

Definition str (s : jsstring) : re := seqs (List.map c s).
Definition stri (s : jsstring) : re := seqs (List.map ci s).

Definition any : N -> bool := fun _ => true.
Definition nots (l : list N) : N -> bool :=
  fun x => negb (existsb (N.eqb x) l).
Definition oneof (l : list N) : N -> bool :=
  fun x => existsb (N.eqb x) l.
Definition range (a b : N) : N -> bool := fun x => ((a <=? x) && (x <=? b))%N.
Definition sp : re := Chr isSpace.
Definition sps : re := Star sp.

Record st : Type := mkSt {
  pos : nat;
  rest : jsstring;
  caps : list (nat * (nat * nat))
}.

Fixpoint run (r : re) (s : st) (k : st -> option st) {struct r} : option st :=
  match r with
  | Eps => k s
  | Chr p =>
      match rest s with
      | x :: t => if p x then k (mkSt (S (pos s)) t (caps s)) else None
      | [] => None
      end
  | Seq a b => run a s (fun s' => run b s' k)
  | Alt a b =>
      match run a s k with
      | Some x => Some x
      | None => run b s k
      end
  | Star a =>
      (fix loop (n : nat) (s : st) {struct n} : option st :=
         match n with
         | O => k s
         | S n' =>
             match run a s (fun s' => if pos s <? pos s' then loop n' s' else None) with
             | Some x => Some x
             | None => k s
             end
         end) (List.length (rest s)) s
  | Group i a => run a s (fun s' => k (mkSt (pos s') (rest s') ((i, (pos s, pos s')) :: caps s')))
  | Bol => if pos s =? 0 then k s else None
  | Eol => match rest s with [] => k s | _ :: _ => None end
  end.

(** A match: start, end, captures. *)
Record mres : Type := mkRes { mstart : nat; mend : nat; mcaps : list (nat * (nat * nat)) }.

Definition matchAt (r : re) (input : jsstring) (i : nat) : option mres :=
  match run r (mkSt i (skipn i input) []) (fun s => Some s) with
  | Some s => Some (mkRes i (pos s) (caps s))
  | None => None
  end.

Fixpoint search (n : nat) (r : re) (input : jsstring) (i : nat) : option mres :=
  match matchAt r input i with
  | Some m => Some m
  | None => match n with O => None | S n' => search n' r input (S i) end
  end.

(** [r.exec(input)] starting at index [i]: the leftmost match at or
    after [i]. *)
Definition exec (r : re) (input : jsstring) (i : nat) : option mres :=
  if List.length input <? i then None
  else search (List.length input - i) r input i.

Fixpoint lookup (i : nat) (l : list (nat * (nat * nat))) : option (nat * nat) :=
  match l with
  | [] => None
  | (j, v) :: t => if i =? j then Some v else lookup i t
  end.

(** Text of capture group [i]; [None] when the group did not take part. *)
Definition group (input : jsstring) (m : mres) (i : nat) : option jsstring :=
  match lookup i (mcaps m) with
  | Some (a, b) => Some (substring input a b)
  | None => None
  end.

Definition whole (input : jsstring) (m : mres) : jsstring :=
  substring input (mstart m) (mend m).

(** Replacement templates: literal text and [$n] references. *)
Inductive piece : Type := Lit (s : jsstring) | Ref (i : nat).

Definition expand (input : jsstring) (m : mres) (t : list piece) : jsstring :=
  flat_map (fun p => match p with
                     | Lit s => s
                     | Ref i => match group input m i with Some g => g | None => [] end
                     end) t.

(** [input.replace(r, t)] without the [g] flag. *)
Definition replace1 (r : re) (t : list piece) (input : jsstring) : jsstring :=
  match exec r input 0 with
  | None => input
  | Some m => firstn (mstart m) input ++ expand input m t ++ skipn (mend m) input
  end.

(** [input.replace(r, t)] with the [g] flag: every match, left to right,
    never overlapping; after an empty match the search resumes one code
    unit further. *)
Fixpoint replaceG_go (n : nat) (r : re) (t : list piece) (input : jsstring) (i : nat) : jsstring :=
  match exec r input i with
  | None => skipn i input
  | Some m =>
      let head := substring input i (mstart m) ++ expand input m t in
      match n with
      | O => head ++ skipn (mend m) input
      | S n' =>
          if mend m =? mstart m
          then head ++ substring input (mend m) (S (mend m)) ++ replaceG_go n' r t input (S (mend m))
          else head ++ replaceG_go n' r t input (mend m)
      end
  end.

Definition replaceG (r : re) (t : list piece) (input : jsstring) : jsstring :=
  replaceG_go (S (List.length input)) r t input 0.

(** [input.match(r)] with the [g] flag: the matched substrings; the
    empty list stands for [null]. *)
Fixpoint matchG_go (n : nat) (r : re) (input : jsstring) (i : nat) : list jsstring :=
  match exec r input i with
  | None => []
  | Some m =>
      match n with
      | O => [whole input m]
      | S n' =>
          whole input m ::
          matchG_go n' r input (if mend m =? mstart m then S (mend m) else mend m)
      end
  end.

Definition matchG (r : re) (input : jsstring) : list jsstring :=
  matchG_go (S (List.length input)) r input 0.

(** [r.test(input)] *)
Definition test (r : re) (input : jsstring) : bool :=
  match exec r input 0 with Some _ => true | None => false end.

End Regex.

(* ------------------------------------------------------------------ *)
(** ** Numbers *)
(* ------------------------------------------------------------------ *)

(** A JavaScript number, as far as the sources look at it: NaN, the two
    infinities, or a finite value.  A finite value is carried as the exact
    decimal [(-1)^neg * mant * 10^expo] its text denotes; rounding to the
    nearest double is modelled at the two ends of the range only (a literal
    too small becomes zero, one too large becomes Infinity), which is what
    the tests [isNaN], [<= 0] and truthiness depend on. *)
Module Num.

Inductive number : Type :=
| NaN
| Inf (neg : bool)
| Fin (neg : bool) (mant : N) (expo : Z).

Definition isNaN (x : number) : bool :=
  match x with NaN => true | _ => false end.

Definition isFinite (x : number) : bool :=
  match x with Fin _ _ _ => true | _ => false end.

(** [x <= 0] *)
Definition leq0 (x : number) : bool :=
  match x with
  | NaN => false
  | Inf neg => neg
  | Fin neg m _ => neg || N.eqb m 0
  end.

(** [x > 0] *)
Definition gt0 (x : number) : bool :=
  match x with
  | NaN => false
  | Inf neg => negb neg
  | Fin neg m _ => negb neg && negb (N.eqb m 0)
  end.

(** Truthiness: NaN and the zeros are falsy. *)
Definition truthy (x : number) : bool :=
  match x with
  | NaN => false
  | Inf _ => true
  | Fin _ m _ => negb (N.eqb m 0)
  end.

Fixpoint digitsN (l : list N) (acc : N) : N :=
  match l with
  | [] => acc
  | d :: t => digitsN t (10 * acc + (d - 48))%N
  end.

(** The double nearest to [mant * 10^expo], as far as modelled:
    values of at least [2^1024 - 2^970] round to Infinity, values of at
    most [2^-1075] round to zero.  The first two tests are shortcuts for
    exponents far out: [mant * 10^expo >= 10^401] in the first, and
    [mant * 10^expo < 2^(log2 mant + 1) * 2^(3 * expo) <= 2^-1075] in the
    second. *)
Definition ofDecimal (neg : bool) (mant : N) (expo : Z) : number :=
  if N.eqb mant 0 then Fin neg 0 0
  else
    let m := Z.of_N mant in
    let hi := (2 ^ 1024 - 2 ^ 970)%Z in
    if (400 <? expo)%Z then Inf neg
    else if (Z.log2 m + 1 + 3 * expo <=? -1075)%Z then Fin neg 0 0
    else if (0 <=? expo)%Z then
      if (hi <=? m * 10 ^ expo)%Z then Inf neg else Fin neg mant expo
    else
      let d := (10 ^ (- expo))%Z in
      if (hi * d <=? m)%Z then Inf neg
      else if (m * 2 ^ 1075 <=? d)%Z then Fin neg 0 0
      else Fin neg mant expo.

Fixpoint takeDigits (s : jsstring) : list N * jsstring :=
  match s with
  | x :: t => if isDigit x then let (d, r) := takeDigits t in (x :: d, r)
              else ([], s)
  | [] => ([], [])
  end.

(** An exponent part [e], [e+], [e-] followed by at least one digit; it
    is read only when complete. *)
Definition takeExponent (s : jsstring) : Z * jsstring :=
  match s with
  | e :: t =>
      if N.eqb e 101 || N.eqb e 69 then
        let (neg, t') :=
          match t with
          | sg :: t2 => if N.eqb sg 45 then (true, t2)
                        else if N.eqb sg 43 then (false, t2) else (false, t)
          | [] => (false, t)
          end in
        match takeDigits t' with
        | ([], _) => (0%Z, s)
        | (d, r) => ((if neg then - Z.of_N (digitsN d 0) else Z.of_N (digitsN d 0))%Z, r)
        end
      else (0%Z, s)
  | [] => (0%Z, s)
  end.

Definition takeSign (s : jsstring) : bool * jsstring :=
  match s with
  | x :: t => if N.eqb x 45 then (true, t) else if N.eqb x 43 then (false, t) else (false, s)
  | [] => (false, s)
  end.

(** The decimal literal at the head of [s] (after the sign): integer
    digits, fraction digits, exponent; [None] when there is no digit. *)
Definition takeDecimal (s : jsstring) : option (N * Z * jsstring) :=
  let (ip, r1) := takeDigits s in
  let '(fp, r2) :=
    match r1 with
    | dot :: t => if N.eqb dot 46 then takeDigits t else ([], r1)
    | [] => ([], r1)
    end in
  match ip, fp with
  | [], [] => None
  | _, _ =>
      let (e, r3) := takeExponent r2 in
      Some (digitsN (ip ++ fp) 0, (e - Z.of_nat (List.length fp))%Z, r3)
  end.

(** [parseFloat(s)] *)
Definition parseFloat (s : jsstring) : number :=
  let (neg, t) := takeSign (trimStart s) in
  if startsWith t (u "Infinity") then Inf neg
  else match takeDecimal t with
       | Some (m, e, _) => ofDecimal neg m e
       | None => NaN
       end.

End Num.

(* ------------------------------------------------------------------ *)
(** ** JSON values and JSON.parse *)
(* ------------------------------------------------------------------ *)

Module Json.

#[warnings="-register-all"]
Inductive value : Type :=
| VNull
| VBool (b : bool)
| VNum (n : Num.number)
| VStr (s : jsstring)
| VArr (l : list value)
| VObj (l : list (jsstring * value)).

(** Property lists: a later definition of a key replaces the earlier
    one in place, a new key is appended.  (JavaScript enumerates keys
    that are array indices first; the sources never depend on the order of
    enumeration.) *)
Fixpoint setProp (k : jsstring) (v : value) (l : list (jsstring * value))
  : list (jsstring * value) :=
  match l with
  | [] => [(k, v)]
  | (k', v') :: t => if JS.eqb k k' then (k, v) :: t else (k', v') :: setProp k v t
  end.

Fixpoint getProp (k : jsstring) (l : list (jsstring * value)) : option value :=
  match l with
  | [] => None
  | (k', v) :: t => if JS.eqb k k' then Some v else getProp k t
  end.

(** Truthiness of a value; [None] is [undefined]. *)
Definition truthy (v : option value) : bool :=
  match v with
  | None | Some VNull => false
  | Some (VBool b) => b
  | Some (VNum n) => Num.truthy n
  | Some (VStr s) => JS.truthy s
  | Some (VArr _) | Some (VObj _) => true
  end.

Inductive pres (A : Type) : Type :=
| Ok (a : A) (rest : jsstring)
| SyntaxError
| OutOfFuel.
Arguments SyntaxError {A}.
Arguments OutOfFuel {A}.

Definition isWs (x : N) : bool :=
  (N.eqb x 32 || N.eqb x 9 || N.eqb x 10 || N.eqb x 13).

Fixpoint skipWs (s : jsstring) : jsstring :=
  match s with
  | x :: t => if isWs x then skipWs t else s
  | [] => []
  end.

Definition hexVal (x : N) : option N :=
  if isDigit x then Some (x - 48)%N
  else if ((97 <=? x) && (x <=? 102))%N then Some (x - 87)%N
  else if ((65 <=? x) && (x <=? 70))%N then Some (x - 55)%N
  else None.

(** The body of a string literal, after the opening quote. *)
Fixpoint pString (s : jsstring) (acc : jsstring) : pres jsstring :=
  match s with
  | [] => SyntaxError
  | x :: t =>
      if N.eqb x 34 then Ok (rev acc) t
      else if (x <? 32)%N then SyntaxError
      else if N.eqb x 92 then
        match t with
        | [] => SyntaxError
        | e :: t1 =>
            if N.eqb e 34 then pString t1 (34%N :: acc)
            else if N.eqb e 92 then pString t1 (92%N :: acc)
            else if N.eqb e 47 then pString t1 (47%N :: acc)
            else if N.eqb e 98 then pString t1 (8%N :: acc)
            else if N.eqb e 102 then pString t1 (12%N :: acc)
            else if N.eqb e 110 then pString t1 (10%N :: acc)
            else if N.eqb e 114 then pString t1 (13%N :: acc)
            else if N.eqb e 116 then pString t1 (9%N :: acc)
            else if N.eqb e 117 then
              match t1 with
              | h1 :: h2 :: h3 :: h4 :: t2 =>
                  match hexVal h1, hexVal h2, hexVal h3, hexVal h4 with
                  | Some a, Some b, Some c, Some d =>
                      pString t2 ((4096 * a + 256 * b + 16 * c + d)%N :: acc)
                  | _, _, _, _ => SyntaxError
                  end
              | _ => SyntaxError
              end
            else SyntaxError
        end
      else pString t (x :: acc)
  end.

(** A number literal: an optional minus sign, an integer part without
    leading zeros, an optional fraction with at least one digit, an
    optional exponent with at least one digit. *)
Definition pNumber (s : jsstring) : pres Num.number :=
  let (neg, t) := match s with
                  | x :: t => if N.eqb x 45 then (true, t) else (false, s)
                  | [] => (false, s)
                  end in
  let (ip, r1) := Num.takeDigits t in
  match ip with
  | [] => SyntaxError
  | d0 :: ip' =>
      if N.eqb d0 48 && negb (match ip' with [] => true | _ => false end)
      then (* a leading zero ends the integer part *)
        Ok (Num.Fin neg 0 0) (ip' ++ r1)
      else
        match r1 with
        | dot :: t1 =>
            if N.eqb dot 46 then
              let (fp, r2) := Num.takeDigits t1 in
              match fp with
              | [] => SyntaxError
              | _ =>
                  match r2 with
                  | e :: _ =>
                      if N.eqb e 101 || N.eqb e 69 then
                        let (ev, r3) := Num.takeExponent r2 in
                        if Nat.eqb (List.length r3) (List.length r2) then SyntaxError
                        else Ok (Num.ofDecimal neg (Num.digitsN (ip ++ fp) 0)
                                   (ev - Z.of_nat (List.length fp))%Z) r3
                      else Ok (Num.ofDecimal neg (Num.digitsN (ip ++ fp) 0)
                                 (- Z.of_nat (List.length fp))%Z) r2
                  | [] => Ok (Num.ofDecimal neg (Num.digitsN (ip ++ fp) 0)
                                (- Z.of_nat (List.length fp))%Z) r2
                  end
              end
            else if N.eqb dot 101 || N.eqb dot 69 then
              let (ev, r3) := Num.takeExponent r1 in
              if Nat.eqb (List.length r3) (List.length r1) then SyntaxError
              else Ok (Num.ofDecimal neg (Num.digitsN ip 0) ev) r3
            else Ok (Num.ofDecimal neg (Num.digitsN ip 0) 0) r1
        | [] => Ok (Num.ofDecimal neg (Num.digitsN ip 0) 0) r1
        end
  end.

Definition expect (lit : jsstring) (v : value) (s : jsstring) : pres value :=
  if startsWith s lit then Ok v (skipn (List.length lit) s) else SyntaxError.

(** Recursive descent.  [pValue] reads one value after optional white
    space; [pElems] reads the elements of an array after its first
    element position, [pMembers] the members of an object.  The fuel
    bounds the number of nested calls. *)
Fixpoint pValue (n : nat) (s : jsstring) {struct n} : pres value :=
  match n with
  | O => OutOfFuel
  | S n' =>
      match skipWs s with
      | [] => SyntaxError
      | x :: t =>
          if N.eqb x 123 then
            match skipWs t with
            | y :: t' => if N.eqb y 125 then Ok (VObj []) t' else pMembers n' (skipWs t) []
            | [] => SyntaxError
            end
          else if N.eqb x 91 then
            match skipWs t with
            | y :: t' => if N.eqb y 93 then Ok (VArr []) t' else pElems n' (skipWs t) []
            | [] => SyntaxError
            end
          else if N.eqb x 34 then
            match pString t [] with
            | Ok str r => Ok (VStr str) r
            | SyntaxError => SyntaxError
            | OutOfFuel => OutOfFuel
            end
          else if N.eqb x 116 then expect (u "true") (VBool true) (x :: t)
          else if N.eqb x 102 then expect (u "false") (VBool false) (x :: t)
          else if N.eqb x 110 then expect (u "null") VNull (x :: t)
          else
            match pNumber (x :: t) with
            | Ok num r => Ok (VNum num) r
            | SyntaxError => SyntaxError
            | OutOfFuel => OutOfFuel
            end
      end
  end

with pElems (n : nat) (s : jsstring) (acc : list value) {struct n} : pres value :=
  match n with
  | O => OutOfFuel
  | S n' =>
      match pValue n' s with
      | Ok v r =>
          match skipWs r with
          | y :: t =>
              if N.eqb y 44 then pElems n' t (v :: acc)
              else if N.eqb y 93 then Ok (VArr (rev (v :: acc))) t
              else SyntaxError
          | [] => SyntaxError
          end
      | SyntaxError => SyntaxError
      | OutOfFuel => OutOfFuel
      end
  end

with pMembers (n : nat) (s : jsstring) (acc : list (jsstring * value)) {struct n} : pres value :=
  match n with
  | O => OutOfFuel
  | S n' =>
      match skipWs s with
      | q :: t =>
          if N.eqb q 34 then
            match pString t [] with
            | Ok k r =>
                match skipWs r with
                | col :: r1 =>
                    if N.eqb col 58 then
                      match pValue n' r1 with
                      | Ok v r2 =>
                          match skipWs r2 with
                          | y :: t2 =>
                              if N.eqb y 44 then pMembers n' t2 (setProp k v acc)
                              else if N.eqb y 125 then Ok (VObj (setProp k v acc)) t2
                              else SyntaxError
                          | [] => SyntaxError
                          end
                      | SyntaxError => SyntaxError
                      | OutOfFuel => OutOfFuel
                      end
                    else SyntaxError
                | [] => SyntaxError
                end
            | SyntaxError => SyntaxError
            | OutOfFuel => OutOfFuel
            end
          else SyntaxError
      | [] => SyntaxError
      end
  end.

Definition fuelFor (s : jsstring) : nat := 2 * List.length s + 2.

(** [JSON.parse(s)]; [None] stands for the SyntaxError it throws. *)
Definition parse (s : jsstring) : option value :=
  match pValue (fuelFor s) s with
  | Ok v r => match skipWs r with [] => Some v | _ :: _ => None end
  | SyntaxError => None
  | OutOfFuel => None
  end.

End Json.

(* ------------------------------------------------------------------ *)
(** ** The host: what the runtime decides *)
(* ------------------------------------------------------------------ *)

(** Behaviour that differs between JavaScript hosts, or that is too large
    to spell out, is taken from the host: its time zone (as
    [getTimezoneOffset] gives it, minutes to add to local time), its
    clock, its parser for date strings that are not in the ISO format, and
    [String.prototype.toLowerCase]. *)
Class Host : Type := {
  tzOffset : Z;
  now : Z;
  legacyDateParse : jsstring -> option Z;
  toLowerCase : jsstring -> jsstring
}.

(* ------------------------------------------------------------------ *)
(** ** Dates *)
(* ------------------------------------------------------------------ *)

(** A [Date] holds a time value in milliseconds since the epoch, or is
    the Invalid Date ([None]). *)
Module JSDate.

Local Open Scope Z_scope.

Definition msPerDay : Z := 86400000.
Definition maxTime : Z := 8640000000000000.

Definition timeClip (t : Z) : option Z :=
  if (Z.abs t <=? maxTime) then Some t else None.

(** Days from the epoch to day [d] of month [m] (1 to 12) of year [y] in
    the proleptic Gregorian calendar, and back. *)
Definition daysFromCivil (y m d : Z) : Z :=
  let y := if m <=? 2 then y - 1 else y in
  let era := y / 400 in
  let yoe := y - era * 400 in
  let doy := (153 * (if 2 <? m then m - 3 else m + 9) + 2) / 5 + d - 1 in
  let doe := yoe * 365 + yoe / 4 - yoe / 100 + doy in
  era * 146097 + doe - 719468.

Definition civilFromDays (z : Z) : Z * Z * Z :=
  let z := z + 719468 in
  let era := z / 146097 in
  let doe := z - era * 146097 in
  let yoe := (doe - doe / 1460 + doe / 36524 - doe / 146096) / 365 in
  let doy := doe - (365 * yoe + yoe / 4 - yoe / 100) in
  let mp := (5 * doy + 2) / 153 in
  let d := doy - (153 * mp + 2) / 5 + 1 in
  let m := if mp <? 10 then mp + 3 else mp - 9 in
  ((if m <=? 2 then yoe + era * 400 + 1 else yoe + era * 400), m, d).

(** [MakeDay]: the month is 0-based and may be any integer. *)
Definition makeDay (year month date : Z) : Z :=
  daysFromCivil (year + month / 12) (month mod 12 + 1) 1 + date - 1.

Definition makeTime (h mi s ms : Z) : Z :=
  h * 3600000 + mi * 60000 + s * 1000 + ms.

(** [new Date(year, month, date, h, mi, s, ms)]: local time of the host;
    a year from 0 to 99 means 1900 + year. *)
Definition fromFields `{Host} (year month date h mi s ms : Z) : option Z :=
  let year := if (0 <=? year) && (year <=? 99) then 1900 + year else year in
  timeClip (makeDay year month date * msPerDay + makeTime h mi s ms + tzOffset * 60000).

Fixpoint digitsOf (n : nat) (x : Z) (acc : jsstring) : jsstring :=
  match n with
  | O => acc
  | S n' => digitsOf n' (x / 10) (Z.to_N (48 + x mod 10) :: acc)
  end.

Definition pad (n : nat) (x : Z) : jsstring := digitsOf n x [].

(** [d.toISOString()] of a valid date. *)
Definition toISOString (t : Z) : jsstring :=
  let day := t / msPerDay in
  let r := t mod msPerDay in
  let '(y, m, d) := civilFromDays day in
  (if (0 <=? y) && (y <=? 9999) then pad 4 y
   else (if y <? 0 then 45%N else 43%N) :: pad 6 (Z.abs y))
  ++ [45%N] ++ pad 2 m ++ [45%N] ++ pad 2 d ++ [84%N]
  ++ pad 2 (r / 3600000) ++ [58%N] ++ pad 2 (r / 60000 mod 60) ++ [58%N]
  ++ pad 2 (r / 1000 mod 60) ++ [46%N] ++ pad 3 (r mod 1000) ++ [90%N].

(** [n] decimal digits at the head of [s]. *)
Fixpoint takeNum (n : nat) (s : jsstring) (acc : Z) : option (Z * jsstring) :=
  match n with
  | O => Some (acc, s)
  | S n' =>
      match s with
      | x :: t => if isDigit x then takeNum n' t (10 * acc + Z.of_N (x - 48)) else None
      | [] => None
      end
  end.

Definition daysInMonth (y m : Z) : Z :=
  daysFromCivil (if m =? 12 then y + 1 else y) (if m =? 12 then 1 else m + 1) 1
  - daysFromCivil y m 1.

(** The date part [YYYY], [YYYY-MM] or [YYYY-MM-DD], with a four-digit
    year or a signed six-digit one. *)
Definition isoDatePart (s : jsstring) : option (Z * Z * Z * jsstring) :=
  let year :=
    match s with
    | sg :: t =>
        if N.eqb sg 43 then takeNum 6 t 0
        else if N.eqb sg 45 then
          match takeNum 6 t 0 with
          | Some (y, r) => if y =? 0 then None else Some (- y, r)
          | None => None
          end
        else takeNum 4 s 0
    | [] => None
    end in
  match year with
  | None => None
  | Some (y, r) =>
      match r with
      | dash :: r1 =>
          if N.eqb dash 45 then
            match takeNum 2 r1 0 with
            | Some (m, r2) =>
                if (1 <=? m) && (m <=? 12) then
                  match r2 with
                  | dash2 :: r3 =>
                      if N.eqb dash2 45 then
                        match takeNum 2 r3 0 with
                        | Some (d, r4) =>
                            if (1 <=? d) && (d <=? daysInMonth y m)
                            then Some (y, m, d, r4) else None
                        | None => None
                        end
                      else Some (y, m, 1, r2)
                  | [] => Some (y, m, 1, r2)
                  end
                else None
            | None => None
            end
          else Some (y, 1, 1, r)
      | [] => Some (y, 1, 1, r)
      end
  end.

(** The time part after [T]: [HH:mm], [HH:mm:ss] or [HH:mm:ss.sss]. *)
Definition isoTimePart (s : jsstring) : option (Z * jsstring) :=
  match takeNum 2 s 0 with
  | Some (h, c1 :: r1) =>
      if N.eqb c1 58 then
        match takeNum 2 r1 0 with
        | Some (mi, r2) =>
            let '(sec, ms, r3) :=
              match r2 with
              | c2 :: r21 =>
                  if N.eqb c2 58 then
                    match takeNum 2 r21 0 with
                    | Some (sec, r22) =>
                        match r22 with
                        | dot :: r23 =>
                            if N.eqb dot 46 then
                              match takeNum 3 r23 0 with
                              | Some (ms, r24) => (sec, ms, r24)
                              | None => (sec, 0, r22)
                              end
                            else (sec, 0, r22)
                        | [] => (sec, 0, r22)
                        end
                    | None => (0, 0, r2)
                    end
                  else (0, 0, r2)
              | [] => (0, 0, r2)
              end in
            if (h <=? 23) && (mi <=? 59) && (sec <=? 59)
               || (h =? 24) && (mi =? 0) && (sec =? 0) && (ms =? 0)
            then Some (makeTime h mi sec ms, r3) else None
        | None => None
        end
      else None
  | _ => None
  end.

(** The offset: [Z], or a sign and [HH:mm]; [None] when the text has
    another shape, [Some None] when there is no offset. *)
Definition isoOffset (s : jsstring) : option (option Z) :=
  match s with
  | [] => Some None
  | z :: t =>
      if N.eqb z 90 then match t with [] => Some (Some 0) | _ => None end
      else if N.eqb z 43 || N.eqb z 45 then
        match takeNum 2 t 0 with
        | Some (h, c1 :: r1) =>
            if N.eqb c1 58 then
              match takeNum 2 r1 0 with
              | Some (mi, []) =>
                  if (h <=? 23) && (mi <=? 59) then
                    Some (Some ((if N.eqb z 45 then 1 else -1) * (h * 60 + mi)))
                  else None
              | _ => None
              end
            else None
        | _ => None
        end
      else None
  end.

(** A string in the ISO date-time format.  Date-only forms are UTC; a
    date-time without offset is local time of the host. *)
Definition parseISO `{Host} (s : jsstring) : option Z :=
  match isoDatePart s with
  | None => None
  | Some (y, m, d, r) =>
      let day := daysFromCivil y m d * msPerDay in
      match r with
      | [] => timeClip day
      | tch :: r1 =>
          if N.eqb tch 84 then
            match isoTimePart r1 with
            | Some (tm, r2) =>
                match isoOffset r2 with
                | Some (Some off) => timeClip (day + tm + off * 60000)
                | Some None => timeClip (day + tm + tzOffset * 60000)
                | None => None
                end
            | None => None
            end
          else None
      end
  end.

(** [new Date(s)] for a string: the ISO format first, the host's own
    formats otherwise. *)
Definition ofString `{Host} (s : jsstring) : option Z :=
  match parseISO s with
  | Some t => Some t
  | None => match legacyDateParse s with
            | Some t => timeClip t
            | None => None
            end
  end.

End JSDate.

(* ------------------------------------------------------------------ *)
(** ** utils/jsonParser.ts *)
(* ------------------------------------------------------------------ *)

(** In the comments that quote a regular expression of the source, [~]
    stands for the double quote, as in the argument of [u], and a blank
    separates a star from a closing parenthesis that follows it. *)
Module RobustJSONParser.

Import Regex.

Record JSONParseResult : Type := mkResult {
  success : bool;
  data : option Json.value;
  error : option jsstring;
  originalLength : nat;
  cleanedLength : nat
}.

Definition q : N := 34%N.     (* the double quote *)
Definition bs : N := 92%N.    (* the backslash *)
Definition tick : N := 96%N.  (* the backquote *)

(** [/^```json\s*/i] and [/\s*```$/i] *)
Definition reFenceOpen : re :=
  seqs [Bol; c tick; c tick; c tick; stri (u "json"); sps].
Definition reFenceClose : re :=
  seqs [sps; c tick; c tick; c tick; Eol].

(** [/[\x00-\x08\x0B\x0C\x0E-\x1F\x7F]/g] and
    [/[\u0000-\u001F\u007F-\u009F]/g] *)
Definition reControl1 : re :=
  Chr (fun x => range 0 8 x || N.eqb x 11 || N.eqb x 12 || range 14 31 x || N.eqb x 127).
Definition reControl2 : re :=
  Chr (fun x => range 0 31 x || range 127 159 x).

(** [/\s+/g] *)
Definition reSpaces : re := Plus sp.

(** [/\\\\~/g] (two backslashes and a quote) and [/\\~/g] *)
Definition reEsc2 : re := seqs [c bs; c bs; c q].
Definition reEsc1 : re := seqs [c bs; c q].

Definition notQ : re := Star (Chr (nots [q])).

(** [/~([^~]* )\\\~,\s*\\\\~([^~]* )~([^~]* ):/g] *)
Definition rePropA : re :=
  seqs [c q; Group 1 notQ; c bs; c q; c 44; sps; c bs; c bs; c q;
        Group 2 notQ; c q; Group 3 notQ; c 58].
Definition tmplPropA : list piece :=
  [Lit [q]; Ref 1; Lit (u "~, ~"); Ref 2; Ref 3; Lit (u "~:")].

(** [/~([^~]* )\\\~:\s*([^,}]+),\s*\\\\~([^~]* )~([^~]* ):/g] *)
Definition rePropB : re :=
  seqs [c q; Group 1 notQ; c bs; c q; c 58; sps;
        Group 2 (Plus (Chr (nots [44; 125]%N))); c 44; sps; c bs; c bs; c q;
        Group 3 notQ; c q; Group 4 notQ; c 58].
Definition tmplPropB : list piece :=
  [Lit [q]; Ref 1; Lit (u "~: "); Ref 2; Lit (u ", ~"); Ref 3; Ref 4; Lit (u "~:")].

(** [/~([^~]* )\\\~\s*}/g] *)
Definition rePropC : re :=
  seqs [c q; Group 1 notQ; c bs; c q; sps; c 125].
Definition tmplPropC : list piece := [Lit [q]; Ref 1; Lit (u "~ }")].

(** [/\{[^}]*$/], [/,\s*$/], [/,\s*\]/], [/,\s*\}/] *)
Definition reOpenObjectAtEnd : re := seqs [c 123; Star (Chr (nots [125]%N)); Eol].
Definition reCommaAtEnd : re := seqs [c 44; sps; Eol].
Definition reCommaBracket : re := seqs [c 44; sps; c 93].
Definition reCommaBrace : re := seqs [c 44; sps; c 125].

(** [/([{,]\s* )([a-zA-Z_$][a-zA-Z0-9_$]* )\s*:/g] *)
Definition identStart (x : N) : bool :=
  isLower x || isUpper x || N.eqb x 95 || N.eqb x 36.
Definition identPart (x : N) : bool := identStart x || isDigit x.
Definition reBareKey : re :=
  seqs [Group 1 (Seq (Chr (oneof [123; 44]%N)) sps);
        Group 2 (Seq (Chr identStart) (Star (Chr identPart))); sps; c 58].
Definition tmplBareKey : list piece := [Ref 1; Lit [q]; Ref 2; Lit (u "~:")].

(** [/'/g] and [/~~/g] *)
Definition reApostrophe : re := c 39.
Definition reTwoQuotes : re := seqs [c q; c q].

(** [/,(\s*[}\]])/g] and [/,(\s*$)/g] *)
Definition reTrailing1 : re := seqs [c 44; Group 1 (Seq sps (Chr (oneof [125; 93]%N)))].
Definition reTrailing2 : re := seqs [c 44; Group 1 (Seq sps Eol)].

(** [/\[[\s\S]*\]/] and [/\{[\s\S]*\}/] *)
Definition reArraySpan : re := seqs [c 91; Star (Chr any); c 93].
Definition reObjectSpan : re := seqs [c 123; Star (Chr any); c 125].

(** [/,\s*\{[^}]*$/] and [/,\s*~[^~]*~:\s*[^,}]*$/] *)
Definition reDanglingObject : re :=
  seqs [c 44; sps; c 123; Star (Chr (nots [125]%N)); Eol].
Definition reDanglingProperty : re :=
  seqs [c 44; sps; c q; notQ; c q; c 58; sps; Star (Chr (nots [44; 125]%N)); Eol].

(** Fix specific Gemini API JSON issues *)
Definition fixGeminiAPIIssues (jsonString : jsstring) : jsstring :=
  let fixed := jsonString in
  (* Fix double-escaped quotes *)
  let fixed := replaceG reEsc1 [Lit [q]] (replaceG reEsc2 [Lit [q]] fixed) in
  (* Fix malformed property patterns *)
  let fixed := replaceG rePropC tmplPropC
                 (replaceG rePropB tmplPropB
                    (replaceG rePropA tmplPropA fixed)) in
  (* Fix incomplete objects *)
  let fixed := replace1 reCommaBracket [Lit [93%N]]
                 (replace1 reCommaAtEnd []
                    (replace1 reOpenObjectAtEnd [] fixed)) in
  fixed.

(** Clean and repair common JSON issues *)
Definition cleanAndRepair (jsonString : jsstring) : jsstring :=
  let cleaned := trim jsonString in
  (* Remove markdown code blocks *)
  let cleaned := trim (replace1 reFenceClose [] (replace1 reFenceOpen [] cleaned)) in
  (* Remove control characters *)
  let cleaned := trim (replaceG reSpaces [Lit [32%N]]
                         (replaceG reControl2 []
                            (replaceG reControl1 [] cleaned))) in
  (* Fix common Gemini API issues *)
  let cleaned := fixGeminiAPIIssues cleaned in
  (* Fix unquoted property names *)
  let cleaned := replaceG reBareKey tmplBareKey cleaned in
  (* Fix single quotes to double quotes *)
  let cleaned := replaceG reTwoQuotes [Lit [q]] (replaceG reApostrophe [Lit [q]] cleaned) in
  (* Fix trailing commas *)
  let cleaned := replaceG reTrailing2 [] (replaceG reTrailing1 [Ref 1] cleaned) in
  cleaned.

(** Fix array structure issues *)
Definition fixArrayStructure (arrayString : jsstring) : jsstring :=
  let fixed := arrayString in
  let fixed := replace1 reDanglingObject [] fixed in
  let fixed := replace1 reCommaBracket [Lit [93%N]] fixed in
  let fixed := if negb (startsWith fixed [91%N]) then 91%N :: fixed else fixed in
  let fixed := if negb (endsWith fixed [93%N]) then fixed ++ [93%N] else fixed in
  fixed.

(** Fix object structure issues *)
Definition fixObjectStructure (objectString : jsstring) : jsstring :=
  let fixed := objectString in
  let fixed := replace1 reDanglingProperty [] fixed in
  let fixed := replace1 reCommaBrace [Lit [125%N]] fixed in
  let fixed := if negb (startsWith fixed [123%N]) then 123%N :: fixed else fixed in
  let fixed := if negb (endsWith fixed [125%N]) then fixed ++ [125%N] else fixed in
  fixed.

(** One candidate span: it is returned when it parses, or when its
    fixed form parses. *)
Definition trySpan (fix_ : jsstring -> jsstring) (extracted : jsstring) : option jsstring :=
  match Json.parse extracted with
  | Some _ => Some extracted
  | None =>
      let fixed := fix_ extracted in
      match Json.parse fixed with
      | Some _ => Some fixed
      | None => None
      end
  end.

(** Extract valid JSON array or object from malformed string *)
Definition extractValidJSON (jsonString : jsstring) : option jsstring :=
  let fromObject :=
    match exec reObjectSpan jsonString 0 with
    | Some m => trySpan fixObjectStructure (whole jsonString m)
    | None => None
    end in
  match exec reArraySpan jsonString 0 with
  | Some m =>
      match trySpan fixArrayStructure (whole jsonString m) with
      | Some e => Some e
      | None => fromObject
      end
  | None => fromObject
  end.

(** Reconstruct JSON from fragments: not implemented in the source. *)
Definition reconstructFromFragments (jsonString : jsstring) : option jsstring := None.

Definition failure (originalLength cleanedLength : nat) : JSONParseResult :=
  mkResult false None (Some (u "All parsing strategies failed")) originalLength cleanedLength.

(** One strategy of [parse]: a candidate text that either parses, giving
    the result, or does not, giving control to [next]. *)
Definition attempt (originalLength : nat) (candidate : option jsstring)
           (next : JSONParseResult) : JSONParseResult :=
  match candidate with
  | Some text =>
      if JS.truthy text then
        match Json.parse text with
        | Some d => mkResult true (Some d) None originalLength (List.length text)
        | None => next
        end
      else next
  | None => next
  end.

(** Parse JSON with multiple fallback strategies.  Each [try]/[catch]
    around [JSON.parse] is the match on its result. *)
Definition parse (jsonString : jsstring) : JSONParseResult :=
  let originalLength := List.length jsonString in
  (* Strategy 1: Try parsing as-is *)
  match Json.parse jsonString with
  | Some d => mkResult true (Some d) None originalLength (List.length jsonString)
  | None =>
      (* Strategy 2: Clean and repair *)
      let cleaned := cleanAndRepair jsonString in
      match Json.parse cleaned with
      | Some d => mkResult true (Some d) None originalLength (List.length cleaned)
      | None =>
          (* Strategy 3: Extract valid JSON array/object *)
          attempt originalLength (extractValidJSON cleaned)
            (* Strategy 4: Reconstruct from fragments *)
            (attempt originalLength (reconstructFromFragments cleaned)
               (failure originalLength (List.length cleaned)))
      end
  end.

(** [result.error || 'Unknown error'] *)
Definition errorOf (result : JSONParseResult) : jsstring :=
  match error result with
  | Some e => if JS.truthy e then e else u "Unknown error"
  | None => u "Unknown error"
  end.

(** Parse with retry mechanism: the same text is parsed again on each
    attempt.  The loop ends with the result of an attempt that succeeded,
    or with the last error. *)
Fixpoint parseWithRetry_loop (attempts : nat) (jsonString lastError : jsstring)
  : JSONParseResult + jsstring :=
  match attempts with
  | O => inr lastError
  | S n =>
      let result := parse jsonString in
      if success result then inl result
      else parseWithRetry_loop n jsonString (errorOf result)
  end.

Definition parseWithRetry (jsonString : jsstring) (maxRetries : nat) : JSONParseResult :=
  match parseWithRetry_loop maxRetries jsonString [] with
  | inl r => r
  | inr lastError =>
      mkResult false None
               (Some (u "All " ++ natToString maxRetries
                      ++ u " attempts failed. Last error: " ++ lastError))
               (List.length jsonString) 0
  end.

(** [parseJSONWithRetry]: the data, or [null]. *)
Definition parseJSONWithRetry (jsonString : jsstring) (maxRetries : nat) : Json.value :=
  let result := parseWithRetry jsonString maxRetries in
  if success result then
    match data result with Some d => d | None => Json.VNull end
  else Json.VNull.

End RobustJSONParser.

(* ------------------------------------------------------------------ *)
(** ** Exceptions and value conversions *)
(* ------------------------------------------------------------------ *)

(** The outcome of code that may throw. *)
Inductive Result (A : Type) : Type :=
| Return (a : A)
| Throw.
Arguments Throw {A}.

Definition bindR {A B : Type} (r : Result A) (f : A -> Result B) : Result B :=
  match r with
  | Return a => f a
  | Throw => Throw
  end.

Module Conv.

Import Json.

Fixpoint stripZeros (fuel : nat) (m : N) (e : Z) : N * Z :=
  match fuel with
  | O => (m, e)
  | S f => if N.eqb (m mod 10) 0 && negb (N.eqb m 0)
           then stripZeros f (m / 10)%N (e + 1)%Z else (m, e)
  end.

Fixpoint nDigits (fuel : nat) (m : N) (acc : jsstring) : jsstring :=
  match fuel with
  | O => acc
  | S f =>
      let acc' := (48 + m mod 10)%N :: acc in
      if N.eqb (m / 10) 0 then acc' else nDigits f (m / 10)%N acc'
  end.

Definition digitsOfN (m : N) : jsstring := nDigits (S (N.to_nat (N.log2 m))) m [].

(** [Number.prototype.toString] on the digits that the model carries.
    They are the digits JavaScript prints whenever the literal has at
    most 15 significant digits and is not subnormal; beyond that
    JavaScript prints the digits of the nearest double, which this text
    does not follow. *)
Definition numToString (x : Num.number) : jsstring :=
  match x with
  | Num.NaN => u "NaN"
  | Num.Inf neg => if neg then u "-Infinity" else u "Infinity"
  | Num.Fin neg m e =>
      if N.eqb m 0 then u "0"
      else
        let (m', e') := stripZeros (S (N.to_nat (N.log2 m))) m e in
        let ds := digitsOfN m' in
        let k := Z.of_nat (List.length ds) in
        let n := (k + e')%Z in
        let sign := if neg then [45%N] else [] in
        sign ++
        (if ((k <=? n) && (n <=? 21))%Z then ds ++ repeat 48%N (Z.to_nat (n - k))
         else if ((0 <? n) && (n <=? 21))%Z then
           firstn (Z.to_nat n) ds ++ [46%N] ++ skipn (Z.to_nat n) ds
         else if ((-6 <? n) && (n <=? 0))%Z then
           u "0." ++ repeat 48%N (Z.to_nat (- n)) ++ ds
         else
           let ex := (n - 1)%Z in
           let etxt := [101%N] ++ (if (ex <? 0)%Z then [45%N] else [43%N])
                       ++ digitsOfN (Z.to_N (Z.abs ex)) in
           match ds with
           | [d] => [d] ++ etxt
           | d :: t => [d] ++ [46%N] ++ t ++ etxt
           | [] => etxt
           end)
  end.

Fixpoint join (sep : jsstring) (l : list jsstring) : jsstring :=
  match l with
  | [] => []
  | [a] => a
  | a :: t => a ++ sep ++ join sep t
  end.

(** The name of the method that the conversions to a string look up. *)
Definition kToString : jsstring := u "toString".

(** [ToString(v)] of a value that [JSON.parse] built, with the standard
    prototypes.  An array gives its elements joined by commas ([null]
    elements give the empty string).  An object without a property
    [toString] of its own gives [[object Object]]; with one, which is never
    a function, neither that property nor the inherited [valueOf] yields a
    primitive, and the conversion throws a TypeError.  The elements of an
    array are converted from left to right. *)
Fixpoint toStr (v : value) : Result jsstring :=
  match v with
  | VNull => Return (u "null")
  | VBool b => Return (if b then u "true" else u "false")
  | VNum n => Return (numToString n)
  | VStr s => Return s
  | VArr l =>
      bindR ((fix elements (l : list value) : Result (list jsstring) :=
                match l with
                | [] => Return []
                | e :: t =>
                    bindR (match e with VNull => Return [] | _ => toStr e end) (fun s =>
                    bindR (elements t) (fun ss => Return (s :: ss)))
                end) l)
            (fun parts => Return (join [44%N] parts))
  | VObj l =>
      match getProp kToString l with
      | Some _ => Throw
      | None => Return (u "[object Object]")
      end
  end.

(** [v.toString()] on a property that may be absent: a TypeError on
    [undefined] and [null], and on an object whose own [toString] is not
    a function; otherwise the method of the prototype, which gives what
    [ToString] gives. *)
Definition callToString (v : option value) : Result jsstring :=
  match v with
  | None | Some VNull => Throw
  | Some x => toStr x
  end.

(** [parseFloat(v)] on any value; [None] is [undefined]. *)
Definition parseFloatOf (v : option value) : Result Num.number :=
  match v with
  | None => Return Num.NaN
  | Some x => bindR (toStr x) (fun s => Return (Num.parseFloat s))
  end.

(** The integral part of a finite number, towards zero. *)
Definition truncate (neg : bool) (m : N) (e : Z) : Z :=
  let a := if (0 <=? e)%Z then (Z.of_N m * 10 ^ e)%Z
           else if (Z.log2 (Z.of_N m) + 1 + 3 * e <? 0)%Z then 0%Z
           else (Z.of_N m / 10 ^ (- e))%Z in
  if neg then (- a)%Z else a.

(** [new Date(v)]: a string is parsed, any other primitive is taken as
    a number of milliseconds, an array or object goes through its
    string, which may throw. *)
Definition dateOf `{Host} (v : option value) : Result (option Z) :=
  match v with
  | None => Return None
  | Some VNull => Return (Some 0%Z)
  | Some (VBool b) => Return (Some (if b then 1 else 0)%Z)
  | Some (VNum (Num.Fin neg m e)) =>
      Return (if (400 <? e)%Z then None else JSDate.timeClip (truncate neg m e))
  | Some (VNum _) => Return None
  | Some (VStr s) => Return (JSDate.ofString s)
  | Some (VArr l) => bindR (toStr (VArr l)) (fun s => Return (JSDate.ofString s))
  | Some (VObj l) => bindR (toStr (VObj l)) (fun s => Return (JSDate.ofString s))
  end.

(** [a || b] on a property and a default. *)
Definition orElse (v : option value) (d : value) : value :=
  match v with
  | Some x => if truthy (Some x) then x else d
  | None => d
  end.

(** [{...v}]: the own enumerable properties of a value. *)
Definition indexed (l : list value) : list (jsstring * value) :=
  List.map (fun p => (natToString (fst p), snd p)) (combine (seq 0 (List.length l)) l).

Definition spread (v : value) : list (jsstring * value) :=
  match v with
  | VObj l => l
  | VArr l => indexed l
  | VStr s => indexed (List.map (fun x => VStr [x]) s)
  | VNull | VBool _ | VNum _ => []
  end.

(** [v.k] for a key that no standard prototype defines: a TypeError on
    [null], [undefined] on anything that is not an object. *)
Definition member (k : jsstring) (v : value) : Result (option value) :=
  match v with
  | VNull => Throw
  | VObj l => Return (getProp k l)
  | _ => Return None
  end.

End Conv.

(* ------------------------------------------------------------------ *)
(** ** atob *)
(* ------------------------------------------------------------------ *)

Module Base64.

Definition isAsciiWs (x : N) : bool :=
  N.eqb x 9 || N.eqb x 10 || N.eqb x 12 || N.eqb x 13 || N.eqb x 32.

Definition sextet (x : N) : option N :=
  if isUpper x then Some (x - 65)%N
  else if isLower x then Some (x - 71)%N
  else if isDigit x then Some (x + 4)%N
  else if N.eqb x 43 then Some 62%N
  else if N.eqb x 47 then Some 63%N
  else None.

Fixpoint sextets (s : jsstring) : option (list N) :=
  match s with
  | [] => Some []
  | x :: t =>
      match sextet x, sextets t with
      | Some v, Some l => Some (v :: l)
      | _, _ => None
      end
  end.

Fixpoint decode (l : list N) : jsstring :=
  match l with
  | a :: b :: c :: d :: t =>
      let w := (262144 * a + 4096 * b + 64 * c + d)%N in
      (w / 65536)%N :: (w / 256 mod 256)%N :: (w mod 256)%N :: decode t
  | [a; b; c] =>
      let w := (4096 * a + 64 * b + c)%N in
      [(w / 1024)%N; (w / 4 mod 256)%N]
  | [a; b] => [((64 * a + b) / 16)%N]
  | _ => []
  end.

Definition stripPadding (s : jsstring) : jsstring :=
  if Nat.eqb (List.length s mod 4) 0 then
    match rev s with
    | a :: b :: t => if N.eqb a 61 then (if N.eqb b 61 then rev t else rev (b :: t)) else s
    | _ => s
    end
  else s.

(** [atob(s)]: the forgiving base64 decoding; [Throw] is the
    InvalidCharacterError. *)
Definition atob (s : jsstring) : Result jsstring :=
  let s := stripPadding (filter (fun x => negb (isAsciiWs x)) s) in
  if Nat.eqb (List.length s mod 4) 1 then Throw
  else match sextets s with
       | Some l => Return (decode l)
       | None => Throw
       end.

(** [btoa(s)] for code units below 256; it only serves to write the
    bodies of example messages. *)
Definition symbol (v : N) : N :=
  if (v <? 26)%N then (v + 65)%N
  else if (v <? 52)%N then (v + 71)%N
  else if (v <? 62)%N then (v - 4)%N
  else if N.eqb v 62 then 43%N else 47%N.

Fixpoint btoa (s : jsstring) : jsstring :=
  match s with
  | a :: b :: c :: t =>
      let w := (65536 * a + 256 * b + c)%N in
      symbol (w / 262144) :: symbol (w / 4096 mod 64) :: symbol (w / 64 mod 64)
      :: symbol (w mod 64) :: btoa t
  | [a; b] =>
      let w := (1024 * a + 4 * b)%N in
      [symbol (w / 4096); symbol (w / 64 mod 64); symbol (w mod 64); 61%N]
  | [a] => [symbol (a / 4); symbol (a * 16 mod 64); 61%N; 61%N]
  | [] => []
  end.

End Base64.

(* ------------------------------------------------------------------ *)
(** ** utils/aiCategorization.ts *)
(* ------------------------------------------------------------------ *)

(** interface ParsedExpense (gmailIntegration.ts) *)
Record ParsedExpense : Type := mkExpense {
  amount : Num.number;
  merchant : jsstring;
  date : jsstring;
  category : option jsstring;
  location : option jsstring;
  currency : option jsstring
}.

(** A JavaScript object: its own properties, in order. *)
Definition object : Type := list (jsstring * Json.value).

Definition kAmount : jsstring := u "amount".
Definition kMerchant : jsstring := u "merchant".
Definition kDate : jsstring := u "date".
Definition kCategory : jsstring := u "category".
Definition kLocation : jsstring := u "location".
Definition kCurrency : jsstring := u "currency".

Definition optProp (k : jsstring) (v : option jsstring) : object :=
  match v with
  | Some s => [(k, Json.VStr s)]
  | None => []
  end.

(** The object a [ParsedExpense] is at run time. *)
Definition toObject (e : ParsedExpense) : object :=
  [(kAmount, Json.VNum (amount e)); (kMerchant, Json.VStr (merchant e));
   (kDate, Json.VStr (date e))]
  ++ optProp kCategory (category e)
  ++ optProp kLocation (location e)
  ++ optProp kCurrency (currency e).

(** [{...o, category: c}] *)
Definition withCategory (o : object) (c : jsstring) : object :=
  Json.setProp kCategory (Json.VStr c) o.

Module AICategorization.

Import Regex.

Definition EXPENSE_CATEGORIES : list jsstring :=
  [u "Groceries"; u "Transportation"; u "Food & Dining"; u "Shopping";
   u "Utilities"; u "Healthcare"; u "Entertainment"; u "Education";
   u "Insurance"; u "Travel"; u "Home & Garden"; u "Personal Care";
   u "Business"; u "Gifts & Donations"; u "Other"].

Definition Unknown : jsstring := u "Unknown".

(** [EXPENSE_CATEGORIES.includes(v)]: only a string can be equal to one
    of the labels. *)
Definition isCategory (s : jsstring) : bool :=
  existsb (JS.eqb s) EXPENSE_CATEGORIES.

Definition includesValue (v : Json.value) : bool :=
  match v with
  | Json.VStr s => isCategory s
  | _ => false
  end.

Definition q : N := 34%N.

(** [/~category~:\s*~([^~]+)~/] with and without the [g] flag, and
    [/~([^~]+)~/g], [/~/g], [/^\d+$/], [/^\d+\.\d+$/] *)
Definition reCategory : re :=
  seqs [str (u "~category~:"); sps; c q; Group 1 (Plus (Chr (nots [q]))); c q].
Definition reQuoted : re :=
  seqs [c q; Group 1 (Plus (Chr (nots [q]))); c q].
Definition reQuote : re := c q.
Definition reInteger : re := seqs [Bol; Plus (Chr isDigit); Eol].
Definition reDecimal : re := seqs [Bol; Plus (Chr isDigit); c 46; Plus (Chr isDigit); Eol].

(** [categories[index] || 'Unknown'] *)
Definition categoryAt (categories : list jsstring) (index : nat) : jsstring :=
  match nth_error categories index with
  | Some s => if JS.truthy s then s else Unknown
  | None => Unknown
  end.

(** [originalExpenses.map((expense, index) => ({...expense, category: categories[index] || 'Unknown'}))] *)
Definition assign (categories : list jsstring) (originalExpenses : list ParsedExpense) : list object :=
  List.map (fun p => withCategory (toObject (snd p)) (categoryAt categories (fst p)))
           (combine (seq 0 (List.length originalExpenses)) originalExpenses).

Definition plausible (s : jsstring) : bool :=
  (2 <? List.length s) && (List.length s <? 50)
  && negb (includes s [123%N]) && negb (includes s [125%N])
  && negb (includes s [91%N]) && negb (includes s [93%N])
  && negb (includes s [58%N]) && negb (includes s [44%N])
  && negb (test reInteger s) && negb (test reDecimal s).

(** Extract categories using regex patterns as a fallback.  None of the
    calls inside the [try] block can throw. *)
Definition extractCategoriesWithRegex (response : jsstring)
           (originalExpenses : list ParsedExpense) : list object :=
  let categoryMatches := matchG reCategory response in
  match categoryMatches with
  | _ :: _ =>
      let categories :=
        List.map (fun m => match exec reCategory m 0 with
                           | Some r => match group m r 1 with
                                       | Some g => g
                                       | None => Unknown
                                       end
                           | None => Unknown
                           end) categoryMatches in
      assign categories originalExpenses
  | [] =>
      let allQuotedStrings := matchG reQuoted response in
      let potentialCategories :=
        filter plausible (List.map (replaceG reQuote []) allQuotedStrings) in
      let validCategories := filter isCategory potentialCategories in
      match validCategories with
      | _ :: _ => assign validCategories originalExpenses
      | [] => []
      end
  end.

(** The callback of [parsed.map] in [parseBatchResponse]. *)
Definition categorizeParsed (expense : Json.value) : Result object :=
  bindR (Conv.member kCategory expense) (fun c =>
    let category := Conv.orElse c (Json.VStr Unknown) in
    if negb (includesValue category)
    then Return (Json.setProp kCategory (Json.VStr Unknown) (Conv.spread expense))
    else Return (Json.setProp kCategory category (Conv.spread expense))).

Fixpoint mapR {A B : Type} (f : A -> Result B) (l : list A) : Result (list B) :=
  match l with
  | [] => Return []
  | a :: t => bindR (f a) (fun b => bindR (mapR f t) (fun bs => Return (b :: bs)))
  end.

(** Parse batch categorization response *)
Definition parseBatchResponse (response : jsstring)
           (originalExpenses : list ParsedExpense) : Result (list object) :=
  let parsed := RobustJSONParser.parseJSONWithRetry response 3 in
  if negb (Json.truthy (Some parsed)) then
    Return (extractCategoriesWithRegex response originalExpenses)
  else
    match parsed with
    | Json.VArr l => mapR categorizeParsed l
    | _ => Return (extractCategoriesWithRegex response originalExpenses)
    end.

(** The text-generation service as [callGeminiAPI] presents it: the
    [n]-th call, made for a chunk of expenses, returns a text or throws
    ([None]). *)
Definition Gemini : Type := nat -> list ParsedExpense -> option jsstring.

(** The calls made so far, oldest first. *)
Definition CallLog : Type := list (list ParsedExpense).

Definition callGeminiAPI (api : Gemini) (log : CallLog) (chunk : list ParsedExpense)
  : Result jsstring * CallLog :=
  (match api (List.length log) chunk with
   | Some text => Return text
   | None => Throw
   end, log ++ [chunk]).

Definition maxBatchSize : nat := 10.

(** One round: prompt, call, parse. *)
Definition categorizeChunk (api : Gemini) (log : CallLog) (chunk : list ParsedExpense)
  : Result (list object) * CallLog :=
  let (response, log') := callGeminiAPI api log chunk in
  (bindR response (fun text => parseBatchResponse text chunk), log').

(** The [for] loop over [i = 0, maxBatchSize, 2 * maxBatchSize, ...]. *)
Fixpoint chunkLoop (fuel : nat) (api : Gemini) (log : CallLog)
         (expenses : list ParsedExpense) (i : nat) (results : list object)
  : Result (list object) * CallLog :=
  if i <? List.length expenses then
    match fuel with
    | O => (Return results, log)
    | S fuel' =>
        let chunk := firstn maxBatchSize (skipn i expenses) in
        match categorizeChunk api log chunk with
        | (Return chunkResult, log') =>
            chunkLoop fuel' api log' expenses (i + maxBatchSize) (results ++ chunkResult)
        | (Throw, log') => (Throw, log')
        end
    end
  else (Return results, log).

(** The body of the [try] block of [batchCategorizeExpenses]. *)
Definition batchBody (api : Gemini) (log : CallLog) (expenses : list ParsedExpense)
  : Result (list object) * CallLog :=
  if maxBatchSize <? List.length expenses
  then chunkLoop (List.length expenses) api log expenses 0 []
  else categorizeChunk api log expenses.

(** Categorize multiple expenses using AI *)
Definition batchCategorizeExpenses (api : Gemini) (log : CallLog)
           (expenses : list ParsedExpense) : Result (list object) * CallLog :=
  match batchBody api log expenses with
  | (Return r, log') => (Return r, log')
  | (Throw, log') =>
      (Return (List.map (fun expense => withCategory (toObject expense) Unknown) expenses), log')
  end.

End AICategorization.

(* ------------------------------------------------------------------ *)
(** ** utils/gmailIntegration.ts: field extraction and keyword rules *)
(* ------------------------------------------------------------------ *)

Module GmailIntegration.

Import Regex.

(** interface GmailMessage: the fields the parser reads. *)
Record Part : Type := mkPart {
  mimeType : jsstring;
  partData : option jsstring
}.

Record GmailMessage : Type := mkMessage {
  id : jsstring;
  headers : list (jsstring * jsstring);
  bodyData : option jsstring;
  parts : option (list Part)
}.

(** [headers.find(h => h.name === name)?.value || ''] *)
Fixpoint header (name : jsstring) (hs : list (jsstring * jsstring)) : jsstring :=
  match hs with
  | [] => []
  | (n, v) :: t => if JS.eqb n name then v else header name t
  end.

(** [atob(data.replace(/-/g, '+').replace(/_/g, '/'))] *)
Definition decodeBody (data : jsstring) : Result jsstring :=
  Base64.atob (replaceG (c 95) [Lit [47%N]] (replaceG (c 45) [Lit [43%N]] data)).

(** [part?.body.data] as a condition: present and not empty. *)
Definition dataOf (p : option Part) : option jsstring :=
  match p with
  | Some x => match partData x with
              | Some d => if JS.truthy d then Some d else None
              | None => None
              end
  | None => None
  end.

Definition findPart (mime : jsstring) (ps : list Part) : option Part :=
  find (fun p => JS.eqb (mimeType p) mime) ps.

(** The text of the message: the HTML part, else the plain text part,
    else the direct body; the empty string when there is none. *)
Definition htmlContentOf (message : GmailMessage) : Result jsstring :=
  match parts message with
  | Some ps =>
      match dataOf (findPart (u "text/html") ps) with
      | Some d => decodeBody d
      | None =>
          match dataOf (findPart (u "text/plain") ps) with
          | Some d => decodeBody d
          | None => Return []
          end
      end
  | None =>
      match bodyData message with
      | Some d => if JS.truthy d then decodeBody d else Return []
      | None => Return []
      end
  end.

(** [/<p>\s*LABEL<\/p>\s*<\/td>\s*<td[^>]*>\s*<p>\s*([^<]+)/i] *)
Definition reField (label : jsstring) : re :=
  seqs [stri (u "<p>"); sps; stri label; stri (u "</p>"); sps; stri (u "</td>"); sps;
        stri (u "<td"); Star (Chr (nots [62]%N)); ci 62; sps; stri (u "<p>"); sps;
        Group 1 (Plus (Chr (nots [60]%N)))].

(** [text.match(re)?.[1]?.trim()] *)
Definition field (label text : jsstring) : option jsstring :=
  match exec (reField label) text 0 with
  | Some m => option_map trim (group text m 1)
  | None => None
  end.

Definition present (s : option jsstring) : bool :=
  match s with Some x => JS.truthy x | None => false end.

(** The date of the transaction: the date of the body, else the Date
    header, else the clock. *)
Definition resolveDate `{Host} (dateMatch : option jsstring) (headerDate : jsstring) : jsstring :=
  if present dateMatch then
    match JSDate.ofString (match dateMatch with Some d => d | None => [] end) with
    | Some parsedDate => JSDate.toISOString parsedDate
    | None =>
        match JSDate.ofString headerDate with
        | Some t => JSDate.toISOString t
        | None => JSDate.toISOString now
        end
    end
  else
    match JSDate.ofString headerDate with
    | Some t => JSDate.toISOString t
    | None => JSDate.toISOString now
    end.

(** Parse expense information from text using HTML regex selectors
    (without AI categorization) *)
Definition parseExpenseFromTextWithoutAI `{Host} (text from date : jsstring)
  : option ParsedExpense :=
  let commerce := field (u "Comercio:") text in
  let dateMatch := field (u "Fecha:") text in
  let location := option_map (replaceFirstUnit 44 [46%N]) (field (u "Ciudad y pa&iacute;s:") text) in
  let montoMatch := option_map (fun s => split 32 (replaceFirstUnit 44 [] s)) (field (u "Monto:") text) in
  (* Validate required fields *)
  match commerce, montoMatch with
  | Some merchantName, Some (currencyCode :: amountStr :: _) =>
      if negb (JS.truthy merchantName) then None
      else
        let amount := Num.parseFloat amountStr in
        if Num.isNaN amount || Num.leq0 amount then None
        else
          Some (mkExpense amount merchantName (resolveDate dateMatch date)
                  (Some (u "Other"))
                  (Some (match location with
                         | Some l => if JS.truthy l then l else u "Costa Rica"
                         | None => u "Costa Rica"
                         end))
                  (Some currencyCode))
  | _, _ => None
  end.

(** Parse email content to extract expense information without AI
    categorization.  Whatever is thrown inside is caught and gives
    [null]. *)
Definition parseExpenseEmailWithoutAI `{Host} (message : GmailMessage)
  : option ParsedExpense :=
  let from := header (u "From") (headers message) in
  let date := header (u "Date") (headers message) in
  match htmlContentOf message with
  | Return htmlContent => parseExpenseFromTextWithoutAI htmlContent from date
  | Throw => None
  end.

(** [s.includes(w)] for a literal [w] *)
Definition mentions (s : jsstring) (w : string) : bool := includes s (u w).

(** Determine expense category based on merchant *)
Definition determineCategory `{Host} (merchantName : jsstring) : jsstring :=
  let merchantLower := toLowerCase merchantName in
  (* Groceries *)
  if mentions merchantLower "grocery" || mentions merchantLower "market"
     || mentions merchantLower "supermarket" || mentions merchantLower "food"
  then u "Groceries"
  (* Gas/Transportation *)
  else if mentions merchantLower "gas" || mentions merchantLower "fuel"
          || mentions merchantLower "shell" || mentions merchantLower "exxon"
  then u "Transportation"
  (* Restaurants *)
  else if mentions merchantLower "restaurant" || mentions merchantLower "cafe"
          || mentions merchantLower "pizza" || mentions merchantLower "burger"
  then u "Food & Dining"
  (* Online shopping *)
  else if mentions merchantLower "amazon" || mentions merchantLower "shop"
  then u "Shopping"
  (* Utilities *)
  else if mentions merchantLower "electric" || mentions merchantLower "water"
          || mentions merchantLower "internet" || mentions merchantLower "phone"
  then u "Utilities"
  (* Healthcare *)
  else if mentions merchantLower "pharmacy" || mentions merchantLower "medical"
          || mentions merchantLower "doctor" || mentions merchantLower "hospital"
  then u "Healthcare"
  (* Entertainment *)
  else if mentions merchantLower "movie" || mentions merchantLower "theater"
          || mentions merchantLower "netflix" || mentions merchantLower "spotify"
  then u "Entertainment"
  else u "Other".

End GmailIntegration.

(* ------------------------------------------------------------------ *)
(** ** utils/validation.ts and pages/api/expenses: the storage side *)
(* ------------------------------------------------------------------ *)

Module Storage.

Import Regex.

(** A stored transaction.  Surrogate keys and the merchant and category
    tables are left out: a row carries the names. *)
Record Row : Type := mkRow {
  userId : jsstring;
  transactionDate : Z;
  rowAmount : jsstring;
  rowCurrency : jsstring;
  rowLocation : jsstring;
  rowMerchant : jsstring;
  rowCategory : jsstring
}.

Definition DB : Type := list Row.

(** The server: its host, the user of the session as
    [getServerSession(req, res, authOptions)] gives it, the user as
    [getServerSession(req, res, {})] gives it (the lookup of the delete
    handler), and whether the database answers.  Every request reaches
    the server and every answer reaches the client: a [fetch] that
    rejects is not modelled. *)
Record Server : Type := mkServer {
  serverHost : Host;
  sessionUser : option jsstring;
  bareSessionUser : option jsstring;
  dbUp : bool
}.

(** What the client sees of a response: [response.ok] with the body, or
    a failure status. *)
Inductive Response (A : Type) : Type :=
| Ok (body : A)
| Failed (status : nat).
Arguments Failed {A}.

(** [a || b] on strings *)
Definition orStr (a b : jsstring) : jsstring := if JS.truthy a then a else b.

Definition validateAmount (numAmount : Num.number) : bool :=
  if Num.isNaN numAmount then false
  else if Num.leq0 numAmount then false
  else true.

Definition validateDate `{Host} (s : jsstring) : bool :=
  match JSDate.ofString s with Some _ => true | None => false end.

Definition validateRequired (value : jsstring) : bool :=
  negb (negb (JS.truthy value) || JS.eqb (trim value) []).

(** [/^[A-Z]{3}$/] *)
Definition reCurrency : re := seqs [Bol; Chr isUpper; Chr isUpper; Chr isUpper; Eol].
Definition validateCurrency (s : jsstring) : bool := test reCurrency s.

Definition validateExpense `{Host} (amount : Num.number)
           (category date location merchant currency : jsstring) : bool :=
  validateAmount amount && validateRequired category && validateDate date
  && validateRequired location && validateRequired merchant
  && validateCurrency currency.

(** An expense as the client sends it.  [JSON.stringify] writes a
    number that is not finite as [null], which [parseFloat] on the
    server turns into NaN. *)
Record WireExpense : Type := mkWire {
  w_amount : Num.number;
  w_category : jsstring;
  w_location : jsstring;
  w_currency : jsstring;
  w_merchant : jsstring;
  w_transactionDate : jsstring
}.

Definition received (n : Num.number) : Num.number :=
  if Num.isFinite n then n else Num.NaN.

Definition userOf (u : option jsstring) : option jsstring :=
  match u with
  | Some x => if JS.truthy x then Some x else None
  | None => None
  end.

(** pages/api/expenses/batch.ts *)
Definition batchValid `{Host} (e : WireExpense) : bool :=
  validateExpense (received (w_amount e))
    (orStr (w_category e) (u "Other"))
    (orStr (w_transactionDate e) (JSDate.toISOString now))
    (orStr (w_location e) (u "Costa Rica"))
    (w_merchant e)
    (orStr (w_currency e) (u "CRC")).

Definition batchRow `{Host} (user : jsstring) (e : WireExpense) : option Row :=
  match (if JS.truthy (w_transactionDate e) then JSDate.ofString (w_transactionDate e) else None) with
  | Some t =>
      Some (mkRow user t (Conv.numToString (w_amount e))
              (orStr (w_currency e) (u "CRC"))
              (orStr (w_location e) (u "Costa Rica"))
              (w_merchant e)
              (orStr (w_category e) (u "Other")))
  | None => None
  end.

Fixpoint allSome {A : Type} (l : list (option A)) : option (list A) :=
  match l with
  | [] => Some []
  | Some a :: t => option_map (cons a) (allSome t)
  | None :: _ => None
  end.

(** The table is the table of transactions, which the handler fills in
    one database transaction.  The merchant and category rows that
    [findOrCreateMerchant] and [findOrCreateCategory] create before it,
    and outside it, are not part of [DB]. *)
Definition batchHandler (srv : Server) (db : DB) (expenses : list WireExpense)
  : Response nat * DB :=
  let H := serverHost srv in
  match userOf (sessionUser srv) with
  | None => (Failed 401, db)
  | Some user =>
      if negb (forallb batchValid expenses) then (Failed 400, db)
      else if negb (dbUp srv) then (Failed 500, db)
      else match allSome (List.map (batchRow user) expenses) with
           | Some rows => (Ok (List.length rows), db ++ rows)
           | None => (Failed 500, db)
           end
  end.

(** pages/api/expenses/index.ts, method POST.  As for the bulk handler,
    [DB] is the table of transactions only: the merchant and the category
    that the handler finds or creates first are not part of it. *)
Definition createHandler (srv : Server) (db : DB) (e : WireExpense)
  : Response unit * DB :=
  let H := serverHost srv in
  match userOf (sessionUser srv) with
  | None => (Failed 401, db)
  | Some user =>
      let merchantName := orStr (w_merchant e) (u "Unknown") in
      if negb (validateExpense (received (w_amount e)) (w_category e)
                 (orStr (w_transactionDate e) (JSDate.toISOString now))
                 (orStr (w_location e) (u "Unknown")) merchantName (w_currency e))
      then (Failed 400, db)
      else if negb (dbUp srv) then (Failed 500, db)
      else
        match (if JS.truthy (w_transactionDate e)
               then JSDate.ofString (w_transactionDate e) else Some now) with
        | Some t =>
            (Ok tt, db ++ [mkRow user t (Conv.numToString (w_amount e)) (w_currency e)
                             (orStr (w_location e) (u "Unknown")) merchantName (w_category e)])
        | None => (Failed 500, db)
        end
  end.

(** pages/api/expenses/delete-by-range.ts *)
Definition inRange (user : jsstring) (lo hi : Z) (r : Row) : bool :=
  JS.eqb (userId r) user && (lo <=? transactionDate r)%Z && (transactionDate r <=? hi)%Z.

Definition deleteHandler (srv : Server) (db : DB) (startDate endDate : jsstring)
  : Response nat * DB :=
  let H := serverHost srv in
  match userOf (bareSessionUser srv) with
  | None => (Failed 401, db)
  | Some user =>
      if negb (JS.truthy startDate) || negb (JS.truthy endDate) then (Failed 400, db)
      else
        match JSDate.ofString startDate, JSDate.ofString endDate with
        | Some lo, Some hi =>
            if negb (dbUp srv) then (Failed 500, db)
            else
              let countBefore := List.length (filter (inRange user lo hi) db) in
              if countBefore =? 0 then (Ok 0, db)
              else (Ok countBefore, filter (fun r => negb (inRange user lo hi r)) db)
        | _, _ => (Failed 500, db)
        end
  end.

End Storage.

(* ------------------------------------------------------------------ *)
(** ** utils/gmailIntegration.ts: storage calls and the orchestrator *)
(* ------------------------------------------------------------------ *)

Module GmailImport.

Import Json Storage GmailIntegration AICategorization.

(** Delete existing transactions in date range before importing new
    ones: the count the server reports, or an exception. *)
Definition deleteExistingTransactions (srv : Server) (db : DB)
           (startDate endDate userId : jsstring) : Result nat * DB :=
  match deleteHandler srv db startDate endDate with
  | (Ok deleted, db') => (Return deleted, db')
  | (Failed _, db') => (Throw, db')
  end.

(** The callback of [expenses.map] in [storeParsedExpensesBatch]:
    [Return None] is the [null] of a skipped expense. *)
Definition prepare `{Host} (expense : object) : Result (option WireExpense) :=
  bindR (match getProp kAmount expense with
         | Some (VNum n) => Return n
         | v => Conv.parseFloatOf v
         end) (fun amount =>
  if Num.isNaN amount || Num.leq0 amount then Return None
  else
    (* whatever the conversion of the date throws is caught *)
    let transactionDate :=
      match Conv.dateOf (getProp kDate expense) with
      | Return (Some t) => JSDate.toISOString t
      | Return None | Throw => JSDate.toISOString now
      end in
    bindR (Conv.callToString (Some (Conv.orElse (getProp kCategory expense) (VStr (u "Other"))))) (fun cat =>
    bindR (Conv.callToString (Some (Conv.orElse (getProp kLocation expense) (VStr (u "Costa Rica"))))) (fun loc =>
    bindR (Conv.callToString (Some (Conv.orElse (getProp kCurrency expense) (VStr (u "CRC"))))) (fun cur =>
    bindR (Conv.callToString (getProp kMerchant expense)) (fun mer =>
      Return (Some (mkWire amount (trim cat) (trim loc) (trim cur) (trim mer) transactionDate))))))).

Fixpoint somes {A : Type} (l : list (option A)) : list A :=
  match l with
  | [] => []
  | Some a :: t => a :: somes t
  | None :: t => somes t
  end.

(** Store multiple parsed expenses in database using API (batch
    operation) *)
Definition storeParsedExpensesBatch `{Host} (srv : Server) (db : DB)
           (expenses : list object) (userId : jsstring) : Result unit * DB :=
  match mapR prepare expenses with
  | Throw => (Throw, db)
  | Return prepared =>
      let transactionData := somes prepared in
      match transactionData with
      | [] => (Return tt, db)
      | _ :: _ =>
          match batchHandler srv db transactionData with
          | (Ok _, db') => (Return tt, db')
          | (Failed _, db') => (Throw, db')
          end
      end
  end.

(** The [requestData] of [storeParsedExpense]; a [toString] on a
    missing merchant or date throws. *)
Definition requestOf (expense : object) : Result WireExpense :=
  bindR (match getProp kAmount expense with
         | Some (VNum n) => Return n
         | v => bindR (Conv.parseFloatOf v) (fun p =>
                  Return (if Num.truthy p then p else Num.Fin false 0 0))
         end) (fun amount =>
  bindR (Conv.callToString (Some (Conv.orElse (getProp kCategory expense) (VStr (u "Other"))))) (fun cat =>
  bindR (Conv.callToString (Some (Conv.orElse (getProp kLocation expense) (VStr (u "Costa Rica"))))) (fun loc =>
  bindR (Conv.callToString (Some (Conv.orElse (getProp kCurrency expense) (VStr (u "CRC"))))) (fun cur =>
  bindR (Conv.callToString (getProp kMerchant expense)) (fun mer =>
  bindR (Conv.callToString (getProp kDate expense)) (fun dat =>
    Return (mkWire amount (trim cat) (trim loc) (trim cur) (trim mer) (trim dat)))))))).

(** Store parsed expense in database using API *)
Definition storeParsedExpense (srv : Server) (db : DB)
           (expense : object) (userId : jsstring) : Result unit * DB :=
  match requestOf expense with
  | Throw => (Throw, db)
  | Return w =>
      match createHandler srv db w with
      | (Ok _, db') => (Return tt, db')
      | (Failed _, db') => (Throw, db')
      end
  end.

(** Extract transaction information in the specified format *)
Record TransactionInfo : Type := mkInfo {
  Commerce : option value;
  Date : option value;
  Amount : jsstring;
  Currency : value;
  Category : value;
  Location : value
}.

Definition extractTransactionInfo (expense : object) : Result TransactionInfo :=
  bindR (Conv.callToString (getProp kAmount expense)) (fun amountText =>
    Return (mkInfo (getProp kMerchant expense) (getProp kDate expense) amountText
              (Conv.orElse (getProp kCurrency expense) (VStr (u "CRC")))
              (Conv.orElse (getProp kCategory expense) (VStr (u "Other")))
              (Conv.orElse (getProp kLocation expense) (VStr (u "Costa Rica"))))).

(** [categorizedExpenses.forEach(e => transactions.push(extractTransactionInfo(e)))]:
    the infos pushed, and whether the loop ran to its end. *)
Fixpoint pushInfos (l : list object) (transactions : list TransactionInfo)
  : list TransactionInfo * bool :=
  match l with
  | [] => (transactions, true)
  | e :: t =>
      match extractTransactionInfo e with
      | Return info => pushInfos t (transactions ++ [info])
      | Throw => (transactions, false)
      end
  end.

(** The result of [processEmailsFromSender]. *)
Record ImportSummary : Type := mkSummary {
  processed : nat;
  stored : nat;
  deleted : nat;
  errors : nat;
  transactions : list TransactionInfo
}.

(** The surroundings of one run: the browser, the server, the mailbox
    as [getEmailsFromSender] reads it, the categorization service. *)
Record World : Type := mkWorld {
  browser : Host;
  server : Server;
  getEmailsFromSender : jsstring -> Z -> Z -> Result (list GmailMessage);
  gemini : Gemini
}.

(** [date.toISOString().split('T')[0]]; an Invalid Date throws. *)
Definition isoDay (d : option Z) : Result jsstring :=
  match d with
  | Some t => Return (hd [] (split 84 (JSDate.toISOString t)))
  | None => Throw
  end.

(** Step 0: delete existing transactions in the date range.  An
    exception is caught: [deleted] is then 0 and processing goes on. *)
Definition deleteStep (w : World) (db : DB) (userId : jsstring) (month year : Z) : nat * DB :=
  let H := browser w in
  let startDate := JSDate.fromFields year (month - 1) 1 0 0 0 0 in
  let endDate := JSDate.fromFields year month 0 23 59 59 999 in
  match isoDay startDate, isoDay endDate with
  | Return s, Return e =>
      match deleteExistingTransactions (server w) db s e userId with
      | (Return n, db') => (n, db')
      | (Throw, db') => (0, db')
      end
  | _, _ => (0, db)
  end.

(** Step 1: extract all expenses from emails.  [parseExpenseEmailWithoutAI]
    catches what it throws, so every message is counted as processed. *)
Fixpoint extractStep `{Host} (messages : list GmailMessage)
         (processed : nat) (rawExpenses : list ParsedExpense) : nat * list ParsedExpense :=
  match messages with
  | [] => (processed, rawExpenses)
  | message :: rest =>
      match parseExpenseEmailWithoutAI message with
      | Some parsedExpense => extractStep rest (S processed) (rawExpenses ++ [parsedExpense])
      | None => extractStep rest (S processed) rawExpenses
      end
  end.

(** Step 2: batch categorize all expenses with AI; the rule-based
    classifier is the handler of an exception. *)
Definition categorizeStep `{Host} (api : Gemini) (rawExpenses : list ParsedExpense)
  : list object :=
  match rawExpenses with
  | [] => []
  | _ :: _ =>
      match fst (batchCategorizeExpenses api [] rawExpenses) with
      | Return l => l
      | Throw =>
          List.map (fun expense =>
                      withCategory (toObject expense) (determineCategory (merchant expense)))
                   rawExpenses
      end
  end.

(** The fallback loop of step 3: one call per expense. *)
Fixpoint storeEach (srv : Server) (db : DB) (l : list object) (userId : jsstring)
         (stored errors : nat) : nat * nat * DB :=
  match l with
  | [] => (stored, errors, db)
  | expense :: rest =>
      match storeParsedExpense srv db expense userId with
      | (Return _, db') => storeEach srv db' rest userId (S stored) errors
      | (Throw, db') => storeEach srv db' rest userId stored (S errors)
      end
  end.

(** Step 3: store all categorized expenses using batch operation. *)
Definition storeStep `{Host} (srv : Server) (db : DB) (categorizedExpenses : list object)
           (userId : jsstring) (errors : nat)
  : nat * nat * list TransactionInfo * DB :=
  match categorizedExpenses with
  | [] => (0, errors, [], db)
  | _ :: _ =>
      let (transactions, complete) := pushInfos categorizedExpenses [] in
      let attempt :=
        if complete then storeParsedExpensesBatch srv db categorizedExpenses userId
        else (Throw, db) in
      match attempt with
      | (Return _, db') => (List.length categorizedExpenses, errors, transactions, db')
      | (Throw, db') =>
          let '(stored, errors', db'') := storeEach srv db' categorizedExpenses userId 0 (S errors) in
          (stored, errors', transactions, db'')
      end
  end.

(** Process all emails from a sender and store expenses *)
Definition processEmailsFromSender (w : World) (db : DB)
           (senderEmail userId : jsstring) (month year : Z)
  : Result ImportSummary * DB :=
  let H := browser w in
  match getEmailsFromSender w senderEmail month year with
  | Throw => (Throw, db)
  | Return messages =>
      let (deleted, db1) := deleteStep w db userId month year in
      let (processed, rawExpenses) := extractStep messages 0 [] in
      let errors := 0 in
      let categorizedExpenses := categorizeStep (gemini w) rawExpenses in
      let '(stored, errors, transactions, db2) :=
        storeStep (server w) db1 categorizedExpenses userId errors in
      (Return (mkSummary processed stored deleted errors transactions), db2)
  end.

End GmailImport.

(* ------------------------------------------------------------------ *)
(** ** Hosts and sample data for the examples *)
(* ------------------------------------------------------------------ *)

Module Samples.

Import GmailIntegration AICategorization Storage GmailImport.

(** [toLowerCase] on code units below 256; higher code units are left
    as they are. *)
Definition lowerUnit (x : N) : N :=
  if isUpper x || ((192 <=? x) && (x <=? 214))%N || ((216 <=? x) && (x <=? 222))%N
  then (x + 32)%N else x.

(** A host in the time zone [tz] whose clock reads [clock] and that
    parses no date outside the ISO format. *)
Definition host (tz clock : Z) : Host :=
  {| tzOffset := tz; now := clock;
     legacyDateParse := fun _ => None;
     toLowerCase := List.map lowerUnit |}.

(** A notification body as the bank sends it: a table whose rows hold a
    label cell and a value cell. *)
Definition row (label value : string) : string :=
  ("<tr><td><p>" ++ label ++ "</p></td><td><p>" ++ value ++ "</p></td></tr>")%string.

Definition notification (commerce fecha monto : string) : jsstring :=
  u ("<table>" ++ row "Comercio:" commerce ++ row "Fecha:" fecha
     ++ row "Monto:" monto ++ "</table>")%string.

(** A message with one HTML part and a Date header. *)
Definition message (ident : string) (headerDate : string) (html : jsstring) : GmailMessage :=
  mkMessage (u ident) [(u "Subject", u "Notificacion"); (u "Date", u headerDate)]
            None (Some [mkPart (u "text/html") (Some (Base64.btoa html))]).

Definition expense (name : string) : ParsedExpense :=
  mkExpense (Num.Fin false 1250 (-2)) (u name) (u "2025-10-15T10:00:00.000Z")
            (Some (u "Other")) (Some (u "Costa Rica")) (Some (u "USD")).

(** A server in UTC whose two session lookups give the user [u1]. *)
Definition serverUTC : Server :=
  mkServer (host 0 0) (Some (u "u1")) (Some (u "u1")) true.

End Samples.

(* ------------------------------------------------------------------ *)
(** ** Vocabulary of the properties *)
(* ------------------------------------------------------------------ *)

Import RobustJSONParser AICategorization GmailIntegration Storage GmailImport Samples.

(** The invariant of the descent: a value that is read leaves a shorter
    text, and fuel runs out only when there was less than twice the
    length of the text. *)
Definition shorter (n : nat) (s : jsstring) (p : Json.pres Json.value) : Prop :=
  match p with
  | Json.Ok _ r => List.length r < List.length s
  | Json.SyntaxError => True
  | Json.OutOfFuel => n <= 2 * List.length s
  end.

(** The labels of the keyword rules. *)
Definition keywordLabels : list jsstring :=
  [u "Groceries"; u "Transportation"; u "Food & Dining"; u "Shopping";
   u "Utilities"; u "Healthcare"; u "Entertainment"; u "Other"].

(** What a body states: the merchant cell, the amount token of the
    amount cell (the second blank-separated token, after the first comma
    is dropped), the date cell. *)
Definition statedMerchant (text : jsstring) : option jsstring :=
  field (u "Comercio:") text.

Definition statedAmount (text : jsstring) : option Num.number :=
  match field (u "Monto:") text with
  | Some s =>
      match split 32 (replaceFirstUnit 44 [] s) with
      | _ :: amountStr :: _ => Some (Num.parseFloat amountStr)
      | _ => None
      end
  | None => None
  end.

Definition bodyDate `{Host} (text : jsstring) : option Z :=
  match field (u "Fecha:") text with
  | Some d => if JS.truthy d then JSDate.ofString d else None
  | None => None
  end.

(** The order of the specification: the body, else the header, else the
    clock. *)
Definition resolutionOrder (body header : option Z) (clock : Z) : Z :=
  match body with
  | Some t => t
  | None => match header with
            | Some t => t
            | None => clock
            end
  end.

(** The test of the specification on an amount: a finite number above
    zero. *)
Definition finitePositive (a : option Num.number) : bool :=
  match a with
  | Some n => Num.isFinite n && Num.gt0 n
  | None => false
  end.

(** The test of the code on an amount: not NaN and not [<= 0]. *)
Definition positiveNumber (a : option Num.number) : bool :=
  match a with
  | Some n => negb (Num.isNaN n) && negb (Num.leq0 n)
  | None => false
  end.

(** The category of an object is in the closed set or is the sentinel
    Unknown. *)
Definition closedOrUnknown (o : object) : Prop :=
  exists c, Json.getProp kCategory o = Some (Json.VStr c)
            /\ (isCategory c = true \/ c = Unknown).

(** Consecutive chunks of at most [maxBatchSize] records. *)
Fixpoint chunksFuel (fuel : nat) (l : list ParsedExpense) : list (list ParsedExpense) :=
  match fuel, l with
  | S f, _ :: _ => firstn maxBatchSize l :: chunksFuel f (skipn maxBatchSize l)
  | _, _ => []
  end.

Definition chunksOf (l : list ParsedExpense) : list (list ParsedExpense) :=
  chunksFuel (List.length l) l.

(** The calls a run is expected to make: one per chunk, and a single call
    with the whole input when it has at most [maxBatchSize] records. *)
Definition expectedCalls (expenses : list ParsedExpense) : list (list ParsedExpense) :=
  if maxBatchSize <? List.length expenses then chunksOf expenses else [expenses].

(** What the [n]-th call contributes when it is made for [chunk]. *)
Definition chunkResult (api : Gemini) (n : nat) (chunk : list ParsedExpense) : list object :=
  match api n chunk with
  | Some text => match parseBatchResponse text chunk with
                 | Return objs => objs
                 | Throw => []
                 end
  | None => []
  end.

Fixpoint resultsFrom (api : Gemini) (n : nat) (chunks : list (list ParsedExpense)) : list object :=
  match chunks with
  | [] => []
  | chunk :: rest => chunkResult api n chunk ++ resultsFrom api (S n) rest
  end.

(** The [n]-th call, made for [chunk], fails: the service throws, or
    [parseBatchResponse] throws on the text it returns. *)
Definition callFails (api : Gemini) (n : nat) (chunk : list ParsedExpense) : bool :=
  match api n chunk with
  | Some text => match parseBatchResponse text chunk with
                 | Return _ => false
                 | Throw => true
                 end
  | None => true
  end.

(** Of the calls planned from the [n]-th on, those up to and including
    the first that fails. *)
Fixpoint callsMade (api : Gemini) (n : nat) (chunks : list (list ParsedExpense))
  : list (list ParsedExpense) :=
  match chunks with
  | [] => []
  | chunk :: rest => chunk :: (if callFails api n chunk then [] else callsMade api (S n) rest)
  end.

(** One of the calls planned from the [n]-th on fails. *)
Fixpoint anyFails (api : Gemini) (n : nat) (chunks : list (list ParsedExpense)) : bool :=
  match chunks with
  | [] => false
  | chunk :: rest => callFails api n chunk || anyFails api (S n) rest
  end.

(** The sizes of the chunks depend on the number of records only. *)
Fixpoint sizesFuel (fuel n : nat) : list nat :=
  match fuel with
  | O => []
  | S f => if n =? 0 then [] else Nat.min maxBatchSize n :: sizesFuel f (n - maxBatchSize)
  end.

(** What one run works with, given the messages of the mailbox. *)
Definition extractedOf (w : World) (messages : list GmailMessage) : list ParsedExpense :=
  snd (@extractStep (browser w) messages 0 []).

Definition categorizedOf (w : World) (messages : list GmailMessage) : list object :=
  @categorizeStep (browser w) (gemini w) (extractedOf w messages).

(** The rows a run adds to the table. *)
Definition insertedRows (w : World) (messages : list GmailMessage) (userId : jsstring) : list Row :=
  snd (@storeStep (browser w) (server w) [] (categorizedOf w messages) userId 0).

(** The closed range of dates the delete handler works with for a month:
    the two day strings the browser sends, read by the server. *)
Definition deleteWindow (w : World) (month year : Z) : option (Z * Z) :=
  match isoDay (@JSDate.fromFields (browser w) year (month - 1) 1 0 0 0 0),
        isoDay (@JSDate.fromFields (browser w) year month 0 23 59 59 999) with
  | Return s, Return e =>
      if JS.truthy s && JS.truthy e then
        match @JSDate.ofString (serverHost (server w)) s,
              @JSDate.ofString (serverHost (server w)) e with
        | Some lo, Some hi => Some (lo, hi)
        | _, _ => None
        end
      else None
  | _, _ => None
  end.

(** The end-to-end scenario of the specification: two messages from
    noreply@bank.com in October 2025, one for Uber, USD 12.50, the other
    with a body that holds no fields; the service echoes the expense with
    the category Transportation. *)
Definition uberMessage (fecha : string) : GmailMessage :=
  message "m1" "2025-10-15T10:05:00Z" (notification "Uber" fecha "USD 12.50").

Definition malformedMessage : GmailMessage :=
  message "m2" "2025-10-16T09:00:00Z" (u "<p>Su estado de cuenta</p>").

Definition echo (fecha : string) : Gemini :=
  fun _ _ => Some (u ("[{~amount~: 12.5, ~merchant~: ~Uber~, ~date~: ~" ++ fecha
                      ++ "~, ~category~: ~Transportation~, ~location~: ~Costa Rica~, ~currency~: ~USD~}]")%string).

Definition scenario (tz : Z) (bodyDate echoDate : string) : World :=
  mkWorld (host tz 1761998400000) serverUTC
          (fun _ _ _ => Return [uberMessage bodyDate; malformedMessage])
          (echo echoDate).

Definition sender : jsstring := u "noreply@bank.com".
Definition user1 : jsstring := u "u1".





(** A server as deployed: the lookup with [authOptions], whose session
    callback adds the id of the user, gives the id; the lookup with [{}]
    gives the e-mail address. *)
Definition serverDeployed : Server :=
  mkServer (host 0 0) (Some (u "u1")) (Some (u "ana@example.com")) true.

(** The scenario of the specification against that server. *)
Definition deployed : World :=
  mkWorld (host 360 1761998400000) serverDeployed
          (fun _ _ _ => Return [uberMessage "2025-10-15T10:00:00Z"; malformedMessage])
          (echo "2025-10-15T10:00:00.000Z").

(** The row belongs to the user that the insert handlers find in the
    session. *)
Definition insertedBy (srv : Server) (r : Row) : Prop :=
  userOf (sessionUser srv) = Some (userId r).

(* ------------------------------------------------------------------ *)
(** ** utils/jsonParser.ts: the convenience functions *)
(* ------------------------------------------------------------------ *)

Module JsonConvenience.

(** Convenience function for parsing JSON with fallback:
    [result.success ? (result.data ?? null) : null] *)
Definition parseJSON (jsonString : jsstring) : Json.value :=
  let result := RobustJSONParser.parse jsonString in
  if success result then
    match data result with Some d => d | None => Json.VNull end
  else Json.VNull.

(** Parse JSON with detailed error information *)
Definition parseJSONWithDetails (jsonString : jsstring) : JSONParseResult :=
  RobustJSONParser.parse jsonString.

End JsonConvenience.

(* ------------------------------------------------------------------ *)
(** ** utils/aiCategorization.ts: the request to the service *)
(* ------------------------------------------------------------------ *)

(** [callGeminiAPI] at the level of [fetch].  The network gives the
    outcome of the request of each attempt (attempts count from 1): the
    request is rejected, which [fetch] reports as a TypeError, or a
    response arrives with a status and a body that is read to its end.
    What is recorded is the sequence of requests and of delays. *)
Module GeminiClient.

Inductive FetchOutcome : Type :=
| Rejects
| Responds (status : nat) (body : jsstring).

Definition Network : Type := nat -> FetchOutcome.

Inductive Event : Type :=
| Fetch
| Wait (ms : nat).

(** GEMINI_CONFIG *)
Definition maxRetries : nat := 3.
Definition baseDelay : nat := 1000.

(** [response.ok] *)
Definition ok (status : nat) : bool := (200 <=? status) && (status <=? 299).

(** [v?.k] for a key that no standard prototype defines, and [v?.[0]]. *)
Definition optMember (k : jsstring) (v : option Json.value) : option Json.value :=
  match v with
  | Some (Json.VObj l) => Json.getProp k l
  | _ => None
  end.

Definition optFirst (v : option Json.value) : option Json.value :=
  match v with
  | Some (Json.VArr l) => nth_error l 0
  | Some (Json.VObj l) => Json.getProp (u "0") l
  | Some (Json.VStr s) => match s with x :: _ => Some (Json.VStr [x]) | [] => None end
  | _ => None
  end.

(** How the [try] block ends: it returns the text, it returns the
    recursive call (after the delay), or it throws; of what is thrown the
    [catch] block only asks whether it is a TypeError. *)
Inductive TryOutcome : Type :=
| Returned (responseText : jsstring)
| Recursed
| Thrown (isTypeError : bool).

(** From [const data = await response.json()] to [return responseText]:
    [data.candidates] on [null] is a TypeError, and so is [.trim()] on a
    text that is not a string. *)
Definition readText (data : Json.value) : TryOutcome :=
  match Conv.member (u "candidates") data with
  | Throw => Thrown true
  | Return candidates =>
      let responseText :=
        Conv.orElse
          (optMember (u "text")
             (optFirst (optMember (u "parts")
                          (optMember (u "content") (optFirst candidates)))))
          (Json.VStr []) in
      match responseText with
      | Json.VStr s => if negb (JS.truthy (trim s)) then Thrown false else Returned s
      | _ => Thrown true
      end
  end.

(** The [try] block of one attempt, with the requests it makes. *)
Definition tryBlock (apiKey : option jsstring) (net : Network) (attempt : nat)
  : TryOutcome * list Event :=
  if negb (present apiKey) then (Thrown false, [])
  else
    match net attempt with
    | Rejects => (Thrown true, [Fetch])
    | Responds status body =>
        if negb (ok status) then
          (* Retry on specific errors *)
          if ((status =? 503) || (status =? 429)) && (attempt <=? maxRetries)
          then (Recursed, [Fetch])
          else (Thrown false, [Fetch])
        else
          match Json.parse body with
          | Some data => (readText data, [Fetch])
          | None => (Thrown false, [Fetch])
          end
    end.

(** [GEMINI_CONFIG.baseDelay * Math.pow(2, attempt - 1)] *)
Definition delay (attempt : nat) : nat := baseDelay * 2 ^ (attempt - 1).

(** [callGeminiAPI(prompt, attempt)]; the fuel bounds the depth of the
    recursion, [None] is fuel that ran out. *)
Fixpoint callFrom (fuel : nat) (apiKey : option jsstring) (net : Network)
         (attempt : nat) (log : list Event) : option (Result jsstring * list Event) :=
  match fuel with
  | O => None
  | S fuel' =>
      let (outcome, events) := tryBlock apiKey net attempt in
      match outcome with
      | Returned responseText => Some (Return responseText, log ++ events)
      | Recursed =>
          callFrom fuel' apiKey net (attempt + 1) (log ++ events ++ [Wait (delay attempt)])
      | Thrown isTypeError =>
          (* Retry on network errors *)
          if (attempt <=? maxRetries) && isTypeError
          then callFrom fuel' apiKey net (attempt + 1) (log ++ events ++ [Wait (delay attempt)])
          else Some (Throw, log ++ events)
      end
  end.

(** Safely fetch response from Gemini API: the call with [attempt = 1]. *)
Definition callGeminiAPI (apiKey : option jsstring) (net : Network)
  : option (Result jsstring * list Event) :=
  callFrom (S maxRetries) apiKey net 1 [].

End GeminiClient.

(* ------------------------------------------------------------------ *)
(** ** utils/aiCategorization.ts: one expense at a time *)
(* ------------------------------------------------------------------ *)

Module SingleCategorization.

Import Regex.

(** interface CategorizationRequest, interface CategorizationResult *)
Record CategorizationRequest : Type := mkRequest {
  requestMerchant : jsstring;
  requestAmount : Num.number;
  requestLocation : option jsstring;
  requestDate : option jsstring
}.

Record CategorizationResult : Type := mkCategorization {
  resultCategory : jsstring
}.

(** Sanitize string to remove control characters and ensure JSON
    safety.  The three patterns are those of [cleanAndRepair]. *)
Definition sanitizeString (str : jsstring) : jsstring :=
  if negb (JS.truthy str) then []
  else
    trim (replaceG RobustJSONParser.reSpaces [Lit [32%N]]
            (replaceG RobustJSONParser.reControl2 []
               (replaceG RobustJSONParser.reControl1 [] str))).

(** The first statement of [createBatchPrompt]: sanitize and truncate
    merchant names to prevent JSON issues.  The spread keeps the other
    properties. *)
Definition sanitizedExpenses (expenses : list ParsedExpense) : list ParsedExpense :=
  List.map
    (fun expense =>
       mkExpense (amount expense)
         (sanitizeString (if 50 <? List.length (merchant expense)
                          then substring (merchant expense) 0 50 ++ u "..."
                          else merchant expense))
         (date expense) (category expense)
         (Some (match location expense with
                | Some l => if JS.truthy l then sanitizeString l else u "Unknown"
                | None => u "Unknown"
                end))
         (currency expense))
    expenses.

Definition kCategoryCapital : jsstring := u "Category".

(** Parse single categorization response.
    [EXPENSE_CATEGORIES.includes(category)] holds for strings only. *)
Definition parseSingleResponse (response : jsstring) : Result CategorizationResult :=
  let parsed := RobustJSONParser.parseJSONWithRetry response 3 in
  if negb (Json.truthy (Some parsed)) then Return (mkCategorization Unknown)
  else
    bindR (Conv.member kCategory parsed) (fun lower =>
    bindR (if Json.truthy lower then Return lower
           else Conv.member kCategoryCapital parsed) (fun named =>
      let category := Conv.orElse named (Json.VStr (u "Other")) in
      match category with
      | Json.VStr s =>
          if negb (isCategory s) then Return (mkCategorization (u "Other"))
          else Return (mkCategorization s)
      | _ => Return (mkCategorization (u "Other"))
      end)).

(** The service for one request: the text [callGeminiAPI] returns for
    the prompt that [createSinglePrompt] builds from the request, or
    [None] when the call throws. *)
Definition SingleGemini : Type := CategorizationRequest -> option jsstring.

(** Categorize a single expense using AI *)
Definition categorizeExpenseWithAI (api : SingleGemini) (request : CategorizationRequest)
  : Result CategorizationResult :=
  match bindR (match api request with
               | Some response => Return response
               | None => Throw
               end) parseSingleResponse with
  | Return result => Return result
  | Throw => Return (mkCategorization Unknown)
  end.

End SingleCategorization.

(* ------------------------------------------------------------------ *)
(** ** utils/gmailIntegration.ts: the parsers that categorize *)
(* ------------------------------------------------------------------ *)

Module GmailAI.

Import SingleCategorization.

(** Parse expense information from text using HTML regex selectors *)
Definition parseExpenseFromText `{Host} (api : SingleGemini) (text from date : jsstring)
  : option ParsedExpense :=
  let commerce := field (u "Comercio:") text in
  let dateMatch := field (u "Fecha:") text in
  let location := option_map (replaceFirstUnit 44 [46%N]) (field (u "Ciudad y pa&iacute;s:") text) in
  let montoMatch := option_map (fun s => split 32 (replaceFirstUnit 44 [] s)) (field (u "Monto:") text) in
  (* Validate required fields *)
  match commerce, montoMatch with
  | Some merchantName, Some (currencyCode :: amountStr :: _) =>
      if negb (JS.truthy merchantName) then None
      else
        let amount := Num.parseFloat amountStr in
        if Num.isNaN amount || Num.leq0 amount then None
        else
          let transactionDate := resolveDate dateMatch date in
          let place := match location with
                       | Some l => if JS.truthy l then l else u "Costa Rica"
                       | None => u "Costa Rica"
                       end in
          (* Use AI categorization *)
          let categorizationRequest :=
            mkRequest merchantName amount (Some place) (Some transactionDate) in
          match categorizeExpenseWithAI api categorizationRequest with
          | Return aiResult =>
              Some (mkExpense amount merchantName transactionDate
                      (Some (resultCategory aiResult)) (Some place) (Some currencyCode))
          | Throw =>
              (* Fallback to rule-based categorization *)
              Some (mkExpense amount merchantName transactionDate
                      (Some (determineCategory merchantName)) (Some place) (Some currencyCode))
          end
  | _, _ => None
  end.

(** Parse email content to extract expense information *)
Definition parseExpenseEmail `{Host} (api : SingleGemini) (message : GmailMessage)
  : option ParsedExpense :=
  let from := header (u "From") (headers message) in
  let date := header (u "Date") (headers message) in
  match htmlContentOf message with
  | Return htmlContent => parseExpenseFromText api htmlContent from date
  | Throw => None
  end.

(** Add AI categorization to an array of expenses: the result and the
    calls made. *)
Definition categorizeExpensesWithAI `{Host} (api : Gemini) (expenses : list ParsedExpense)
  : list object * CallLog :=
  match expenses with
  | [] => (List.map toObject expenses, [])
  | _ :: _ =>
      match batchCategorizeExpenses api [] expenses with
      | (Return categorizedExpenses, log) => (categorizedExpenses, log)
      | (Throw, log) =>
          (* Fallback to rule-based categorization *)
          (List.map (fun expense =>
                       withCategory (toObject expense) (determineCategory (merchant expense)))
                    expenses, log)
      end
  end.

End GmailAI.

(* ------------------------------------------------------------------ *)
(** ** Vocabulary of the further properties *)
(* ------------------------------------------------------------------ *)

(** Two expenses that differ in the category at most, the category of
    the first being in the closed set or Unknown. *)
Definition sameButCategory (e e0 : ParsedExpense) : Prop :=
  amount e = amount e0 /\ merchant e = merchant e0 /\ date e = date e0
  /\ location e = location e0 /\ currency e = currency e0
  /\ exists c, category e = Some c /\ (isCategory c = true \/ c = Unknown).

Definition agree (a b : option ParsedExpense) : Prop :=
  match a, b with
  | Some e, Some e0 => sameButCategory e e0
  | None, None => True
  | _, _ => False
  end.

(** What the bulk handler stores for an expense it accepted. *)
Definition storedFor (H : Host) (user : jsstring) (e : WireExpense) (r : Row) : Prop :=
  userId r = user
  /\ rowMerchant r = w_merchant e
  /\ rowAmount r = Conv.numToString (w_amount e)
  /\ @JSDate.ofString H (w_transactionDate e) = Some (transactionDate r)
  /\ validateCurrency (rowCurrency r) = true
  /\ validateRequired (rowMerchant r) = true
  /\ validateRequired (rowCategory r) = true
  /\ validateRequired (rowLocation r) = true
  /\ validateAmount (received (w_amount e)) = true.

(** The amount [storeParsedExpensesBatch] works with: the number itself,
    or the [parseFloat] of anything else, which throws when the amount has
    no string. *)
Definition sentAmount (expense : object) : Result Num.number :=
  match Json.getProp kAmount expense with
  | Some (Json.VNum n) => Return n
  | v => Conv.parseFloatOf v
  end.

(** An expense that [storeParsedExpensesBatch] skips: its amount is read
    without an exception and is NaN or not above zero. *)
Definition skipped (expense : object) : bool :=
  match sentAmount expense with
  | Return amount => Num.isNaN amount || Num.leq0 amount
  | Throw => false
  end.

Definition kept (expense : object) : bool := negb (skipped expense).

Definition preparedOf `{Host} (l : list object) : Result (list WireExpense) :=
  match mapR prepare l with
  | Return prepared => Return (somes prepared)
  | Throw => Throw
  end.

(** The requests and delays of a call that makes [retries] retries from
    attempt [attempt] on. *)
Fixpoint scheduleFrom (attempt retries : nat) : list GeminiClient.Event :=
  match retries with
  | O => [GeminiClient.Fetch]
  | S k =>
      GeminiClient.Fetch :: GeminiClient.Wait (GeminiClient.delay attempt)
        :: scheduleFrom (S attempt) k
  end.

(** The loop of [Star], on its own. *)
Definition starLoop (ra : Regex.st -> (Regex.st -> option Regex.st) -> option Regex.st)
           (k : Regex.st -> option Regex.st) : nat -> Regex.st -> option Regex.st :=
  fix loop (n : nat) (s : Regex.st) {struct n} : option Regex.st :=
    match n with
    | O => k s
    | S n' =>
        match ra s (fun s' => if Regex.pos s <? Regex.pos s' then loop n' s' else None) with
        | Some x => Some x
        | None => k s
        end
    end.

(** The length of the longest prefix whose code units satisfy [p]. *)
Fixpoint spanLen (p : N -> bool) (l : jsstring) : nat :=
  match l with
  | x :: t => if p x then S (spanLen p t) else 0
  | [] => 0
  end.

(** Every run of white space replaced by one blank; [inRun] tells that
    the code unit before was white space. *)
Fixpoint collapseFrom (inRun : bool) (s : jsstring) : jsstring :=
  match s with
  | [] => []
  | x :: t =>
      if isSpace x then (if inRun then collapseFrom true t else 32%N :: collapseFrom true t)
      else x :: collapseFrom false t
  end.


(** The class of the second control pattern; it contains the class of
    the first. *)
Definition isControl (x : N) : bool := Regex.range 0 31 x || Regex.range 127 159 x.

(** Every white space is a blank that does not follow white space;
    [afterSpace] tells that the code unit before was white space (or
    that the text starts here). *)
Fixpoint spaced (afterSpace : bool) (s : jsstring) : bool :=
  match s with
  | [] => true
  | x :: t =>
      if isSpace x then negb afterSpace && N.eqb x 32 && spaced true t
      else spaced false t
  end.

Definition endsWithSpace (s : jsstring) : bool :=
  match rev s with
  | x :: _ => isSpace x
  | [] => false
  end.

(** A sanitized text: no control character, and no white space but
    single blanks between two other code units. *)
Definition sanitized (s : jsstring) : bool :=
  forallb (fun x => negb (isControl x)) s && spaced true s && negb (endsWithSpace s).


(** The parts of [toISOString]: the year (four digits, or a sign and six
    digits), the date, the time of day. *)
Definition yearText (y : Z) : jsstring :=
  if ((0 <=? y) && (y <=? 9999))%Z then JSDate.pad 4 y
  else (if (y <? 0)%Z then 45%N else 43%N) :: JSDate.pad 6 (Z.abs y).

Definition dateText (y m d : Z) : jsstring :=
  yearText y ++ [45%N] ++ JSDate.pad 2 m ++ [45%N] ++ JSDate.pad 2 d.

Definition timeText (r : Z) : jsstring :=
  (JSDate.pad 2 (r / 3600000) ++ [58%N] ++ JSDate.pad 2 (r / 60000 mod 60) ++ [58%N]
   ++ JSDate.pad 2 (r / 1000 mod 60) ++ [46%N] ++ JSDate.pad 3 (r mod 1000))%Z.

(** The day string of an instant: [YYYY-MM-DD] of its day in UTC. *)
Definition dayText (t : Z) : jsstring :=
  let '(y, m, d) := JSDate.civilFromDays (t / JSDate.msPerDay) in dateText y m d.

(** Midnight UTC of the day of an instant. *)
Definition utcMidnight (t : Z) : Z := (t / JSDate.msPerDay * JSDate.msPerDay)%Z.

(** A code unit that is no control character and no white space other
    than the blank. *)
Definition plain (x : N) : bool :=
  negb (isControl x) && (negb (isSpace x) || N.eqb x 32).

(* ------------------------------------------------------------------ *)
(** ** utils/currencyUtils.ts and utils/expenseUtils.ts *)
(* ------------------------------------------------------------------ *)

(** The arithmetic of doubles and [String.prototype.toUpperCase] are
    taken from the host. *)
Class Arithmetic : Type := {
  add : Num.number -> Num.number -> Num.number;
  mul : Num.number -> Num.number -> Num.number;
  div : Num.number -> Num.number -> Num.number;
  toUpperCase : jsstring -> jsstring
}.

(** The getters of a [Date] in the local time of the host; [None] stands
    for NaN, the answer of an Invalid Date. *)
Module LocalDate.

Local Open Scope Z_scope.

Definition localDay `{Host} (t : Z) : Z := (t - tzOffset * 60000) / JSDate.msPerDay.

Definition getFullYear `{Host} (d : option Z) : option Z :=
  match d with
  | Some t => let '(y, _, _) := JSDate.civilFromDays (localDay t) in Some y
  | None => None
  end.

Definition getMonth `{Host} (d : option Z) : option Z :=
  match d with
  | Some t => let '(_, m, _) := JSDate.civilFromDays (localDay t) in Some (m - 1)
  | None => None
  end.

Definition getDate `{Host} (d : option Z) : option Z :=
  match d with
  | Some t => let '(_, _, day) := JSDate.civilFromDays (localDay t) in Some day
  | None => None
  end.

(** [a === b] on two numbers: NaN is equal to nothing. *)
Definition sameNumber (a b : option Z) : bool :=
  match a, b with
  | Some x, Some y => x =? y
  | _, _ => false
  end.

End LocalDate.

Module CurrencyUtils.

Definition rate (code literal : string) : jsstring * Num.number :=
  (u code, Num.parseFloat (u literal)).

(** Rates are relative to USD. *)
Definition EXCHANGE_RATES : list (jsstring * Num.number) :=
  [ rate "USD" "1.0"; rate "CAD" "0.73"; rate "MXN" "0.058";
    rate "CRC" "0.0018"; rate "BRL" "0.20"; rate "ARS" "0.0011";
    rate "CLP" "0.0011"; rate "COP" "0.00025"; rate "PEN" "0.27";
    rate "UYU" "0.025"; rate "VES" "0.000028"; rate "BOB" "0.14";
    rate "PYG" "0.00014"; rate "GYD" "0.0048"; rate "SRD" "0.027";
    rate "EUR" "1.08"; rate "GBP" "1.27"; rate "CHF" "1.12";
    rate "NOK" "0.095"; rate "SEK" "0.095"; rate "DKK" "0.145";
    rate "PLN" "0.25"; rate "CZK" "0.043"; rate "HUF" "0.0028";
    rate "RON" "0.22"; rate "BGN" "0.55"; rate "HRK" "0.14";
    rate "RUB" "0.011"; rate "TRY" "0.033"; rate "UAH" "0.027" ].

(** [EXCHANGE_RATES[code]] for an upper-cased [code]: one of the entries
    or [undefined] (the properties an object inherits all have a
    lower-case letter in their names). *)
Fixpoint rateOf (table : list (jsstring * Num.number)) (code : jsstring) : option Num.number :=
  match table with
  | [] => None
  | (name, value) :: t => if eqb name code then Some value else rateOf t code
  end.

(** Convert an amount from one currency to another *)
Definition convertCurrency `{Arithmetic} (amount : Num.number) (fromCurrency toCurrency : jsstring)
  : Num.number :=
  if negb (JS.truthy fromCurrency) || negb (JS.truthy toCurrency) then amount
  else if eqb fromCurrency toCurrency then amount
  else
    match rateOf EXCHANGE_RATES (toUpperCase fromCurrency),
          rateOf EXCHANGE_RATES (toUpperCase toCurrency) with
    | Some fromRate, Some toRate =>
        if negb (Num.truthy fromRate) || negb (Num.truthy toRate) then amount
        else
          (* Convert to USD first, then to target currency *)
          let usdAmount := mul amount fromRate in
          div usdAmount toRate
    | _, _ => amount
    end.

End CurrencyUtils.

(** The records of [types]; a field that may be missing is an option. *)
Module Merchant.
Record t : Type := mk { merchantId : Z; merchantName : jsstring }.
End Merchant.

Module Category.
Record t : Type := mk { categoryId : Z; categoryName : jsstring }.
End Category.

Module Transaction.
Record t : Type := mk {
  transactionId : Z;
  merchantId : Z;
  location : jsstring;
  categoryId : option Z;
  amount : jsstring;
  currency : option jsstring;
  transactionDate : jsstring;
  createdAt : jsstring;
  merchant : option Merchant.t;
  category : option Category.t
}.
End Transaction.

Module Expense.
Record t : Type := mk {
  id : Z;
  merchant : jsstring;
  currency : jsstring;
  amount : Num.number;
  category : jsstring;
  location : jsstring;
  createdAt : jsstring
}.
End Expense.

Module DailyTrendData.
Record t : Type := mk { day : Z; amount : Num.number }.
End DailyTrendData.

Module ExpenseUtils.

Import LocalDate CurrencyUtils.

Local Open Scope Z_scope.

Definition zero : Num.number := Num.Fin false 0 0.

(** [s || d] on a string that may be missing *)
Definition orDefault (s : option jsstring) (d : jsstring) : jsstring :=
  match s with
  | Some x => if JS.truthy x then x else d
  | None => d
  end.

(** Filter expenses by month and year *)
Definition filterExpensesByMonth `{Host} (expenses : list Expense.t) (viewingDate : option Z)
  : list Expense.t :=
  filter (fun expense =>
            let expenseDate := JSDate.ofString (Expense.createdAt expense) in
            sameNumber (getMonth expenseDate) (getMonth viewingDate)
            && sameNumber (getFullYear expenseDate) (getFullYear viewingDate))
         expenses.

(** [new Date(viewingDate.getFullYear(), viewingDate.getMonth() + 1, 0).getDate()] *)
Definition daysInMonthOf `{Host} (viewingDate : option Z) : option Z :=
  match getFullYear viewingDate, getMonth viewingDate with
  | Some year, Some month => getDate (JSDate.fromFields year (month + 1) 0 0 0 0 0)
  | _, _ => None
  end.

(** [Array.from({ length: daysInMonth }, (_, i) => ({ day: i + 1, amount: 0 }))];
    a length that is NaN counts as 0. *)
Definition emptyDays (daysInMonth : option Z) : list DailyTrendData.t :=
  match daysInMonth with
  | Some n => List.map (fun i => DailyTrendData.mk (Z.of_nat i + 1) zero) (seq 0 (Z.to_nat n))
  | None => []
  end.

Fixpoint setAt (l : list DailyTrendData.t) (i : nat) (x : DailyTrendData.t)
  : list DailyTrendData.t :=
  match l, i with
  | [], _ => []
  | _ :: t, O => x :: t
  | y :: t, S i' => y :: setAt t i' x
  end.

(** [dailyData[index].amount += x]: where [dailyData[index]] is
    undefined, reading its [amount] throws a TypeError. *)
Definition addToDay `{Arithmetic} (dailyData : list DailyTrendData.t) (index : option Z)
           (x : Num.number) : Result (list DailyTrendData.t) :=
  match index with
  | Some i =>
      if 0 <=? i then
        match nth_error dailyData (Z.to_nat i) with
        | Some entry =>
            Return (setAt dailyData (Z.to_nat i)
                      (DailyTrendData.mk (DailyTrendData.day entry)
                                         (add (DailyTrendData.amount entry) x)))
        | None => Throw
        end
      else Throw
  | None => Throw
  end.

Fixpoint addExpenses `{Host} `{Arithmetic} (expenses : list Expense.t)
         (dailyData : list DailyTrendData.t) : Result (list DailyTrendData.t) :=
  match expenses with
  | [] => Return dailyData
  | expense :: rest =>
      let dayOfMonth := getDate (JSDate.ofString (Expense.createdAt expense)) in
      bindR (addToDay dailyData (option_map (fun d => d - 1) dayOfMonth) (Expense.amount expense))
            (addExpenses rest)
  end.

(** Generate daily trend data for a month *)
Definition generateDailyTrendData `{Host} `{Arithmetic} (expenses : list Expense.t)
           (viewingDate : option Z) : Result (list DailyTrendData.t) :=
  let daysInMonth := daysInMonthOf viewingDate in
  let dailyData := emptyDays daysInMonth in
  addExpenses expenses dailyData.

(** [convertCurrency(parseFloat(transaction.amount), transaction.currency || 'USD', 'USD')] *)
Definition amountInUSD `{Arithmetic} (transaction : Transaction.t) : Num.number :=
  convertCurrency (Num.parseFloat (Transaction.amount transaction))
                  (orDefault (Transaction.currency transaction) (u "USD"))
                  (u "USD").

(** Convert transactions to expenses with USD amounts *)
Definition convertTransactionsToExpenses `{Host} `{Arithmetic} (transactions : list Transaction.t)
  : list Expense.t :=
  List.map
    (fun transaction =>
       let createdAt :=
         match JSDate.ofString (Transaction.transactionDate transaction) with
         | None => JSDate.toISOString now
         | Some date => JSDate.toISOString date
         end in
       Expense.mk (Transaction.transactionId transaction)
                  (orDefault (option_map Merchant.merchantName (Transaction.merchant transaction))
                             (u "Unknown Merchant"))
                  (u "USD")
                  (amountInUSD transaction)
                  (orDefault (option_map Category.categoryName (Transaction.category transaction))
                             (u "Uncategorized"))
                  (Transaction.location transaction)
                  createdAt)
    transactions.

Fixpoint addTransactions `{Host} `{Arithmetic} (transactions : list Transaction.t)
         (viewingDate : option Z) (dailyData : list DailyTrendData.t)
  : Result (list DailyTrendData.t) :=
  match transactions with
  | [] => Return dailyData
  | transaction :: rest =>
      let transactionDate := JSDate.ofString (Transaction.transactionDate transaction) in
      if sameNumber (getMonth transactionDate) (getMonth viewingDate)
         && sameNumber (getFullYear transactionDate) (getFullYear viewingDate)
      then
        let dayOfMonth := getDate transactionDate in
        bindR (addToDay dailyData (option_map (fun d => d - 1) dayOfMonth)
                        (amountInUSD transaction))
              (addTransactions rest viewingDate)
      else addTransactions rest viewingDate dailyData
  end.

(** Generate daily trend data from transactions (converted to USD) *)
Definition generateDailyTrendDataFromTransactions `{Host} `{Arithmetic}
           (transactions : list Transaction.t) (viewingDate : option Z)
  : Result (list DailyTrendData.t) :=
  let daysInMonth := daysInMonthOf viewingDate in
  let dailyData := emptyDays daysInMonth in
  addTransactions transactions viewingDate dailyData.

End ExpenseUtils.

(** Data for the examples of the daily trend. *)
Module ExpenseSamples.

Import Num.

Local Open Scope Z_scope.

Definition signed (neg : bool) (m : N) : Z := if neg then - Z.of_N m else Z.of_N m.

Definition ofSigned (v e : Z) : number := Fin (v <? 0) (Z.to_N (Z.abs v)) e.

(** Sums and products of decimals without rounding, and the quotient by
    1, the rate of USD, which is the only divisor of the examples. *)
Definition exactAdd (a b : number) : number :=
  match a, b with
  | NaN, _ | _, NaN => NaN
  | Inf n1, Inf n2 => if Bool.eqb n1 n2 then Inf n1 else NaN
  | Inf n, Fin _ _ _ | Fin _ _ _, Inf n => Inf n
  | Fin n1 m1 e1, Fin n2 m2 e2 =>
      let e := Z.min e1 e2 in
      ofSigned (signed n1 m1 * 10 ^ (e1 - e) + signed n2 m2 * 10 ^ (e2 - e)) e
  end.

Definition exactMul (a b : number) : number :=
  match a, b with
  | NaN, _ | _, NaN => NaN
  | Inf n1, Inf n2 => Inf (xorb n1 n2)
  | Inf n1, Fin n2 m _ | Fin n2 m _, Inf n1 => if N.eqb m 0 then NaN else Inf (xorb n1 n2)
  | Fin n1 m1 e1, Fin n2 m2 e2 => Fin (xorb n1 n2) (m1 * m2) (e1 + e2)
  end.

Definition byOne (a b : number) : number :=
  match b with
  | Fin false m e => if (e <=? 0) && (Z.of_N m =? 10 ^ (- e)) then a else NaN
  | _ => NaN
  end.

Definition upperUnit (x : N) : N := if isLower x then (x - 32)%N else x.

Definition exact : Arithmetic :=
  {| add := exactAdd; mul := exactMul; div := byOne;
     toUpperCase := List.map upperUnit |}.

(** A host six hours west of Greenwich. *)
Definition sanJose : Host := Samples.host 360 1762000000000.

(** 15 October 2025, 00:00 UTC. *)
Definition october : Z := 1760486400000.

Definition expense (ident : Z) (amount createdAt : string) : Expense.t :=
  Expense.mk ident (u "Mas x Menos") (u "USD") (parseFloat (u amount)) (u "Groceries")
             (u "San Jose") (u createdAt).

Definition expenses : list Expense.t :=
  [ expense 1 "12.50" "2025-10-15T10:00:00.000Z";
    expense 2 "3.25" "2025-10-15T22:30:00.000Z";
    expense 3 "40" "2025-11-01T02:00:00.000Z";
    expense 4 "7" "2025-12-31T12:00:00.000Z" ].

Definition transaction (ident : Z) (amount currency transactionDate : string) : Transaction.t :=
  Transaction.mk ident 1 (u "San Jose") (Some 1) (u amount) (Some (u currency))
                 (u transactionDate) (u "2025-11-02T00:00:00.000Z")
                 (Some (Merchant.mk 1 (u "Mas x Menos"))) None.

Definition transactions : list Transaction.t :=
  [ transaction 1 "12.50" "USD" "2025-10-15T10:00:00.000Z";
    transaction 2 "5000" "CRC" "2025-10-20T15:00:00.000Z";
    transaction 3 "8" "USD" "yesterday";
    transaction 4 "7" "USD" "2025-12-31T12:00:00.000Z" ].

End ExpenseSamples.

(** The amounts of the expenses of local day [d], added one after the
    other to [start]. *)
Definition dayTotal `{Host} `{Arithmetic} (d : Z) (expenses : list Expense.t)
           (start : Num.number) : Num.number :=
  fold_left
    (fun acc expense =>
       if LocalDate.sameNumber
            (LocalDate.getDate (JSDate.ofString (Expense.createdAt expense))) (Some d)
       then add acc (Expense.amount expense) else acc)
    expenses start.

(** The entries of [dailyData], of which the first is that of day [d],
    after the expenses were added. *)
Fixpoint totalsFrom `{Host} `{Arithmetic} (d : Z) (expenses : list Expense.t)
         (dailyData : list DailyTrendData.t) : list DailyTrendData.t :=
  match dailyData with
  | [] => []
  | entry :: rest =>
      DailyTrendData.mk (DailyTrendData.day entry)
                        (dayTotal d expenses (DailyTrendData.amount entry))
      :: totalsFrom (d + 1) expenses rest
  end.

(** The daily data of a month of [n] days for a list of expenses. *)
Definition monthTotals `{Host} `{Arithmetic} (n : Z) (expenses : list Expense.t)
  : list DailyTrendData.t :=
  List.map (fun i => DailyTrendData.mk (Z.of_nat i + 1)
                       (dayTotal (Z.of_nat i + 1) expenses ExpenseUtils.zero))
           (seq 0 (Z.to_nat n)).

(** The transactions whose date can be read. *)
Definition dated `{Host} (transactions : list Transaction.t) : list Transaction.t :=
  filter (fun transaction =>
            match JSDate.ofString (Transaction.transactionDate transaction) with
            | Some _ => true
            | None => false
            end)
         transactions.

(* ------------------------------------------------------------------ *)
(** ** Vocabulary: the labels of a response *)
(* ------------------------------------------------------------------ *)







(* ================================================================== *)
(** * Properties *)
(* ================================================================== *)

(* ------------------------------------------------------------------ *)
(** ** The matcher *)
(* ------------------------------------------------------------------ *)

Section Engine.

Import Regex.

Lemma run_Star (a : re) (s : st) (k : st -> option st) :
  run (Star a) s k = starLoop (run a) k (List.length (rest s)) s.
Proof. reflexivity. Qed.

Lemma matchAt_start (r : re) (input : jsstring) (i : nat) (m : mres) :
  matchAt r input i = Some m -> mstart m = i.
Proof.
  unfold matchAt. destruct (run r _ _); intros E; inversion E. reflexivity.
Qed.

Lemma search_bounds (r : re) (input : jsstring) (n : nat) :
  forall i m, search n r input i = Some m -> i <= mstart m.
Proof.
  induction n as [|n IH]; intros i m; cbn [search];
    destruct (matchAt r input i) as [m0|] eqn:Hm.
  - intros E. inversion E; subst m0. rewrite (matchAt_start _ _ _ Hm). lia.
  - discriminate.
  - intros E. inversion E; subst m0. rewrite (matchAt_start _ _ _ Hm). lia.
  - intros E. apply IH in E. lia.
Qed.

Lemma exec_bounds (r : re) (input : jsstring) (i : nat) (m : mres) :
  exec r input i = Some m -> i <= mstart m.
Proof.
  unfold exec. destruct (List.length input <? i); [discriminate|].
  apply search_bounds.
Qed.

Lemma exec_hit (r : re) (input : jsstring) (i : nat) (m : mres) :
  matchAt r input i = Some m -> i <= List.length input -> exec r input i = Some m.
Proof.
  intros Hm Hi. unfold exec.
  assert (Hlt : (List.length input <? i) = false) by (apply Nat.ltb_ge; lia).
  rewrite Hlt. destruct (List.length input - i); cbn [search]; rewrite Hm; reflexivity.
Qed.

Lemma exec_skip (r : re) (input : jsstring) (i : nat) :
  matchAt r input i = None -> i < List.length input ->
  exec r input i = exec r input (S i).
Proof.
  intros Hm Hi. unfold exec.
  assert (Hlt : (List.length input <? i) = false) by (apply Nat.ltb_ge; lia).
  assert (Hlt' : (List.length input <? S i) = false) by (apply Nat.ltb_ge; lia).
  rewrite Hlt, Hlt'.
  replace (List.length input - i) with (S (List.length input - S i)) by lia.
  cbn [search]. rewrite Hm. reflexivity.
Qed.

Lemma exec_end (r : re) (input : jsstring) (i : nat) :
  matchAt r input i = None -> List.length input <= i -> exec r input i = None.
Proof.
  intros Hm Hi. unfold exec.
  destruct (List.length input <? i); [reflexivity|].
  replace (List.length input - i) with 0 by lia.
  cbn [search]. rewrite Hm. reflexivity.
Qed.

Lemma skipn_nth {A : Type} (l : list A) (i : nat) (x : A) :
  nth_error l i = Some x -> skipn i l = x :: skipn (S i) l.
Proof.
  revert i. induction l as [|y l IH]; intros [|i]; cbn [nth_error]; try discriminate.
  - intros E. inversion E. reflexivity.
  - intros E. cbn [skipn]. rewrite (IH i E). reflexivity.
Qed.

Lemma skipn_none {A : Type} (l : list A) (i : nat) :
  nth_error l i = None -> skipn i l = [].
Proof. intros E. apply skipn_all2. apply nth_error_None. exact E. Qed.

Lemma substring_cons (input : jsstring) (i j : nat) (x : N) :
  nth_error input i = Some x -> S i <= j ->
  substring input i j = x :: substring input (S i) j.
Proof.
  intros Hx Hj. unfold substring. rewrite (skipn_nth _ _ Hx).
  replace (j - i) with (S (j - S i)) by lia. reflexivity.
Qed.

(** No match at [i]: the code unit at [i] is copied. *)
Lemma replaceG_go_skip (r : re) (t : list piece) (input : jsstring) (n i : nat) (x : N) :
  matchAt r input i = None -> nth_error input i = Some x ->
  replaceG_go n r t input i = x :: replaceG_go n r t input (S i).
Proof.
  intros Hm Hx.
  assert (Hi : i < List.length input) by (apply nth_error_Some; rewrite Hx; discriminate).
  destruct n as [|n]; cbn [replaceG_go]; rewrite (exec_skip _ _ Hm Hi);
    destruct (exec r input (S i)) as [m|] eqn:He;
    try (rewrite (skipn_nth _ _ Hx); reflexivity);
    apply exec_bounds in He;
    rewrite (substring_cons _ Hx He); [reflexivity|].
  destruct (mend m =? mstart m); reflexivity.
Qed.

(** A match at [i] that is not empty: its replacement, and the search
    goes on at its end. *)
Lemma replaceG_go_hit (r : re) (t : list piece) (input : jsstring) (n i : nat) (m : mres) :
  matchAt r input i = Some m -> i <= List.length input -> mend m <> i ->
  replaceG_go (S n) r t input i = expand input m t ++ replaceG_go n r t input (mend m).
Proof.
  intros Hm Hi Hne. cbn [replaceG_go]. rewrite (exec_hit _ _ Hm Hi).
  rewrite (matchAt_start _ _ _ Hm).
  assert (Hneq : (mend m =? i) = false) by (apply Nat.eqb_neq; exact Hne).
  rewrite Hneq. unfold substring. rewrite Nat.sub_diag. reflexivity.
Qed.

Lemma replaceG_go_end (r : re) (t : list piece) (input : jsstring) (n i : nat) :
  matchAt r input i = None -> nth_error input i = None ->
  replaceG_go n r t input i = [].
Proof.
  intros Hm Hx.
  assert (Hi : List.length input <= i) by (apply nth_error_None; exact Hx).
  destruct n; cbn [replaceG_go]; rewrite (exec_end _ _ Hm Hi); apply skipn_none; exact Hx.
Qed.

(** A class of code units. *)
Lemma matchAt_Chr (p : N -> bool) (input : jsstring) (i : nat) :
  matchAt (Chr p) input i
  = match nth_error input i with
    | Some x => if p x then Some (mkRes i (S i) []) else None
    | None => None
    end.
Proof.
  unfold matchAt. cbn [run rest pos caps].
  destruct (nth_error input i) as [x|] eqn:Hx.
  - rewrite (skipn_nth _ _ Hx). destruct (p x); reflexivity.
  - rewrite (skipn_none _ _ Hx). reflexivity.
Qed.

Lemma replaceG_go_Chr (p : N -> bool) (t : list piece) (e : jsstring) (input : jsstring) :
  (forall m, expand input m t = e) ->
  forall k i n,
    List.length input - i <= k -> List.length input - i <= n ->
    replaceG_go n (Chr p) t input i
    = flat_map (fun x => if p x then e else [x]) (skipn i input).
Proof.
  intros He. induction k as [|k IH]; intros i n Hk Hn.
  - assert (Hx : nth_error input i = None) by (apply nth_error_None; lia).
    rewrite (skipn_none _ _ Hx). apply replaceG_go_end; [|exact Hx].
    rewrite matchAt_Chr, Hx. reflexivity.
  - destruct (nth_error input i) as [x|] eqn:Hx.
    + assert (Hi : i < List.length input) by (apply nth_error_Some; rewrite Hx; discriminate).
      rewrite (skipn_nth _ _ Hx). cbn [flat_map].
      destruct (p x) eqn:Hp.
      * destruct n as [|n]; [lia|].
        rewrite (@replaceG_go_hit (Chr p) t input n i (mkRes i (S i) []));
          [|rewrite matchAt_Chr, Hx, Hp; reflexivity | lia | cbn [mend]; lia].
        rewrite He. cbn [mend]. rewrite (IH (S i) n); [reflexivity | lia | lia].
      * rewrite (@replaceG_go_skip (Chr p) t input n i x);
          [|rewrite matchAt_Chr, Hx, Hp; reflexivity | exact Hx].
        rewrite (IH (S i) n); [reflexivity | lia | lia].
    + rewrite (skipn_none _ _ Hx). apply replaceG_go_end; [|exact Hx].
      rewrite matchAt_Chr, Hx. reflexivity.
Qed.

(** [s.replace(/[class]/g, e)] for a replacement without references:
    each code unit of the class becomes [e]. *)
Lemma replaceG_Chr (p : N -> bool) (t : list piece) (e : jsstring) (input : jsstring) :
  (forall m, expand input m t = e) ->
  replaceG (Chr p) t input = flat_map (fun x => if p x then e else [x]) input.
Proof.
  intros He. unfold replaceG.
  rewrite (@replaceG_go_Chr p t e input He (List.length input) 0 (S (List.length input)));
    [reflexivity | lia | lia].
Qed.

Lemma flat_map_filter (p : N -> bool) (l : jsstring) :
  flat_map (fun x => if p x then [] else [x]) l = filter (fun x => negb (p x)) l.
Proof.
  induction l as [|x l IH]; [reflexivity|].
  cbn [flat_map filter]. destruct (p x); cbn [negb app]; rewrite IH; reflexivity.
Qed.

Lemma replaceG_Chr_delete (p : N -> bool) (input : jsstring) :
  replaceG (Chr p) [] input = filter (fun x => negb (p x)) input.
Proof.
  rewrite (@replaceG_Chr p [] [] input); [apply flat_map_filter|].
  intros m. reflexivity.
Qed.

Lemma replaceG_Chr_map (p : N -> bool) (y : N) (input : jsstring) :
  replaceG (Chr p) [Lit [y]] input = List.map (fun x => if p x then y else x) input.
Proof.
  rewrite (@replaceG_Chr p [Lit [y]] [y] input); [|intros m; reflexivity].
  induction input as [|x l IH]; [reflexivity|].
  cbn [flat_map List.map]. rewrite IH. destruct (p x); reflexivity.
Qed.

(** The greedy loop on a class consumes the longest run. *)
Lemma starLoop_Chr (p : N -> bool) (n : nat) :
  forall j l cs,
    spanLen p l <= n ->
    starLoop (run (Chr p)) (fun s => Some s) n (mkSt j l cs)
    = Some (mkSt (j + spanLen p l) (skipn (spanLen p l) l) cs).
Proof.
  induction n as [|n IH]; intros j l cs Hn.
  - cbn [starLoop]. replace (spanLen p l) with 0 by lia.
    rewrite Nat.add_0_r. reflexivity.
  - cbn [starLoop run rest pos caps].
    destruct l as [|x l]; [cbn [spanLen skipn]; rewrite Nat.add_0_r; reflexivity|].
    cbn [spanLen] in *. destruct (p x).
    + assert (Hlt : (j <? S j) = true) by (apply Nat.ltb_lt; lia).
      rewrite Hlt. rewrite IH; [|lia]. cbn [skipn].
      replace (S j + spanLen p l) with (j + S (spanLen p l)) by lia. reflexivity.
    + cbn [skipn]. rewrite Nat.add_0_r. reflexivity.
Qed.

Lemma spanLen_le (p : N -> bool) (l : jsstring) : spanLen p l <= List.length l.
Proof.
  induction l as [|x l IH]; [cbn; lia|]. cbn [spanLen List.length].
  destruct (p x); lia.
Qed.

Lemma matchAt_Plus_Chr (p : N -> bool) (input : jsstring) (i : nat) :
  matchAt (Plus (Chr p)) input i
  = match nth_error input i with
    | Some x =>
        if p x then Some (mkRes i (S i + spanLen p (skipn (S i) input)) []) else None
    | None => None
    end.
Proof.
  unfold matchAt, Plus. cbn [run rest pos caps].
  destruct (nth_error input i) as [x|] eqn:Hx.
  - rewrite (skipn_nth _ _ Hx). destruct (p x); [|reflexivity].
    change (match starLoop (run (Chr p)) (fun s => Some s)
                    (List.length (skipn (S i) input))
                    (mkSt (S i) (skipn (S i) input) []) with
            | Some s => Some (mkRes i (pos s) (caps s))
            | None => None
            end
            = Some (mkRes i (S i + spanLen p (skipn (S i) input)) [])).
    rewrite starLoop_Chr; [reflexivity | apply spanLen_le].
  - rewrite (skipn_none _ _ Hx). reflexivity.
Qed.

Lemma collapseFrom_true (l : jsstring) :
  collapseFrom true l = collapseFrom false (skipn (spanLen isSpace l) l).
Proof.
  induction l as [|x l IH]; [reflexivity|].
  cbn [collapseFrom spanLen]. destruct (isSpace x) eqn:Hx.
  - cbn [skipn]. exact IH.
  - cbn [skipn collapseFrom]. rewrite Hx. reflexivity.
Qed.

Lemma replaceG_go_spaces (input : jsstring) :
  forall k i n,
    List.length input - i <= k -> List.length input - i <= n ->
    replaceG_go n reSpaces [Lit [32%N]] input i = collapseFrom false (skipn i input).
Proof.
  unfold reSpaces, sp.
  induction k as [|k IH]; intros i n Hk Hn.
  - assert (Hx : nth_error input i = None) by (apply nth_error_None; lia).
    rewrite (skipn_none _ _ Hx). apply replaceG_go_end; [|exact Hx].
    rewrite matchAt_Plus_Chr, Hx. reflexivity.
  - destruct (nth_error input i) as [x|] eqn:Hx.
    + assert (Hi : i < List.length input) by (apply nth_error_Some; rewrite Hx; discriminate).
      rewrite (skipn_nth _ _ Hx). cbn [collapseFrom].
      destruct (isSpace x) eqn:Hp.
      * destruct n as [|n]; [lia|].
        pose proof (spanLen_le isSpace (skipn (S i) input)) as Hle.
        rewrite length_skipn in Hle.
        rewrite (@replaceG_go_hit (Plus (Chr isSpace)) [Lit [32%N]] input n i
                   (mkRes i (S i + spanLen isSpace (skipn (S i) input)) []));
          [|rewrite matchAt_Plus_Chr, Hx, Hp; reflexivity | lia | cbn [mend]; lia].
        cbn [mend]. rewrite IH; [|lia|lia].
        rewrite collapseFrom_true, Nat.add_comm, <- skipn_skipn. reflexivity.
      * rewrite (@replaceG_go_skip (Plus (Chr isSpace)) [Lit [32%N]] input n i x);
          [|rewrite matchAt_Plus_Chr, Hx, Hp; reflexivity | exact Hx].
        rewrite (IH (S i) n); [reflexivity | lia | lia].
    + rewrite (skipn_none _ _ Hx). apply replaceG_go_end; [|exact Hx].
      rewrite matchAt_Plus_Chr, Hx. reflexivity.
Qed.

(** [s.replace(/\s+/g, ' ')] *)
Lemma replaceG_spaces (input : jsstring) :
  replaceG reSpaces [Lit [32%N]] input = collapseFrom false input.
Proof.
  unfold replaceG.
  rewrite (@replaceG_go_spaces input (List.length input) 0 (S (List.length input)));
    [reflexivity | lia | lia].
Qed.

End Engine.

(* ------------------------------------------------------------------ *)
(** ** The text of a capture group *)
(* ------------------------------------------------------------------ *)

Section Capture.

Import Regex.

Variable input : jsstring.

Lemma skipn_tail (i : nat) (x : N) (t : jsstring) :
  skipn i input = x :: t -> skipn (S i) input = t.
Proof.
  intros E. destruct (nth_error input i) as [y|] eqn:Hn.
  - rewrite (skipn_nth _ _ Hn) in E. inversion E. reflexivity.
  - rewrite (skipn_none _ _ Hn) in E. discriminate E.
Qed.

(** A match goes through its continuation, in a state that is still a
    position of the input. *)
Lemma run_reaches (r : re) :
  forall s k s',
    rest s = skipn (pos s) input -> run r s k = Some s' ->
    exists s1, rest s1 = skipn (pos s1) input /\ k s1 = Some s'.
Proof.
  induction r as [|p|a IHa b IHb|a IHa b IHb|a IHa|i a IHa| |]; intros s k s' Hwf Hrun.
  - exists s. split; assumption.
  - cbn [run] in Hrun. destruct (rest s) as [|x t] eqn:Hr; [discriminate|].
    destruct (p x); [|discriminate].
    eexists. split; [|exact Hrun]. cbn [rest pos].
    symmetry. apply (@skipn_tail _ x). rewrite <- Hwf. reflexivity.
  - cbn [run] in Hrun.
    destruct (IHa _ _ _ Hwf Hrun) as [s1 [Hwf1 Hrun1]].
    exact (IHb _ _ _ Hwf1 Hrun1).
  - cbn [run] in Hrun. destruct (run a s k) as [x|] eqn:Ha.
    + injection Hrun as ->. exact (IHa _ _ _ Hwf Ha).
    + exact (IHb _ _ _ Hwf Hrun).
  - rewrite run_Star in Hrun. generalize dependent (List.length (rest s)).
    intros n. revert s Hwf.
    induction n as [|n IHn]; intros s0 Hwf Hrun.
    + exists s0. split; assumption.
    + cbn [starLoop] in Hrun.
      destruct (run a s0 _) as [x|] eqn:Ha.
      * injection Hrun as ->.
        destruct (IHa _ _ _ Hwf Ha) as [s1 [Hwf1 Hk]].
        destruct (pos s0 <? pos s1); [|discriminate].
        exact (IHn s1 Hwf1 Hk).
      * exists s0. split; assumption.
  - cbn [run] in Hrun.
    destruct (IHa _ _ _ Hwf Hrun) as [s1 [Hwf1 Hk]].
    eexists. split; [|exact Hk]. exact Hwf1.
  - cbn [run] in Hrun. destruct (pos s =? 0); [|discriminate]. exists s. split; assumption.
  - cbn [run] in Hrun. destruct (rest s) eqn:Hr; [|discriminate].
    exists s. split; [rewrite Hr; exact Hwf | exact Hrun].
Qed.

Lemma run_Seq_reaches (a b : re) (s : st) (k : st -> option st) (s' : st) :
  rest s = skipn (pos s) input -> run (Seq a b) s k = Some s' ->
  exists s1, rest s1 = skipn (pos s1) input /\ run b s1 k = Some s'.
Proof. intros Hwf Hrun. exact (run_reaches a _ _ Hwf Hrun). Qed.

Lemma firstn_spanLen (p : N -> bool) (l : jsstring) :
  Forall (fun x => p x = true) (firstn (spanLen p l) l).
Proof.
  induction l as [|x l IH]; [constructor|].
  cbn [spanLen]. destruct (p x) eqn:Hx; [|constructor].
  cbn [firstn]. constructor; assumption.
Qed.

(** A group around [[...]+] that ends the pattern holds a run of code
    units of the class, at least one. *)
Lemma run_last_group (g : nat) (p : N -> bool) (s s' : st) :
  rest s = skipn (pos s) input ->
  run (Group g (Plus (Chr p))) s (fun x => Some x) = Some s' ->
  exists raw,
    group input (mkRes 0 (pos s') (caps s')) g = Some raw
    /\ raw <> [] /\ Forall (fun x => p x = true) raw.
Proof.
  intros Hwf Hrun. unfold Plus in Hrun. cbn [run] in Hrun.
  destruct (rest s) as [|x t] eqn:Hr; [discriminate|].
  destruct (p x) eqn:Hx; [|discriminate].
  cbn [rest pos caps] in Hrun.
  change (starLoop (run (Chr p))
            (fun s1 => Some (mkSt (pos s1) (rest s1) ((g, (pos s, pos s1)) :: caps s1)))
            (List.length t) (mkSt (S (pos s)) t (caps s)) = Some s') in Hrun.
  assert (Hloop : forall n j l cs,
             spanLen p l <= n ->
             starLoop (run (Chr p))
               (fun s1 => Some (mkSt (pos s1) (rest s1) ((g, (pos s, pos s1)) :: caps s1)))
               n (mkSt j l cs)
             = Some (mkSt (j + spanLen p l) (skipn (spanLen p l) l)
                          ((g, (pos s, j + spanLen p l)) :: cs))).
  { induction n as [|n IH]; intros j l cs Hn.
    - cbn [starLoop pos rest caps]. replace (spanLen p l) with 0 by lia.
      rewrite Nat.add_0_r. reflexivity.
    - cbn [starLoop run rest pos caps].
      destruct l as [|y l]; [cbn [spanLen skipn]; rewrite Nat.add_0_r; reflexivity|].
      cbn [spanLen] in *. destruct (p y).
      + assert (Hlt : (j <? S j) = true) by (apply Nat.ltb_lt; lia).
        rewrite Hlt. rewrite IH; [|lia]. cbn [skipn].
        replace (S j + spanLen p l) with (j + S (spanLen p l)) by lia. reflexivity.
      + cbn [skipn]. rewrite Nat.add_0_r. reflexivity. }
  rewrite Hloop in Hrun by apply spanLen_le.
  injection Hrun as <-. cbn [pos caps].
  exists (x :: firstn (spanLen p t) t).
  split; [|split].
  - unfold group. cbn [mcaps lookup]. rewrite Nat.eqb_refl.
    unfold substring. rewrite <- Hwf.
    replace (S (pos s + spanLen p t) - pos s) with (S (spanLen p t)) by lia.
    reflexivity.
  - discriminate.
  - constructor; [exact Hx | apply firstn_spanLen].
Qed.

Lemma search_matchAt (r : re) (n : nat) :
  forall i m, search n r input i = Some m -> exists j, matchAt r input j = Some m.
Proof.
  induction n as [|n IH]; intros i m; cbn [search];
    destruct (matchAt r input i) as [m0|] eqn:Hm.
  - intros E. injection E as <-. exists i. exact Hm.
  - discriminate.
  - intros E. injection E as <-. exists i. exact Hm.
  - apply IH.
Qed.

Lemma exec_matchAt (r : re) (i : nat) (m : mres) :
  exec r input i = Some m -> exists j, matchAt r input j = Some m.
Proof.
  unfold exec. destruct (List.length input <? i); [discriminate|]. apply search_matchAt.
Qed.

End Capture.

(* ------------------------------------------------------------------ *)
(** ** The category pattern *)
(* ------------------------------------------------------------------ *)

Section CategoryPattern.

Import Regex.





End CategoryPattern.

Section CategoryMatch.

Import Regex.





End CategoryMatch.

Section CategoryLabels.

Import Regex.















End CategoryLabels.


(* ------------------------------------------------------------------ *)
(** ** The keyword classifier *)
(* ------------------------------------------------------------------ *)

Lemma keywordLabels_closed : forallb isCategory keywordLabels = true.
Proof. vm_compute. reflexivity. Qed.

Lemma determineCategory_label `{Host} (m : jsstring) :
  In (determineCategory m) keywordLabels.
Proof.
  unfold determineCategory, keywordLabels.
  repeat match goal with
         | |- context [if ?b then _ else _] => destruct b
         end; simpl; tauto.
Qed.

(** C10. [determineCategory] is total, and on every merchant string, under
    every host, its result is one of eight labels: Groceries,
    Transportation, Food & Dining, Shopping, Utilities, Healthcare,
    Entertainment, Other.  Each of the eight is a member of
    EXPENSE_CATEGORIES and each is the result for some merchant. *)
Theorem determineCategory_eight_labels :
  (forall (H : Host) (m : jsstring),
      In (determineCategory m) keywordLabels
      /\ isCategory (determineCategory m) = true)
  /\ List.length keywordLabels = 8
  /\ NoDup keywordLabels
  /\ (forall l, In l keywordLabels ->
                exists m, @determineCategory (host 0 0) m = l).
Proof.
  split; [|split; [reflexivity|split]].
  - intros H m. pose proof (determineCategory_label m) as Hin. split; [exact Hin|].
    pose proof keywordLabels_closed as Hc. rewrite forallb_forall in Hc. auto.
  - unfold keywordLabels.
    repeat (constructor; [simpl; intros Hin;
                          repeat (destruct Hin as [Hin|Hin]; [discriminate Hin|]); exact Hin|]).
    constructor.
  - intros l Hl. unfold keywordLabels in Hl. simpl in Hl.
    destruct Hl as [<-|[<-|[<-|[<-|[<-|[<-|[<-|[<-|[]]]]]]]]].
    + exists (u "Fresh Market"). vm_compute. reflexivity.
    + exists (u "SHELL"). vm_compute. reflexivity.
    + exists (u "Pizza Hut"). vm_compute. reflexivity.
    + exists (u "Amazon"). vm_compute. reflexivity.
    + exists (u "Internet CR"). vm_compute. reflexivity.
    + exists (u "Hospital CIMA"). vm_compute. reflexivity.
    + exists (u "Netflix"). vm_compute. reflexivity.
    + exists (u "Uber"). vm_compute. reflexivity.
Qed.

(** The default: a merchant that mentions none of the keywords is
    classified Other. *)
Lemma determineCategory_default `{Host} (m : jsstring) :
  (forall w, In w ["grocery"; "market"; "supermarket"; "food"; "gas"; "fuel"; "shell";
                   "exxon"; "restaurant"; "cafe"; "pizza"; "burger"; "amazon"; "shop";
                   "electric"; "water"; "internet"; "phone"; "pharmacy"; "medical";
                   "doctor"; "hospital"; "movie"; "theater"; "netflix"; "spotify"]%string ->
             mentions (toLowerCase m) w = false) ->
  determineCategory m = u "Other".
Proof.
  intros Hno. unfold determineCategory.
  repeat rewrite Hno by (simpl; tauto). reflexivity.
Qed.

(* ------------------------------------------------------------------ *)
(** ** Field extraction *)
(* ------------------------------------------------------------------ *)

Lemma resolveDate_order `{Host} (text headerDate : jsstring) :
  resolveDate (field (u "Fecha:") text) headerDate
  = JSDate.toISOString (resolutionOrder (bodyDate text) (JSDate.ofString headerDate) now).
Proof.
  unfold resolveDate, bodyDate, resolutionOrder, present.
  destruct (field (u "Fecha:") text) as [d|]; [|destruct (JSDate.ofString headerDate); reflexivity].
  destruct (JS.truthy d); [|destruct (JSDate.ofString headerDate); reflexivity].
  destruct (JSDate.ofString d); [reflexivity|].
  destruct (JSDate.ofString headerDate); reflexivity.
Qed.

(** What an accepted body is turned into. *)
Lemma parseExpenseFromTextWithoutAI_some `{Host} (text from headerDate : jsstring) (e : ParsedExpense) :
  parseExpenseFromTextWithoutAI text from headerDate = Some e ->
  statedMerchant text = Some (merchant e)
  /\ statedAmount text = Some (amount e)
  /\ JS.truthy (merchant e) = true
  /\ Num.isNaN (amount e) = false /\ Num.leq0 (amount e) = false
  /\ date e = resolveDate (field (u "Fecha:") text) headerDate
  /\ category e = Some (u "Other").
Proof.
  unfold parseExpenseFromTextWithoutAI, statedMerchant, statedAmount.
  destruct (field (u "Comercio:") text) as [m|]; [|discriminate].
  destruct (field (u "Monto:") text) as [s|]; [|discriminate]. simpl.
  destruct (split 32 (replaceFirstUnit 44 [] s)) as [|cur [|a rest]]; try discriminate.
  destruct (JS.truthy m) eqn:Hm; simpl; [|discriminate].
  destruct (Num.isNaN (Num.parseFloat a)) eqn:Hn; simpl; [discriminate|].
  destruct (Num.leq0 (Num.parseFloat a)) eqn:Hl; simpl; [discriminate|].
  intros Heq. inversion Heq; subst; simpl. repeat split; auto.
Qed.

(** C9. The date of an extracted record is resolved in this order: the
    date parsed from the body when it is a valid date, else the Date header
    of the message when it is valid, else the clock. *)
Theorem date_resolution_order :
  forall (H : Host) (text from headerDate : jsstring) (e : ParsedExpense),
    parseExpenseFromTextWithoutAI text from headerDate = Some e ->
    date e = JSDate.toISOString
               (resolutionOrder (bodyDate text) (JSDate.ofString headerDate) now).
Proof.
  intros H text from headerDate e He.
  apply parseExpenseFromTextWithoutAI_some in He.
  destruct He as (_ & _ & _ & _ & _ & Hd & _).
  rewrite Hd. apply resolveDate_order.
Qed.

(** The three sources at work, in a host in UTC whose clock reads one
    second after the epoch: a body with an ISO date, a body whose date is
    not a date under a valid header, and neither. *)
Lemma date_resolution_order_witness :
  (exists e, parseExpenseFromTextWithoutAI (H := host 0 1000)
               (notification "Uber" "2025-10-15T10:00:00Z" "USD 12.50") []
               (u "2025-10-16T08:00:00Z") = Some e
             /\ date e = u "2025-10-15T10:00:00.000Z")
  /\ (exists e, parseExpenseFromTextWithoutAI (H := host 0 1000)
                  (notification "Uber" "ayer" "USD 12.50") []
                  (u "2025-10-16T08:00:00Z") = Some e
                /\ date e = u "2025-10-16T08:00:00.000Z")
  /\ (exists e, parseExpenseFromTextWithoutAI (H := host 0 1000)
                  (notification "Uber" "ayer" "USD 12.50") [] (u "sin fecha") = Some e
                /\ date e = u "1970-01-01T00:00:01.000Z").
Proof.
  repeat split.
  - eexists. split; [vm_compute; reflexivity|].
    match goal with
    | |- date ?e = _ =>
        assert (Hp : parseExpenseFromTextWithoutAI (H := host 0 1000)
                       (notification "Uber" "2025-10-15T10:00:00Z" "USD 12.50") []
                       (u "2025-10-16T08:00:00Z") = Some e) by (vm_compute; reflexivity);
        rewrite (date_resolution_order _ _ _ _ Hp)
    end.
    vm_compute. reflexivity.
  - eexists. split; [vm_compute; reflexivity|].
    match goal with
    | |- date ?e = _ =>
        assert (Hp : parseExpenseFromTextWithoutAI (H := host 0 1000)
                       (notification "Uber" "ayer" "USD 12.50") []
                       (u "2025-10-16T08:00:00Z") = Some e) by (vm_compute; reflexivity);
        rewrite (date_resolution_order _ _ _ _ Hp)
    end.
    vm_compute. reflexivity.
  - eexists. split; [vm_compute; reflexivity|].
    match goal with
    | |- date ?e = _ =>
        assert (Hp : parseExpenseFromTextWithoutAI (H := host 0 1000)
                       (notification "Uber" "ayer" "USD 12.50") [] (u "sin fecha") = Some e)
          by (vm_compute; reflexivity);
        rewrite (date_resolution_order _ _ _ _ Hp)
    end.
    vm_compute. reflexivity.
Defined.

(** C8, as stated, fails: the amount text [Infinity] does not parse to a
    finite number, and the body is accepted with the amount Infinity. *)
Lemma infinite_amount_accepted :
  statedMerchant (notification "Uber" "2025-10-15T10:00:00Z" "USD Infinity") = Some (u "Uber")
  /\ finitePositive (statedAmount (notification "Uber" "2025-10-15T10:00:00Z" "USD Infinity")) = false
  /\ exists e,
      parseExpenseFromTextWithoutAI (H := host 0 1000)
        (notification "Uber" "2025-10-15T10:00:00Z" "USD Infinity") [] [] = Some e
      /\ amount e = Num.Inf false.
Proof.
  split; [vm_compute; reflexivity|]. split; [vm_compute; reflexivity|].
  eexists. split; vm_compute; reflexivity.
Qed.

(** The same holds for a decimal literal beyond the range of doubles. *)
Lemma overflowing_amount_accepted :
  exists e,
    parseExpenseFromTextWithoutAI (H := host 0 1000)
      (notification "Uber" "2025-10-15T10:00:00Z" "USD 1e400") [] [] = Some e
    /\ amount e = Num.Inf false.
Proof. eexists. split; vm_compute; reflexivity. Qed.

(** C8, amended.  Field extraction returns null, and throws nothing,
    whenever the merchant is missing or empty, or the amount cell has no
    second token, or that token parses to NaN or to a number [<= 0]. *)
Theorem extraction_rejects_invalid :
  forall (H : Host) (text from headerDate : jsstring),
    present (statedMerchant text) = false
    \/ positiveNumber (statedAmount text) = false ->
    parseExpenseFromTextWithoutAI text from headerDate = None.
Proof.
  intros H text from headerDate Hbad.
  destruct (parseExpenseFromTextWithoutAI text from headerDate) as [e|] eqn:He; [|reflexivity].
  apply parseExpenseFromTextWithoutAI_some in He.
  destruct He as (Hm & Ha & Ht & Hn & Hl & _).
  unfold present, positiveNumber in Hbad. rewrite Hm, Ha, Ht, Hn, Hl in Hbad.
  destruct Hbad; discriminate.
Qed.

(** Amounts [0], [-5] and a missing merchant. *)
Lemma extraction_rejects_invalid_witness :
  parseExpenseFromTextWithoutAI (H := host 0 1000)
    (notification "Uber" "2025-10-15T10:00:00Z" "USD 0") [] [] = None
  /\ parseExpenseFromTextWithoutAI (H := host 0 1000)
       (notification "Uber" "2025-10-15T10:00:00Z" "USD -5") [] [] = None
  /\ parseExpenseFromTextWithoutAI (H := host 0 1000)
       (u "<table><tr><td><p>Monto:</p></td><td><p>USD 12.50</p></td></tr></table>") [] [] = None.
Proof.
  split; [|split].
  - apply (extraction_rejects_invalid (host 0 1000)). right. vm_compute. reflexivity.
  - apply (extraction_rejects_invalid (host 0 1000)). right. vm_compute. reflexivity.
  - apply (extraction_rejects_invalid (host 0 1000)). left. vm_compute. reflexivity.
Defined.

(** Conversely, a body with a merchant and such an amount is accepted. *)
Lemma extraction_accepts_valid `{Host} (text from headerDate : jsstring) :
  present (statedMerchant text) = true ->
  positiveNumber (statedAmount text) = true ->
  exists e, parseExpenseFromTextWithoutAI text from headerDate = Some e.
Proof.
  unfold present, positiveNumber, statedMerchant, statedAmount, parseExpenseFromTextWithoutAI.
  destruct (field (u "Comercio:") text) as [m|]; [|discriminate].
  destruct (field (u "Monto:") text) as [s|]; [|discriminate]. simpl.
  destruct (split 32 (replaceFirstUnit 44 [] s)) as [|cur [|a rest]]; try discriminate.
  intros -> Hp. simpl.
  apply andb_true_iff in Hp. destruct Hp as [Hn Hl].
  apply negb_true_iff in Hn. apply negb_true_iff in Hl. rewrite Hn, Hl. simpl.
  eexists. reflexivity.
Qed.

(** The whole message: whatever its parts hold, parsing gives an expense
    or null; a body that is not base64 gives null. *)
Lemma undecodable_body_is_null :
  parseExpenseEmailWithoutAI (H := host 0 1000)
    (mkMessage (u "m") [] (Some (u "%%%")) None) = None.
Proof. vm_compute. reflexivity. Qed.

(* ------------------------------------------------------------------ *)
(** ** JSON.parse: the fuel is enough *)
(* ------------------------------------------------------------------ *)

Lemma skipWs_length (s : jsstring) : List.length (Json.skipWs s) <= List.length s.
Proof.
  induction s as [|x s IH]; simpl; [lia|].
  destruct (Json.isWs x); simpl; lia.
Qed.

Lemma pString_shorter (n : nat) :
  forall s acc str r,
    List.length s <= n -> Json.pString s acc = Json.Ok str r -> List.length r < List.length s.
Proof.
  induction n as [|n IH]; intros s acc str r Hn.
  - destruct s; [discriminate|simpl in Hn; lia].
  - destruct s as [|x t]; [discriminate|]. simpl in Hn. cbn [Json.pString].
    destruct (N.eqb x 34). { intros Heq; inversion Heq; subst; simpl; lia. }
    destruct (x <? 32)%N; [discriminate|].
    destruct (N.eqb x 92).
    + destruct t as [|e t1]; [discriminate|]. simpl in Hn.
      repeat match goal with
             | |- context [if N.eqb e ?c then _ else _] =>
                 destruct (N.eqb e c);
                 [intros Heq; apply IH in Heq; [simpl; lia|lia]|]
             end.
      destruct (N.eqb e 117); [|discriminate].
      destruct t1 as [|h1 [|h2 [|h3 [|h4 t2]]]]; try discriminate.
      destruct (Json.hexVal h1), (Json.hexVal h2), (Json.hexVal h3), (Json.hexVal h4);
        try discriminate.
      intros Heq; apply IH in Heq; simpl in *; lia.
    + intros Heq; apply IH in Heq; simpl; lia.
Qed.

Lemma pString_fuel (s acc : jsstring) : Json.pString s acc <> Json.OutOfFuel.
Proof.
  remember (List.length s) as n eqn:Hn. assert (Hle : List.length s <= n) by lia. clear Hn.
  revert s acc Hle. induction n as [|n IH]; intros s acc Hle.
  - destruct s; [discriminate|simpl in Hle; lia].
  - destruct s as [|x t]; [discriminate|]. simpl in Hle. cbn [Json.pString].
    destruct (N.eqb x 34); [discriminate|].
    destruct (x <? 32)%N; [discriminate|].
    destruct (N.eqb x 92).
    + destruct t as [|e t1]; [discriminate|]. simpl in Hle.
      repeat match goal with
             | |- context [if N.eqb e ?c then _ else _] =>
                 destruct (N.eqb e c); [apply IH; lia|]
             end.
      destruct (N.eqb e 117); [|discriminate].
      destruct t1 as [|h1 [|h2 [|h3 [|h4 t2]]]]; try discriminate.
      destruct (Json.hexVal h1), (Json.hexVal h2), (Json.hexVal h3), (Json.hexVal h4);
        try discriminate.
      apply IH. simpl in *. lia.
    + apply IH. lia.
Qed.

Lemma takeDigits_length (s : jsstring) :
  List.length (fst (Num.takeDigits s)) + List.length (snd (Num.takeDigits s)) = List.length s.
Proof.
  induction s as [|x t IH]; simpl; [reflexivity|].
  destruct (isDigit x); simpl; [|reflexivity].
  destruct (Num.takeDigits t); simpl in *. lia.
Qed.

Lemma takeExponent_length (s : jsstring) :
  List.length (snd (Num.takeExponent s)) <= List.length s.
Proof.
  unfold Num.takeExponent. destruct s as [|e t]; [simpl; lia|].
  destruct (N.eqb e 101 || N.eqb e 69); [|simpl; lia].
  destruct t as [|sg t2].
  - simpl. lia.
  - destruct (N.eqb sg 45); [|destruct (N.eqb sg 43)].
    + pose proof (takeDigits_length t2) as Hd.
      destruct (Num.takeDigits t2) as [[|d l] r]; simpl in *; lia.
    + pose proof (takeDigits_length t2) as Hd.
      destruct (Num.takeDigits t2) as [[|d l] r]; simpl in *; lia.
    + pose proof (takeDigits_length (sg :: t2)) as Hd.
      destruct (Num.takeDigits (sg :: t2)) as [[|d l] r]; simpl in *; lia.
Qed.

Lemma pNumber_shorter (s : jsstring) (v : Num.number) (r : jsstring) :
  Json.pNumber s = Json.Ok v r -> List.length r < List.length s.
Proof.
  unfold Json.pNumber.
  set (st := match s with
             | x :: t => if N.eqb x 45 then (true, t) else (false, s)
             | [] => (false, s)
             end).
  assert (Hst : List.length (snd st) <= List.length s).
  { subst st. destruct s as [|x t]; simpl; [lia|]. destruct (N.eqb x 45); simpl; lia. }
  destruct st as [neg t]. simpl in Hst.
  pose proof (takeDigits_length t) as Hd.
  destruct (Num.takeDigits t) as [ip r1]. simpl in Hd.
  destruct ip as [|d0 ip']; [discriminate|]. simpl in Hd.
  destruct (N.eqb d0 48 && negb match ip' with [] => true | _ :: _ => false end).
  { intros Heq; inversion Heq; subst. rewrite length_app. lia. }
  destruct r1 as [|dot t1]; [intros Heq; inversion Heq; subst; simpl in *; lia|].
  simpl in Hd.
  destruct (N.eqb dot 46).
  - pose proof (takeDigits_length t1) as Hf.
    destruct (Num.takeDigits t1) as [fp r2]. simpl in Hf.
    destruct fp as [|f0 fp']; [discriminate|]. simpl in Hf.
    destruct r2 as [|e r2']; [intros Heq; inversion Heq; subst; simpl in *; lia|].
    destruct (N.eqb e 101 || N.eqb e 69).
    + pose proof (takeExponent_length (e :: r2')) as He.
      destruct (Num.takeExponent (e :: r2')) as [ev r3]. simpl in He.
      destruct (Nat.eqb _ _); [discriminate|].
      intros Heq; inversion Heq; subst. simpl in *. lia.
    + intros Heq; inversion Heq; subst. simpl in *. lia.
  - destruct (N.eqb dot 101 || N.eqb dot 69).
    + pose proof (takeExponent_length (dot :: t1)) as He.
      destruct (Num.takeExponent (dot :: t1)) as [ev r3]. simpl in He.
      destruct (Nat.eqb (List.length r3) (List.length (dot :: t1))) eqn:Hl; [discriminate|].
      apply Nat.eqb_neq in Hl.
      intros Heq; inversion Heq; subst. simpl in *. lia.
    + intros Heq; inversion Heq; subst. simpl in *. lia.
Qed.

Lemma pNumber_fuel (s : jsstring) : Json.pNumber s <> Json.OutOfFuel.
Proof.
  unfold Json.pNumber.
  repeat match goal with
         | |- context [match ?x with _ => _ end] => destruct x
         | |- context [if ?b then _ else _] => destruct b
         end; discriminate.
Qed.

Lemma expect_shorter (lit : jsstring) (v v' : Json.value) (s r : jsstring) :
  0 < List.length lit ->
  Json.expect lit v s = Json.Ok v' r -> List.length r < List.length s.
Proof.
  unfold Json.expect. intros Hl.
  destruct (startsWith s lit) eqn:Hs; [|discriminate].
  intros Heq; inversion Heq; subst. rewrite length_skipn.
  assert (Hle : List.length lit <= List.length s).
  { clear - Hs. revert s Hs; induction lit as [|x l IH]; intros s Hs; simpl; [lia|].
    destruct s as [|y s]; [discriminate|]. simpl in Hs.
    apply andb_true_iff in Hs. destruct Hs as [_ Hs]. apply IH in Hs. simpl. lia. }
  lia.
Qed.

Lemma expect_fuel (lit : jsstring) (v : Json.value) (s : jsstring) :
  Json.expect lit v s <> Json.OutOfFuel.
Proof. unfold Json.expect. destruct (startsWith s lit); discriminate. Qed.

Lemma skipWs_cons (s : jsstring) (x : N) (t : jsstring) :
  Json.skipWs s = x :: t -> List.length t < List.length s.
Proof.
  intros H. pose proof (skipWs_length s) as Hl. rewrite H in Hl. simpl in Hl. lia.
Qed.

Lemma descent_fuel (n : nat) :
  (forall s, shorter n s (Json.pValue n s))
  /\ (forall s acc, shorter (n - 1) s (Json.pElems n s acc))
  /\ (forall s acc, shorter n s (Json.pMembers n s acc)).
Proof.
  induction n as [|n (IHv & IHe & IHm)].
  { repeat split; intros; simpl; lia. }
  split; [|split].
  - intros s. cbn [Json.pValue].
    destruct (Json.skipWs s) as [|x t] eqn:Hs; [exact I|].
    apply skipWs_cons in Hs.
    destruct (N.eqb x 123).
    { destruct (Json.skipWs t) as [|y t'] eqn:Ht; [exact I|].
      pose proof (skipWs_cons _ Ht) as Ht'.
      destruct (N.eqb y 125); [simpl; lia|].
      specialize (IHm (y :: t') []).
      destruct (Json.pMembers n (y :: t') []); simpl in *; lia. }
    destruct (N.eqb x 91).
    { destruct (Json.skipWs t) as [|y t'] eqn:Ht; [exact I|].
      pose proof (skipWs_cons _ Ht) as Ht'.
      destruct (N.eqb y 93); [simpl; lia|].
      specialize (IHe (y :: t') []).
      destruct (Json.pElems n (y :: t') []); simpl in *; lia. }
    destruct (N.eqb x 34).
    { pose proof (pString_fuel t []) as Hf.
      destruct (Json.pString t []) as [str r| |] eqn:Hp; simpl; [|exact I|congruence].
      apply (@pString_shorter (List.length t)) in Hp; lia. }
    destruct (N.eqb x 116).
    { pose proof (expect_fuel (u "true") (Json.VBool true) (x :: t)) as Hf.
      destruct (Json.expect (u "true") (Json.VBool true) (x :: t)) as [v r| |] eqn:He;
        simpl; [|exact I|congruence].
      apply expect_shorter in He; simpl in *; lia. }
    destruct (N.eqb x 102).
    { pose proof (expect_fuel (u "false") (Json.VBool false) (x :: t)) as Hf.
      destruct (Json.expect (u "false") (Json.VBool false) (x :: t)) as [v r| |] eqn:He;
        simpl; [|exact I|congruence].
      apply expect_shorter in He; simpl in *; lia. }
    destruct (N.eqb x 110).
    { pose proof (expect_fuel (u "null") Json.VNull (x :: t)) as Hf.
      destruct (Json.expect (u "null") Json.VNull (x :: t)) as [v r| |] eqn:He;
        simpl; [|exact I|congruence].
      apply expect_shorter in He; simpl in *; lia. }
    pose proof (pNumber_fuel (x :: t)) as Hf.
    destruct (Json.pNumber (x :: t)) as [v r| |] eqn:Hp; simpl; [|exact I|congruence].
    apply pNumber_shorter in Hp. simpl in Hp. lia.
  - intros s acc. cbn [Json.pElems].
    specialize (IHv s).
    destruct (Json.pValue n s) as [v r| |]; simpl in *; [|exact I|lia].
    destruct (Json.skipWs r) as [|y t] eqn:Hr; [exact I|].
    apply skipWs_cons in Hr.
    destruct (N.eqb y 44).
    { specialize (IHe t (v :: acc)).
      destruct (Json.pElems n t (v :: acc)); simpl in *; lia. }
    destruct (N.eqb y 93); simpl; [lia|exact I].
  - intros s acc. cbn [Json.pMembers].
    destruct (Json.skipWs s) as [|q t] eqn:Hs; [exact I|].
    apply skipWs_cons in Hs.
    destruct (N.eqb q 34); [|exact I].
    pose proof (pString_fuel t []) as Hf.
    destruct (Json.pString t []) as [k r| |] eqn:Hp; [|exact I|congruence].
    apply (@pString_shorter (List.length t)) in Hp; [|lia].
    destruct (Json.skipWs r) as [|col r1] eqn:Hr; [exact I|].
    apply skipWs_cons in Hr.
    destruct (N.eqb col 58); [|exact I].
    specialize (IHv r1).
    destruct (Json.pValue n r1) as [v r2| |]; simpl in *; [|exact I|lia].
    destruct (Json.skipWs r2) as [|y t2] eqn:Hr2; [exact I|].
    apply skipWs_cons in Hr2.
    destruct (N.eqb y 44).
    { specialize (IHm t2 (Json.setProp k v acc)).
      destruct (Json.pMembers n t2 (Json.setProp k v acc)); simpl in *; lia. }
    destruct (N.eqb y 125); simpl; [lia|exact I].
Qed.

(** [JSON.parse] never runs out of fuel: [None] always stands for a
    syntax error. *)
Lemma parse_fuel_suffices (s : jsstring) :
  Json.pValue (Json.fuelFor s) s <> Json.OutOfFuel.
Proof.
  intros H. pose proof (proj1 (descent_fuel (Json.fuelFor s)) s) as Hd.
  rewrite H in Hd. unfold shorter, Json.fuelFor in Hd. lia.
Qed.

(* ------------------------------------------------------------------ *)
(** ** The JSON repair engine *)
(* ------------------------------------------------------------------ *)

Lemma trySpan_parses (f : jsstring -> jsstring) (x e : jsstring) :
  trySpan f x = Some e -> exists d, Json.parse e = Some d.
Proof.
  unfold trySpan.
  destruct (Json.parse x) as [d|] eqn:Hx.
  - intros Heq; inversion Heq; subst. eauto.
  - destruct (Json.parse (f x)) as [d|] eqn:Hf; [|discriminate].
    intros Heq; inversion Heq; subst. eauto.
Qed.

Lemma extractValidJSON_parses (s e : jsstring) :
  extractValidJSON s = Some e -> exists d, Json.parse e = Some d.
Proof.
  unfold extractValidJSON.
  destruct (Regex.exec reArraySpan s 0) as [ma|];
    destruct (Regex.exec reObjectSpan s 0) as [mo|];
    repeat match goal with
           | |- context [trySpan ?f ?x] =>
               let H := fresh "H" in destruct (trySpan f x) eqn:H
           end;
    intros Heq; inversion Heq; subst; eauto using trySpan_parses.
Qed.

Lemma parse_empty : Json.parse [] = None.
Proof. reflexivity. Qed.

Lemma parsed_text_truthy (e : jsstring) (d : Json.value) :
  Json.parse e = Some d -> JS.truthy e = true.
Proof. destruct e; [rewrite parse_empty; discriminate|reflexivity]. Qed.

(** The outcome of [parse], strategy by strategy. *)
Lemma parse_cases (s : jsstring) :
  (exists text d,
      Json.parse text = Some d
      /\ parse s = mkResult true (Some d) None (List.length s) (List.length text)
      /\ (text = s \/ text = cleanAndRepair s
          \/ extractValidJSON (cleanAndRepair s) = Some text))
  \/ (Json.parse s = None /\ Json.parse (cleanAndRepair s) = None
      /\ extractValidJSON (cleanAndRepair s) = None
      /\ parse s = failure (List.length s) (List.length (cleanAndRepair s))).
Proof.
  unfold parse.
  destruct (Json.parse s) as [d|] eqn:H1.
  { left. exists s, d. auto. }
  destruct (Json.parse (cleanAndRepair s)) as [d|] eqn:H2.
  { left. exists (cleanAndRepair s), d. auto. }
  destruct (extractValidJSON (cleanAndRepair s)) as [e|] eqn:H3.
  - destruct (extractValidJSON_parses _ H3) as [d Hd].
    left. exists e, d. unfold attempt.
    rewrite (parsed_text_truthy _ Hd), Hd. auto.
  - right. unfold attempt, reconstructFromFragments. auto.
Qed.


(** The retry wrapper and [parseJSONWithRetry] are total as well; a
    failure is the value [null]. *)
Lemma parseJSONWithRetry_failure (s : jsstring) (n : nat) :
  success (parse s) = false -> parseJSONWithRetry s n = Json.VNull.
Proof.
  intros Hf. unfold parseJSONWithRetry, parseWithRetry.
  assert (Hl : forall lastError, exists e, parseWithRetry_loop n s lastError = inr e).
  { induction n as [|n IH]; intros lastError; cbn [parseWithRetry_loop]; [eauto|].
    rewrite Hf. apply IH. }
  destruct (Hl []) as [e He]. rewrite He. reflexivity.
Qed.

(** Malformed samples of three of the four classes are repaired to the
    value of the well-formed text: a trailing comma in an object and in an
    array, bareword keys, and the doubled escapes recorded in the comments
    of [repairJSON]. *)
Lemma trailing_comma_repaired :
  let r := parse (u "{~merchant~: ~Uber~, ~category~: ~Transportation~,}") in
  success r = true
  /\ data r = Json.parse (u "{~merchant~: ~Uber~, ~category~: ~Transportation~}")
  /\ let r' := parse (u "[{~category~: ~Travel~}, {~category~: ~Other~},]") in
     success r' = true
     /\ data r' = Json.parse (u "[{~category~: ~Travel~}, {~category~: ~Other~}]").
Proof. vm_compute. auto. Qed.

Lemma bareword_keys_repaired :
  let r := parse (u "[{merchant: ~Uber~, amount: 12.5, category: ~Transportation~}]") in
  success r = true
  /\ data r = Json.parse
                (u "[{~merchant~: ~Uber~, ~amount~: 12.5, ~category~: ~Transportation~}]").
Proof. vm_compute. auto. Qed.

Lemma escaped_quotes_repaired :
  let r := parse (u "[{~merchant~: ~UBER BV USD-USD COSTA\~, \\~date~: ~2024-01-15~, ~amount\~: 5, \~currency~: ~USD\~ }]") in
  success r = true
  /\ data r = Json.parse
                (u "[{~merchant~: ~UBER BV USD-USD COSTA~, ~date~: ~2024-01-15~, ~amount~: 5, ~currency~: ~USD~ }]").
Proof. vm_compute. auto. Qed.

(** C7 at the fourth class.  An array cut after two complete elements is
    not repaired at all: the cleaned text has lost its dangling element
    and has no closing bracket, no span matches, and [parse] fails.  An
    array cut after one complete element gives that element, an object,
    instead of the array that holds it. *)
Theorem truncated_array_not_repaired :
  let cut2 := u "[{~merchant~: ~A~, ~category~: ~Groceries~}, {~merchant~: ~B~, ~category~: ~Travel~}, {~merchant~: ~C~, ~cat" in
  let cut1 := u "[{~merchant~: ~A~, ~category~: ~Groceries~}, {~merchant~: ~B~, ~cat" in
  cleanAndRepair cut2
  = u "[{~merchant~: ~A~, ~category~: ~Groceries~}, {~merchant~: ~B~, ~category~: ~Travel~}"
  /\ success (parse cut2) = false
  /\ data (parse cut2) = None
  /\ success (parse cut1) = true
  /\ data (parse cut1) = Json.parse (u "{~merchant~: ~A~, ~category~: ~Groceries~}")
  /\ success (parse (u "[1, 2, 3")) = false.
Proof. vm_compute. auto 10. Qed.

(* ------------------------------------------------------------------ *)
(** ** Categorization: the closed set *)
(* ------------------------------------------------------------------ *)

Lemma eqb_spec (a b : jsstring) : JS.eqb a b = true <-> a = b.
Proof.
  revert b; induction a as [|x a IH]; destruct b as [|y b]; simpl;
    try (split; congruence).
  rewrite andb_true_iff, N.eqb_eq, IH. split.
  - intros [-> ->]; reflexivity.
  - intros H; inversion H; auto.
Qed.

Lemma eqb_refl (s : jsstring) : JS.eqb s s = true.
Proof. apply eqb_spec. reflexivity. Qed.

Lemma getProp_setProp (k : jsstring) (v : Json.value) (l : object) :
  Json.getProp k (Json.setProp k v l) = Some v.
Proof.
  induction l as [|[k' v'] l IH]; simpl.
  - rewrite eqb_refl. reflexivity.
  - destruct (JS.eqb k k') eqn:Hk; simpl.
    + rewrite eqb_refl. reflexivity.
    + rewrite Hk. exact IH.
Qed.

(** On the path through a parsed array every category is coerced. *)
Lemma categorizeParsed_closed (v : Json.value) (o : object) :
  categorizeParsed v = Return o -> closedOrUnknown o.
Proof.
  unfold categorizeParsed, closedOrUnknown.
  destruct (Conv.member kCategory v) as [c|]; simpl; [|discriminate].
  destruct (includesValue (Conv.orElse c (Json.VStr Unknown))) eqn:Hin; simpl;
    intros Heq; inversion Heq; subst; clear Heq.
  - destruct (Conv.orElse c (Json.VStr Unknown)) as [| | |s| |] eqn:Hc; try discriminate.
    exists s. rewrite getProp_setProp. auto.
  - exists Unknown. rewrite getProp_setProp. auto.
Qed.

Lemma mapR_Forall {A B : Type} (f : A -> Result B) (P : B -> Prop) (l : list A) (r : list B) :
  (forall a b, f a = Return b -> P b) -> mapR f l = Return r -> Forall P r.
Proof.
  intros Hf. revert r; induction l as [|a l IH]; simpl; intros r Hr.
  - inversion Hr. constructor.
  - destruct (f a) as [b|] eqn:Hb; simpl in Hr; [|discriminate].
    destruct (mapR f l) as [bs|]; simpl in Hr; [|discriminate].
    inversion Hr; subst. constructor; eauto.
Qed.

Lemma parsed_array_closed (l : list Json.value) (r : list object) :
  mapR categorizeParsed l = Return r -> Forall closedOrUnknown r.
Proof. apply mapR_Forall. apply categorizeParsed_closed. Qed.

(** An out-of-set label inside a parsed array becomes Unknown. *)
Lemma parsed_array_coerces :
  parseBatchResponse (u "[{~merchant~: ~Vet~, ~category~: ~Pets~}]") [expense "Vet"]
  = Return [[(kMerchant, Json.VStr (u "Vet")); (kCategory, Json.VStr Unknown)]].
Proof. vm_compute. reflexivity. Qed.

(** C2 on the regex path.  When the response is not a JSON array (here a
    single object, and a truncated array that the repair engine gives up
    on), [parseBatchResponse] hands it to [extractCategoriesWithRegex],
    whose first branch returns the captured text as it is: the label
    Pets, which is neither in the closed set nor the sentinel, is returned
    by [batchCategorizeExpenses]. *)
Theorem raw_category_returned :
  let e := expense "Veterinaria" in
  let e' := expense "Kiosko" in
  fst (batchCategorizeExpenses (fun _ _ => Some (u "{~category~: ~Pets~}")) [] [e])
  = Return [withCategory (toObject e) (u "Pets")]
  /\ fst (batchCategorizeExpenses
            (fun _ _ => Some (u "[{~merchant~: ~Veterinaria~, ~category~: ~Pets~}, {~merchant~: ~Kiosko~, ~category~: ~Snacks~}, {~merchant~: ~C~, ~cat"))
            [] [e; e'])
     = Return [withCategory (toObject e) (u "Pets"); withCategory (toObject e') (u "Snacks")]
  /\ isCategory (u "Pets") = false
  /\ JS.eqb (u "Pets") Unknown = false
  /\ Json.getProp kCategory (withCategory (toObject e) (u "Pets")) = Some (Json.VStr (u "Pets")).
Proof. vm_compute. auto 10. Qed.

(* ------------------------------------------------------------------ *)
(** ** Categorization: length, order and failure *)
(* ------------------------------------------------------------------ *)



Lemma assign_length (categories : list jsstring) (l : list ParsedExpense) :
  List.length (assign categories l) = List.length l.
Proof.
  unfold assign. rewrite length_map, length_combine, length_seq. apply Nat.min_id.
Qed.



(** [batchCategorizeExpenses] catches whatever its body throws, so the
    handlers of its callers, where the keyword rules sit, are never
    entered. *)
Lemma batchCategorizeExpenses_returns (api : Gemini) (log : CallLog) (l : list ParsedExpense) :
  exists r, fst (batchCategorizeExpenses api log l) = Return r.
Proof.
  unfold batchCategorizeExpenses.
  destruct (batchBody api log l) as [[r|] log']; simpl; eauto.
Qed.



(* ------------------------------------------------------------------ *)
(** ** Categorization: chunking *)
(* ------------------------------------------------------------------ *)

Lemma categorizeChunk_cases (api : Gemini) (log : CallLog) (chunk : list ParsedExpense) :
  categorizeChunk api log chunk
  = (if callFails api (List.length log) chunk then Throw
     else Return (chunkResult api (List.length log) chunk),
     log ++ [chunk]).
Proof.
  unfold categorizeChunk, callGeminiAPI, callFails, chunkResult.
  destruct (api (List.length log) chunk) as [text|]; cbn [bindR]; [|reflexivity].
  destruct (parseBatchResponse text chunk); reflexivity.
Qed.

Lemma skipn_nonempty {A : Type} (l : list A) (i : nat) :
  (i <? List.length l) = true -> exists x t, skipn i l = x :: t.
Proof.
  intros Hi. apply Nat.ltb_lt in Hi.
  destruct (skipn i l) as [|x t] eqn:Hs; [|eauto].
  apply (f_equal (@List.length A)) in Hs. rewrite length_skipn in Hs. simpl in Hs. lia.
Qed.

Lemma skipn_empty {A : Type} (l : list A) (i : nat) :
  (i <? List.length l) = false -> skipn i l = [].
Proof. intros Hi. apply Nat.ltb_ge in Hi. apply skipn_all2. exact Hi. Qed.

(** The loop makes the planned calls one after the other until one
    fails. *)
Lemma chunkLoop_spec (api : Gemini) (expenses : list ParsedExpense) :
  forall fuel i log results,
    List.length expenses - i <= fuel ->
    chunkLoop fuel api log expenses i results
    = (if anyFails api (List.length log) (chunksFuel fuel (skipn i expenses)) then Throw
       else Return (results
                    ++ resultsFrom api (List.length log) (chunksFuel fuel (skipn i expenses))),
       log ++ callsMade api (List.length log) (chunksFuel fuel (skipn i expenses))).
Proof.
  induction fuel as [|fuel IH]; intros i log results Hfuel.
  - assert (Hi : (i <? List.length expenses) = false) by (apply Nat.ltb_ge; lia).
    simpl. rewrite Hi. simpl. rewrite !app_nil_r. reflexivity.
  - cbn [chunkLoop]. destruct (i <? List.length expenses) eqn:Hi.
    + destruct (skipn_nonempty _ _ Hi) as (x & t & Hs).
      apply Nat.ltb_lt in Hi.
      rewrite categorizeChunk_cases.
      cbn [chunksFuel]. rewrite Hs. rewrite <- Hs.
      cbn [anyFails callsMade resultsFrom].
      destruct (callFails api (List.length log) (firstn maxBatchSize (skipn i expenses)));
        [reflexivity|].
      rewrite IH by (unfold maxBatchSize; lia).
      replace (skipn (i + maxBatchSize) expenses) with (skipn maxBatchSize (skipn i expenses))
        by (rewrite skipn_skipn; f_equal; lia).
      rewrite length_app. cbn [List.length orb].
      rewrite Nat.add_1_r, <- !app_assoc. reflexivity.
    + rewrite (skipn_empty _ _ Hi). simpl. rewrite !app_nil_r. reflexivity.
Qed.

Lemma chunksFuel_concat (fuel : nat) (l : list ParsedExpense) :
  List.length l <= fuel -> List.concat (chunksFuel fuel l) = l.
Proof.
  revert l; induction fuel as [|fuel IH]; intros l Hl.
  - destruct l; [reflexivity|simpl in Hl; lia].
  - destruct l as [|x t]; [reflexivity|].
    cbn [chunksFuel List.concat]. rewrite IH.
    + apply firstn_skipn.
    + rewrite length_skipn. simpl in *. unfold maxBatchSize. lia.
Qed.

Lemma chunksFuel_bound (fuel : nat) (l : list ParsedExpense) :
  Forall (fun chunk => 1 <= List.length chunk <= maxBatchSize) (chunksFuel fuel l).
Proof.
  revert l; induction fuel as [|fuel IH]; intros l; [constructor|].
  destruct l as [|x t]; [constructor|].
  cbn [chunksFuel]. constructor; [|apply IH].
  rewrite length_firstn. cbn [List.length]. unfold maxBatchSize. lia.
Qed.

Lemma chunksFuel_sizes (fuel : nat) (l : list ParsedExpense) :
  List.map (@List.length _) (chunksFuel fuel l) = sizesFuel fuel (List.length l).
Proof.
  revert l; induction fuel as [|fuel IH]; intros l; [reflexivity|].
  destruct l as [|x t]; [reflexivity|].
  cbn [chunksFuel List.map sizesFuel]. rewrite IH, length_firstn, length_skipn.
  reflexivity.
Qed.

(** The claim of C5 fails for a service that fails: with 25 records and
    a first call that throws, one call is made, for the first 10 records,
    and not three; every record comes back with the category Unknown. *)
Lemma failing_call_ends_the_chunking :
  let expenses := repeat (expense "Uber") 25 in
  List.map (@List.length _) (snd (batchCategorizeExpenses (fun _ _ => None) [] expenses))
  = [10]
  /\ fst (batchCategorizeExpenses (fun _ _ => None) [] expenses)
     = Return (List.map (fun e => withCategory (toObject e) Unknown) expenses).
Proof. vm_compute. auto. Qed.

(** C5, amended.  [batchCategorizeExpenses] plans one call per chunk: the
    chunks are consecutive pieces of the input of at most 10 records each
    (all of them full except possibly the last, which is what their sizes
    say), and a single call for the whole input when it has at most 10
    records; for 25 records the plan has three calls, for 10, 10 and 5
    records.  The calls are made one after the other in that order, up to
    and including the first that fails.  When none fails, all planned
    calls are made and the result is the concatenation of the results of
    the chunks in that order; when one fails, no later call is made and
    every input record is returned with the category Unknown. *)
Theorem chunked_calls_in_order :
  forall (api : Gemini) (expenses : list ParsedExpense),
    let planned := expectedCalls expenses in
    let calls := snd (batchCategorizeExpenses api [] expenses) in
    calls = callsMade api 0 planned
    /\ List.concat planned = expenses
    /\ Forall (fun chunk => List.length chunk <= 10) planned
    /\ (10 < List.length expenses ->
        List.map (@List.length _) planned
        = sizesFuel (List.length expenses) (List.length expenses))
    /\ (List.length expenses = 25 -> List.map (@List.length _) planned = [10; 10; 5])
    /\ (anyFails api 0 planned = false ->
        calls = planned
        /\ fst (batchCategorizeExpenses api [] expenses) = Return (resultsFrom api 0 planned))
    /\ (anyFails api 0 planned = true ->
        fst (batchCategorizeExpenses api [] expenses)
        = Return (List.map (fun e => withCategory (toObject e) Unknown) expenses)).
Proof.
  intros api expenses.
  assert (Hmade : forall n chunks, anyFails api n chunks = false -> callsMade api n chunks = chunks).
  { intros n chunks. revert n. induction chunks as [|c rest IH]; intros n Hf; [reflexivity|].
    cbn [anyFails callsMade] in *. apply orb_false_iff in Hf. destruct Hf as [Hc Hr].
    rewrite Hc, (IH _ Hr). reflexivity. }
  cbv zeta. unfold batchCategorizeExpenses, batchBody, expectedCalls.
  destruct (maxBatchSize <? List.length expenses) eqn:Hlen.
  - rewrite (@chunkLoop_spec api expenses) by lia. cbn [skipn app List.length].
    fold (chunksOf expenses).
    assert (Hplan : List.concat (chunksOf expenses) = expenses
                    /\ Forall (fun chunk => List.length chunk <= 10) (chunksOf expenses)
                    /\ (10 < List.length expenses ->
                        List.map (@List.length _) (chunksOf expenses)
                        = sizesFuel (List.length expenses) (List.length expenses))
                    /\ (List.length expenses = 25 ->
                        List.map (@List.length _) (chunksOf expenses) = [10; 10; 5])).
    { split; [apply chunksFuel_concat; lia|].
      split.
      { eapply Forall_impl; [|apply chunksFuel_bound]. unfold maxBatchSize.
        intros chunk Hc. simpl in Hc. lia. }
      split; [intros _; apply chunksFuel_sizes|].
      intros H25. unfold chunksOf. rewrite chunksFuel_sizes, H25. reflexivity. }
    destruct Hplan as (P1 & P2 & P3 & P4).
    destruct (anyFails api 0 (chunksOf expenses)) eqn:Hf; cbn [fst snd].
    + split; [reflexivity|]. split; [exact P1|]. split; [exact P2|]. split; [exact P3|].
      split; [exact P4|]. split; [intros Hn; discriminate Hn | intros _; reflexivity].
    + split; [reflexivity|]. split; [exact P1|]. split; [exact P2|]. split; [exact P3|].
      split; [exact P4|]. split; [|intros Hn; discriminate Hn].
      intros _. split; [apply Hmade; exact Hf | reflexivity].
  - rewrite categorizeChunk_cases. cbn [List.length app anyFails callsMade resultsFrom].
    apply Nat.ltb_ge in Hlen. unfold maxBatchSize in Hlen.
    rewrite orb_false_r, app_nil_r.
    assert (Hplan : List.concat [expenses] = expenses
                    /\ Forall (fun chunk => List.length chunk <= 10) [expenses]).
    { split; [simpl; apply app_nil_r | constructor; [exact Hlen | constructor]]. }
    destruct Hplan as (P1 & P2).
    destruct (callFails api 0 expenses) eqn:Hf; cbn [fst snd].
    + split; [reflexivity|]. split; [exact P1|]. split; [exact P2|].
      split; [intros Hgt; lia|]. split; [intros H25; lia|].
      split; [intros Hn; discriminate Hn | intros _; reflexivity].
    + split; [reflexivity|]. split; [exact P1|]. split; [exact P2|].
      split; [intros Hgt; lia|]. split; [intros H25; lia|].
      split; [|intros Hn; discriminate Hn].
      intros _. split; reflexivity.
Qed.

(** Twenty-five records and a service that echoes an empty array: three
    calls, for 10, 10 and 5 records. *)
Lemma chunked_calls_in_order_witness :
  List.map (@List.length _)
           (snd (batchCategorizeExpenses (fun _ _ => Some (u "[]")) []
                   (repeat (expense "Uber") 25)))
  = [10; 10; 5].
Proof.
  destruct (chunked_calls_in_order (fun _ _ => Some (u "[]")) (repeat (expense "Uber") 25))
    as (Hcalls & _ & _ & _ & H25 & Hok & _).
  destruct (Hok ltac:(vm_compute; reflexivity)) as [Hall _].
  rewrite Hall. apply H25. reflexivity.
Defined.

(* ------------------------------------------------------------------ *)
(** ** The storage handlers *)
(* ------------------------------------------------------------------ *)

Lemma filter_none {A : Type} (p : A -> bool) (l : list A) :
  List.length (filter p l) = 0 -> filter (fun x => negb (p x)) l = l.
Proof.
  induction l as [|x l IH]; simpl; [reflexivity|].
  destruct (p x); simpl; [discriminate|]. intros H. rewrite IH; auto.
Qed.

(** What the delete handler does: it removes the rows of the session's
    user whose date is in the closed range, and reports their number; a
    failure leaves the table as it is. *)
Lemma deleteHandler_ok (srv : Server) (db : DB) (s e : jsstring) (n : nat) (db' : DB) :
  deleteHandler srv db s e = (Ok n, db') ->
  exists user lo hi,
    userOf (bareSessionUser srv) = Some user
    /\ @JSDate.ofString (serverHost srv) s = Some lo
    /\ @JSDate.ofString (serverHost srv) e = Some hi
    /\ n = List.length (filter (inRange user lo hi) db)
    /\ db' = filter (fun r => negb (inRange user lo hi r)) db.
Proof.
  unfold deleteHandler.
  destruct (userOf (bareSessionUser srv)) as [user|]; [|discriminate].
  destruct (negb (JS.truthy s) || negb (JS.truthy e)); [discriminate|].
  destruct (@JSDate.ofString (serverHost srv) s) as [lo|]; [|discriminate].
  destruct (@JSDate.ofString (serverHost srv) e) as [hi|]; [|discriminate].
  destruct (negb (dbUp srv)); [discriminate|].
  destruct (List.length (filter (inRange user lo hi) db) =? 0) eqn:Hc;
    intros Heq; inversion Heq; subst; exists user, lo, hi; repeat split; auto.
  - apply Nat.eqb_eq in Hc. symmetry. exact Hc.
  - apply Nat.eqb_eq in Hc. symmetry. apply filter_none. exact Hc.
Qed.



(** The insert handlers do not read the table: they append to it. *)
Lemma batchHandler_app (srv : Server) (db : DB) (l : list WireExpense) :
  batchHandler srv db l
  = (fst (batchHandler srv [] l), db ++ snd (batchHandler srv [] l)).
Proof.
  unfold batchHandler.
  destruct (userOf (sessionUser srv)); [|simpl; rewrite app_nil_r; reflexivity].
  destruct (negb (forallb _ l)); [simpl; rewrite app_nil_r; reflexivity|].
  destruct (negb (dbUp srv)); [simpl; rewrite app_nil_r; reflexivity|].
  destruct (allSome _); simpl; [reflexivity|rewrite app_nil_r; reflexivity].
Qed.

Lemma createHandler_app (srv : Server) (db : DB) (e : WireExpense) :
  createHandler srv db e
  = (fst (createHandler srv [] e), db ++ snd (createHandler srv [] e)).
Proof.
  unfold createHandler.
  destruct (userOf (sessionUser srv)); [|simpl; rewrite app_nil_r; reflexivity].
  destruct (negb (validateExpense _ _ _ _ _ _)); [simpl; rewrite app_nil_r; reflexivity|].
  destruct (negb (dbUp srv)); [simpl; rewrite app_nil_r; reflexivity|].
  destruct (if JS.truthy (w_transactionDate e) then _ else _); simpl;
    [reflexivity|rewrite app_nil_r; reflexivity].
Qed.

Lemma allSome_length {A : Type} (l : list (option A)) (r : list A) :
  allSome l = Some r -> List.length r = List.length l.
Proof.
  revert r; induction l as [|[a|] l IH]; simpl; intros r Hr; try discriminate.
  - inversion Hr. reflexivity.
  - destruct (allSome l) as [t|]; [|discriminate]. inversion Hr. simpl. f_equal. auto.
Qed.

(** A successful bulk insert adds one row per expense sent, a failed one
    adds none. *)
Lemma batchHandler_rows (srv : Server) (l : list WireExpense) :
  match fst (batchHandler srv [] l) with
  | Ok n => n = List.length l /\ List.length (snd (batchHandler srv [] l)) = List.length l
  | Failed _ => snd (batchHandler srv [] l) = []
  end.
Proof.
  unfold batchHandler.
  destruct (userOf (sessionUser srv)) as [user|]; [|reflexivity].
  destruct (negb (forallb _ l)); [reflexivity|].
  destruct (negb (dbUp srv)); [reflexivity|].
  destruct (allSome _) as [rows|] eqn:Hr; simpl; [|reflexivity].
  apply allSome_length in Hr. rewrite length_map in Hr. auto.
Qed.

(** A successful single insert adds one row, a failed one adds none. *)
Lemma createHandler_rows (srv : Server) (e : WireExpense) :
  match fst (createHandler srv [] e) with
  | Ok _ => List.length (snd (createHandler srv [] e)) = 1
  | Failed _ => snd (createHandler srv [] e) = []
  end.
Proof.
  unfold createHandler.
  destruct (userOf (sessionUser srv)) as [user|]; [|reflexivity].
  destruct (negb (validateExpense _ _ _ _ _ _)); [reflexivity|].
  destruct (negb (dbUp srv)); [reflexivity|].
  destruct (if JS.truthy (w_transactionDate e) then _ else _); reflexivity.
Qed.

(* ------------------------------------------------------------------ *)
(** ** The storage calls of the client *)
(* ------------------------------------------------------------------ *)

Lemma mapR_length {A B : Type} (f : A -> Result B) (l : list A) (r : list B) :
  mapR f l = Return r -> List.length r = List.length l.
Proof.
  revert r; induction l as [|a l IH]; simpl; intros r Hr.
  - inversion Hr. reflexivity.
  - destruct (f a); simpl in Hr; [|discriminate].
    destruct (mapR f l) as [bs|]; simpl in Hr; [|discriminate].
    inversion Hr. simpl. f_equal. auto.
Qed.

Lemma somes_length {A : Type} (l : list (option A)) :
  List.length (somes l) <= List.length l.
Proof. induction l as [|[a|] l IH]; simpl; lia. Qed.

(** The storage calls append what they would append to the empty
    table. *)
Lemma storeParsedExpensesBatch_app `{Host} (srv : Server) (db : DB)
      (l : list object) (userId : jsstring) :
  storeParsedExpensesBatch srv db l userId
  = (fst (storeParsedExpensesBatch srv [] l userId),
     db ++ snd (storeParsedExpensesBatch srv [] l userId)).
Proof.
  unfold storeParsedExpensesBatch.
  destruct (mapR prepare l) as [prepared|]; [|simpl; rewrite app_nil_r; reflexivity].
  destruct (somes prepared) as [|x t]; [simpl; rewrite app_nil_r; reflexivity|].
  rewrite (batchHandler_app srv db).
  destruct (batchHandler srv [] (x :: t)) as [[n|st] rows]; reflexivity.
Qed.

Lemma storeParsedExpense_app (srv : Server) (db : DB)
      (e : object) (userId : jsstring) :
  storeParsedExpense srv db e userId
  = (fst (storeParsedExpense srv [] e userId),
     db ++ snd (storeParsedExpense srv [] e userId)).
Proof.
  unfold storeParsedExpense.
  destruct (requestOf e) as [w|]; [|simpl; rewrite app_nil_r; reflexivity].
  rewrite (createHandler_app srv db).
  destruct (createHandler srv [] w) as [[[]|st] rows]; reflexivity.
Qed.

(** The bulk call: on success at most one row per expense is added (the
    expenses whose amount is not a positive number are left out before
    the request is sent), on failure none. *)
Lemma storeParsedExpensesBatch_rows `{Host} (srv : Server)
      (l : list object) (userId : jsstring) :
  match fst (storeParsedExpensesBatch srv [] l userId) with
  | Return _ => List.length (snd (storeParsedExpensesBatch srv [] l userId)) <= List.length l
  | Throw => snd (storeParsedExpensesBatch srv [] l userId) = []
  end.
Proof.
  unfold storeParsedExpensesBatch.
  destruct (mapR prepare l) as [prepared|] eqn:Hp; [|reflexivity].
  destruct (somes prepared) as [|x t] eqn:Hs; [simpl; lia|].
  pose proof (batchHandler_rows srv (x :: t)) as Hr.
  destruct (batchHandler srv [] (x :: t)) as [[n|st] rows]; simpl in *; [|exact Hr].
  destruct Hr as [_ Hlen]. rewrite Hlen. apply mapR_length in Hp.
  pose proof (somes_length prepared) as Hle. rewrite Hs in Hle. simpl in Hle. lia.
Qed.

(** The single call: on success one row is added, on failure none. *)
Lemma storeParsedExpense_rows (srv : Server) (e : object) (userId : jsstring) :
  match fst (storeParsedExpense srv [] e userId) with
  | Return _ => List.length (snd (storeParsedExpense srv [] e userId)) = 1
  | Throw => snd (storeParsedExpense srv [] e userId) = []
  end.
Proof.
  unfold storeParsedExpense.
  destruct (requestOf e) as [w|]; [|reflexivity].
  pose proof (createHandler_rows srv w) as Hr.
  destruct (createHandler srv [] w) as [[[]|st] rows]; exact Hr.
Qed.

Lemma triple_eq {A B C : Type} (a a' : A) (b b' : B) (c c' : C) :
  a = a' -> b = b' -> c = c' -> (a, b, c) = (a', b', c').
Proof. intros -> -> ->. reflexivity. Qed.

(** The fallback loop appends the rows it would append to the empty
    table, and counts every expense once, as stored or as an error. *)
Lemma storeEach_spec (srv : Server) (l : list object) (userId : jsstring) :
  forall db stored errors,
    let '(stored0, errors0, rows) := storeEach srv [] l userId 0 0 in
    storeEach srv db l userId stored errors = (stored + stored0, errors + errors0, db ++ rows)
    /\ stored0 + errors0 = List.length l
    /\ List.length rows = stored0.
Proof.
  induction l as [|e l IH]; intros db stored errors.
  - simpl. rewrite !Nat.add_0_r, app_nil_r. auto.
  - cbn [storeEach].
    rewrite (storeParsedExpense_app srv db).
    pose proof (storeParsedExpense_rows srv e userId) as Hr.
    destruct (storeParsedExpense srv [] e userId) as [[[]|] rows0]; simpl in Hr;
      cbn [fst snd].
    + pose proof (IH rows0 1 0) as IH1. pose proof (IH (db ++ rows0) (S stored) errors) as IH2.
      destruct (storeEach srv [] l userId 0 0) as [[stored0 errors0] rows].
      destruct IH1 as (E1 & Hc & Hl). destruct IH2 as (E2 & _ & _).
      rewrite E1, E2. split; [|split].
      * apply triple_eq; [lia|lia|rewrite <- app_assoc; reflexivity].
      * simpl. lia.
      * rewrite length_app. lia.
    + subst rows0. rewrite app_nil_r.
      pose proof (IH [] 0 1) as IH1. pose proof (IH db stored (S errors)) as IH2.
      destruct (storeEach srv [] l userId 0 0) as [[stored0 errors0] rows].
      destruct IH1 as (E1 & Hc & Hl). destruct IH2 as (E2 & _ & _).
      rewrite E1, E2. split; [|split].
      * apply triple_eq; [lia|lia|reflexivity].
      * simpl. lia.
      * simpl. lia.
Qed.

(** Step 3 as a whole.  Either the bulk call succeeds: no error is
    counted, [stored] is the number of categorized expenses, and at most
    that many rows are added.  Or it fails: one error is counted for it and
    one for every single call that fails, [stored] is the number of single
    calls that succeed, and that many rows are added. *)
Lemma storeStep_spec `{Host} (srv : Server) (l : list object) (userId : jsstring) :
  forall db errors,
    let '(stored0, errors0, infos, rows) := storeStep srv [] l userId 0 in
    storeStep srv db l userId errors = (stored0, errors + errors0, infos, db ++ rows)
    /\ ((errors0 = 0 /\ stored0 = List.length l /\ List.length rows <= stored0)
        \/ (errors0 = 1 + (List.length l - stored0) /\ stored0 <= List.length l
            /\ List.length rows = stored0)).
Proof.
  intros db errors. unfold storeStep.
  destruct l as [|e l].
  { rewrite Nat.add_0_r, app_nil_r. split; [reflexivity|]. left. simpl. auto. }
  destruct (pushInfos (e :: l) []) as [infos complete].
  destruct complete.
  - rewrite (storeParsedExpensesBatch_app srv db).
    pose proof (storeParsedExpensesBatch_rows srv (e :: l) userId) as Hr.
    destruct (storeParsedExpensesBatch srv [] (e :: l) userId) as [[[]|] rows0];
      cbn [fst snd] in *.
    + rewrite Nat.add_0_r. split; [reflexivity|]. left. auto.
    + subst rows0. rewrite app_nil_r.
      pose proof (storeEach_spec srv (e :: l) userId [] 0 1) as S1.
      pose proof (storeEach_spec srv (e :: l) userId db 0 (S errors)) as S2.
      destruct (storeEach srv [] (e :: l) userId 0 0) as [[stored0 errors0] rows].
      destruct S1 as (E1 & Hc & Hl). destruct S2 as (E2 & _ & _).
      rewrite E1, E2. cbn [Nat.add]. split.
      * f_equal. apply triple_eq; [reflexivity|lia|reflexivity].
      * right. cbn [List.length app] in *. lia.
  - pose proof (storeEach_spec srv (e :: l) userId [] 0 1) as S1.
    pose proof (storeEach_spec srv (e :: l) userId db 0 (S errors)) as S2.
    destruct (storeEach srv [] (e :: l) userId 0 0) as [[stored0 errors0] rows].
    destruct S1 as (E1 & Hc & Hl). destruct S2 as (E2 & _ & _).
    rewrite E1, E2. cbn [Nat.add]. split.
    + f_equal. apply triple_eq; [reflexivity|lia|reflexivity].
    + right. cbn [List.length app] in *. lia.
Qed.

(* ------------------------------------------------------------------ *)
(** ** The orchestrator *)
(* ------------------------------------------------------------------ *)

Lemma processEmailsFromSender_steps (w : World) (db : DB) (senderEmail userId : jsstring)
      (month year : Z) (messages : list GmailMessage) :
  getEmailsFromSender w senderEmail month year = Return messages ->
  let db1 := snd (deleteStep w db userId month year) in
  let '(stored0, errors0, infos, rows) :=
    @storeStep (browser w) (server w) [] (categorizedOf w messages) userId 0 in
  processEmailsFromSender w db senderEmail userId month year
  = (Return (mkSummary (List.length messages) stored0
               (fst (deleteStep w db userId month year)) errors0 infos),
     db1 ++ rows)
  /\ ((errors0 = 0 /\ stored0 = List.length (categorizedOf w messages)
       /\ List.length rows <= stored0)
      \/ (errors0 = 1 + (List.length (categorizedOf w messages) - stored0)
          /\ stored0 <= List.length (categorizedOf w messages)
          /\ List.length rows = stored0)).
Proof.
  intros Hm. unfold processEmailsFromSender. rewrite Hm.
  destruct (deleteStep w db userId month year) as [deleted db1] eqn:Hd. cbn [fst snd].
  assert (Hp : forall l n acc, fst (@extractStep (browser w) l n acc) = n + List.length l).
  { induction l as [|m l IH]; intros n acc; simpl; [lia|].
    destruct (@parseExpenseEmailWithoutAI (browser w) m); rewrite IH; lia. }
  pose proof (Hp messages 0 []) as Hp0.
  unfold categorizedOf, extractedOf.
  destruct (@extractStep (browser w) messages 0 []) as [processed rawExpenses].
  cbn [fst snd] in *. subst processed.
  pose proof (@storeStep_spec (browser w) (server w)
                (@categorizeStep (browser w) (gemini w) rawExpenses) userId db1 0) as Hs.
  destruct (@storeStep (browser w) (server w) []
              (@categorizeStep (browser w) (gemini w) rawExpenses) userId 0)
    as [[[stored0 errors0] infos] rows].
  destruct Hs as [Hs Hc]. rewrite Hs. split; [reflexivity|exact Hc].
Qed.





(** When the service echoes an expense with the amount 0, the bulk call
    leaves it out and sends nothing, and the run still reports it as
    stored. *)
Lemma stored_counts_a_skipped_expense :
  let w := mkWorld (host 360 1761998400000) serverUTC
                   (fun _ _ _ => Return [uberMessage "2025-10-15T10:00:00Z"])
                   (fun _ _ => Some (u "[{~amount~: 0, ~merchant~: ~Uber~, ~date~: ~2025-10-15T10:00:00.000Z~, ~category~: ~Transportation~, ~currency~: ~USD~}]")) in
  exists s,
    processEmailsFromSender w [] sender user1 10 2025 = (Return s, [])
    /\ stored s = 1 /\ errors s = 0.
Proof. eexists. split; [vm_compute; reflexivity|]. vm_compute. auto. Qed.



(* ------------------------------------------------------------------ *)
(** ** Repeated imports *)
(* ------------------------------------------------------------------ *)

(** The delete step, when the delete handler finds its session, the
    database answers and the two day strings are read as dates. *)
Lemma deleteStep_window (w : World) (db : DB) (userId : jsstring) (month year : Z)
      (lo hi : Z) (usr : jsstring) :
  deleteWindow w month year = Some (lo, hi) ->
  userOf (bareSessionUser (server w)) = Some usr ->
  dbUp (server w) = true ->
  deleteStep w db userId month year
  = (List.length (filter (inRange usr lo hi) db),
     filter (fun r => negb (inRange usr lo hi r)) db).
Proof.
  unfold deleteWindow, deleteStep, deleteExistingTransactions, deleteHandler.
  destruct (isoDay _) as [s|]; [|discriminate].
  destruct (isoDay _) as [e|]; [|discriminate].
  destruct (JS.truthy s) eqn:Hs; [|discriminate].
  destruct (JS.truthy e) eqn:He; [|discriminate]. cbn [andb negb orb].
  destruct (@JSDate.ofString (serverHost (server w)) s) as [lo'|]; [|discriminate].
  destruct (@JSDate.ofString (serverHost (server w)) e) as [hi'|]; [|discriminate].
  intros Hw Hu Hup. inversion Hw; subst. rewrite Hu, Hup. cbn [negb].
  destruct (List.length (filter (inRange usr lo hi) db) =? 0) eqn:Hc; [|reflexivity].
  apply Nat.eqb_eq in Hc. rewrite Hc, (filter_none _ _ Hc). reflexivity.
Qed.

Lemma filter_all {A : Type} (p : A -> bool) (l : list A) :
  Forall (fun x => p x = true) l ->
  filter p l = l /\ filter (fun x => negb (p x)) l = [].
Proof.
  induction 1 as [|x l Hx Hl [IH1 IH2]]; simpl; [auto|].
  rewrite Hx. simpl. rewrite IH1, IH2. auto.
Qed.

Lemma filter_negb_twice {A : Type} (p : A -> bool) (l : list A) :
  filter p (filter (fun x => negb (p x)) l) = []
  /\ filter (fun x => negb (p x)) (filter (fun x => negb (p x)) l)
     = filter (fun x => negb (p x)) l.
Proof.
  induction l as [|x l [IH1 IH2]]; simpl; [auto|].
  destruct (p x) eqn:Hx; simpl; [auto|]. rewrite Hx. simpl. rewrite IH2. auto.
Qed.

Lemma allSome_Forall {A : Type} (P : A -> Prop) (l : list (option A)) (r : list A) :
  allSome l = Some r -> Forall (fun o => match o with Some a => P a | None => True end) l ->
  Forall P r.
Proof.
  revert r; induction l as [|[a|] l IH]; simpl; intros r Hr Hf; try discriminate.
  - inversion Hr. constructor.
  - destruct (allSome l) as [t|]; [|discriminate]. inversion Hr; subst.
    inversion Hf; subst. constructor; auto.
Qed.

(** Every row that the insert handlers add carries the user of their
    session. *)
Lemma batchHandler_user (srv : Server) (l : list WireExpense) :
  Forall (insertedBy srv) (snd (batchHandler srv [] l)).
Proof.
  unfold batchHandler, insertedBy.
  destruct (userOf (sessionUser srv)) as [user|]; [|constructor].
  destruct (negb (forallb _ l)); [constructor|].
  destruct (negb (dbUp srv)); [constructor|].
  destruct (allSome _) as [rows|] eqn:Hr; simpl; [|constructor].
  apply (@allSome_Forall _ _ _ _ Hr).
  apply Forall_forall. intros o Ho. apply in_map_iff in Ho. destruct Ho as (e & <- & _).
  unfold batchRow. destruct (if JS.truthy _ then _ else _); [reflexivity|exact I].
Qed.

Lemma createHandler_user (srv : Server) (e : WireExpense) :
  Forall (insertedBy srv) (snd (createHandler srv [] e)).
Proof.
  unfold createHandler, insertedBy.
  destruct (userOf (sessionUser srv)) as [user|]; [|constructor].
  destruct (negb (validateExpense _ _ _ _ _ _)); [constructor|].
  destruct (negb (dbUp srv)); [constructor|].
  destruct (if JS.truthy (w_transactionDate e) then _ else _); simpl; repeat constructor.
Qed.

Lemma storeParsedExpensesBatch_user `{Host} (srv : Server) (l : list object)
      (userId : jsstring) :
  Forall (insertedBy srv) (snd (storeParsedExpensesBatch srv [] l userId)).
Proof.
  unfold storeParsedExpensesBatch.
  destruct (mapR prepare l) as [prepared|]; [|constructor].
  destruct (somes prepared) as [|x t]; [constructor|].
  pose proof (batchHandler_user srv (x :: t)) as Hu.
  destruct (batchHandler srv [] (x :: t)) as [[n|st] rows]; exact Hu.
Qed.

Lemma storeParsedExpense_user (srv : Server) (e : object) (userId : jsstring) :
  Forall (insertedBy srv) (snd (storeParsedExpense srv [] e userId)).
Proof.
  unfold storeParsedExpense.
  destruct (requestOf e) as [w|]; [|constructor].
  pose proof (createHandler_user srv w) as Hu.
  destruct (createHandler srv [] w) as [[[]|st] rows]; exact Hu.
Qed.

Lemma storeEach_user (srv : Server) (l : list object) (userId : jsstring) :
  forall db stored errors,
    Forall (insertedBy srv) db ->
    Forall (insertedBy srv) (snd (storeEach srv db l userId stored errors)).
Proof.
  induction l as [|e l IH]; intros db stored errors Hdb; [exact Hdb|].
  cbn [storeEach]. rewrite (storeParsedExpense_app srv db).
  pose proof (storeParsedExpense_user srv e userId) as Hu.
  destruct (storeParsedExpense srv [] e userId) as [[[]|] rows0]; cbn [fst snd] in *;
    apply IH; apply Forall_app; auto.
Qed.

Lemma insertedRows_user (w : World) (messages : list GmailMessage) (userId : jsstring) :
  Forall (insertedBy (server w)) (insertedRows w messages userId).
Proof.
  unfold insertedRows, storeStep.
  destruct (categorizedOf w messages) as [|e l]; [constructor|].
  destruct (pushInfos (e :: l) []) as [infos complete].
  assert (Heach : forall n,
             Forall (insertedBy (server w))
                    (snd (let '(stored, errors', db'') :=
                            storeEach (server w) [] (e :: l) userId 0 n in
                          (stored, errors', infos, db'')))).
  { intros n. pose proof (@storeEach_user (server w) (e :: l) userId [] 0 n (Forall_nil _)) as Hu.
    destruct (storeEach (server w) [] (e :: l) userId 0 n) as [[a b] c]. exact Hu. }
  destruct complete; [|apply Heach].
  pose proof (@storeParsedExpensesBatch_user (browser w) (server w) (e :: l) userId) as Hu.
  pose proof (@storeParsedExpensesBatch_rows (browser w) (server w) (e :: l) userId) as Hr.
  destruct (@storeParsedExpensesBatch (browser w) (server w) [] (e :: l) userId)
    as [[[]|] rows0]; cbn [fst snd] in *; [exact Hu|].
  subst rows0. apply Heach.
Qed.

(** The delete step either leaves every table as it is and reports 0, or
    removes from every table the rows of the user of its own session that
    are dated in one closed range. *)
Lemma deleteStep_cases (w : World) (userId : jsstring) (month year : Z) :
  (forall db, deleteStep w db userId month year = (0, db))
  \/ (exists user lo hi,
         userOf (bareSessionUser (server w)) = Some user
         /\ forall db, deleteStep w db userId month year
                       = (List.length (filter (inRange user lo hi) db),
                          filter (fun r => negb (inRange user lo hi r)) db)).
Proof.
  unfold deleteStep, deleteExistingTransactions, deleteHandler.
  destruct (isoDay _) as [s|]; [|left; reflexivity].
  destruct (isoDay _) as [e|]; [|left; reflexivity].
  destruct (userOf (bareSessionUser (server w))) as [user|]; [|left; reflexivity].
  destruct (negb (JS.truthy s) || negb (JS.truthy e)); [left; reflexivity|].
  destruct (@JSDate.ofString (serverHost (server w)) s) as [lo|]; [|left; reflexivity].
  destruct (@JSDate.ofString (serverHost (server w)) e) as [hi|]; [|left; reflexivity].
  destruct (negb (dbUp (server w))); [left; reflexivity|].
  right. exists user, lo, hi. split; [reflexivity|]. intros db.
  destruct (List.length (filter (inRange user lo hi) db) =? 0) eqn:Hc; [|reflexivity].
  apply Nat.eqb_eq in Hc. rewrite Hc, (filter_none _ _ Hc). reflexivity.
Qed.

(** The rows of another user are out of the reach of the delete step. *)
Lemma inRange_other (user : jsstring) (lo hi : Z) (rows : list Row) :
  Forall (fun r => userId r <> user) rows ->
  filter (inRange user lo hi) rows = []
  /\ filter (fun r => negb (inRange user lo hi r)) rows = rows.
Proof.
  induction 1 as [|r rows Hr _ [IH1 IH2]]; [auto|].
  assert (Hf : inRange user lo hi r = false).
  { unfold inRange. destruct (JS.eqb (userId r) user) eqn:He; [|reflexivity].
    apply eqb_spec in He. contradiction. }
  cbn [filter]. rewrite Hf. cbn [negb]. rewrite IH1, IH2. auto.
Qed.

(** The claim of C1 fails.  Against the deployed server the delete
    handler looks for the rows of ana@example.com while the rows are
    stored under the id u1: the second run deletes nothing and stores the
    purchase again.  It also fails when both lookups give the same user.
    A browser in UTC imports October 2025; the range sent to the delete
    handler is read as midnight of 1 October to midnight of 31 October.
    A message whose body dates the purchase on 30 September (the search
    falls back to the sender alone when the dated queries find nothing),
    and a message that dates it at noon of 31 October, are stored outside
    that range: the second run deletes nothing and stores the record
    again. *)
Lemma second_import_duplicates :
  (let once := processEmailsFromSender deployed [] sender user1 10 2025 in
   let twice := processEmailsFromSender deployed (snd once) sender user1 10 2025 in
   List.length (snd once) = 1 /\ List.length (snd twice) = 2
   /\ fst (deleteStep deployed (snd once) user1 10 2025) = 0)
  /\ deleteWindow (scenario 0 "2025-09-30T12:00:00Z" "2025-09-30T12:00:00.000Z") 10 2025
     = Some (1759276800000, 1761868800000)%Z
  /\ (let w := scenario 0 "2025-09-30T12:00:00Z" "2025-09-30T12:00:00.000Z" in
      let once := processEmailsFromSender w [] sender user1 10 2025 in
      let twice := processEmailsFromSender w (snd once) sender user1 10 2025 in
      List.length (snd once) = 1 /\ List.length (snd twice) = 2)
  /\ (let w := scenario 0 "2025-10-31T12:00:00Z" "2025-10-31T12:00:00.000Z" in
      let once := processEmailsFromSender w [] sender user1 10 2025 in
      let twice := processEmailsFromSender w (snd once) sender user1 10 2025 in
      List.length (snd once) = 1 /\ List.length (snd twice) = 2
      /\ List.map transactionDate (snd twice) = [1761912000000; 1761912000000]%Z).
Proof. vm_compute. auto 20. Qed.

(** C1, as found in the code.  The delete handler reads the session with
    other options than the insert handlers.  Whenever the two lookups do
    not give the same user (as deployed, the one gives the id of the user
    and the other the e-mail address or nothing), a second run with the
    same inputs deletes nothing (it reports [deleted] 0), leaves every row
    of the first run in the table and stores the same rows once more:
    repeated imports accumulate duplicates. *)
Theorem reimport_duplicates :
  forall (w : World) (db : DB) (senderEmail userId : jsstring) (month year : Z)
         (messages : list GmailMessage),
    getEmailsFromSender w senderEmail month year = Return messages ->
    userOf (bareSessionUser (server w)) <> userOf (sessionUser (server w)) ->
    let once := processEmailsFromSender w db senderEmail userId month year in
    let twice := processEmailsFromSender w (snd once) senderEmail userId month year in
    snd once = snd (deleteStep w db userId month year) ++ insertedRows w messages userId
    /\ snd twice = snd once ++ insertedRows w messages userId
    /\ exists s1 s2,
        fst once = Return s1 /\ fst twice = Return s2
        /\ deleted s2 = 0
        /\ stored s2 = stored s1.
Proof.
  intros w db senderEmail userId month year messages Hm Hdiff. cbv zeta.
  pose proof (processEmailsFromSender_steps w db senderEmail userId month year Hm) as H1.
  cbv zeta in H1.
  pose proof (insertedRows_user w messages userId) as Hu.
  unfold insertedRows in *.
  destruct (@storeStep (browser w) (server w) [] (categorizedOf w messages) userId 0)
    as [[[stored0 errors0] infos] rows] eqn:Hst.
  cbn [fst snd] in *. destruct H1 as [H1 _]. rewrite H1. cbn [fst snd].
  pose proof (processEmailsFromSender_steps w
                (snd (deleteStep w db userId month year) ++ rows)
                senderEmail userId month year Hm) as H2.
  cbv zeta in H2. rewrite Hst in H2. destruct H2 as [H2 _]. rewrite H2. cbn [fst snd].
  assert (Hd : deleteStep w (snd (deleteStep w db userId month year) ++ rows)
                          userId month year
               = (0, snd (deleteStep w db userId month year) ++ rows)).
  { destruct (deleteStep_cases w userId month year)
      as [Hfail | (user & lo & hi & Huser & Hok)].
    - apply Hfail.
    - rewrite !Hok. cbn [snd].
      assert (Hother : Forall (fun r => Storage.userId r <> user) rows).
      { eapply Forall_impl; [|exact Hu]. intros r Hr Heq. apply Hdiff.
        rewrite Huser. unfold insertedBy in Hr. rewrite Hr, Heq. reflexivity. }
      destruct (inRange_other lo hi Hother) as [F1 F2].
      destruct (filter_negb_twice (inRange user lo hi) db) as [G1 G2].
      rewrite !filter_app, F1, F2, G1, G2. reflexivity. }
  rewrite Hd. cbn [fst snd].
  split; [reflexivity|]. split; [reflexivity|].
  eexists. eexists. split; [reflexivity|]. split; [reflexivity|].
  cbn [stored deleted]. split; reflexivity.
Qed.

(** The scenario of the specification against the deployed server: the
    second run finds nothing to delete and stores the purchase of
    15 October a second time. *)
Lemma reimport_duplicates_witness :
  let messages := [uberMessage "2025-10-15T10:00:00Z"; malformedMessage] in
  let once := processEmailsFromSender deployed [] sender user1 10 2025 in
  let twice := processEmailsFromSender deployed (snd once) sender user1 10 2025 in
  snd twice = snd once ++ insertedRows deployed messages user1
  /\ List.length (snd once) = 1
  /\ List.length (snd twice) = 2
  /\ List.map rowMerchant (snd twice) = [u "Uber"; u "Uber"]
  /\ List.map userId (snd twice) = [u "u1"; u "u1"].
Proof.
  cbv zeta.
  assert (Hdiff : userOf (bareSessionUser (server deployed))
                  <> userOf (sessionUser (server deployed)))
    by (vm_compute; discriminate).
  split.
  - exact (proj1 (proj2 (reimport_duplicates deployed [] sender user1 10 2025
                           (messages := [uberMessage "2025-10-15T10:00:00Z"; malformedMessage])
                           eq_refl Hdiff))).
  - split; [vm_compute; reflexivity|]. split; [vm_compute; reflexivity|].
    split; vm_compute; reflexivity.
Defined.

(* ================================================================== *)
(** * Further properties *)
(* ================================================================== *)

(* ------------------------------------------------------------------ *)
(** ** The retry wrappers of the JSON repair engine *)
(* ------------------------------------------------------------------ *)

Lemma parseWithRetry_loop_failure (s : jsstring) (n : nat) :
  success (parse s) = false ->
  forall lastError,
    parseWithRetry_loop n s lastError
    = inr (match n with O => lastError | S _ => errorOf (parse s) end).
Proof.
  intros Hf. induction n as [|n IH]; intros lastError; [reflexivity|].
  cbn [parseWithRetry_loop]. rewrite Hf, IH. destruct n; reflexivity.
Qed.

Lemma parseWithRetry_loop_success (s : jsstring) (n : nat) (lastError : jsstring) :
  success (parse s) = true -> parseWithRetry_loop (S n) s lastError = inl (parse s).
Proof. intros Hs. cbn [parseWithRetry_loop]. rewrite Hs. reflexivity. Qed.

(** X1: parsing again never changes the outcome.  With at least one
    attempt [parseWithRetry] succeeds exactly when [parse] does, with
    the same data, and [parseJSONWithRetry] returns what [parseJSON]
    returns; with no attempt at all both report a failure, also for valid
    JSON.  The failure record of [parseWithRetry] has [cleanedLength] 0. *)
Theorem retry_repeats_the_same_parse :
  forall (s : jsstring) (n : nat),
    parseJSONWithRetry s (S n) = JsonConvenience.parseJSON s
    /\ success (parseWithRetry s (S n)) = success (parse s)
    /\ data (parseWithRetry s (S n)) = data (parse s)
    /\ parseJSONWithRetry s 0 = Json.VNull
    /\ success (parseWithRetry s 0) = false
    /\ (success (parse s) = false -> cleanedLength (parseWithRetry s (S n)) = 0).
Proof.
  intros s n.
  assert (Hdata : success (parse s) = false -> data (parse s) = None).
  { intros Hf. destruct (parse_cases s) as [(text & d & _ & Hp & _) | (_ & _ & _ & Hp)];
      rewrite Hp in *; [discriminate Hf | reflexivity]. }
  destruct (success (parse s)) eqn:Hs.
  - pose proof (@parseWithRetry_loop_success s n [] Hs) as Hl.
    unfold parseJSONWithRetry, JsonConvenience.parseJSON, parseWithRetry.
    rewrite Hl, Hs.
    split; [reflexivity|]. split; [reflexivity|]. split; [reflexivity|].
    split; [reflexivity|]. split; [reflexivity|]. intros Hf; discriminate Hf.
  - pose proof (@parseWithRetry_loop_failure s (S n) Hs []) as Hl.
    unfold parseJSONWithRetry, JsonConvenience.parseJSON, parseWithRetry.
    rewrite Hl, Hs. cbn [success data cleanedLength].
    split; [reflexivity|]. split; [reflexivity|].
    split; [symmetry; apply Hdata; reflexivity|].
    split; [reflexivity|]. split; [reflexivity|]. intros _. reflexivity.
Qed.

(* ------------------------------------------------------------------ *)
(** ** The structure fixers *)
(* ------------------------------------------------------------------ *)

Lemma startsWith_unit_refl (a : N) (x : jsstring) : startsWith (a :: x) [a] = true.
Proof. cbn [startsWith]. rewrite N.eqb_refl. destruct x; reflexivity. Qed.

Lemma startsWith_unit_app (a b : N) (x : jsstring) :
  startsWith x [a] = true -> startsWith (x ++ [b]) [a] = true.
Proof.
  destruct x as [|c x]; cbn [startsWith app]; [discriminate|].
  destruct x; cbn [app]; trivial.
Qed.

Lemma endsWith_unit_snoc (b : N) (x : jsstring) : endsWith (x ++ [b]) [b] = true.
Proof.
  unfold endsWith. rewrite rev_app_distr. cbn [rev app].
  apply startsWith_unit_refl.
Qed.

Lemma ensure_brackets (a b : N) (x : jsstring) :
  let y := if negb (startsWith x [a]) then a :: x else x in
  let z := if negb (endsWith y [b]) then y ++ [b] else y in
  startsWith z [a] = true /\ endsWith z [b] = true.
Proof.
  intros y z.
  assert (Hy : startsWith y [a] = true).
  { unfold y. destruct (startsWith x [a]) eqn:E; cbn [negb]; [exact E|].
    apply startsWith_unit_refl. }
  unfold z. destruct (endsWith y [b]) eqn:E; cbn [negb].
  - split; [exact Hy | exact E].
  - split; [apply startsWith_unit_app; exact Hy | apply endsWith_unit_snoc].
Qed.

(** X2: whatever text they are given, [fixArrayStructure] returns a text
    that starts with an opening and ends with a closing square bracket,
    and [fixObjectStructure] one that starts and ends with braces. *)
Theorem fixed_structure_is_bracketed :
  forall s : jsstring,
    startsWith (fixArrayStructure s) [91%N] = true
    /\ endsWith (fixArrayStructure s) [93%N] = true
    /\ startsWith (fixObjectStructure s) [123%N] = true
    /\ endsWith (fixObjectStructure s) [125%N] = true.
Proof.
  intros s.
  destruct (ensure_brackets 91 93
              (Regex.replace1 reCommaBracket [Regex.Lit [93%N]]
                 (Regex.replace1 reDanglingObject [] s))) as [Ha Hb].
  destruct (ensure_brackets 123 125
              (Regex.replace1 reCommaBrace [Regex.Lit [125%N]]
                 (Regex.replace1 reDanglingProperty [] s))) as [Hc Hd].
  split; [exact Ha|]. split; [exact Hb|]. split; [exact Hc | exact Hd].
Qed.
(* ------------------------------------------------------------------ *)
(** ** Categorization of one expense *)
(* ------------------------------------------------------------------ *)

Lemma parseSingleResponse_closed (response : jsstring) :
  exists c,
    SingleCategorization.parseSingleResponse response
    = Return (SingleCategorization.mkCategorization c)
    /\ (isCategory c = true \/ c = Unknown)
    /\ (Json.truthy (Some (parseJSONWithRetry response 3)) = true -> isCategory c = true).
Proof.
  unfold SingleCategorization.parseSingleResponse.
  destruct (Json.truthy (Some (parseJSONWithRetry response 3))) eqn:Ht; cbn [negb].
  2:{ exists Unknown. split; [reflexivity|]. split; [right; reflexivity | discriminate]. }
  assert (Hother : isCategory (u "Other") = true) by (vm_compute; reflexivity).
  assert (Hend : forall named : option Json.value,
             exists c,
               match Conv.orElse named (Json.VStr (u "Other")) with
               | Json.VStr s =>
                   if negb (isCategory s)
                   then Return (SingleCategorization.mkCategorization (u "Other"))
                   else Return (SingleCategorization.mkCategorization s)
               | _ => Return (SingleCategorization.mkCategorization (u "Other"))
               end = Return (SingleCategorization.mkCategorization c)
               /\ isCategory c = true).
  { intros named.
    destruct (Conv.orElse named (Json.VStr (u "Other"))) as [| b | x | s | l | l];
      try (exists (u "Other"); split; [reflexivity | exact Hother]).
    destruct (isCategory s) eqn:Hs; cbn [negb].
    - exists s. split; [reflexivity | exact Hs].
    - exists (u "Other"). split; [reflexivity | exact Hother]. }
  assert (Hmem : forall k, exists v, Conv.member k (parseJSONWithRetry response 3) = Return v).
  { intros k. destruct (parseJSONWithRetry response 3); cbn [Conv.member];
      try (eexists; reflexivity). cbn in Ht. discriminate Ht. }
  destruct (Hmem kCategory) as [lower Hlower]. rewrite Hlower. cbn [bindR].
  destruct (Hmem SingleCategorization.kCategoryCapital) as [upper Hupper]. rewrite Hupper.
  destruct (Json.truthy lower); cbn [bindR].
  - destruct (Hend lower) as (c & Hc & Hin). exists c.
    split; [exact Hc|]. split; [left; exact Hin | intros _; exact Hin].
  - destruct (Hend upper) as (c & Hc & Hin). exists c.
    split; [exact Hc|]. split; [left; exact Hin | intros _; exact Hin].
Qed.

Lemma categorizeExpenseWithAI_closed (api : SingleCategorization.SingleGemini)
      (request : SingleCategorization.CategorizationRequest) :
  exists c,
    SingleCategorization.categorizeExpenseWithAI api request
    = Return (SingleCategorization.mkCategorization c)
    /\ (isCategory c = true \/ c = Unknown).
Proof.
  unfold SingleCategorization.categorizeExpenseWithAI.
  destruct (api request) as [response|]; cbn [bindR].
  - destruct (parseSingleResponse_closed response) as (c & Hc & Hin & _).
    rewrite Hc. exists c. split; [reflexivity | exact Hin].
  - exists Unknown. split; [reflexivity | right; reflexivity].
Qed.

(** X3: categorizing one expense never throws and never returns a label
    from outside: for every response text [parseSingleResponse] returns a
    label of EXPENSE_CATEGORIES or the sentinel Unknown, and it returns a
    label of the set whenever the repaired response is a truthy value
    (Other when that value names no label of the set).  For every
    behaviour of the service [categorizeExpenseWithAI] returns a label of
    the set or Unknown.  Unknown itself is not in the set. *)
Theorem single_categorization_closed :
  (forall response : jsstring,
      exists c,
        SingleCategorization.parseSingleResponse response
        = Return (SingleCategorization.mkCategorization c)
        /\ (isCategory c = true \/ c = Unknown)
        /\ (Json.truthy (Some (parseJSONWithRetry response 3)) = true -> isCategory c = true))
  /\ (forall (api : SingleCategorization.SingleGemini)
             (request : SingleCategorization.CategorizationRequest),
         exists c,
           SingleCategorization.categorizeExpenseWithAI api request
           = Return (SingleCategorization.mkCategorization c)
           /\ (isCategory c = true \/ c = Unknown))
  /\ isCategory Unknown = false.
Proof.
  split; [exact parseSingleResponse_closed|].
  split; [exact categorizeExpenseWithAI_closed|].
  vm_compute. reflexivity.
Qed.

(* ------------------------------------------------------------------ *)
(** ** The parsers that categorize *)
(* ------------------------------------------------------------------ *)

Lemma parseExpenseFromText_agrees `{Host} (api : SingleCategorization.SingleGemini)
      (text from headerDate : jsstring) :
  agree (GmailAI.parseExpenseFromText api text from headerDate)
        (parseExpenseFromTextWithoutAI text from headerDate).
Proof.
  unfold GmailAI.parseExpenseFromText, parseExpenseFromTextWithoutAI.
  destruct (field (u "Comercio:") text) as [merchantName|]; [|exact I].
  destruct (option_map (fun s => split 32 (replaceFirstUnit 44 [] s)) (field (u "Monto:") text))
    as [[|currencyCode [|amountStr rest]]|]; try exact I.
  destruct (negb (JS.truthy merchantName)); [exact I|].
  destruct (Num.isNaN (Num.parseFloat amountStr) || Num.leq0 (Num.parseFloat amountStr));
    [exact I|].
  match goal with
  | |- context [SingleCategorization.categorizeExpenseWithAI api ?r] =>
      destruct (categorizeExpenseWithAI_closed api r) as (c & Hc & Hin); rewrite Hc
  end.
  cbn [agree]. unfold sameButCategory.
  cbn [amount merchant date location currency category SingleCategorization.resultCategory].
  split; [reflexivity|]. split; [reflexivity|]. split; [reflexivity|].
  split; [reflexivity|]. split; [reflexivity|].
  exists c. split; [reflexivity | exact Hin].
Qed.

(** X4: the parsers that categorize return null exactly when the
    parsers without categorization do, and otherwise the same amount,
    merchant, date, location and currency, with a category that is in
    EXPENSE_CATEGORIES or is Unknown: since [categorizeExpenseWithAI]
    never throws, the keyword classifier of their [catch] block is never
    consulted.  This holds for the text parsers and for the e-mail
    parsers, for every host, service and message. *)
Theorem ai_parsers_extract_the_same_fields :
  forall (H : Host) (api : SingleCategorization.SingleGemini),
    (forall text from headerDate : jsstring,
        agree (GmailAI.parseExpenseFromText api text from headerDate)
              (parseExpenseFromTextWithoutAI text from headerDate))
    /\ (forall message : GmailMessage,
           agree (GmailAI.parseExpenseEmail api message)
                 (parseExpenseEmailWithoutAI message)).
Proof.
  intros H api. split.
  - intros text from headerDate. apply parseExpenseFromText_agrees.
  - intros message.
    unfold GmailAI.parseExpenseEmail, parseExpenseEmailWithoutAI.
    destruct (htmlContentOf message) as [htmlContent|]; [|exact I].
    apply parseExpenseFromText_agrees.
Qed.

(** X5: [categorizeExpensesWithAI] makes no call for an empty array and
    returns it; for any other array it returns what
    [batchCategorizeExpenses] returns, having made the same calls.  Its
    result does not depend on the host: the keyword classifier of its
    [catch] block is never consulted, and when every call fails each
    expense gets the category Unknown. *)
Theorem categorizeExpensesWithAI_is_the_batch_call :
  forall (api : Gemini) (expenses : list ParsedExpense),
    (forall H : Host,
        @GmailAI.categorizeExpensesWithAI H api expenses
        = match expenses with
          | [] => ([], [])
          | _ :: _ =>
              (match fst (batchCategorizeExpenses api [] expenses) with
               | Return r => r
               | Throw => []
               end, snd (batchCategorizeExpenses api [] expenses))
          end)
    /\ (exists r, fst (batchCategorizeExpenses api [] expenses) = Return r)
    /\ (forall H1 H2 : Host,
           @GmailAI.categorizeExpensesWithAI H1 api expenses
           = @GmailAI.categorizeExpensesWithAI H2 api expenses).
Proof.
  intros api expenses.
  assert (Hret : exists r, fst (batchCategorizeExpenses api [] expenses) = Return r)
    by apply batchCategorizeExpenses_returns.
  assert (Heq : forall H : Host,
             @GmailAI.categorizeExpensesWithAI H api expenses
             = match expenses with
               | [] => ([], [])
               | _ :: _ =>
                   (match fst (batchCategorizeExpenses api [] expenses) with
                    | Return r => r
                    | Throw => []
                    end, snd (batchCategorizeExpenses api [] expenses))
               end).
  { intros H. unfold GmailAI.categorizeExpensesWithAI.
    destruct expenses as [|e rest]; [reflexivity|].
    destruct Hret as [r Hr].
    destruct (batchCategorizeExpenses api [] (e :: rest)) as [res log].
    cbn [fst snd] in *. rewrite Hr. reflexivity. }
  split; [exact Heq|]. split; [exact Hret|].
  intros H1 H2. rewrite (Heq H1), (Heq H2). reflexivity.
Qed.

(* ------------------------------------------------------------------ *)
(** ** Regex extraction: the branch of the quoted strings *)
(* ------------------------------------------------------------------ *)

Lemma isCategory_plausible (s : jsstring) : isCategory s = true -> plausible s = true.
Proof.
  unfold isCategory. intros Hs. apply existsb_exists in Hs.
  destruct Hs as (l & Hin & Heq). apply eqb_spec in Heq. subst s.
  assert (Hall : forallb plausible EXPENSE_CATEGORIES = true) by (vm_compute; reflexivity).
  rewrite forallb_forall in Hall. apply Hall. exact Hin.
Qed.

Lemma filter_filter_implied {A : Type} (p q : A -> bool) (l : list A) :
  (forall x, q x = true -> p x = true) -> filter q (filter p l) = filter q l.
Proof.
  intros Himp. induction l as [|x l IH]; [reflexivity|].
  cbn [filter]. destruct (p x) eqn:Hp.
  - cbn [filter]. rewrite IH. reflexivity.
  - destruct (q x) eqn:Hq; [|exact IH].
    apply Himp in Hq. rewrite Hq in Hp. discriminate Hp.
Qed.

Lemma categoryAt_closed (categories : list jsstring) (i : nat) :
  Forall (fun c => isCategory c = true) categories ->
  isCategory (categoryAt categories i) = true \/ categoryAt categories i = Unknown.
Proof.
  intros Hall. unfold categoryAt.
  destruct (nth_error categories i) as [s|] eqn:Hn; [|right; reflexivity].
  destruct (JS.truthy s); [|right; reflexivity].
  left. rewrite Forall_forall in Hall. apply Hall. eapply nth_error_In. exact Hn.
Qed.

Lemma assign_closed (categories : list jsstring) (l : list ParsedExpense) :
  Forall (fun c => isCategory c = true) categories ->
  Forall closedOrUnknown (assign categories l).
Proof.
  intros Hall. unfold assign. apply Forall_forall. intros o Ho.
  apply in_map_iff in Ho. destruct Ho as ([i e] & Heq & _). subst o.
  cbn [fst snd]. exists (categoryAt categories i). split.
  - unfold withCategory. apply getProp_setProp.
  - apply categoryAt_closed. exact Hall.
Qed.

(** X6: when the response holds no [~category~: ~...~] pair, the regex
    extraction only assigns labels of EXPENSE_CATEGORIES (or Unknown to
    the expenses beyond the labels found).  Its result is the assignment
    of the quoted strings that are labels of the set, or the empty array
    when there is none: the screen on length, brackets, colons, commas and
    digits that precedes removes no label of the set. *)
Theorem quoted_strings_branch_is_closed :
  forall (response : jsstring) (expenses : list ParsedExpense),
    Regex.matchG reCategory response = [] ->
    let labels := filter isCategory
                    (List.map (Regex.replaceG reQuote []) (Regex.matchG reQuoted response)) in
    extractCategoriesWithRegex response expenses
    = match labels with
      | [] => []
      | _ :: _ => assign labels expenses
      end
    /\ Forall closedOrUnknown (extractCategoriesWithRegex response expenses)
    /\ (extractCategoriesWithRegex response expenses = []
        \/ List.length (extractCategoriesWithRegex response expenses) = List.length expenses).
Proof.
  intros response expenses Hnone labels.
  assert (Heq : extractCategoriesWithRegex response expenses
                = match labels with
                  | [] => []
                  | _ :: _ => assign labels expenses
                  end).
  { unfold extractCategoriesWithRegex. rewrite Hnone.
    rewrite (filter_filter_implied plausible isCategory _ isCategory_plausible).
    reflexivity. }
  assert (Hlabels : Forall (fun c => isCategory c = true) labels).
  { apply Forall_forall. intros c Hc. unfold labels in Hc.
    apply filter_In in Hc. exact (proj2 Hc). }
  split; [exact Heq|]. rewrite Heq.
  destruct labels as [|c rest] eqn:El.
  - split; [constructor | left; reflexivity].
  - split; [apply assign_closed; exact Hlabels | right; apply assign_length].
Qed.

Lemma quoted_strings_branch_is_closed_witness :
  Forall closedOrUnknown
    (extractCategoriesWithRegex (u "The labels are ~Travel~ and ~Pets~ and ~Groceries~")
       [expense "Avianca"; expense "Vet"; expense "Walmart"])
  /\ List.length
       (extractCategoriesWithRegex (u "The labels are ~Travel~ and ~Pets~ and ~Groceries~")
          [expense "Avianca"; expense "Vet"; expense "Walmart"]) = 3.
Proof.
  assert (Hnone : Regex.matchG reCategory
                    (u "The labels are ~Travel~ and ~Pets~ and ~Groceries~") = [])
    by (vm_compute; reflexivity).
  destruct (quoted_strings_branch_is_closed
              (u "The labels are ~Travel~ and ~Pets~ and ~Groceries~")
              [expense "Avianca"; expense "Vet"; expense "Walmart"] Hnone)
    as (_ & Hclosed & _).
  split; [exact Hclosed|]. vm_compute. reflexivity.
Defined.
(* ------------------------------------------------------------------ *)
(** ** The storage handlers: what a request can change *)
(* ------------------------------------------------------------------ *)


Lemma createHandler_failed (srv : Server) (db : DB) (e : WireExpense) (st : nat) (db' : DB) :
  createHandler srv db e = (Failed st, db') -> db' = db.
Proof.
  unfold createHandler.
  destruct (userOf (sessionUser srv)); [|intros E; inversion E; reflexivity].
  destruct (negb (validateExpense _ _ _ _ _ _)); [intros E; inversion E; reflexivity|].
  destruct (negb (dbUp srv)); [intros E; inversion E; reflexivity|].
  destruct (if JS.truthy (w_transactionDate e) then _ else _);
    intros E; inversion E; reflexivity.
Qed.

(* ------------------------------------------------------------------ *)
(** ** The delete handler *)
(* ------------------------------------------------------------------ *)

Lemma filter_length_partition {A : Type} (p : A -> bool) (l : list A) :
  List.length (filter p l) + List.length (filter (fun x => negb (p x)) l) = List.length l.
Proof.
  induction l as [|x l IH]; [reflexivity|].
  cbn [filter]. destruct (p x); cbn [negb List.length]; lia.
Qed.

Lemma filter_commute {A : Type} (p q : A -> bool) (l : list A) :
  filter p (filter q l) = filter q (filter p l).
Proof.
  induction l as [|x l IH]; [reflexivity|].
  cbn [filter]. destruct (p x) eqn:Hp, (q x) eqn:Hq; cbn [filter];
    rewrite ?Hp, ?Hq, IH; reflexivity.
Qed.

Lemma filter_ext_in_bool {A : Type} (p : A -> bool) (l : list A) :
  (forall x, In x l -> p x = true) -> filter p l = l.
Proof.
  intros Hall. induction l as [|x l IH]; [reflexivity|].
  cbn [filter]. rewrite (Hall x (or_introl eq_refl)).
  f_equal. apply IH. intros y Hy. apply Hall. right. exact Hy.
Qed.

(** X8: a successful delete removes exactly the rows of the session's
    user whose date lies in the closed range between the two dates as the
    server reads them, and reports their number.  A row is in the new
    table exactly when it was in the old one and is not such a row; the
    rows of every other user stay, in their order; the same request sent
    again deletes nothing and leaves the table as it is. *)
Theorem delete_removes_only_own_rows_in_range :
  forall (srv : Server) (db : DB) (s e : jsstring) (n : nat) (db' : DB),
    deleteHandler srv db s e = (Ok n, db') ->
    exists user lo hi,
      userOf (bareSessionUser srv) = Some user
      /\ @JSDate.ofString (serverHost srv) s = Some lo
      /\ @JSDate.ofString (serverHost srv) e = Some hi
      /\ (forall r, In r db' <-> In r db /\ inRange user lo hi r = false)
      /\ n + List.length db' = List.length db
      /\ n = List.length (filter (inRange user lo hi) db)
      /\ (forall other,
             JS.eqb other user = false ->
             filter (fun r => JS.eqb (userId r) other) db'
             = filter (fun r => JS.eqb (userId r) other) db)
      /\ deleteHandler srv db' s e = (Ok 0, db').
Proof.
  intros srv db s e n db' Hd.
  pose proof Hd as Hd0.
  apply deleteHandler_ok in Hd. destruct Hd as (user & lo & hi & Hu & Hlo & Hhi & Hn & Hdb).
  exists user, lo, hi.
  split; [exact Hu|]. split; [exact Hlo|]. split; [exact Hhi|].
  split.
  { intros r. rewrite Hdb, filter_In. rewrite negb_true_iff. reflexivity. }
  split.
  { rewrite Hn, Hdb. apply filter_length_partition. }
  split; [exact Hn|].
  split.
  { intros other Hother. rewrite Hdb.
    rewrite filter_commute.
    apply filter_ext_in_bool. intros r Hr.
    apply filter_In in Hr. destruct Hr as [_ Hr].
    unfold inRange. apply eqb_spec in Hr.
    rewrite negb_true_iff.
    destruct (JS.eqb (userId r) user) eqn:Hru; [|reflexivity].
    apply eqb_spec in Hru. rewrite Hr in Hru. rewrite Hru in Hother.
    rewrite eqb_refl in Hother. discriminate Hother. }
  (* the second request *)
  assert (Hnone : filter (inRange user lo hi) db' = []).
  { rewrite Hdb. apply (filter_negb_twice (inRange user lo hi) db). }
  unfold deleteHandler in *. rewrite Hu in *.
  destruct (negb (JS.truthy s) || negb (JS.truthy e)); [discriminate Hd0|].
  rewrite Hlo, Hhi in *.
  destruct (negb (dbUp srv)); [discriminate Hd0|].
  rewrite Hnone. reflexivity.
Qed.

Lemma delete_removes_only_own_rows_in_range_witness :
  let db := [mkRow (u "u1") 1760522400000 (u "12.5") (u "USD") (u "Costa Rica") (u "Uber") (u "Transportation");
             mkRow (u "u2") 1760522400000 (u "7") (u "USD") (u "Costa Rica") (u "Soda") (u "Food & Dining");
             mkRow (u "u1") 1762000000000 (u "3") (u "CRC") (u "Costa Rica") (u "Bus") (u "Transportation")] in
  exists db',
    deleteHandler serverUTC db (u "2025-10-01") (u "2025-10-31") = (Ok 1, db')
    /\ 1 + List.length db' = 3
    /\ deleteHandler serverUTC db' (u "2025-10-01") (u "2025-10-31") = (Ok 0, db').
Proof.
  intros db.
  assert (Hd : deleteHandler serverUTC db (u "2025-10-01") (u "2025-10-31")
               = (Ok 1, [mkRow (u "u2") 1760522400000 (u "7") (u "USD") (u "Costa Rica") (u "Soda") (u "Food & Dining");
                         mkRow (u "u1") 1762000000000 (u "3") (u "CRC") (u "Costa Rica") (u "Bus") (u "Transportation")]))
    by (vm_compute; reflexivity).
  eexists. split; [exact Hd|].
  destruct (delete_removes_only_own_rows_in_range serverUTC db (u "2025-10-01") (u "2025-10-31") Hd)
    as (user & lo & hi & _ & _ & _ & _ & Hcount & _ & _ & Hagain).
  split; [exact Hcount | exact Hagain].
Defined.
(* ------------------------------------------------------------------ *)
(** ** The bulk insert *)
(* ------------------------------------------------------------------ *)

Lemma batchRow_storedFor (H : Host) (user : jsstring) (e : WireExpense) (r : Row) :
  @batchValid H e = true -> @batchRow H user e = Some r -> storedFor H user e r.
Proof.
  unfold batchValid, validateExpense, batchRow. intros Hv Hr.
  repeat (apply andb_prop in Hv; destruct Hv as [Hv ?]).
  destruct (JS.truthy (w_transactionDate e)); [|discriminate Hr].
  destruct (JSDate.ofString (w_transactionDate e)) as [t|] eqn:Ht; [|discriminate Hr].
  inversion Hr; subst r; clear Hr.
  unfold storedFor.
  cbn [userId rowMerchant rowAmount transactionDate rowCurrency rowCategory rowLocation].
  repeat (split; [first [reflexivity | assumption]|]). assumption.
Qed.

Lemma allSome_Forall2 {A B : Type} (f : A -> option B) (P : A -> B -> Prop)
      (l : list A) (rows : list B) :
  (forall a b, In a l -> f a = Some b -> P a b) ->
  allSome (List.map f l) = Some rows -> Forall2 P l rows.
Proof.
  revert rows. induction l as [|a l IH]; intros rows HP Hall.
  - cbn in Hall. inversion Hall. constructor.
  - cbn [List.map allSome] in Hall.
    destruct (f a) as [b|] eqn:Hfa; [|discriminate Hall].
    destruct (allSome (List.map f l)) as [rest|] eqn:Hrest; [|discriminate Hall].
    cbn [option_map] in Hall. inversion Hall; subst rows.
    constructor.
    + apply HP; [left; reflexivity | exact Hfa].
    + apply IH; [|reflexivity]. intros a' b' Hin. apply HP. right. exact Hin.
Qed.

Lemma batchHandler_ok (srv : Server) (db : DB) (l : list WireExpense) (n : nat) (db' : DB) :
  batchHandler srv db l = (Ok n, db') ->
  n = List.length l
  /\ exists user rows,
      userOf (sessionUser srv) = Some user
      /\ db' = db ++ rows
      /\ Forall2 (storedFor (serverHost srv) user) l rows.
Proof.
  unfold batchHandler.
  destruct (userOf (sessionUser srv)) as [user|]; [|discriminate].
  destruct (forallb (@batchValid (serverHost srv)) l) eqn:Hv; cbn [negb]; [|discriminate].
  destruct (negb (dbUp srv)); [discriminate|].
  destruct (allSome (List.map (@batchRow (serverHost srv) user) l)) as [rows|] eqn:Hrows;
    [|discriminate].
  intros E. inversion E; subst n db'; clear E.
  split.
  - rewrite (allSome_length _ Hrows). apply length_map.
  - exists user, rows. split; [reflexivity|]. split; [reflexivity|].
    eapply allSome_Forall2; [|exact Hrows].
    intros e r Hin Hr. apply batchRow_storedFor; [|exact Hr].
    rewrite forallb_forall in Hv. apply Hv. exact Hin.
Qed.

Lemma createHandler_ok (srv : Server) (db : DB) (e : WireExpense) (x : unit) (db' : DB) :
  createHandler srv db e = (Ok x, db') ->
  exists user t,
    userOf (sessionUser srv) = Some user
    /\ (if JS.truthy (w_transactionDate e)
        then @JSDate.ofString (serverHost srv) (w_transactionDate e)
        else Some (@now (serverHost srv))) = Some t
    /\ db' = db ++ [mkRow user t (Conv.numToString (w_amount e)) (w_currency e)
                      (orStr (w_location e) (u "Unknown"))
                      (orStr (w_merchant e) (u "Unknown")) (w_category e)].
Proof.
  unfold createHandler.
  destruct (userOf (sessionUser srv)) as [user|]; [|discriminate].
  destruct (negb (validateExpense _ _ _ _ _ _)); [discriminate|].
  destruct (negb (dbUp srv)); [discriminate|].
  destruct (if JS.truthy (w_transactionDate e) then _ else _) as [t|] eqn:Ht; [|discriminate].
  intros E. inversion E; subst db'. exists user, t.
  split; [reflexivity|]. split; [reflexivity | reflexivity].
Qed.


(* ------------------------------------------------------------------ *)
(** ** The bulk store of the client: expenses that are skipped *)
(* ------------------------------------------------------------------ *)

Lemma prepare_skips `{Host} (o : object) : skipped o = true -> prepare o = Return None.
Proof.
  unfold skipped, sentAmount, prepare.
  destruct (match Json.getProp kAmount o with
            | Some (Json.VNum n) => Return n
            | v => Conv.parseFloatOf v
            end) as [amount|]; [|discriminate].
  cbn [bindR]. intros ->. reflexivity.
Qed.

Lemma prepare_sends `{Host} (o : object) (w : option WireExpense) :
  kept o = true -> prepare o = Return w ->
  exists x, w = Some x /\ sentAmount o = Return (w_amount x).
Proof.
  unfold kept, skipped, sentAmount, prepare. intros Hs.
  destruct (match Json.getProp kAmount o with
            | Some (Json.VNum n) => Return n
            | v => Conv.parseFloatOf v
            end) as [amount|]; cbn [bindR]; [|discriminate].
  apply negb_true_iff in Hs. rewrite Hs.
  destruct (Conv.callToString _) as [cat|]; cbn [bindR]; [|discriminate].
  destruct (Conv.callToString _) as [loc|]; cbn [bindR]; [|discriminate].
  destruct (Conv.callToString _) as [cur|]; cbn [bindR]; [|discriminate].
  destruct (Conv.callToString _) as [mer|]; cbn [bindR]; [|discriminate].
  intros E. inversion E. eexists. split; [reflexivity|]. reflexivity.
Qed.

Lemma preparedOf_filter `{Host} (l : list object) :
  preparedOf (filter kept l) = preparedOf l.
Proof.
  unfold preparedOf. induction l as [|o l IH]; [reflexivity|].
  cbn [filter]. destruct (kept o) eqn:Hs.
  - cbn [mapR]. destruct (prepare o) as [w|]; cbn [bindR]; [|reflexivity].
    destruct (mapR prepare (filter kept l)) as [p1|];
      destruct (mapR prepare l) as [p2|]; cbn [bindR] in *;
      try discriminate IH; [|reflexivity].
    inversion IH as [Hp]. destruct w; cbn [somes]; rewrite Hp; reflexivity.
  - cbn [mapR]. unfold kept in Hs. apply negb_false_iff in Hs.
    rewrite (prepare_skips o Hs). cbn [bindR].
    destruct (mapR prepare (filter kept l)) as [p1|];
      destruct (mapR prepare l) as [p2|]; cbn [bindR somes] in *;
      try discriminate IH; [exact IH | reflexivity].
Qed.

Lemma storeParsedExpensesBatch_preparedOf `{Host} (srv : Server) (db : DB)
      (l : list object) (userId : jsstring) :
  storeParsedExpensesBatch srv db l userId
  = match preparedOf l with
    | Throw => (Throw, db)
    | Return [] => (Return tt, db)
    | Return (w :: ws) =>
        match batchHandler srv db (w :: ws) with
        | (Ok _, db') => (Return tt, db')
        | (Failed _, db') => (Throw, db')
        end
    end.
Proof.
  unfold storeParsedExpensesBatch, preparedOf.
  destruct (mapR prepare l) as [prepared|]; [|reflexivity].
  destruct (somes prepared); reflexivity.
Qed.

Lemma preparedOf_none `{Host} (l : list object) :
  forallb skipped l = true -> preparedOf l = Return [].
Proof.
  intros Hall. rewrite <- preparedOf_filter.
  assert (Hf : filter kept l = []).
  { induction l as [|o l IH]; [reflexivity|].
    cbn [forallb] in Hall. apply andb_prop in Hall. destruct Hall as [Ho Hl].
    cbn [filter]. unfold kept at 1. rewrite Ho. apply IH. exact Hl. }
  rewrite Hf. reflexivity.
Qed.

Lemma preparedOf_amounts `{Host} (l : list object) (ws : list WireExpense) :
  preparedOf l = Return ws ->
  mapR sentAmount (filter kept l) = Return (List.map w_amount ws).
Proof.
  unfold preparedOf. revert ws. induction l as [|o l IH]; intros ws.
  - cbn. intros E. inversion E. reflexivity.
  - cbn [mapR filter]. destruct (prepare o) as [w|] eqn:Hp; cbn [bindR]; [|discriminate].
    destruct (mapR prepare l) as [p|]; cbn [bindR]; [|discriminate].
    intros E. inversion E; subst ws; clear E.
    specialize (IH (somes p) eq_refl).
    destruct (kept o) eqn:Hs.
    + destruct (prepare_sends o Hs Hp) as (x & Hw & Hx). subst w.
      cbn [somes List.map mapR]. rewrite Hx, IH. reflexivity.
    + unfold kept in Hs. apply negb_false_iff in Hs.
      rewrite (prepare_skips o Hs) in Hp. inversion Hp; subst w.
      cbn [somes]. exact IH.
Qed.

(** An expense whose amount has no string makes the bulk call throw
    before any request is made. *)
Lemma preparedOf_throws `{Host} (l : list object) (o : object) :
  In o l -> sentAmount o = Throw -> preparedOf l = Throw.
Proof.
  intros Hin Ho. unfold preparedOf.
  assert (Hp : prepare o = Throw).
  { unfold prepare. unfold sentAmount in Ho. rewrite Ho. reflexivity. }
  induction l as [|x l IH]; [destruct Hin|].
  cbn [mapR]. destruct Hin as [-> | Hin].
  - rewrite Hp. reflexivity.
  - destruct (prepare x); cbn [bindR]; [|reflexivity].
    destruct (mapR prepare l); cbn [bindR]; [|reflexivity].
    specialize (IH Hin). discriminate IH.
Qed.

(** X10: [storeParsedExpensesBatch] never sends an expense that it
    skips, that is, one whose amount is read without an exception and is
    NaN or not above zero.  Storing a list has the same outcome and
    leaves the same table as storing the list without those expenses; the
    amounts that are sent are those of the remaining expenses, in order;
    when every expense is skipped no request is made: the call returns and
    the table is unchanged whatever the state of the server and of the
    session; and an expense whose amount cannot be turned into a string
    (an object with a [toString] of its own) makes the call throw before
    any request, the table being unchanged. *)
Theorem skipped_expenses_are_never_sent :
  forall (H : Host) (srv : Server) (db : DB) (l : list object) (userId : jsstring),
    storeParsedExpensesBatch srv db l userId
    = storeParsedExpensesBatch srv db (filter kept l) userId
    /\ (forall ws, preparedOf l = Return ws ->
                   mapR sentAmount (filter kept l) = Return (List.map w_amount ws))
    /\ (forallb skipped l = true ->
        storeParsedExpensesBatch srv db l userId = (Return tt, db))
    /\ (forall o, In o l -> sentAmount o = Throw ->
                  storeParsedExpensesBatch srv db l userId = (Throw, db)).
Proof.
  intros H srv db l userId.
  split.
  { rewrite !storeParsedExpensesBatch_preparedOf, preparedOf_filter. reflexivity. }
  split; [intros ws; apply preparedOf_amounts|].
  split.
  - intros Hall. rewrite storeParsedExpensesBatch_preparedOf, (preparedOf_none l Hall).
    reflexivity.
  - intros o Hin Ho.
    rewrite storeParsedExpensesBatch_preparedOf, (preparedOf_throws l o Hin Ho).
    reflexivity.
Qed.

(* ------------------------------------------------------------------ *)
(** ** The request to the service: retries *)
(* ------------------------------------------------------------------ *)

Section Retries.

Import GeminiClient.

Lemma tryBlock_events (apiKey : option jsstring) (net : Network) (attempt : nat) :
  present apiKey = true -> snd (tryBlock apiKey net attempt) = [Fetch].
Proof.
  intros Hk. unfold tryBlock. rewrite Hk. cbn [negb].
  destruct (net attempt) as [|status body]; [reflexivity|].
  destruct (negb (ok status)).
  - destruct (((status =? 503) || (status =? 429)) && (attempt <=? maxRetries)); reflexivity.
  - destruct (Json.parse body); reflexivity.
Qed.

Lemma tryBlock_no_key (apiKey : option jsstring) (net : Network) (attempt : nat) :
  present apiKey = false -> tryBlock apiKey net attempt = (Thrown false, []).
Proof. intros Hk. unfold tryBlock. rewrite Hk. reflexivity. Qed.

Lemma tryBlock_recursed (apiKey : option jsstring) (net : Network) (attempt : nat) :
  fst (tryBlock apiKey net attempt) = Recursed -> (attempt <=? maxRetries) = true.
Proof.
  unfold tryBlock. destruct (negb (present apiKey)); [discriminate|].
  destruct (net attempt) as [|status body]; [discriminate|].
  destruct (negb (ok status)).
  - destruct ((status =? 503) || (status =? 429)); cbn [andb]; [|discriminate].
    destruct (attempt <=? maxRetries); [reflexivity | discriminate].
  - destruct (Json.parse body) as [data|]; [|discriminate].
    unfold readText. destruct (Conv.member _ data); [|discriminate].
    destruct (Conv.orElse _ _); try discriminate.
    destruct (negb (JS.truthy (trim s))); discriminate.
Qed.

Lemma tryBlock_returned (apiKey : option jsstring) (net : Network) (attempt : nat)
      (t : jsstring) :
  fst (tryBlock apiKey net attempt) = Returned t ->
  JS.truthy (trim t) = true
  /\ exists status body, net attempt = Responds status body /\ ok status = true.
Proof.
  unfold tryBlock. destruct (negb (present apiKey)); [discriminate|].
  destruct (net attempt) as [|status body] eqn:Hn; [discriminate|].
  destruct (ok status) eqn:Hok; cbn [negb].
  - destruct (Json.parse body) as [data|]; [|discriminate].
    unfold readText. cbn [fst]. destruct (Conv.member _ data); [|discriminate].
    destruct (Conv.orElse _ _); try discriminate.
    destruct (JS.truthy (trim s)) eqn:Hs; cbn [negb]; [|discriminate].
    intros E. inversion E; subst t. split; [exact Hs|].
    exists status, body. split; [reflexivity | exact Hok].
  - destruct (((status =? 503) || (status =? 429)) && (attempt <=? maxRetries)); discriminate.
Qed.

Lemma callFrom_schedule (apiKey : option jsstring) (net : Network) :
  present apiKey = true ->
  forall fuel attempt log,
    S maxRetries - attempt < fuel ->
    exists r retries,
      callFrom fuel apiKey net attempt log = Some (r, log ++ scheduleFrom attempt retries)
      /\ attempt + retries <= Nat.max attempt (S maxRetries)
      /\ (forall t, r = Return t -> JS.truthy (trim t) = true).
Proof.
  intros Hk. induction fuel as [|fuel IH]; intros attempt log Hfuel; [lia|].
  cbn [callFrom].
  pose proof (tryBlock_events apiKey net attempt Hk) as Hev.
  pose proof (tryBlock_recursed apiKey net attempt) as Hrec.
  pose proof (tryBlock_returned apiKey net attempt) as Hret.
  destruct (tryBlock apiKey net attempt) as [outcome events].
  cbn [fst snd] in *. subst events.
  assert (Hnext : (attempt <=? maxRetries) = true ->
                  exists r retries,
                    callFrom fuel apiKey net (attempt + 1) (log ++ [Fetch] ++ [Wait (delay attempt)])
                    = Some (r, log ++ scheduleFrom attempt retries)
                    /\ attempt + retries <= Nat.max attempt (S maxRetries)
                    /\ (forall t, r = Return t -> JS.truthy (trim t) = true)).
  { intros Hle. apply Nat.leb_le in Hle.
    destruct (IH (attempt + 1) (log ++ [Fetch] ++ [Wait (delay attempt)])) as (r & k & Hc & Hb & Ht);
      [lia|].
    exists r, (S k). split; [|split; [lia | exact Ht]].
    rewrite Hc. cbn [scheduleFrom]. rewrite <- app_assoc. cbn [app].
    replace (attempt + 1) with (S attempt) by lia. reflexivity. }
  destruct outcome as [t | | isTypeError].
  - exists (Return t), 0. split; [reflexivity|]. split; [lia|].
    intros t' E. inversion E; subst t'. apply (Hret t eq_refl).
  - apply Hnext. apply Hrec. reflexivity.
  - destruct (attempt <=? maxRetries) eqn:Hle; cbn [andb].
    + destruct isTypeError; [apply Hnext; reflexivity|].
      exists Throw, 0. split; [reflexivity|]. split; [lia | discriminate].
    + exists Throw, 0. split; [reflexivity|]. split; [lia | discriminate].
Qed.

Lemma callFrom_busy (apiKey : option jsstring) (net : Network) (body : nat -> jsstring)
      (code : nat) :
  present apiKey = true ->
  (code = 503 \/ code = 429) ->
  (forall attempt, net attempt = Responds code (body attempt)) ->
  callGeminiAPI apiKey net = Some (Throw, scheduleFrom 1 3).
Proof.
  intros Hk Hcode Hnet. unfold callGeminiAPI, maxRetries.
  assert (Hbusy : forall attempt,
             tryBlock apiKey net attempt
             = (if attempt <=? 3 then Recursed else Thrown false, [Fetch])).
  { intros attempt. unfold tryBlock. rewrite Hk, Hnet. cbn [negb].
    destruct Hcode; subst code; cbn; unfold maxRetries;
      destruct (attempt <=? 3); reflexivity. }
  cbn [callFrom]. rewrite !Hbusy. cbn. reflexivity.
Qed.

(** X11: [callGeminiAPI] always ends, after at most four requests.
    Without an API key it throws without any request.  With a key, what
    it does is one request, then for each retry a delay and another
    request, with at most three retries and delays of 1000, 2000 and 4000
    ms; a text it returns is never blank.  A status other than 503 and 429
    that is not a success is not retried: one request, then the
    exception.  A service that answers 503 or 429 every time gets the four
    requests and the call throws. *)
Theorem callGeminiAPI_retry_schedule :
  forall (apiKey : option jsstring) (net : Network),
    (exists r log,
        callGeminiAPI apiKey net = Some (r, log)
        /\ (present apiKey = false -> r = Throw /\ log = [])
        /\ (present apiKey = true ->
            exists retries, retries <= 3 /\ log = scheduleFrom 1 retries)
        /\ (forall t, r = Return t -> JS.truthy (trim t) = true))
    /\ (forall status body,
           present apiKey = true ->
           net 1 = Responds status body ->
           ok status = false -> status <> 503 -> status <> 429 ->
           callGeminiAPI apiKey net = Some (Throw, [Fetch]))
    /\ (forall code body,
           present apiKey = true ->
           code = 503 \/ code = 429 ->
           (forall attempt, net attempt = Responds code (body attempt)) ->
           callGeminiAPI apiKey net = Some (Throw, scheduleFrom 1 3))
    /\ scheduleFrom 1 3
       = [Fetch; Wait 1000; Fetch; Wait 2000; Fetch; Wait 4000; Fetch].
Proof.
  intros apiKey net. split; [|split; [|split]].
  - destruct (present apiKey) eqn:Hk.
    + destruct (@callFrom_schedule apiKey net Hk (S maxRetries) 1 []) as (r & k & Hc & Hb & Ht);
        [unfold maxRetries; lia|].
      exists r, (scheduleFrom 1 k). split; [exact Hc|].
      split; [discriminate|]. split; [|exact Ht].
      intros _. exists k. split; [|reflexivity].
      unfold maxRetries in Hb. lia.
    + exists Throw, []. split.
      * unfold callGeminiAPI. cbn [callFrom]. rewrite (tryBlock_no_key _ _ _ Hk).
        cbn. reflexivity.
      * split; [intros _; split; reflexivity|]. split; [discriminate | discriminate].
  - intros status body Hk Hnet Hok H503 H429.
    unfold callGeminiAPI. cbn [callFrom].
    assert (Htry : tryBlock apiKey net 1 = (Thrown false, [Fetch])).
    { unfold tryBlock. rewrite Hk, Hnet, Hok. cbn [negb].
      apply Nat.eqb_neq in H503. apply Nat.eqb_neq in H429.
      rewrite H503, H429. reflexivity. }
    rewrite Htry. cbn. reflexivity.
  - intros code body Hk Hcode Hnet. eapply callFrom_busy; eassumption.
  - vm_compute. reflexivity.
Qed.

End Retries.
(* ------------------------------------------------------------------ *)
(** ** sanitizeString *)
(* ------------------------------------------------------------------ *)

Lemma control1_in_control2 (x : N) :
  (Regex.range 0 8 x || N.eqb x 11 || N.eqb x 12 || Regex.range 14 31 x || N.eqb x 127) = true ->
  isControl x = true.
Proof.
  unfold isControl, Regex.range. intros Hc.
  repeat (apply orb_prop in Hc; destruct Hc as [Hc | Hc]);
    apply orb_true_iff;
    repeat match goal with
           | H : (_ && _) = true |- _ => apply andb_prop in H; destruct H
           | H : (_ <=? _)%N = true |- _ => apply N.leb_le in H
           | H : (_ =? _)%N = true |- _ => apply N.eqb_eq in H
           end;
    first [ left; apply andb_true_iff; split; apply N.leb_le; lia
          | right; apply andb_true_iff; split; apply N.leb_le; lia ].
Qed.

(** The three replacements and the trim, as functions on lists. *)
Lemma sanitizeString_direct (s : jsstring) :
  SingleCategorization.sanitizeString s
  = trim (collapseFrom false (filter (fun x => negb (isControl x)) s)).
Proof.
  unfold SingleCategorization.sanitizeString.
  destruct s as [|x s]; [reflexivity|].
  cbn [JS.truthy negb].
  unfold reControl1, reControl2.
  rewrite replaceG_spaces, !replaceG_Chr_delete.
  rewrite filter_filter_implied; [reflexivity|].
  intros y Hy. apply negb_true_iff in Hy. apply negb_true_iff.
  destruct (Regex.range 0 8 y || N.eqb y 11 || N.eqb y 12 || Regex.range 14 31 y || N.eqb y 127)
    eqn:Hc; [|reflexivity].
  apply control1_in_control2 in Hc. unfold isControl in Hc. rewrite Hc in Hy. discriminate Hy.
Qed.

Lemma spaced_weaken (b : bool) (s : jsstring) : spaced b s = true -> spaced false s = true.
Proof.
  destruct s as [|x s]; [reflexivity|]. cbn [spaced].
  destruct (isSpace x); [|trivial].
  destruct b; cbn [negb andb]; [discriminate | trivial].
Qed.

Lemma spaced_collapse (b : bool) (s : jsstring) : spaced b (collapseFrom b s) = true.
Proof.
  revert b. induction s as [|x s IH]; intros b; [reflexivity|].
  cbn [collapseFrom]. destruct (isSpace x) eqn:Hx.
  - destruct b.
    + apply IH.
    + cbn [spaced]. change (isSpace 32) with true. cbn [negb andb N.eqb Pos.eqb].
      apply IH.
  - cbn [spaced]. rewrite Hx. apply IH.
Qed.

Lemma spaced_trimStart (b : bool) (s : jsstring) :
  spaced b s = true -> spaced true (trimStart s) = true.
Proof.
  revert b. induction s as [|x s IH]; intros b; [reflexivity|].
  cbn [spaced trimStart]. destruct (isSpace x) eqn:Hx.
  - intros H. apply andb_prop in H. destruct H as [_ H]. eapply IH. exact H.
  - intros H. cbn [spaced]. rewrite Hx. exact H.
Qed.

Lemma spaced_prefix (b : bool) (l1 l2 : jsstring) :
  spaced b (l1 ++ l2) = true -> spaced b l1 = true.
Proof.
  revert b. induction l1 as [|x l1 IH]; intros b; [reflexivity|].
  cbn [app spaced]. destruct (isSpace x).
  - intros H. apply andb_prop in H. destruct H as [H1 H2].
    rewrite H1. cbn [andb]. eapply IH. exact H2.
  - apply IH.
Qed.

Lemma trimStart_suffix (s : jsstring) : exists a, s = a ++ trimStart s.
Proof.
  induction s as [|x s IH]; [exists []; reflexivity|].
  cbn [trimStart]. destruct (isSpace x).
  - destruct IH as [a Ha]. exists (x :: a). cbn [app]. rewrite <- Ha. reflexivity.
  - exists []. reflexivity.
Qed.

Lemma trimEnd_prefix (s : jsstring) : exists b, s = trimEnd s ++ b.
Proof.
  unfold trimEnd. destruct (trimStart_suffix (rev s)) as [a Ha].
  exists (rev a). rewrite <- rev_app_distr, <- Ha, rev_involutive. reflexivity.
Qed.

Lemma trimStart_head (s : jsstring) :
  match trimStart s with x :: _ => isSpace x = false | [] => True end.
Proof.
  induction s as [|x s IH]; [exact I|].
  cbn [trimStart]. destruct (isSpace x) eqn:Hx; [exact IH | exact Hx].
Qed.

Lemma endsWithSpace_trimEnd (s : jsstring) : endsWithSpace (trimEnd s) = false.
Proof.
  unfold endsWithSpace, trimEnd. rewrite rev_involutive.
  pose proof (trimStart_head (rev s)) as Hh.
  destruct (trimStart (rev s)); [reflexivity | exact Hh].
Qed.

Lemma collapseFrom_In (b : bool) (s : jsstring) (x : N) :
  In x (collapseFrom b s) -> In x s \/ x = 32%N.
Proof.
  revert b. induction s as [|y s IH]; intros b; [intros []|].
  cbn [collapseFrom]. destruct (isSpace y).
  - destruct b.
    + intros H. apply IH in H. destruct H; [left; right; assumption | right; assumption].
    + intros [H | H]; [right; symmetry; exact H|].
      apply IH in H. destruct H; [left; right; assumption | right; assumption].
  - intros [H | H]; [left; left; exact H|].
    apply IH in H. destruct H; [left; right; assumption | right; assumption].
Qed.

Lemma trim_In (s : jsstring) (x : N) : In x (trim s) -> In x s.
Proof.
  unfold trim. intros H.
  destruct (trimEnd_prefix (trimStart s)) as [b Hb].
  destruct (trimStart_suffix s) as [a Ha].
  rewrite Ha. apply in_or_app. right. rewrite Hb. apply in_or_app. left. exact H.
Qed.

Lemma sanitizeString_sanitized (s : jsstring) :
  sanitized (SingleCategorization.sanitizeString s) = true.
Proof.
  rewrite sanitizeString_direct. unfold sanitized.
  set (f := filter (fun x => negb (isControl x)) s).
  apply andb_true_iff. split; [apply andb_true_iff; split|].
  - apply forallb_forall. intros x Hx. apply trim_In in Hx.
    apply collapseFrom_In in Hx. destruct Hx as [Hx | Hx].
    + unfold f in Hx. apply filter_In in Hx. exact (proj2 Hx).
    + subst x. reflexivity.
  - unfold trim.
    destruct (trimEnd_prefix (trimStart (collapseFrom false f))) as [b Hb].
    apply (spaced_prefix true _ b). rewrite <- Hb.
    apply (spaced_trimStart false). apply spaced_collapse.
  - unfold trim. rewrite endsWithSpace_trimEnd. reflexivity.
Qed.

Lemma collapse_spaced (b : bool) (s : jsstring) :
  spaced b s = true -> collapseFrom b s = s.
Proof.
  revert b. induction s as [|x s IH]; intros b; [reflexivity|].
  cbn [spaced collapseFrom]. destruct (isSpace x).
  - intros H. apply andb_prop in H. destruct H as [H H2].
    apply andb_prop in H. destruct H as [Hb Hx].
    apply negb_true_iff in Hb. subst b. apply N.eqb_eq in Hx. subst x.
    rewrite (IH true H2). reflexivity.
  - intros H. rewrite (IH false H). reflexivity.
Qed.

Lemma trimStart_id (s : jsstring) : spaced true s = true -> trimStart s = s.
Proof.
  destruct s as [|x s]; [reflexivity|]. cbn [spaced trimStart].
  destruct (isSpace x); [cbn [negb andb]; discriminate | reflexivity].
Qed.

Lemma trimEnd_id (s : jsstring) : endsWithSpace s = false -> trimEnd s = s.
Proof.
  unfold endsWithSpace, trimEnd. intros H.
  destruct (rev s) as [|x r] eqn:Hr.
  - cbn [trimStart rev]. rewrite <- (rev_involutive s), Hr. reflexivity.
  - cbn [trimStart]. rewrite H. rewrite <- Hr. apply rev_involutive.
Qed.

Lemma sanitized_fixpoint (s : jsstring) :
  sanitized s = true -> SingleCategorization.sanitizeString s = s.
Proof.
  unfold sanitized. intros H.
  apply andb_prop in H. destruct H as [H Hend].
  apply andb_prop in H. destruct H as [Hctl Hsp].
  apply negb_true_iff in Hend.
  rewrite sanitizeString_direct.
  rewrite filter_ext_in_bool; [|rewrite forallb_forall in Hctl; exact Hctl].
  rewrite (collapse_spaced false s (spaced_weaken true s Hsp)).
  unfold trim. rewrite (trimStart_id s Hsp). apply trimEnd_id. exact Hend.
Qed.

(** X12: what [sanitizeString] returns is sanitized, for every input: it
    holds no code unit from 0 to 31 or from 127 to 159, its only white
    space is the blank, and no blank stands at its start, at its end or
    after another blank.  A text that is sanitized already is returned as
    it is, so sanitizing twice is the same as sanitizing once. *)
Theorem sanitizeString_normal_form :
  forall s : jsstring,
    sanitized (SingleCategorization.sanitizeString s) = true
    /\ (sanitized s = true -> SingleCategorization.sanitizeString s = s)
    /\ SingleCategorization.sanitizeString (SingleCategorization.sanitizeString s)
       = SingleCategorization.sanitizeString s.
Proof.
  intros s. split; [apply sanitizeString_sanitized|].
  split; [apply sanitized_fixpoint|].
  apply sanitized_fixpoint. apply sanitizeString_sanitized.
Qed.

(** X13: [sanitizeString] deletes tabs, line feeds and carriage returns
    with the other control characters, before white space is normalized:
    a control character anywhere in the input leaves no trace in the
    result, not even a blank, so the words it separated are joined. *)
Theorem sanitizeString_deletes_control_characters :
  forall (a b : jsstring) (x : N),
    isControl x = true ->
    SingleCategorization.sanitizeString (a ++ x :: b)
    = SingleCategorization.sanitizeString (a ++ b).
Proof.
  intros a b x Hx. rewrite !sanitizeString_direct, !filter_app.
  cbn [filter]. rewrite Hx. reflexivity.
Qed.

Lemma sanitizeString_deletes_control_characters_witness :
  isControl 9 = true /\ isControl 10 = true /\ isControl 13 = true
  /\ SingleCategorization.sanitizeString (u "AUTO" ++ 10%N :: u "MERCADO")
     = SingleCategorization.sanitizeString (u "AUTO" ++ u "MERCADO")
  /\ SingleCategorization.sanitizeString (u "AUTO" ++ 10%N :: u "MERCADO") = u "AUTOMERCADO".
Proof.
  split; [reflexivity|]. split; [reflexivity|]. split; [reflexivity|].
  split.
  - apply (sanitizeString_deletes_control_characters (u "AUTO") (u "MERCADO") 10).
    reflexivity.
  - vm_compute. reflexivity.
Defined.
(* ------------------------------------------------------------------ *)
(** ** Dates: the calendar *)
(* ------------------------------------------------------------------ *)

Section Calendar.

Local Open Scope Z_scope.
Import JSDate.

Ltac prop_of_bool :=
  repeat match goal with
         | H : (_ <? _) = true |- _ => apply Z.ltb_lt in H
         | H : (_ <? _) = false |- _ => apply Z.ltb_ge in H
         | H : (_ <=? _) = true |- _ => apply Z.leb_le in H
         | H : (_ <=? _) = false |- _ => apply Z.leb_gt in H
         | H : (_ =? _) = true |- _ => apply Z.eqb_eq in H
         | H : (_ =? _) = false |- _ => apply Z.eqb_neq in H
         end.

Ltac split_ifs :=
  repeat match goal with
         | |- context [if ?c then _ else _] => destruct c eqn:?
         end;
  prop_of_bool.

(** The day number of the civil date of a day is that day. *)
Lemma daysFromCivil_civilFromDays (z : Z) :
  let '(y, m, d) := civilFromDays z in daysFromCivil y m d = z.
Proof.
  unfold civilFromDays, daysFromCivil. split_ifs; Z.div_mod_to_equations; lia.
Qed.

Lemma civilFromDays_month (z : Z) :
  let '(y, m, d) := civilFromDays z in 1 <= m <= 12.
Proof.
  unfold civilFromDays. split_ifs; Z.div_mod_to_equations; lia.
Qed.

Lemma civilFromDays_year (z : Z) :
  - 100000000 <= z <= 100000000 ->
  let '(y, m, d) := civilFromDays z in - 300000 <= y <= 300000.
Proof.
  intros Hz. unfold civilFromDays. split_ifs; Z.div_mod_to_equations; lia.
Qed.

(** The lengths of the months. *)
Lemma daysInMonth_bounds (y m : Z) :
  1 <= m <= 12 ->
  daysInMonth y m
  = if m =? 2 then daysInMonth y 2
    else if (m =? 4) || (m =? 6) || (m =? 9) || (m =? 11) then 30 else 31.
Proof.
  intros Hm.
  assert (Hc : m = 1 \/ m = 2 \/ m = 3 \/ m = 4 \/ m = 5 \/ m = 6 \/ m = 7 \/ m = 8
               \/ m = 9 \/ m = 10 \/ m = 11 \/ m = 12) by lia.
  repeat (destruct Hc as [Hc | Hc]; [subst m; cbn [Z.eqb Pos.eqb orb]; try reflexivity;
    unfold daysInMonth, daysFromCivil; cbn; Z.div_mod_to_equations; lia|]).
  subst m. unfold daysInMonth, daysFromCivil; cbn; Z.div_mod_to_equations; lia.
Qed.

(** February has 29 days in the years that are multiples of 4 but not of
    100, or multiples of 400. *)
Lemma daysInMonth_february (y : Z) : daysInMonth y 2 = 28 + (if (y mod 4 =? 0) && (negb (y mod 100 =? 0) || (y mod 400 =? 0)) then 1 else 0).
Proof.
  unfold daysInMonth, daysFromCivil; cbn. split_ifs;
  repeat match goal with H : _ && _ = true |- _ => apply andb_prop in H; destruct H
                    | H : _ || _ = true |- _ => apply orb_prop in H; destruct H
                    | H : _ && _ = false |- _ => apply andb_false_iff in H; destruct H
                    | H : _ || _ = false |- _ => apply orb_false_iff in H; destruct H
                    | H : negb _ = true |- _ => apply negb_true_iff in H
                    | H : negb _ = false |- _ => apply negb_false_iff in H
         end; prop_of_bool; Z.div_mod_to_equations; lia.
Qed.

Lemma civilFromDays_day (z : Z) :
  let '(y, m, d) := civilFromDays z in 1 <= d <= daysInMonth y m.
Proof.
  unfold civilFromDays.
  set (zz := z + 719468).
  set (era := zz / 146097).
  set (doe := zz - era * 146097).
  set (yoe := (doe - doe / 1460 + doe / 36524 - doe / 146096) / 365).
  set (doy := doe - (365 * yoe + yoe / 4 - yoe / 100)).
  set (mp := (5 * doy + 2) / 153).
  assert (Hdoe : 0 <= doe < 146097) by (unfold doe, era; Z.div_mod_to_equations; lia).
  assert (Hyoe : 0 <= yoe <= 399) by (unfold yoe; Z.div_mod_to_equations; lia).
  assert (Hdoy : 0 <= doy <= 365) by (unfold doy, yoe; Z.div_mod_to_equations; lia).
  assert (Hleap : doy = 365 -> (yoe + 1) mod 4 = 0 /\ ((yoe + 1) mod 100 <> 0 \/ yoe = 399))
    by (unfold doy, yoe; Z.div_mod_to_equations; lia).
  assert (Hmp : 0 <= mp <= 11) by (unfold mp; Z.div_mod_to_equations; lia).
  assert (Hc : mp = 0 \/ mp = 1 \/ mp = 2 \/ mp = 3 \/ mp = 4 \/ mp = 5 \/ mp = 6 \/ mp = 7
               \/ mp = 8 \/ mp = 9 \/ mp = 10 \/ mp = 11) by lia.
  assert (Hd : forall k, mp = k -> (153 * k + 2) / 5 <= doy < (153 * (k + 1) + 2) / 5).
  { intros k Hk. unfold mp in Hk. Z.div_mod_to_equations. lia. }
  clearbody mp doy.
  repeat (destruct Hc as [Hc | Hc];
          [subst mp; specialize (Hd _ eq_refl); cbn in Hd |- *;
           rewrite daysInMonth_bounds by lia; cbn; lia|]).
  subst mp. specialize (Hd _ eq_refl). cbn in Hd |- *.
  rewrite (daysInMonth_february (yoe + era * 400 + 1)).
  clearbody yoe era.
  split_ifs;
  repeat match goal with H : _ && _ = true |- _ => apply andb_prop in H; destruct H
                    | H : _ || _ = true |- _ => apply orb_prop in H; destruct H
                    | H : _ && _ = false |- _ => apply andb_false_iff in H; destruct H
                    | H : _ || _ = false |- _ => apply orb_false_iff in H; destruct H
                    | H : negb _ = true |- _ => apply negb_true_iff in H
                    | H : negb _ = false |- _ => apply negb_false_iff in H
         end; prop_of_bool; Z.div_mod_to_equations; lia.
Qed.


(* ------------------------------------------------------------------ *)
(** ** Dates: the ISO format, written and read back *)
(* ------------------------------------------------------------------ *)



Lemma digitsOf_app (n : nat) :
  forall x acc, digitsOf n x acc = digitsOf n x [] ++ acc.
Proof.
  induction n as [|n IH]; intros x acc; cbn [digitsOf]; [reflexivity|].
  rewrite IH, (IH _ [_]), <- app_assoc. reflexivity.
Qed.

Lemma pad_S (n : nat) (x : Z) :
  pad (S n) x = pad n (x / 10) ++ [Z.to_N (48 + x mod 10)].
Proof. unfold pad. cbn [digitsOf]. apply digitsOf_app. Qed.

Lemma digit_isDigit (x : Z) : isDigit (Z.to_N (48 + x mod 10)) = true.
Proof.
  unfold isDigit. pose proof (Z.mod_pos_bound x 10 ltac:(lia)).
  apply andb_true_iff. split; apply N.leb_le; lia.
Qed.

Lemma digit_value (x : Z) : Z.of_N (Z.to_N (48 + x mod 10) - 48) = x mod 10.
Proof. pose proof (Z.mod_pos_bound x 10 ltac:(lia)). lia. Qed.

Lemma isDigit_not_sign (c : N) :
  isDigit c = true -> N.eqb c 43 = false /\ N.eqb c 45 = false /\ N.eqb c 84 = false.
Proof.
  unfold isDigit. intros H. apply andb_prop in H. destruct H as [H1 H2].
  apply N.leb_le in H1. apply N.leb_le in H2.
  repeat split; apply N.eqb_neq; lia.
Qed.

Lemma pad_digits (n : nat) : forall x, Forall (fun c => isDigit c = true) (pad n x).
Proof.
  induction n as [|n IH]; intros x; [constructor|].
  rewrite pad_S. apply Forall_app. split; [apply IH|].
  constructor; [apply digit_isDigit | constructor].
Qed.

Lemma pad_length (n : nat) : forall x, List.length (pad n x) = n.
Proof.
  induction n as [|n IH]; intros x; [reflexivity|].
  rewrite pad_S, length_app, IH. cbn [List.length]. lia.
Qed.

Lemma pad_head (n : nat) (x : Z) (rest : jsstring) :
  exists c tl, pad (S n) x ++ rest = c :: tl /\ isDigit c = true.
Proof.
  pose proof (pad_digits (S n) x) as Hd. pose proof (pad_length (S n) x) as Hl.
  destruct (pad (S n) x) as [|c tl]; [discriminate Hl|].
  exists c, (tl ++ rest). split; [reflexivity|]. inversion Hd. assumption.
Qed.

Lemma takeNum_snoc (n : nat) :
  forall s a v c r,
    takeNum n s a = Some (v, c :: r) -> isDigit c = true ->
    takeNum (S n) s a = Some (10 * v + Z.of_N (c - 48), r).
Proof.
  induction n as [|n IH]; intros s a v c r Hs Hc.
  - cbn [takeNum] in Hs. inversion Hs; subst. cbn [takeNum]. rewrite Hc. reflexivity.
  - cbn [takeNum] in Hs. destruct s as [|x t]; [discriminate Hs|].
    destruct (isDigit x) eqn:Hx; [|discriminate Hs].
    apply IH in Hs; [|exact Hc].
    change (takeNum (S (S n)) (x :: t) a)
      with (if isDigit x then takeNum (S n) t (10 * a + Z.of_N (x - 48)) else None).
    rewrite Hx. exact Hs.
Qed.

(** [n] digits that were written are read back. *)
Lemma takeNum_pad (n : nat) :
  forall x a rest,
    0 <= x < 10 ^ Z.of_nat n ->
    takeNum n (pad n x ++ rest) a = Some (a * 10 ^ Z.of_nat n + x, rest).
Proof.
  induction n as [|n IH]; intros x a rest Hx.
  - cbn in Hx. cbn [takeNum pad digitsOf app]. f_equal. f_equal. cbn. lia.
  - rewrite pad_S, <- app_assoc. cbn [app].
    assert (Hpow : 10 ^ Z.of_nat (S n) = 10 * 10 ^ Z.of_nat n).
    { rewrite Nat2Z.inj_succ, Z.pow_succ_r by lia. reflexivity. }
    rewrite Hpow in *.
    assert (Hq : 0 <= x / 10 < 10 ^ Z.of_nat n) by (Z.div_mod_to_equations; lia).
    rewrite (@takeNum_snoc n _ a _ _ _ (@IH (x / 10) a _ Hq) (digit_isDigit x)).
    rewrite digit_value. f_equal. f_equal. Z.div_mod_to_equations. lia.
Qed.

Lemma toISOString_parts (t : Z) :
  toISOString t = dayText t ++ [84%N] ++ timeText (t mod msPerDay) ++ [90%N].
Proof.
  unfold toISOString, dayText, dateText, timeText, yearText.
  destruct (civilFromDays (t / msPerDay)) as [[y m] d].
  repeat rewrite <- app_assoc. reflexivity.
Qed.

Lemma daysInMonth_le_31 (y m : Z) : 1 <= m <= 12 -> daysInMonth y m <= 31.
Proof.
  intros Hm. rewrite daysInMonth_bounds by exact Hm.
  destruct (m =? 2).
  - rewrite daysInMonth_february. destruct (_ && _); lia.
  - destruct (_ || _); lia.
Qed.

Lemma isoDatePart_dateText (y m d : Z) (rest : jsstring) :
  - 999999 <= y <= 999999 -> 1 <= m <= 12 -> 1 <= d <= daysInMonth y m ->
  isoDatePart (dateText y m d ++ rest) = Some (y, m, d, rest).
Proof.
  intros Hy Hm Hd.
  pose proof (daysInMonth_le_31 y Hm) as H31.
  assert (Htail : match ([45%N] ++ pad 2 m ++ [45%N] ++ pad 2 d) ++ rest with
                  | dash :: r1 =>
                      if N.eqb dash 45 then
                        match takeNum 2 r1 0 with
                        | Some (m', r2) =>
                            if (1 <=? m') && (m' <=? 12) then
                              match r2 with
                              | dash2 :: r3 =>
                                  if N.eqb dash2 45 then
                                    match takeNum 2 r3 0 with
                                    | Some (d', r4) =>
                                        if (1 <=? d') && (d' <=? daysInMonth y m')
                                        then Some (y, m', d', r4) else None
                                    | None => None
                                    end
                                  else Some (y, m', 1, r2)
                              | [] => Some (y, m', 1, r2)
                              end
                            else None
                        | None => None
                        end
                      else Some (y, 1, 1, ([45%N] ++ pad 2 m ++ [45%N] ++ pad 2 d) ++ rest)
                  | [] => Some (y, 1, 1, ([45%N] ++ pad 2 m ++ [45%N] ++ pad 2 d) ++ rest)
                  end = Some (y, m, d, rest)).
  { cbn [app]. change (N.eqb 45 45) with true. cbv iota.
    rewrite <- app_assoc.
    rewrite (@takeNum_pad 2 m 0) by (cbn; lia).
    replace (0 * 10 ^ Z.of_nat 2 + m) with m by (cbn; lia).
    assert (Hmb : (1 <=? m) && (m <=? 12) = true)
      by (apply andb_true_iff; split; apply Z.leb_le; lia).
    rewrite Hmb. cbn [app]. change (N.eqb 45 45) with true. cbv iota.
    rewrite (@takeNum_pad 2 d 0) by (cbn; lia).
    replace (0 * 10 ^ Z.of_nat 2 + d) with d by (cbn; lia).
    assert (Hdb : (1 <=? d) && (d <=? daysInMonth y m) = true)
      by (apply andb_true_iff; split; apply Z.leb_le; lia).
    rewrite Hdb. reflexivity. }
  unfold isoDatePart, dateText, yearText.
  destruct ((0 <=? y) && (y <=? 9999)) eqn:Hrange.
  - apply andb_prop in Hrange. destruct Hrange as [Hlo Hhi].
    apply Z.leb_le in Hlo. apply Z.leb_le in Hhi.
    rewrite <- app_assoc.
    destruct (pad_head 3 y (([45%N] ++ pad 2 m ++ [45%N] ++ pad 2 d) ++ rest))
      as (c & tl & Hc & Hdig).
    destruct (isDigit_not_sign c Hdig) as (H43 & H45 & _).
    rewrite Hc, H43, H45, <- Hc.
    rewrite (@takeNum_pad 4 y 0) by (cbn; lia).
    replace (0 * 10 ^ Z.of_nat 4 + y) with y by (cbn; lia).
    exact Htail.
  - rewrite <- app_assoc. cbn [app].
    assert (Habs : 0 <= Z.abs y < 10 ^ Z.of_nat 6) by (cbn; lia).
    destruct (y <? 0) eqn:Hneg.
    + apply Z.ltb_lt in Hneg.
      change (N.eqb 45 43) with false. change (N.eqb 45 45) with true. cbv iota.
      rewrite (@takeNum_pad 6 (Z.abs y) 0) by exact Habs.
      replace (0 * 10 ^ Z.of_nat 6 + Z.abs y) with (Z.abs y) by (cbn; lia).
      assert (Hnz : (Z.abs y =? 0) = false) by (apply Z.eqb_neq; lia).
      rewrite Hnz. replace (- Z.abs y) with y by lia.
      exact Htail.
    + apply Z.ltb_ge in Hneg.
      change (N.eqb 43 43) with true. cbv iota.
      rewrite (@takeNum_pad 6 (Z.abs y) 0) by exact Habs.
      replace (0 * 10 ^ Z.of_nat 6 + Z.abs y) with y by (cbn; lia).
      exact Htail.
Qed.

End Calendar.
Section IsoRoundTrip.

Local Open Scope Z_scope.
Import JSDate.

Lemma isoTimePart_timeText (r : Z) (rest : jsstring) :
  0 <= r < msPerDay ->
  isoTimePart (timeText r ++ [90%N] ++ rest) = Some (r, [90%N] ++ rest).
Proof.
  unfold msPerDay. intros Hr. unfold isoTimePart, timeText.
  repeat rewrite <- app_assoc.
  rewrite (@takeNum_pad 2 (r / 3600000) 0) by (cbn; Z.div_mod_to_equations; lia).
  cbn [app]. change (N.eqb 58 58) with true. cbv iota.
  rewrite (@takeNum_pad 2 (r / 60000 mod 60) 0) by (cbn; Z.div_mod_to_equations; lia).
  change (N.eqb 58 58) with true. cbv iota.
  rewrite (@takeNum_pad 2 (r / 1000 mod 60) 0) by (cbn; Z.div_mod_to_equations; lia).
  change (N.eqb 46 46) with true. cbv iota.
  rewrite (@takeNum_pad 3 (r mod 1000) 0) by (cbn; Z.div_mod_to_equations; lia).
  assert (Hok : ((0 * 10 ^ Z.of_nat 2 + r / 3600000 <=? 23)
                 && (0 * 10 ^ Z.of_nat 2 + r / 60000 mod 60 <=? 59)
                 && (0 * 10 ^ Z.of_nat 2 + r / 1000 mod 60 <=? 59)) = true).
  { repeat (apply andb_true_iff; split); apply Z.leb_le; cbn;
      Z.div_mod_to_equations; lia. }
  rewrite Hok. cbn [orb]. f_equal. f_equal.
  unfold makeTime. cbn. Z.div_mod_to_equations. lia.
Qed.

Lemma dayText_parts (t : Z) :
  Z.abs t <= maxTime ->
  exists y m d,
    civilFromDays (t / msPerDay) = (y, m, d)
    /\ dayText t = dateText y m d
    /\ - 999999 <= y <= 999999 /\ 1 <= m <= 12 /\ 1 <= d <= daysInMonth y m
    /\ daysFromCivil y m d = t / msPerDay.
Proof.
  unfold maxTime, msPerDay. intros Ht.
  assert (Hday : - 100000000 <= t / 86400000 <= 100000000)
    by (Z.div_mod_to_equations; lia).
  pose proof (daysFromCivil_civilFromDays (t / 86400000)) as Hinv.
  pose proof (civilFromDays_month (t / 86400000)) as Hm.
  pose proof (civilFromDays_day (t / 86400000)) as Hd.
  pose proof (@civilFromDays_year (t / 86400000) Hday) as Hy.
  unfold dayText, msPerDay.
  destruct (civilFromDays (t / 86400000)) as [[y m] d].
  exists y, m, d. split; [reflexivity|]. split; [reflexivity|].
  split; [lia|]. split; [exact Hm|]. split; [exact Hd | exact Hinv].
Qed.

(** An instant written by [toISOString] is read back by [new Date],
    on every host. *)
Lemma parseISO_toISOString `{Host} (t : Z) :
  Z.abs t <= maxTime -> parseISO (toISOString t) = Some t.
Proof.
  intros Ht.
  destruct (dayText_parts t Ht) as (y & m & d & _ & Htext & Hy & Hm & Hd & Hday).
  rewrite toISOString_parts, Htext. unfold parseISO.
  rewrite (isoDatePart_dateText _ Hy Hm Hd).
  cbn [app]. change (N.eqb 84 84) with true. cbv iota.
  change (timeText (t mod msPerDay) ++ [90%N])
    with (timeText (t mod msPerDay) ++ [90%N] ++ []).
  rewrite isoTimePart_timeText by (apply Z.mod_pos_bound; unfold msPerDay; lia).
  cbn [app isoOffset]. change (N.eqb 90 90) with true. cbv iota.
  rewrite Hday.
  replace (t / msPerDay * msPerDay + t mod msPerDay + 0 * 60000) with t
    by (unfold msPerDay; Z.div_mod_to_equations; lia).
  unfold timeClip. apply Z.leb_le in Ht. rewrite Ht. reflexivity.
Qed.

Lemma ofString_toISOString `{Host} (t : Z) :
  Z.abs t <= maxTime -> ofString (toISOString t) = Some t.
Proof. intros Ht. unfold ofString. rewrite (parseISO_toISOString t Ht). reflexivity. Qed.

Lemma timeClip_range (t v : Z) : timeClip t = Some v -> v = t /\ Z.abs v <= maxTime.
Proof.
  unfold timeClip. destruct (Z.abs t <=? maxTime) eqn:Hc; [|discriminate].
  intros E. inversion E; subst v. split; [reflexivity|]. apply Z.leb_le. exact Hc.
Qed.

Lemma parseISO_range `{Host} (s : jsstring) (t : Z) :
  parseISO s = Some t -> Z.abs t <= maxTime.
Proof.
  unfold parseISO.
  destruct (isoDatePart s) as [[[[y m] d] r]|]; [|discriminate].
  destruct r as [|tch r1]; [intros E; apply timeClip_range in E; tauto|].
  destruct (N.eqb tch 84); [|discriminate].
  destruct (isoTimePart r1) as [[tm r2]|]; [|discriminate].
  destruct (isoOffset r2) as [[off|]|]; [| |discriminate];
    intros E; apply timeClip_range in E; tauto.
Qed.

Lemma ofString_range `{Host} (s : jsstring) (t : Z) :
  ofString s = Some t -> Z.abs t <= maxTime.
Proof.
  unfold ofString. destruct (parseISO s) as [t0|] eqn:Hp.
  - intros E. inversion E; subst t0. eapply parseISO_range. exact Hp.
  - destruct (legacyDateParse s); [|discriminate].
    intros E. apply timeClip_range in E. tauto.
Qed.

(** The day string. *)
Lemma split_go_head (sep : N) (a b cur : jsstring) :
  Forall (fun c => N.eqb c sep = false) a ->
  split_go sep (a ++ sep :: b) cur = (rev cur ++ a) :: split_go sep b [].
Proof.
  revert cur. induction a as [|x a IH]; intros cur Ha.
  - cbn [app split_go]. rewrite N.eqb_refl, app_nil_r. reflexivity.
  - inversion Ha as [|? ? Hx Ha']; subst. cbn [app split_go]. rewrite Hx.
    rewrite IH by exact Ha'. cbn [rev]. rewrite <- app_assoc. reflexivity.
Qed.

Lemma dateText_no_T (y m d : Z) : Forall (fun c => N.eqb c 84 = false) (dateText y m d).
Proof.
  assert (Hpad : forall n x, Forall (fun c => N.eqb c 84 = false) (pad n x)).
  { intros n x. eapply Forall_impl; [|apply pad_digits].
    intros c Hc. apply isDigit_not_sign in Hc. tauto. }
  unfold dateText, yearText.
  repeat (apply Forall_app; split); try apply Hpad; try (constructor; [reflexivity|constructor]).
  destruct ((0 <=? y) && (y <=? 9999)); [apply Hpad|].
  constructor; [destruct (y <? 0); reflexivity | apply Hpad].
Qed.

Lemma isoDay_dayText (t : Z) : isoDay (Some t) = Return (dayText t).
Proof.
  unfold isoDay. f_equal. rewrite toISOString_parts. unfold split.
  unfold dayText. destruct (civilFromDays (t / msPerDay)) as [[y m] d].
  cbn [app]. rewrite split_go_head by apply dateText_no_T. reflexivity.
Qed.

Lemma dateText_truthy (y m d : Z) : JS.truthy (dateText y m d) = true.
Proof.
  pose proof (pad_length 2 d) as Hl.
  unfold dateText. destruct (yearText y); [|reflexivity]. reflexivity.
Qed.

(** A day string is read as midnight UTC of that day, on every host. *)
Lemma ofString_dayText `{Host} (t : Z) :
  Z.abs t <= maxTime ->
  ofString (dayText t) = Some (utcMidnight t) /\ JS.truthy (dayText t) = true.
Proof.
  intros Ht.
  destruct (dayText_parts t Ht) as (y & m & d & _ & Htext & Hy & Hm & Hd & Hday).
  rewrite Htext. split; [|apply dateText_truthy].
  unfold ofString, parseISO.
  rewrite <- (app_nil_r (dateText y m d)).
  rewrite (isoDatePart_dateText _ Hy Hm Hd).
  rewrite Hday. unfold timeClip, utcMidnight.
  assert (Hc : (Z.abs (t / msPerDay * msPerDay) <=? maxTime) = true).
  { apply Z.leb_le. unfold maxTime, msPerDay in *. Z.div_mod_to_equations. lia. }
  rewrite Hc. reflexivity.
Qed.

End IsoRoundTrip.
(* ------------------------------------------------------------------ *)
(** ** Dates: from the message to the table *)
(* ------------------------------------------------------------------ *)

Section StoredDates.

Local Open Scope Z_scope.
Import JSDate.

Lemma dateOf_range `{Host} (v : option Json.value) (t : Z) :
  Conv.dateOf v = Return (Some t) -> Z.abs t <= maxTime.
Proof.
  unfold Conv.dateOf. destruct v as [[| b | n | s | l | l]|]; try discriminate.
  - intros E. inversion E. unfold maxTime. lia.
  - intros E. inversion E. unfold maxTime. destruct b; lia.
  - destruct n as [| neg | neg m e]; try discriminate.
    destruct (400 <? e); [discriminate|].
    intros E. inversion E as [E']. apply timeClip_range in E'. tauto.
  - intros E. inversion E as [E']. exact (ofString_range _ E').
  - destruct (Conv.toStr (Json.VArr l)) as [text|]; cbn [bindR]; [|discriminate].
    intros E. inversion E as [E']. exact (ofString_range _ E').
  - destruct (Conv.toStr (Json.VObj l)) as [text|]; cbn [bindR]; [|discriminate].
    intros E. inversion E as [E']. exact (ofString_range _ E').
Qed.

Lemma toISOString_trim (t : Z) : trim (toISOString t) = toISOString t.
Proof.
  assert (Hend : endsWithSpace (toISOString t) = false).
  { unfold endsWithSpace. rewrite toISOString_parts.
    rewrite !app_assoc, rev_app_distr. reflexivity. }
  assert (Hhead : exists c tl, toISOString t = c :: tl /\ isSpace c = false).
  { rewrite toISOString_parts. unfold dayText.
    destruct (civilFromDays (t / msPerDay)) as [[y m] d].
    unfold dateText, yearText.
    destruct ((0 <=? y) && (y <=? 9999)).
    - repeat rewrite <- app_assoc.
      destruct (pad_head 3 y ([45%N] ++ pad 2 m ++ [45%N] ++ pad 2 d
                               ++ [84%N] ++ timeText (t mod msPerDay) ++ [90%N]))
        as (c & tl & Hc & Hdig).
      exists c, tl. split; [exact Hc|].
      unfold isDigit in Hdig. apply andb_prop in Hdig. destruct Hdig as [H1 H2].
      apply N.leb_le in H1. apply N.leb_le in H2.
      unfold isSpace.
      repeat (apply orb_false_iff; split);
        try (apply andb_false_iff; left; apply N.leb_gt; lia);
        try (apply andb_false_iff; right; apply N.leb_gt; lia);
        apply N.eqb_neq; lia.
    - eexists. eexists. split; [cbn [app]; reflexivity|].
      destruct (y <? 0); reflexivity. }
  destruct Hhead as (c & tl & Hc & Hsp).
  unfold trim.
  assert (Hstart : trimStart (toISOString t) = toISOString t).
  { rewrite Hc. cbn [trimStart]. rewrite Hsp. reflexivity. }
  rewrite Hstart. apply trimEnd_id. exact Hend.
Qed.

Lemma expense_object (e : ParsedExpense) (c : jsstring) :
  Json.getProp kAmount (withCategory (toObject e) c) = Some (Json.VNum (amount e))
  /\ Json.getProp kMerchant (withCategory (toObject e) c) = Some (Json.VStr (merchant e))
  /\ Json.getProp kDate (withCategory (toObject e) c) = Some (Json.VStr (date e))
  /\ Json.getProp kCategory (withCategory (toObject e) c) = Some (Json.VStr c).
Proof.
  destruct e as [a m d [c0|] [l|] [cu|]]; vm_compute; repeat split.
Qed.

End StoredDates.
Section StoredDates2.

Local Open Scope Z_scope.
Import JSDate.

Lemma expense_object_optional (e : ParsedExpense) (c : jsstring) :
  Json.getProp kLocation (withCategory (toObject e) c) = option_map Json.VStr (location e)
  /\ Json.getProp kCurrency (withCategory (toObject e) c) = option_map Json.VStr (currency e).
Proof.
  destruct e as [a m d [c0|] [l|] [cu|]]; vm_compute; repeat split.
Qed.

Lemma callToString_orElse_str (x : option Json.value) (d : jsstring) :
  (exists s, x = Some (Json.VStr s)) \/ x = None ->
  exists s, Conv.callToString (Some (Conv.orElse x (Json.VStr d))) = Return s.
Proof.
  intros [[s Hs] | Hn]; subst x; cbn [Conv.orElse Json.truthy].
  - destruct (JS.truthy s); eexists; reflexivity.
  - eexists; reflexivity.
Qed.

Lemma option_str_cases (x : option jsstring) :
  (exists s, option_map Json.VStr x = Some (Json.VStr s)) \/ option_map Json.VStr x = None.
Proof. destruct x as [s|]; [left; exists s; reflexivity | right; reflexivity]. Qed.

Lemma toISOString_truthy (t : Z) : JS.truthy (toISOString t) = true.
Proof.
  rewrite toISOString_parts. unfold dayText.
  destruct (civilFromDays (t / msPerDay)) as [[y m] d].
  pose proof (dateText_truthy y m d) as Hd.
  destruct (dateText y m d); [discriminate Hd | reflexivity].
Qed.

(** The date of an extracted expense denotes the resolved instant. *)
Lemma extracted_date `{Host} (text from headerDate : jsstring) (e : ParsedExpense) :
  Z.abs now <= maxTime ->
  parseExpenseFromTextWithoutAI text from headerDate = Some e ->
  let t := resolutionOrder (bodyDate text) (ofString headerDate) now in
  date e = toISOString t /\ Z.abs t <= maxTime
  /\ Num.isNaN (amount e) = false /\ Num.leq0 (amount e) = false.
Proof.
  intros Hnow He t.
  apply parseExpenseFromTextWithoutAI_some in He.
  destruct He as (_ & _ & _ & Hnan & Hleq & Hd & _).
  split; [rewrite Hd; apply resolveDate_order|].
  split; [|split; assumption].
  unfold t, resolutionOrder, bodyDate.
  destruct (field (u "Fecha:") text) as [d|].
  - destruct (JS.truthy d).
    + destruct (ofString d) as [t0|] eqn:Hb; [eapply ofString_range; exact Hb|].
      destruct (ofString headerDate) as [t1|] eqn:Hh; [eapply ofString_range; exact Hh|].
      exact Hnow.
    + destruct (ofString headerDate) as [t1|] eqn:Hh; [eapply ofString_range; exact Hh|].
      exact Hnow.
  - destruct (ofString headerDate) as [t1|] eqn:Hh; [eapply ofString_range; exact Hh|].
    exact Hnow.
Qed.

Lemma prepare_expense `{Host} (e : ParsedExpense) (c : jsstring) (t : Z) :
  date e = toISOString t -> Z.abs t <= maxTime ->
  Num.isNaN (amount e) = false -> Num.leq0 (amount e) = false ->
  exists w, prepare (withCategory (toObject e) c) = Return (Some w)
            /\ w_transactionDate w = toISOString t.
Proof.
  intros Hd Ht Hnan Hleq.
  destruct (expense_object e c) as (Ha & Hm & Hdt & Hc).
  destruct (expense_object_optional e c) as (Hl & Hcu).
  unfold prepare. rewrite Ha. cbn [bindR]. rewrite Hnan, Hleq, Hdt, Hm, Hc, Hl, Hcu.
  cbn [orb Conv.dateOf]. rewrite Hd, (ofString_toISOString t Ht).
  destruct (@callToString_orElse_str (Some (Json.VStr c)) (u "Other")) as [cat Hcat];
    [left; eexists; reflexivity|].
  destruct (@callToString_orElse_str (option_map Json.VStr (location e)) (u "Costa Rica")
              (option_str_cases _)) as [loc Hloc].
  destruct (@callToString_orElse_str (option_map Json.VStr (currency e)) (u "CRC")
              (option_str_cases _)) as [cur Hcur].
  rewrite Hcat, Hloc, Hcur. cbn [bindR Conv.callToString Conv.toStr].
  eexists. split; reflexivity.
Qed.

Lemma requestOf_expense (e : ParsedExpense) (c : jsstring) (t : Z) :
  date e = toISOString t ->
  exists w, requestOf (withCategory (toObject e) c) = Return w
            /\ w_transactionDate w = toISOString t.
Proof.
  intros Hd.
  destruct (expense_object e c) as (Ha & Hm & Hdt & Hc).
  destruct (expense_object_optional e c) as (Hl & Hcu).
  unfold requestOf. rewrite Ha. cbn [bindR]. rewrite Hdt, Hm, Hc, Hl, Hcu.
  destruct (@callToString_orElse_str (Some (Json.VStr c)) (u "Other")) as [cat Hcat];
    [left; eexists; reflexivity|].
  destruct (@callToString_orElse_str (option_map Json.VStr (location e)) (u "Costa Rica")
              (option_str_cases _)) as [loc Hloc].
  destruct (@callToString_orElse_str (option_map Json.VStr (currency e)) (u "CRC")
              (option_str_cases _)) as [cur Hcur].
  rewrite Hcat, Hloc, Hcur. cbn [bindR Conv.callToString Conv.toStr].
  eexists. split; [reflexivity|]. cbn [w_transactionDate].
  rewrite Hd. apply toISOString_trim.
Qed.

(** X14: the instant that extraction resolves for a message (the date of
    the body, else the Date header, else the clock) is the instant that
    is stored, on both storage paths and whatever the time zones of the
    browser and of the server: the ISO text written by [toISOString] is
    read back by [new Date] as the same instant.  When the bulk store or
    the single store of an extracted expense succeeds, exactly one row is
    added and its date is that instant. *)
Theorem extracted_date_is_stored :
  forall (browser : Host) (srv : Server) (db : DB) (text from headerDate : jsstring)
         (e : ParsedExpense) (c userId : jsstring),
    Z.abs (@now browser) <= maxTime ->
    @parseExpenseFromTextWithoutAI browser text from headerDate = Some e ->
    let t := resolutionOrder (@bodyDate browser text) (@ofString browser headerDate)
                             (@now browser) in
    let o := withCategory (toObject e) c in
    date e = toISOString t
    /\ (forall db',
           @storeParsedExpensesBatch browser srv db [o] userId = (Return tt, db') ->
           exists r, db' = db ++ [r] /\ transactionDate r = t)
    /\ (forall db',
           storeParsedExpense srv db o userId = (Return tt, db') ->
           exists r, db' = db ++ [r] /\ transactionDate r = t).
Proof.
  intros browser srv db text from headerDate e c userId Hnow He t o.
  destruct (@extracted_date browser text from headerDate e Hnow He)
    as (Hd & Ht & Hnan & Hleq).
  fold t in Hd, Ht.
  split; [exact Hd|]. split.
  - intros db' Hs.
    destruct (@prepare_expense browser e c t Hd Ht Hnan Hleq) as (w & Hw & Hwd).
    unfold storeParsedExpensesBatch in Hs. fold o in Hw.
    cbn [mapR] in Hs. rewrite Hw in Hs. cbn [bindR somes] in Hs.
    destruct (batchHandler srv db [w]) as [[n|st] db1] eqn:Hb; [|discriminate Hs].
    inversion Hs; subst db1; clear Hs.
    apply batchHandler_ok in Hb. destruct Hb as (_ & user & rows & _ & Hdb & Hrows).
    inversion Hrows as [|? r ? rest Hr Hrest]; subst.
    inversion Hrest; subst. exists r. split; [reflexivity|].
    destruct Hr as (_ & _ & _ & Hdate & _).
    rewrite Hwd, (@ofString_toISOString (serverHost srv) t Ht) in Hdate.
    inversion Hdate. reflexivity.
  - intros db' Hs.
    destruct (@requestOf_expense e c t Hd) as (w & Hw & Hwd).
    unfold storeParsedExpense in Hs. fold o in Hw. rewrite Hw in Hs.
    destruct (createHandler srv db w) as [[x|st] db1] eqn:Hc; [|discriminate Hs].
    inversion Hs; subst db1; clear Hs.
    apply createHandler_ok in Hc. destruct Hc as (user & t' & _ & Hdate & Hdb).
    rewrite Hwd, toISOString_truthy, (@ofString_toISOString (serverHost srv) t Ht) in Hdate.
    inversion Hdate; subst t'. eexists. split; [exact Hdb | reflexivity].
Qed.

Lemma extracted_date_is_stored_witness :
  let browser := host 360 1761998400000 in
  let text := notification "Uber" "2025-10-15T10:00:00-06:00" "USD 12.50" in
  exists e r,
    @parseExpenseFromTextWithoutAI browser text [] [] = Some e
    /\ date e = u "2025-10-15T16:00:00.000Z"
    /\ @storeParsedExpensesBatch browser serverUTC []
         [withCategory (toObject e) (u "Transportation")] user1 = (Return tt, [r])
    /\ transactionDate r = 1760544000000.
Proof.
  intros browser text.
  assert (Hnow : Z.abs (@now browser) <= maxTime) by (vm_compute; discriminate).
  let v := eval vm_compute in (@parseExpenseFromTextWithoutAI browser text [] []) in
  match v with
  | Some ?e0 =>
      assert (He : @parseExpenseFromTextWithoutAI browser text [] [] = Some e0)
        by (vm_compute; reflexivity);
      exists e0
  end.
  match type of He with
  | _ = Some ?e0 =>
      let v := eval vm_compute in
          (@storeParsedExpensesBatch browser serverUTC []
             [withCategory (toObject e0) (u "Transportation")] user1) in
      match v with
      | (_, [?r0]) =>
          assert (Hs : @storeParsedExpensesBatch browser serverUTC []
                         [withCategory (toObject e0) (u "Transportation")] user1
                       = (Return tt, [r0])) by (vm_compute; reflexivity);
          exists r0
      end
  end.
  match type of He with
  | _ = Some ?e0 =>
      destruct (@extracted_date_is_stored browser serverUTC [] text [] [] e0
                  (u "Transportation") user1 Hnow He) as (_ & Hbatch & _)
  end.
  split; [exact He|]. split; [vm_compute; reflexivity|]. split; [exact Hs|].
  destruct (Hbatch _ Hs) as (r' & Hdb & Hr').
  cbn [app] in Hdb. inversion Hdb; subst r'.
  rewrite Hr'. vm_compute. reflexivity.
Defined.

End StoredDates2.
(* ------------------------------------------------------------------ *)
(** ** Dates: the range of the delete *)
(* ------------------------------------------------------------------ *)

Section DeleteWindow.

Local Open Scope Z_scope.
Import JSDate.

Lemma daysFromCivil_range (y m : Z) :
  1970 <= y <= 10000 -> 1 <= m <= 12 -> 0 <= daysFromCivil y m 1 <= 3000000.
Proof.
  intros Hy Hm. unfold daysFromCivil.
  destruct (m <=? 2) eqn:H1; destruct (2 <? m) eqn:H2;
    Z.div_mod_to_equations; lia.
Qed.

Lemma makeDay_first (year month : Z) :
  1 <= month <= 12 -> makeDay year (month - 1) 1 = daysFromCivil year month 1.
Proof.
  intros Hm. unfold makeDay.
  replace ((month - 1) / 12) with 0 by (Z.div_mod_to_equations; lia).
  replace ((month - 1) mod 12 + 1) with month by (Z.div_mod_to_equations; lia).
  replace (year + 0) with year by lia. lia.
Qed.

Lemma makeDay_last (year month : Z) :
  1 <= month <= 12 ->
  makeDay year month 0 = daysFromCivil year month 1 + daysInMonth year month - 1.
Proof.
  intros Hm. unfold makeDay, daysInMonth.
  destruct (month =? 12) eqn:H12.
  - apply Z.eqb_eq in H12. subst month. cbn. lia.
  - apply Z.eqb_neq in H12.
    replace (month / 12) with 0 by (Z.div_mod_to_equations; lia).
    replace (month mod 12 + 1) with (month + 1) by (Z.div_mod_to_equations; lia).
    replace (year + 0) with year by lia. lia.
Qed.

Lemma daysInMonth_range (y m : Z) : 1 <= m <= 12 -> 28 <= daysInMonth y m <= 31.
Proof.
  intros Hm. rewrite daysInMonth_bounds by exact Hm.
  destruct (m =? 2).
  - rewrite daysInMonth_february. destruct (_ && _); lia.
  - destruct (_ || _); lia.
Qed.

(** X15: the range the delete works with is made of the UTC midnights of
    two day strings, so it follows the calendar of UTC, not that of the
    browser.  For a month of a year from 1970 to 9999 and a browser whose
    offset from UTC is less than a day: the range starts at 00:00 UTC of
    the first day of the month (of the day before, for a browser east of
    Greenwich) and ends at 00:00 UTC of the first day of the next month
    for a browser west of Greenwich, of the last day of the month
    otherwise.  The server's own time zone plays no part. *)
Theorem delete_window_follows_utc :
  forall (w : World) (month year : Z),
    1 <= month <= 12 -> 1970 <= year <= 9999 ->
    - 1440 < @tzOffset (browser w) < 1440 ->
    let tz := @tzOffset (browser w) in
    let first := daysFromCivil year month 1 in
    let next := first + daysInMonth year month in
    deleteWindow w month year
    = Some ((if tz <? 0 then first - 1 else first) * msPerDay,
            (if 0 <? tz then next else next - 1) * msPerDay).
Proof.
  intros w month year Hm Hy Htz tz first next.
  pose proof (@daysFromCivil_range year month ltac:(lia) Hm) as Hfirst.
  pose proof (daysInMonth_range year Hm) as Hlen.
  fold first in Hfirst.
  unfold deleteWindow, fromFields.
  assert (Hyear : (0 <=? year) && (year <=? 99) = false)
    by (apply andb_false_iff; right; apply Z.leb_gt; lia).
  rewrite Hyear, (makeDay_first year Hm), (makeDay_last year Hm).
  fold first. fold tz.
  change (makeTime 0 0 0 0) with 0. change (makeTime 23 59 59 999) with 86399999.
  set (s := first * msPerDay + 0 + tz * 60000).
  set (e := (first + daysInMonth year month - 1) * msPerDay + 86399999 + tz * 60000).
  assert (Hs : Z.abs s <= maxTime) by (unfold s, maxTime, msPerDay; lia).
  assert (He : Z.abs e <= maxTime) by (unfold e, maxTime, msPerDay; lia).
  unfold timeClip.
  apply Z.leb_le in Hs. apply Z.leb_le in He. rewrite Hs, He.
  apply Z.leb_le in Hs. apply Z.leb_le in He.
  rewrite !isoDay_dayText.
  destruct (@ofString_dayText (serverHost (server w)) s Hs) as [Hps Hts].
  destruct (@ofString_dayText (serverHost (server w)) e He) as [Hpe Hte].
  rewrite Hts, Hte, Hps, Hpe. cbn [andb]. unfold utcMidnight.
  f_equal. f_equal.
  - f_equal. unfold s, msPerDay.
    destruct (tz <? 0) eqn:Hneg; [apply Z.ltb_lt in Hneg | apply Z.ltb_ge in Hneg];
      Z.div_mod_to_equations; lia.
  - f_equal. unfold e, next, msPerDay.
    destruct (0 <? tz) eqn:Hpos; [apply Z.ltb_lt in Hpos | apply Z.ltb_ge in Hpos];
      Z.div_mod_to_equations; lia.
Qed.

Lemma delete_window_follows_utc_witness :
  deleteWindow (scenario 360 "2025-10-15T10:00:00Z" "2025-10-15T10:00:00.000Z") 10 2025
  = Some (1759276800000, 1761955200000)
  /\ deleteWindow (scenario 0 "2025-10-15T10:00:00Z" "2025-10-15T10:00:00.000Z") 10 2025
     = Some (1759276800000, 1761868800000)
  /\ deleteWindow (scenario (-60) "2025-10-15T10:00:00Z" "2025-10-15T10:00:00.000Z") 10 2025
     = Some (1759190400000, 1761868800000).
Proof.
  assert (Hm : 1 <= 10 <= 12) by lia.
  assert (Hy : 1970 <= 2025 <= 9999) by lia.
  split; [|split].
  - rewrite (@delete_window_follows_utc
               (scenario 360 "2025-10-15T10:00:00Z" "2025-10-15T10:00:00.000Z") 10 2025 Hm Hy);
      [vm_compute; reflexivity | vm_compute; split; reflexivity].
  - rewrite (@delete_window_follows_utc
               (scenario 0 "2025-10-15T10:00:00Z" "2025-10-15T10:00:00.000Z") 10 2025 Hm Hy);
      [vm_compute; reflexivity | vm_compute; split; reflexivity].
  - rewrite (@delete_window_follows_utc
               (scenario (-60) "2025-10-15T10:00:00Z" "2025-10-15T10:00:00.000Z") 10 2025 Hm Hy);
      [vm_compute; reflexivity | vm_compute; split; reflexivity].
Defined.

End DeleteWindow.
(* ------------------------------------------------------------------ *)
(** ** The validators *)
(* ------------------------------------------------------------------ *)

Section Validators.

Import Regex.

Lemma matchAt_Bol_later (r : re) (input : jsstring) (i : nat) :
  matchAt (Seq Bol r) input (S i) = None.
Proof. reflexivity. Qed.

Lemma search_Bol_later (r : re) (input : jsstring) (n : nat) :
  forall i, search n (Seq Bol r) input (S i) = None.
Proof.
  induction n as [|n IH]; intros i; cbn [search]; rewrite matchAt_Bol_later;
    [reflexivity | apply IH].
Qed.

(** A pattern that starts with [^] matches at the start or nowhere. *)
Lemma test_anchored (r : re) (input : jsstring) :
  test (Seq Bol r) input
  = match matchAt (Seq Bol r) input 0 with Some _ => true | None => false end.
Proof.
  unfold test, exec. cbn [Nat.ltb Nat.leb]. rewrite Nat.sub_0_r.
  destruct (List.length input) as [|n]; cbn [search];
    destruct (matchAt (Seq Bol r) input 0); try reflexivity.
  rewrite search_Bol_later. reflexivity.
Qed.

Lemma validateCurrency_shape (s : jsstring) :
  validateCurrency s
  = match s with
    | [a; b; c] => isUpper a && isUpper b && isUpper c
    | _ => false
    end.
Proof.
  unfold validateCurrency, reCurrency. cbn [seqs]. rewrite test_anchored.
  unfold matchAt. cbn [run rest pos caps skipn Nat.eqb].
  destruct s as [|a [|b [|c [|d t]]]]; try reflexivity.
  - destruct (isUpper a); reflexivity.
  - destruct (isUpper a); [|reflexivity]. destruct (isUpper b); reflexivity.
  - destruct (isUpper a); [|reflexivity]. destruct (isUpper b); [|reflexivity].
    destruct (isUpper c); reflexivity.
  - destruct (isUpper a); [|reflexivity]. destruct (isUpper b); [|reflexivity].
    destruct (isUpper c); reflexivity.
Qed.

Lemma trimStart_nil (s : jsstring) : trimStart s = [] <-> forallb isSpace s = true.
Proof.
  induction s as [|x s IH]; [split; reflexivity|].
  cbn [trimStart forallb]. destruct (isSpace x); cbn [andb]; [exact IH|].
  split; discriminate.
Qed.

Lemma forallb_rev {A : Type} (p : A -> bool) (l : list A) :
  forallb p (rev l) = forallb p l.
Proof.
  induction l as [|x l IH]; [reflexivity|].
  cbn [rev forallb]. rewrite forallb_app, IH. cbn [forallb].
  rewrite andb_true_r. apply andb_comm.
Qed.

Lemma trimStart_all (s : jsstring) : forallb isSpace (trimStart s) = forallb isSpace s.
Proof.
  induction s as [|x s IH]; [reflexivity|].
  cbn [trimStart]. destruct (isSpace x) eqn:Hx.
  - cbn [forallb]. rewrite Hx. exact IH.
  - reflexivity.
Qed.

Lemma trim_nil (s : jsstring) : JS.eqb (trim s) [] = forallb isSpace s.
Proof.
  assert (Hiff : trim s = [] <-> forallb isSpace s = true).
  { unfold trim, trimEnd. split.
    - intros H. apply (f_equal (@rev N)) in H. rewrite rev_involutive in H. cbn [rev] in H.
      apply trimStart_nil in H. rewrite forallb_rev, trimStart_all in H. exact H.
    - intros H.
      assert (H' : forallb isSpace (rev (trimStart s)) = true)
        by (rewrite forallb_rev, trimStart_all; exact H).
      apply trimStart_nil in H'. rewrite H'. reflexivity. }
  destruct (forallb isSpace s) eqn:Hall.
  - apply eqb_spec. apply Hiff. reflexivity.
  - destruct (JS.eqb (trim s) []) eqn:He; [|reflexivity].
    apply eqb_spec in He. apply Hiff in He. discriminate He.
Qed.

Lemma validateRequired_shape (s : jsstring) :
  validateRequired s = existsb (fun x => negb (isSpace x)) s.
Proof.
  unfold validateRequired. rewrite trim_nil.
  assert (Hex : existsb (fun x => negb (isSpace x)) s = negb (forallb isSpace s)).
  { induction s as [|x s IH]; [reflexivity|].
    cbn [existsb forallb]. rewrite IH. destruct (isSpace x); reflexivity. }
  rewrite Hex. destruct s as [|x s]; [reflexivity|].
  cbn [JS.truthy negb orb]. reflexivity.
Qed.

(** X16: what the validators of the server accept.  [validateCurrency]
    accepts exactly the texts of three code units from A to Z (no lower
    case, no blank around, no fourth letter); [validateRequired] accepts
    exactly the texts that hold a code unit that is not white space;
    [validateAmount] accepts exactly the numbers above zero, +Infinity
    among them. *)
Theorem validators_accept_exactly :
  (forall s : jsstring,
      validateCurrency s
      = match s with
        | [a; b; c] => isUpper a && isUpper b && isUpper c
        | _ => false
        end)
  /\ (forall s : jsstring,
         validateRequired s = existsb (fun x => negb (isSpace x)) s)
  /\ (forall n : Num.number, validateAmount n = Num.gt0 n)
  /\ validateAmount (Num.Inf false) = true.
Proof.
  split; [exact validateCurrency_shape|].
  split; [exact validateRequired_shape|].
  split; [|reflexivity].
  intros [| neg | neg m e]; unfold validateAmount; cbn [Num.isNaN Num.leq0 Num.gt0].
  - reflexivity.
  - destruct neg; reflexivity.
  - destruct neg; cbn [orb negb andb]; [reflexivity|].
    destruct (N.eqb m 0); reflexivity.
Qed.

End Validators.
(* ------------------------------------------------------------------ *)
(** ** Categorization: the array of the model *)
(* ------------------------------------------------------------------ *)

Lemma categorizeParsed_throws (v : Json.value) :
  categorizeParsed v = Throw <-> v = Json.VNull.
Proof.
  unfold categorizeParsed. split.
  - destruct v; cbn [Conv.member bindR]; try reflexivity;
      match goal with
      | |- context [if ?c then _ else _] => destruct c; discriminate
      end.
  - intros ->. reflexivity.
Qed.

Lemma mapR_categorizeParsed (l : list Json.value) :
  (In Json.VNull l -> mapR categorizeParsed l = Throw)
  /\ (~ In Json.VNull l ->
      exists objs, mapR categorizeParsed l = Return objs
                   /\ List.length objs = List.length l
                   /\ Forall closedOrUnknown objs).
Proof.
  induction l as [|v l [IHin IHout]].
  - split; [intros [] | intros _; exists []; repeat split; constructor].
  - split.
    + intros [Hv | Hin].
      * subst v. reflexivity.
      * cbn [mapR]. destruct (categorizeParsed v); cbn [bindR]; [|reflexivity].
        rewrite (IHin Hin). reflexivity.
    + intros Hout.
      assert (Hv : v <> Json.VNull) by (intros E; apply Hout; left; exact E).
      assert (Hl : ~ In Json.VNull l) by (intros E; apply Hout; right; exact E).
      destruct (IHout Hl) as (objs & Hobjs & Hlen & Hclosed).
      cbn [mapR]. destruct (categorizeParsed v) as [o|] eqn:Ho.
      * rewrite Hobjs. cbn [bindR]. exists (o :: objs).
        split; [reflexivity|]. split; [cbn [List.length]; rewrite Hlen; reflexivity|].
        constructor; [eapply categorizeParsed_closed; exact Ho | exact Hclosed].
      * apply categorizeParsed_throws in Ho. contradiction.
Qed.

(** X17: when the repaired response is an array, [parseBatchResponse]
    does not look at the expenses it was given: it returns one record per
    element of the model's array, each with a category of the closed set
    or Unknown, unless an element is [null], in which case it throws (and
    [batchCategorizeExpenses] then gives Unknown to every expense). *)
Theorem array_path_follows_the_model :
  forall (response : jsstring) (l : list Json.value),
    parseJSONWithRetry response 3 = Json.VArr l ->
    (forall chunk chunk' : list ParsedExpense,
        parseBatchResponse response chunk = parseBatchResponse response chunk')
    /\ (In Json.VNull l -> forall chunk, parseBatchResponse response chunk = Throw)
    /\ (~ In Json.VNull l ->
        forall chunk,
        exists objs,
          parseBatchResponse response chunk = Return objs
          /\ List.length objs = List.length l
          /\ Forall closedOrUnknown objs).
Proof.
  intros response l Hp.
  assert (Heq : forall chunk, parseBatchResponse response chunk = mapR categorizeParsed l).
  { intros chunk. unfold parseBatchResponse. rewrite Hp. reflexivity. }
  destruct (mapR_categorizeParsed l) as [Hin Hout].
  split; [intros chunk chunk'; rewrite !Heq; reflexivity|].
  split.
  - intros Hnull chunk. rewrite Heq. apply Hin. exact Hnull.
  - intros Hnull chunk. rewrite Heq. apply Hout. exact Hnull.
Qed.

Lemma array_path_follows_the_model_witness :
  parseBatchResponse (u "[{~merchant~: ~Uber~, ~category~: ~Travel~}, null]") [expense "Uber"]
  = Throw
  /\ exists objs,
      parseBatchResponse
        (u "[{~merchant~: ~Lyft~, ~category~: ~Travel~}, {~merchant~: ~Bolt~}]")
        [expense "Uber"] = Return objs
      /\ List.length objs = 2.
Proof.
  split.
  - assert (Hp : parseJSONWithRetry (u "[{~merchant~: ~Uber~, ~category~: ~Travel~}, null]") 3
                 = Json.VArr [Json.VObj [(u "merchant", Json.VStr (u "Uber"));
                                         (u "category", Json.VStr (u "Travel"))];
                              Json.VNull]) by (vm_compute; reflexivity).
    destruct (array_path_follows_the_model _ Hp) as (_ & Hnull & _).
    apply Hnull. right. left. reflexivity.
  - assert (Hp : parseJSONWithRetry
                   (u "[{~merchant~: ~Lyft~, ~category~: ~Travel~}, {~merchant~: ~Bolt~}]") 3
                 = Json.VArr [Json.VObj [(u "merchant", Json.VStr (u "Lyft"));
                                         (u "category", Json.VStr (u "Travel"))];
                              Json.VObj [(u "merchant", Json.VStr (u "Bolt"))]])
      by (vm_compute; reflexivity).
    destruct (array_path_follows_the_model _ Hp) as (_ & _ & Hok).
    destruct (Hok ltac:(intros [E | [E | []]]; discriminate E) [expense "Uber"])
      as (objs & Hobjs & Hlen & _).
    exists objs. split; [exact Hobjs | exact Hlen].
Defined.

(* ------------------------------------------------------------------ *)
(** ** Categorization: a chunk that fails *)
(* ------------------------------------------------------------------ *)

Lemma chunkLoop_second_fails (api : Gemini) (expenses : list ParsedExpense) (fuel : nat) :
  2 <= fuel -> 10 < List.length expenses ->
  (forall chunk, api 1 chunk = None) ->
  exists log, chunkLoop fuel api [] expenses 0 [] = (Throw, log) /\ List.length log <= 2.
Proof.
  intros Hfuel Hlen Hfail.
  destruct fuel as [|[|fuel]]; [lia | lia |].
  assert (H0 : (0 <? List.length expenses) = true) by (apply Nat.ltb_lt; lia).
  assert (H1 : (0 + maxBatchSize <? List.length expenses) = true)
    by (apply Nat.ltb_lt; unfold maxBatchSize; lia).
  cbn [chunkLoop]. rewrite H0.
  unfold categorizeChunk at 1. unfold callGeminiAPI at 1. cbn [List.length app].
  destruct (api 0 (firstn maxBatchSize (skipn 0 expenses))) as [text|]; cbn [bindR];
    [|eexists; split; [reflexivity | cbn; lia]].
  destruct (parseBatchResponse text (firstn maxBatchSize (skipn 0 expenses))) as [r0|];
    [|eexists; split; [reflexivity | cbn; lia]].
  rewrite H1.
  unfold categorizeChunk, callGeminiAPI. cbn [List.length]. rewrite Hfail. cbn [bindR].
  eexists; split; [reflexivity | cbn; lia].
Qed.

(** X18: one failing call is enough to lose every label.  When the
    input has more than ten expenses and the second call throws, the
    result is every expense of the input with the category Unknown, also
    those of the first chunk, whose call had succeeded; no third call is
    made. *)
Theorem failing_chunk_discards_earlier_labels :
  forall (api : Gemini) (expenses : list ParsedExpense),
    10 < List.length expenses ->
    (forall chunk, api 1 chunk = None) ->
    fst (batchCategorizeExpenses api [] expenses)
    = Return (List.map (fun e => withCategory (toObject e) Unknown) expenses)
    /\ List.length (snd (batchCategorizeExpenses api [] expenses)) <= 2.
Proof.
  intros api expenses Hlen Hfail.
  unfold batchCategorizeExpenses, batchBody.
  assert (Hlt : (maxBatchSize <? List.length expenses) = true)
    by (apply Nat.ltb_lt; unfold maxBatchSize; lia).
  rewrite Hlt.
  destruct (@chunkLoop_second_fails api expenses (List.length expenses) ltac:(lia) Hlen Hfail)
    as (log & Hloop & Hlog).
  rewrite Hloop. cbn [fst snd]. split; [reflexivity | exact Hlog].
Qed.

Lemma failing_chunk_discards_earlier_labels_witness :
  let api : Gemini :=
    fun n _ => if n =? 0
               then Some (u "[{~merchant~: ~Uber~, ~category~: ~Transportation~}]")
               else None in
  fst (batchCategorizeExpenses api [] (repeat (expense "Uber") 11))
  = Return (List.map (fun e => withCategory (toObject e) Unknown) (repeat (expense "Uber") 11))
  /\ fst (batchCategorizeExpenses api [] (repeat (expense "Uber") 10))
     = Return [[(u "merchant", Json.VStr (u "Uber"));
                (u "category", Json.VStr (u "Transportation"))]].
Proof.
  intros api. split.
  - apply (@failing_chunk_discards_earlier_labels api (repeat (expense "Uber") 11)).
    + cbn. lia.
    + intros chunk. reflexivity.
  - vm_compute. reflexivity.
Defined.
(* ------------------------------------------------------------------ *)
(** ** The expenses of the batch prompt *)
(* ------------------------------------------------------------------ *)

Lemma collapseFrom_length (b : bool) (s : jsstring) :
  List.length (collapseFrom b s) <= List.length s.
Proof.
  revert b. induction s as [|x s IH]; intros b; [cbn; lia|].
  cbn [collapseFrom]. destruct (isSpace x).
  - destruct b; cbn [List.length]; [specialize (IH true) | specialize (IH true)]; lia.
  - cbn [List.length]. specialize (IH false). lia.
Qed.

Lemma trim_length (s : jsstring) : List.length (trim s) <= List.length s.
Proof.
  unfold trim.
  destruct (trimEnd_prefix (trimStart s)) as [b Hb].
  destruct (trimStart_suffix s) as [a Ha].
  rewrite Ha at 2. rewrite Hb at 2. rewrite !length_app. lia.
Qed.

Lemma sanitizeString_length (s : jsstring) :
  List.length (SingleCategorization.sanitizeString s) <= List.length s.
Proof.
  rewrite sanitizeString_direct.
  pose proof (trim_length (collapseFrom false (filter (fun x => negb (isControl x)) s))).
  pose proof (collapseFrom_length false (filter (fun x => negb (isControl x)) s)).
  pose proof (filter_length_le (fun x => negb (isControl x)) s).
  lia.
Qed.

(** X19: the expenses that [createBatchPrompt] writes into the prompt.
    There is one per input expense, in order, with the same amount, date,
    category and currency; its merchant is sanitized and has at most 53
    code units (the first 50 and three dots, when the name was longer),
    and its location is present and sanitized (Unknown when the expense
    had none). *)
Theorem prompt_expenses_are_sanitized :
  forall expenses : list ParsedExpense,
    List.length (SingleCategorization.sanitizedExpenses expenses) = List.length expenses
    /\ List.map amount (SingleCategorization.sanitizedExpenses expenses)
       = List.map amount expenses
    /\ List.map date (SingleCategorization.sanitizedExpenses expenses)
       = List.map date expenses
    /\ List.map category (SingleCategorization.sanitizedExpenses expenses)
       = List.map category expenses
    /\ List.map currency (SingleCategorization.sanitizedExpenses expenses)
       = List.map currency expenses
    /\ Forall (fun e => sanitized (merchant e) = true
                        /\ List.length (merchant e) <= 53
                        /\ exists l, location e = Some l /\ sanitized l = true)
              (SingleCategorization.sanitizedExpenses expenses).
Proof.
  intros expenses. unfold SingleCategorization.sanitizedExpenses.
  split; [apply length_map|].
  split; [rewrite map_map; reflexivity|].
  split; [rewrite map_map; reflexivity|].
  split; [rewrite map_map; reflexivity|].
  split; [rewrite map_map; reflexivity|].
  apply Forall_forall. intros e He. apply in_map_iff in He.
  destruct He as (e0 & He & _). subst e.
  cbn [merchant location].
  split; [apply sanitizeString_sanitized|]. split.
  - match goal with
    | |- List.length (SingleCategorization.sanitizeString ?x) <= _ =>
        pose proof (sanitizeString_length x) as Hl;
        assert (Hx : List.length x <= 53)
    end.
    { destruct (50 <? List.length (merchant e0)) eqn:Hlong.
      - rewrite length_app. unfold substring. rewrite length_firstn.
        change (List.length (u "...")) with 3. lia.
      - apply Nat.ltb_ge in Hlong. lia. }
    lia.
  - eexists. split; [reflexivity|].
    destruct (location e0) as [l|]; [|reflexivity].
    destruct (JS.truthy l); [apply sanitizeString_sanitized | reflexivity].
Qed.
(* ------------------------------------------------------------------ *)
(** ** The single insert *)
(* ------------------------------------------------------------------ *)

(** X20: the handler of POST /api/expenses adds one row or none.  When
    it accepts an expense as the client sends it, the table grows by
    exactly one row, placed last, which belongs to the user of the
    session and carries the category and the currency of the request
    (a currency of three capital letters), a merchant and a location
    that are not blank, and the date of the expense as the server reads
    it, or the clock of the server when the request has no date.  When
    it answers with a failure the table is unchanged. *)
Theorem single_insert_adds_one_valid_row :
  forall (srv : Server) (db : DB) (e : WireExpense),
    match createHandler srv db e with
    | (Ok _, db') =>
        exists user r,
          userOf (sessionUser srv) = Some user
          /\ db' = db ++ [r]
          /\ userId r = user
          /\ rowCategory r = w_category e /\ validateRequired (rowCategory r) = true
          /\ rowCurrency r = w_currency e /\ validateCurrency (rowCurrency r) = true
          /\ validateRequired (rowMerchant r) = true
          /\ validateRequired (rowLocation r) = true
          /\ validateAmount (received (w_amount e)) = true
          /\ Some (transactionDate r)
             = (if JS.truthy (w_transactionDate e)
                then @JSDate.ofString (serverHost srv) (w_transactionDate e)
                else Some (@now (serverHost srv)))
    | (Failed st, db') => db' = db /\ (st = 401 \/ st = 400 \/ st = 500)
    end.
Proof.
  intros srv db e. unfold createHandler.
  destruct (userOf (sessionUser srv)) as [user|]; [|split; [reflexivity | left; reflexivity]].
  destruct (validateExpense _ _ _ _ _ _) eqn:Hv; cbn [negb];
    [|split; [reflexivity | right; left; reflexivity]].
  destruct (negb (dbUp srv)); [split; [reflexivity | right; right; reflexivity]|].
  destruct (if JS.truthy (w_transactionDate e) then _ else _) as [t|] eqn:Ht;
    [|split; [reflexivity | right; right; reflexivity]].
  unfold validateExpense in Hv.
  repeat (apply andb_prop in Hv; destruct Hv as [Hv ?]).
  eexists. eexists. split; [reflexivity|]. split; [reflexivity|].
  cbn [userId rowCategory rowCurrency rowMerchant rowLocation transactionDate].
  repeat (split; [first [reflexivity | assumption]|]). reflexivity.
Qed.

(* ------------------------------------------------------------------ *)
(** ** The orchestrator: a mailbox without messages *)
(* ------------------------------------------------------------------ *)

(** X21: the delete of Step 0 does not wait for the messages to hold
    anything.  When reading the mailbox throws, the import throws and the
    table is untouched; when the mailbox returns no message, the import
    still deletes: it reports what the delete removed, with nothing
    processed or stored, and, when the delete call succeeds, the table
    has lost every row of the user in the range of the month. *)
Theorem import_without_messages_still_deletes :
  forall (w : World) (db : DB) (senderEmail userId : jsstring) (month year : Z),
    (getEmailsFromSender w senderEmail month year = Throw ->
     processEmailsFromSender w db senderEmail userId month year = (Throw, db))
    /\ (getEmailsFromSender w senderEmail month year = Return [] ->
        processEmailsFromSender w db senderEmail userId month year
        = (Return (mkSummary 0 0 (fst (deleteStep w db userId month year)) 0 []),
           snd (deleteStep w db userId month year)))
    /\ (forall lo hi usr,
           getEmailsFromSender w senderEmail month year = Return [] ->
           deleteWindow w month year = Some (lo, hi) ->
           userOf (bareSessionUser (server w)) = Some usr ->
           dbUp (server w) = true ->
           processEmailsFromSender w db senderEmail userId month year
           = (Return (mkSummary 0 0 (List.length (filter (inRange usr lo hi) db)) 0 []),
              filter (fun r => negb (inRange usr lo hi r)) db)).
Proof.
  intros w db senderEmail userId month year.
  assert (Hempty : getEmailsFromSender w senderEmail month year = Return [] ->
                   processEmailsFromSender w db senderEmail userId month year
                   = (Return (mkSummary 0 0 (fst (deleteStep w db userId month year)) 0 []),
                      snd (deleteStep w db userId month year))).
  { intros Hm. unfold processEmailsFromSender. rewrite Hm.
    destruct (deleteStep w db userId month year) as [deleted db1].
    reflexivity. }
  split; [|split; [exact Hempty|]].
  - intros Hm. unfold processEmailsFromSender. rewrite Hm. reflexivity.
  - intros lo hi usr Hm Hw Hu Hup. rewrite (Hempty Hm).
    rewrite (deleteStep_window w db userId month year Hw Hu Hup). reflexivity.
Qed.

Lemma import_without_messages_still_deletes_witness :
  let w := mkWorld (host 360 1761998400000) serverUTC (fun _ _ _ => Return []) (fun _ _ => None) in
  let db := [mkRow (u "u1") 1760522400000 (u "12.5") (u "USD") (u "Costa Rica") (u "Uber") (u "Transportation");
             mkRow (u "u2") 1760522400000 (u "7") (u "USD") (u "Costa Rica") (u "Soda") (u "Food & Dining")] in
  processEmailsFromSender w db sender user1 10 2025
  = (Return (mkSummary 0 0 1 0 []),
     [mkRow (u "u2") 1760522400000 (u "7") (u "USD") (u "Costa Rica") (u "Soda") (u "Food & Dining")]).
Proof.
  intros w db.
  destruct (import_without_messages_still_deletes w db sender user1 10 2025) as (_ & _ & Hdel).
  rewrite (Hdel 1759276800000%Z 1761955200000%Z (u "u1"));
    vm_compute; reflexivity.
Defined.
(* ------------------------------------------------------------------ *)
(** ** The code units of a repaired text *)
(* ------------------------------------------------------------------ *)

Section Alphabet.

Import Regex.

Variable P : N -> Prop.

Lemma skipn_incl (input : jsstring) (a : nat) (x : N) : In x (skipn a input) -> In x input.
Proof.
  intros H. rewrite <- (firstn_skipn a input). apply in_or_app. right. exact H.
Qed.

Lemma firstn_incl (input : jsstring) (a : nat) (x : N) : In x (firstn a input) -> In x input.
Proof.
  intros H. rewrite <- (firstn_skipn a input). apply in_or_app. left. exact H.
Qed.

Lemma substring_Forall (input : jsstring) (a b : nat) :
  Forall P input -> Forall P (substring input a b).
Proof.
  intros H. unfold substring. apply Forall_forall. intros x Hx.
  apply (proj1 (Forall_forall P input) H).
  apply (skipn_incl input a). apply (firstn_incl _ (b - a)). exact Hx.
Qed.

Lemma skipn_Forall (input : jsstring) (a : nat) :
  Forall P input -> Forall P (skipn a input).
Proof.
  intros H. apply Forall_forall. intros x Hx.
  apply (proj1 (Forall_forall P input) H). apply (skipn_incl input a). exact Hx.
Qed.

Lemma firstn_Forall (input : jsstring) (a : nat) :
  Forall P input -> Forall P (firstn a input).
Proof.
  intros H. apply Forall_forall. intros x Hx.
  apply (proj1 (Forall_forall P input) H). apply (firstn_incl _ a). exact Hx.
Qed.

(** A replacement text is made of the literal parts of the template and
    of pieces of the input. *)
Lemma expand_Forall (input : jsstring) (m : mres) (t : list piece) :
  Forall P input -> (forall l, In (Lit l) t -> Forall P l) ->
  Forall P (expand input m t).
Proof.
  intros Hi Ht. unfold expand.
  induction t as [|p t IH]; [constructor|].
  cbn [flat_map]. apply Forall_app. split.
  - destruct p as [l | i].
    + apply Ht. left. reflexivity.
    + unfold group. destruct (lookup i (mcaps m)) as [[a b]|]; [|constructor].
      apply substring_Forall. exact Hi.
  - apply IH. intros l Hl. apply Ht. right. exact Hl.
Qed.

Lemma replace1_Forall (r : re) (t : list piece) (input : jsstring) :
  Forall P input -> (forall l, In (Lit l) t -> Forall P l) ->
  Forall P (replace1 r t input).
Proof.
  intros Hi Ht. unfold replace1. destruct (exec r input 0) as [m|]; [|exact Hi].
  apply Forall_app. split; [apply firstn_Forall; exact Hi|].
  apply Forall_app. split; [apply expand_Forall; assumption | apply skipn_Forall; exact Hi].
Qed.

Lemma replaceG_go_Forall (r : re) (t : list piece) (input : jsstring) (n : nat) :
  Forall P input -> (forall l, In (Lit l) t -> Forall P l) ->
  forall i, Forall P (replaceG_go n r t input i).
Proof.
  intros Hi Ht. induction n as [|n IH]; intros i; cbn [replaceG_go];
    (destruct (exec r input i) as [m|]; [|apply skipn_Forall; exact Hi]).
  - apply Forall_app. split; [|apply skipn_Forall; exact Hi].
    apply Forall_app. split; [apply substring_Forall; exact Hi | apply expand_Forall; assumption].
  - destruct (mend m =? mstart m).
    + apply Forall_app. split.
      * apply Forall_app. split; [apply substring_Forall; exact Hi | apply expand_Forall; assumption].
      * apply Forall_app. split; [apply substring_Forall; exact Hi | apply IH].
    + apply Forall_app. split; [|apply IH].
      apply Forall_app. split; [apply substring_Forall; exact Hi | apply expand_Forall; assumption].
Qed.

Lemma replaceG_Forall (r : re) (t : list piece) (input : jsstring) :
  Forall P input -> (forall l, In (Lit l) t -> Forall P l) ->
  Forall P (replaceG r t input).
Proof. intros Hi Ht. apply replaceG_go_Forall; assumption. Qed.

Lemma trim_Forall (s : jsstring) : Forall P s -> Forall P (trim s).
Proof.
  intros H. apply Forall_forall. intros x Hx.
  apply (proj1 (Forall_forall P s) H). apply trim_In. exact Hx.
Qed.

End Alphabet.

Lemma collapseFrom_blank (b : bool) (s : jsstring) (x : N) :
  In x (collapseFrom b s) -> isSpace x = true -> x = 32%N.
Proof.
  revert b. induction s as [|y s IH]; intros b; [intros []|].
  cbn [collapseFrom]. destruct (isSpace y) eqn:Hy.
  - destruct b; [apply IH|].
    intros [H | H]; [intros _; symmetry; exact H | apply (IH true H)].
  - intros [H | H]; [subst y; rewrite Hy; discriminate | apply (IH false H)].
Qed.

(** The literal parts of a template, one by one. *)
Ltac literals :=
  let l := fresh "l" in let H := fresh "H" in
  intros l H; cbn [In] in H;
  repeat (destruct H as [H | H]; [try discriminate H; injection H as <-; repeat constructor|]);
  try contradiction.

Lemma controls_removed (s : jsstring) :
  Forall (fun x => plain x = true)
    (trim (Regex.replaceG reSpaces [Regex.Lit [32%N]]
             (Regex.replaceG reControl2 [] (Regex.replaceG reControl1 [] s)))).
Proof.
  unfold reControl1, reControl2.
  rewrite replaceG_spaces, !replaceG_Chr_delete.
  apply Forall_forall. intros x Hx. apply trim_In in Hx.
  unfold plain. apply andb_true_iff. split.
  - apply collapseFrom_In in Hx. destruct Hx as [Hx | Hx]; [|subst x; reflexivity].
    apply filter_In in Hx. exact (proj2 Hx).
  - destruct (isSpace x) eqn:Hs; [|reflexivity].
    rewrite (collapseFrom_blank _ _ _ Hx Hs). reflexivity.
Qed.

Lemma fixGeminiAPIIssues_plain (s : jsstring) :
  Forall (fun x => plain x = true) s ->
  Forall (fun x => plain x = true) (fixGeminiAPIIssues s).
Proof.
  intros H. unfold fixGeminiAPIIssues.
  repeat (first [apply replace1_Forall | apply replaceG_Forall]; [|literals]).
  exact H.
Qed.

(** X22: the text that [cleanAndRepair] returns holds no control
    character (code units 0 to 31 and 127 to 159, so no line break and
    no tabulation), no white space other than the blank, and no
    apostrophe: what was white space in the text came out as blanks, and
    every apostrophe as a double quote, also inside a string value. *)
Theorem cleanAndRepair_alphabet :
  forall (jsonString : jsstring),
    forallb (fun x => plain x && negb (N.eqb x 39)) (cleanAndRepair jsonString) = true.
Proof.
  intros s. apply forallb_forall. apply Forall_forall.
  unfold cleanAndRepair.
  do 3 (apply replaceG_Forall; [|literals]).
  unfold reApostrophe, Regex.c. rewrite replaceG_Chr_map.
  apply Forall_forall. intros x Hx. apply in_map_iff in Hx.
  destruct Hx as [y [Hy Hin]].
  assert (Hp : plain y = true).
  { clear Hy. revert y Hin. apply Forall_forall.
    apply replaceG_Forall; [|literals].
    apply fixGeminiAPIIssues_plain. apply controls_removed. }
  destruct (N.eqb 39 y) eqn:H39.
  - subst x. reflexivity.
  - subst x. rewrite Hp. rewrite N.eqb_sym, H39. reflexivity.
Qed.

Section Fields.

Import Regex.

(** What [field] finds is the trimmed text of a cell that is not empty
    and has no [<]. *)
Lemma field_raw (label text found : jsstring) :
  field label text = Some found ->
  exists raw, found = trim raw /\ raw <> [] /\ Forall (fun x => nots [60%N] x = true) raw.
Proof.
  unfold field. destruct (exec (reField label) text 0) as [m|] eqn:He; [|discriminate].
  destruct (exec_matchAt _ _ _ He) as [j Hj].
  unfold matchAt in Hj.
  destruct (run (reField label) (mkSt j (skipn j text) []) (fun s => Some s)) as [s'|] eqn:Hrun;
    [|discriminate].
  injection Hj as <-.
  unfold reField in Hrun. cbn [seqs] in Hrun.
  assert (Hwf : rest (mkSt j (skipn j text) []) = skipn (pos (mkSt j (skipn j text) [])) text)
    by reflexivity.
  revert Hwf Hrun. generalize (mkSt j (skipn j text) []). intros s0 Hwf Hrun.
  do 13 (apply (run_Seq_reaches text _ _ _ _ Hwf) in Hrun; clear Hwf s0;
         destruct Hrun as [s0 [Hwf Hrun]]).
  destruct (run_last_group text _ _ _ Hwf Hrun) as [raw [Hg [Hne Hall]]].
  unfold group in *. cbn [mcaps] in *.
  destruct (lookup 1 (caps s')) as [[a b]|]; [|discriminate].
  cbn [option_map]. intros E. injection E as <-. injection Hg as <-.
  exists (substring text a b). split; [reflexivity | split; assumption].
Qed.

End Fields.
Section ExtractedFields.

Import Regex.

Lemma trimStart_fixed (s : jsstring) :
  match s with x :: _ => isSpace x = false | [] => True end -> trimStart s = s.
Proof. destruct s as [|x s]; [reflexivity|]. cbn [trimStart]. intros ->. reflexivity. Qed.

Lemma trim_head (s : jsstring) :
  match trim s with x :: _ => isSpace x = false | [] => True end.
Proof.
  unfold trim. destruct (trimEnd_prefix (trimStart s)) as [b Hb].
  pose proof (trimStart_head s) as Hh. rewrite Hb in Hh.
  destruct (trimEnd (trimStart s)); [exact I | exact Hh].
Qed.

Lemma trim_trim (s : jsstring) : trim (trim s) = trim s.
Proof.
  unfold trim at 1. rewrite (trimStart_fixed _ (trim_head s)).
  unfold trim, trimEnd. rewrite rev_involutive.
  rewrite (trimStart_fixed _ (trimStart_head (rev (trimStart s)))). reflexivity.
Qed.

Lemma replaceFirstUnit_In (a : N) (b s : jsstring) (x : N) :
  In x (replaceFirstUnit a b s) -> In x s \/ In x b.
Proof.
  induction s as [|y s IH]; [intros []|].
  cbn [replaceFirstUnit]. destruct (N.eqb y a).
  - intros H. apply in_app_or in H. destruct H; [right | left; right]; assumption.
  - intros [H | H]; [left; left; exact H|].
    destruct (IH H); [left; right | right]; assumption.
Qed.

(** The parts that [split] gives hold no separator, and nothing that the
    text does not hold. *)
Lemma split_go_parts (sep : N) (s : jsstring) :
  forall cur part x,
    In part (split_go sep s cur) -> In x part ->
    (In x s \/ In x cur) /\ (x <> sep \/ In x cur).
Proof.
  induction s as [|y s IH]; intros cur part x Hp Hx.
  - cbn [split_go] in Hp. destruct Hp as [<- | []].
    apply in_rev in Hx. split; right; exact Hx.
  - cbn [split_go] in Hp. destruct (N.eqb y sep) eqn:Hy.
    + destruct Hp as [<- | Hp].
      * apply in_rev in Hx. split; right; exact Hx.
      * destruct (IH _ _ _ Hp Hx) as [[H1 | []] [H2 | []]].
        split; [left; right; exact H1 | left; exact H2].
    + destruct (IH _ _ _ Hp Hx) as [H1 H2]. split.
      * destruct H1 as [H1 | [H1 | H1]];
          [left; right; exact H1 | left; left; exact H1 | right; exact H1].
      * destruct H2 as [H2 | [H2 | H2]]; [left; exact H2 | | right; exact H2].
        left. subst y. apply N.eqb_neq. exact Hy.
Qed.

Lemma split_parts (sep : N) (s part : jsstring) (x : N) :
  In part (split sep s) -> In x part -> In x s /\ x <> sep.
Proof.
  intros Hp Hx. destruct (@split_go_parts _ _ _ _ _ Hp Hx) as [[H1 | []] [H2 | []]].
  split; assumption.
Qed.

Lemma field_chars (label text found : jsstring) (x : N) :
  field label text = Some found -> In x found -> x <> 60%N.
Proof.
  intros Hf Hx. destruct (@field_raw _ _ _ Hf) as [raw [-> [_ Hall]]].
  apply trim_In in Hx.
  pose proof (proj1 (Forall_forall _ _) Hall x Hx) as Hn.
  unfold nots in Hn. cbn [existsb] in Hn.
  intros ->. discriminate Hn.
Qed.

Lemma field_trimmed (label text found : jsstring) :
  field label text = Some found -> trim found = found.
Proof.
  intros Hf. destruct (@field_raw _ _ _ Hf) as [raw [-> _]]. apply trim_trim.
Qed.

(** X28: the fields of an expense read from a notification.  Whatever
    the text, when [parseExpenseFromTextWithoutAI] returns an expense:
    its merchant is not empty, has no white space at either end and holds
    no [<]; its currency is a text without a blank and without [<] (it
    may be empty); its location is not empty and holds no [<]; and its
    category is Other. *)
Theorem extracted_fields_shape :
  forall (host : Host) (text from headerDate : jsstring) (e : ParsedExpense),
    parseExpenseFromTextWithoutAI text from headerDate = Some e ->
    (JS.truthy (merchant e) = true /\ trim (merchant e) = merchant e
     /\ Forall (fun x => x <> 60%N) (merchant e))
    /\ (exists c, currency e = Some c /\ Forall (fun x => x <> 32%N /\ x <> 60%N) c)
    /\ (exists l, location e = Some l /\ JS.truthy l = true /\ Forall (fun x => x <> 60%N) l)
    /\ category e = Some (u "Other").
Proof.
  intros host text from headerDate e. unfold parseExpenseFromTextWithoutAI.
  destruct (field (u "Comercio:") text) as [merchantName|] eqn:Hc; [|discriminate].
  destruct (field (u "Monto:") text) as [monto|] eqn:Hm; [|cbn [option_map]; discriminate].
  cbn [option_map].
  destruct (split 32 (replaceFirstUnit 44 [] monto)) as [|currencyCode [|amountStr rest]] eqn:Hs;
    [discriminate | discriminate |].
  destruct (negb (JS.truthy merchantName)) eqn:Ht; [discriminate|].
  destruct (Num.isNaN (Num.parseFloat amountStr) || Num.leq0 (Num.parseFloat amountStr));
    [discriminate|].
  intros E. injection E as <-. cbn [merchant currency location category].
  split; [|split; [|split]].
  - split; [|split].
    + apply negb_false_iff. exact Ht.
    + exact (@field_trimmed _ _ _ Hc).
    + apply Forall_forall. intros x Hx. exact (@field_chars _ _ _ _ Hc Hx).
  - exists currencyCode. split; [reflexivity|].
    apply Forall_forall. intros x Hx.
    assert (Hp : In currencyCode (split 32 (replaceFirstUnit 44 [] monto)))
      by (rewrite Hs; left; reflexivity).
    destruct (@split_parts _ _ _ _ Hp Hx) as [Hin Hsep].
    split; [exact Hsep|].
    apply replaceFirstUnit_In in Hin. destruct Hin as [Hin | []].
    exact (@field_chars _ _ _ _ Hm Hin).
  - destruct (field (u "Ciudad y pa&iacute;s:") text) as [city|] eqn:Hl; cbn [option_map].
    + destruct (JS.truthy (replaceFirstUnit 44 [46%N] city)) eqn:Hcity.
      * eexists. split; [reflexivity|]. split; [exact Hcity|].
        apply Forall_forall. intros x Hx.
        apply replaceFirstUnit_In in Hx. destruct Hx as [Hx | [<- | []]];
          [exact (@field_chars _ _ _ _ Hl Hx) | discriminate].
      * eexists. split; [reflexivity|]. split; [reflexivity|].
        repeat constructor; discriminate.
    + eexists. split; [reflexivity|]. split; [reflexivity|].
      repeat constructor; discriminate.
  - reflexivity.
Qed.

Lemma extracted_fields_shape_witness :
  let browser := host 360 1761998400000 in
  let text := notification " Mas x Menos <br>" "2025-10-15T10:00:00-06:00" "USD 12.50" in
  exists e,
    @parseExpenseFromTextWithoutAI browser text [] [] = Some e
    /\ merchant e = u "Mas x Menos"
    /\ (JS.truthy (merchant e) = true /\ trim (merchant e) = merchant e
        /\ Forall (fun x => x <> 60%N) (merchant e))
    /\ (exists c, currency e = Some c /\ Forall (fun x => x <> 32%N /\ x <> 60%N) c)
    /\ (exists l, location e = Some l /\ JS.truthy l = true /\ Forall (fun x => x <> 60%N) l)
    /\ category e = Some (u "Other").
Proof.
  intros browser text.
  let v := eval vm_compute in (@parseExpenseFromTextWithoutAI browser text [] []) in
  match v with
  | Some ?e0 =>
      assert (He : @parseExpenseFromTextWithoutAI browser text [] [] = Some e0)
        by (vm_compute; reflexivity);
      exists e0
  end.
  split; [exact He|]. split; [vm_compute; reflexivity|].
  exact (@extracted_fields_shape browser text [] [] _ He).
Defined.

End ExtractedFields.
Section MonthLength.

Local Open Scope Z_scope.
Import JSDate.

(** The first day of the month with index [i], counted from January of
    year 0. *)
Lemma monthStart_step (i : Z) :
  daysFromCivil ((i + 1) / 12) ((i + 1) mod 12 + 1) 1
  = daysFromCivil (i / 12) (i mod 12 + 1) 1 + daysInMonth (i / 12) (i mod 12 + 1).
Proof.
  unfold daysInMonth.
  destruct (i mod 12 + 1 =? 12) eqn:H12.
  - apply Z.eqb_eq in H12.
    replace ((i + 1) / 12) with (i / 12 + 1) by (Z.div_mod_to_equations; lia).
    replace ((i + 1) mod 12 + 1) with 1 by (Z.div_mod_to_equations; lia).
    lia.
  - apply Z.eqb_neq in H12.
    replace ((i + 1) / 12) with (i / 12) by (Z.div_mod_to_equations; lia).
    replace ((i + 1) mod 12 + 1) with (i mod 12 + 1 + 1) by (Z.div_mod_to_equations; lia).
    lia.
Qed.

Lemma monthStart_mono (n : nat) (i : Z) :
  daysFromCivil (i / 12) (i mod 12 + 1) 1 + 28 * Z.of_nat n
  <= daysFromCivil ((i + Z.of_nat n) / 12) ((i + Z.of_nat n) mod 12 + 1) 1.
Proof.
  induction n as [|n IH].
  - replace (i + Z.of_nat 0) with i by lia. lia.
  - replace (i + Z.of_nat (S n)) with (i + Z.of_nat n + 1) by lia.
    rewrite monthStart_step.
    pose proof (@daysInMonth_range ((i + Z.of_nat n) / 12) ((i + Z.of_nat n) mod 12 + 1)) as Hr.
    assert (Hm : 1 <= (i + Z.of_nat n) mod 12 + 1 <= 12) by (Z.div_mod_to_equations; lia).
    specialize (Hr Hm). lia.
Qed.

Lemma monthIndex (y m : Z) :
  1 <= m <= 12 -> (12 * y + m - 1) / 12 = y /\ (12 * y + m - 1) mod 12 + 1 = m.
Proof. intros Hm. Z.div_mod_to_equations. lia. Qed.

Lemma daysFromCivil_day (y m d : Z) :
  daysFromCivil y m d = daysFromCivil y m 1 + d - 1.
Proof. unfold daysFromCivil. lia. Qed.

(** Two dates of the calendar with the same day number are the same. *)
Lemma month_of_day (y m y2 m2 z : Z) :
  1 <= m <= 12 -> 1 <= m2 <= 12 ->
  daysFromCivil y m 1 <= z < daysFromCivil y m 1 + daysInMonth y m ->
  daysFromCivil y2 m2 1 <= z < daysFromCivil y2 m2 1 + daysInMonth y2 m2 ->
  y2 = y /\ m2 = m.
Proof.
  intros Hm Hm2 Hz Hz2.
  destruct (@monthIndex y m Hm) as [Hy Hmm].
  destruct (@monthIndex y2 m2 Hm2) as [Hy2 Hmm2].
  set (i := 12 * y + m - 1) in *. set (j := 12 * y2 + m2 - 1) in *.
  assert (Hij : i = j).
  { destruct (Z.lt_trichotomy i j) as [Hlt | [Heq | Hgt]]; [|exact Heq|].
    - exfalso.
      pose proof (monthStart_mono (Z.to_nat (j - (i + 1))) (i + 1)) as Hmono.
      replace (i + 1 + Z.of_nat (Z.to_nat (j - (i + 1)))) with j in Hmono by lia.
      rewrite monthStart_step in Hmono.
      rewrite Hy, Hmm, Hy2, Hmm2 in Hmono. lia.
    - exfalso.
      pose proof (monthStart_mono (Z.to_nat (i - (j + 1))) (j + 1)) as Hmono.
      replace (j + 1 + Z.of_nat (Z.to_nat (i - (j + 1)))) with i in Hmono by lia.
      rewrite monthStart_step in Hmono.
      rewrite Hy, Hmm, Hy2, Hmm2 in Hmono. lia. }
  unfold i, j in Hij. lia.
Qed.

(** The civil date of day [k + 1] of a month. *)
Lemma civilFromDays_daysFromCivil (y m k : Z) :
  1 <= m <= 12 -> 0 <= k < daysInMonth y m ->
  civilFromDays (daysFromCivil y m 1 + k) = (y, m, k + 1).
Proof.
  intros Hm Hk.
  pose proof (daysFromCivil_civilFromDays (daysFromCivil y m 1 + k)) as Hback.
  pose proof (civilFromDays_month (daysFromCivil y m 1 + k)) as Hmonth.
  pose proof (civilFromDays_day (daysFromCivil y m 1 + k)) as Hday.
  destruct (civilFromDays (daysFromCivil y m 1 + k)) as [[y2 m2] d2].
  rewrite daysFromCivil_day in Hback.
  destruct (@month_of_day y m y2 m2 (daysFromCivil y m 1 + k)) as [Ey Em];
    [exact Hm | exact Hmonth | lia | lia |].
  subst y2 m2. f_equal. lia.
Qed.

(** The months of the years 1 to 99 are as long as those of the years
    1901 to 1999. *)
Lemma daysInMonth_1900 (y m : Z) :
  1 <= y <= 99 -> 1 <= m <= 12 -> daysInMonth (1900 + y) m = daysInMonth y m.
Proof.
  intros Hy Hm.
  rewrite (@daysInMonth_bounds (1900 + y) m Hm), (@daysInMonth_bounds y m Hm).
  destruct (m =? 2); [|reflexivity].
  rewrite !daysInMonth_february.
  replace ((1900 + y) mod 4 =? 0) with (y mod 4 =? 0).
  2:{ destruct (y mod 4 =? 0) eqn:E1; destruct ((1900 + y) mod 4 =? 0) eqn:E2; try reflexivity;
      [apply Z.eqb_eq in E1; apply Z.eqb_neq in E2 | apply Z.eqb_neq in E1; apply Z.eqb_eq in E2];
      Z.div_mod_to_equations; lia. }
  replace ((1900 + y) mod 100 =? 0) with false
    by (symmetry; apply Z.eqb_neq; Z.div_mod_to_equations; lia).
  replace (y mod 100 =? 0) with false
    by (symmetry; apply Z.eqb_neq; Z.div_mod_to_equations; lia).
  reflexivity.
Qed.

Lemma monthStart_range (y m : Z) :
  - 271820 <= y <= 275759 -> 1 <= m <= 12 ->
  - 99999744 <= daysFromCivil y m 1 <= 99999713.
Proof.
  intros Hy Hm. unfold daysFromCivil.
  destruct (m <=? 2) eqn:H1; destruct (2 <? m) eqn:H2;
    Z.div_mod_to_equations; lia.
Qed.

End MonthLength.
(* ------------------------------------------------------------------ *)
(** ** The daily trend of a month *)
(* ------------------------------------------------------------------ *)

Section Trend.

Local Open Scope Z_scope.
Import JSDate LocalDate CurrencyUtils ExpenseUtils.

Context {host : Host} {arith : Arithmetic}.

Lemma localDay_fromDay (day : Z) :
  localDay (day * msPerDay + makeTime 0 0 0 0 + tzOffset * 60000) = day.
Proof.
  unfold localDay, makeTime, msPerDay.
  replace (day * 86400000 + (0 * 3600000 + 0 * 60000 + 0 * 1000 + 0) + tzOffset * 60000
           - tzOffset * 60000) with (day * 86400000) by lia.
  apply Z.div_mul. lia.
Qed.

(** The array has one entry for each day of the viewing month. *)
Lemma daysInMonthOf_calendar (t y m d : Z) :
  civilFromDays (localDay t) = (y, m, d) ->
  y <> 0 -> - 271820 <= y <= 275759 -> - 1440 < tzOffset < 1440 ->
  daysInMonthOf (Some t) = Some (daysInMonth y m).
Proof.
  intros Hciv Hy0 Hy Htz.
  pose proof (civilFromDays_month (localDay t)) as Hm. rewrite Hciv in Hm.
  unfold daysInMonthOf, getFullYear, getMonth. rewrite Hciv.
  replace (m - 1 + 1) with m by lia.
  unfold fromFields.
  set (year := if (0 <=? y) && (y <=? 99) then 1900 + y else y).
  assert (Hlen : daysInMonth year m = daysInMonth y m).
  { unfold year. destruct ((0 <=? y) && (y <=? 99)) eqn:Hc; [|reflexivity].
    apply andb_prop in Hc. destruct Hc as [H0 H99].
    apply Z.leb_le in H0. apply Z.leb_le in H99.
    apply daysInMonth_1900; lia. }
  assert (Hyear : - 271820 <= year <= 275759).
  { unfold year. destruct ((0 <=? y) && (y <=? 99)) eqn:Hc; [|exact Hy].
    apply andb_prop in Hc. destruct Hc as [H0 H99].
    apply Z.leb_le in H0. apply Z.leb_le in H99. lia. }
  clearbody year.
  pose proof (@monthStart_range year m Hyear Hm) as Hstart.
  pose proof (@daysInMonth_range year m Hm) as Hrange.
  rewrite (@makeDay_last year m Hm).
  set (day := daysFromCivil year m 1 + daysInMonth year m - 1).
  assert (Hclip : timeClip (day * msPerDay + makeTime 0 0 0 0 + tzOffset * 60000)
                  = Some (day * msPerDay + makeTime 0 0 0 0 + tzOffset * 60000)).
  { unfold timeClip, makeTime, msPerDay, maxTime.
    destruct (Z.abs _ <=? _) eqn:Hc; [reflexivity|].
    apply Z.leb_gt in Hc. unfold day in Hc. lia. }
  rewrite Hclip. unfold getDate. rewrite localDay_fromDay.
  unfold day. replace (daysFromCivil year m 1 + daysInMonth year m - 1)
    with (daysFromCivil year m 1 + (daysInMonth year m - 1)) by lia.
  rewrite civilFromDays_daysFromCivil by lia.
  rewrite <- Hlen. f_equal. lia.
Qed.

Lemma getDate_range (x : option Z) (d : Z) : getDate x = Some d -> 1 <= d <= 31.
Proof.
  destruct x as [t|]; [|discriminate]. unfold getDate.
  pose proof (civilFromDays_day (localDay t)) as Hd.
  pose proof (civilFromDays_month (localDay t)) as Hm.
  destruct (civilFromDays (localDay t)) as [[y m] day].
  intros E. injection E as <-.
  pose proof (@daysInMonth_range y m Hm). lia.
Qed.

(** An expense of the viewing month falls on one of its days. *)
Lemma day_of_same_month (x : option Z) (t y m d : Z) :
  civilFromDays (localDay t) = (y, m, d) ->
  sameNumber (getMonth x) (getMonth (Some t))
  && sameNumber (getFullYear x) (getFullYear (Some t)) = true ->
  exists day, getDate x = Some day /\ 1 <= day <= daysInMonth y m.
Proof.
  intros Hciv Hsame. destruct x as [tx|]; [|discriminate Hsame].
  unfold getMonth, getFullYear, getDate in *. rewrite Hciv in Hsame.
  pose proof (civilFromDays_day (localDay tx)) as Hd.
  destruct (civilFromDays (localDay tx)) as [[y2 m2] d2].
  cbn [sameNumber] in Hsame. apply andb_prop in Hsame. destruct Hsame as [E1 E2].
  apply Z.eqb_eq in E1. apply Z.eqb_eq in E2.
  assert (m2 = m) by lia. subst m2 y2.
  exists d2. split; [reflexivity | exact Hd].
Qed.

Lemma length_setAt (l : list DailyTrendData.t) (i : nat) (x : DailyTrendData.t) :
  List.length (setAt l i x) = List.length l.
Proof.
  revert i. induction l as [|y l IH]; intros i; [reflexivity|].
  destruct i; cbn [setAt List.length]; [reflexivity | rewrite IH; reflexivity].
Qed.

Lemma addToDay_inside (dailyData : list DailyTrendData.t) (d : Z) (x : Num.number) :
  1 <= d <= Z.of_nat (List.length dailyData) ->
  exists entry,
    nth_error dailyData (Z.to_nat (d - 1)) = Some entry
    /\ addToDay dailyData (Some (d - 1)) x
       = Return (setAt dailyData (Z.to_nat (d - 1))
                   (DailyTrendData.mk (DailyTrendData.day entry)
                                      (add (DailyTrendData.amount entry) x))).
Proof.
  intros Hd. unfold addToDay.
  destruct (0 <=? d - 1) eqn:H0; [|apply Z.leb_gt in H0; lia].
  destruct (nth_error dailyData (Z.to_nat (d - 1))) as [entry|] eqn:Hn.
  - exists entry. split; reflexivity.
  - apply nth_error_None in Hn. lia.
Qed.

Lemma addToDay_outside (dailyData : list DailyTrendData.t) (d : Z) (x : Num.number) :
  Z.of_nat (List.length dailyData) < d -> addToDay dailyData (Some (d - 1)) x = Throw.
Proof.
  intros Hd. unfold addToDay.
  destruct (0 <=? d - 1); [|reflexivity].
  destruct (nth_error dailyData (Z.to_nat (d - 1))) as [entry|] eqn:Hn; [|reflexivity].
  assert (Hlt : (Z.to_nat (d - 1) < List.length dailyData)%nat).
  { apply nth_error_Some. rewrite Hn. discriminate. }
  lia.
Qed.

Lemma dayTotal_cons (d : Z) (e : Expense.t) (es : list Expense.t) (a : Num.number) :
  dayTotal d (e :: es) a
  = dayTotal d es
      (if sameNumber (getDate (ofString (Expense.createdAt e))) (Some d)
       then add a (Expense.amount e) else a).
Proof. reflexivity. Qed.

Lemma totalsFrom_nil (d : Z) (dailyData : list DailyTrendData.t) :
  totalsFrom d [] dailyData = dailyData.
Proof.
  revert d. induction dailyData as [|entry rest IH]; intros d; [reflexivity|].
  cbn [totalsFrom]. rewrite IH. destruct entry. reflexivity.
Qed.

Lemma totalsFrom_later (k day : Z) (e : Expense.t) (es : list Expense.t)
      (dailyData : list DailyTrendData.t) :
  getDate (ofString (Expense.createdAt e)) = Some day -> day < k ->
  totalsFrom k (e :: es) dailyData = totalsFrom k es dailyData.
Proof.
  intros Hday. revert k. induction dailyData as [|entry rest IH]; intros k Hk; [reflexivity|].
  cbn [totalsFrom]. rewrite dayTotal_cons, Hday. cbn [sameNumber].
  destruct (day =? k) eqn:E; [apply Z.eqb_eq in E; lia|].
  rewrite IH by lia. reflexivity.
Qed.

Lemma totalsFrom_step (k day : Z) (e : Expense.t) (es : list Expense.t)
      (dailyData : list DailyTrendData.t) (entry : DailyTrendData.t) :
  getDate (ofString (Expense.createdAt e)) = Some day -> k <= day ->
  nth_error dailyData (Z.to_nat (day - k)) = Some entry ->
  totalsFrom k es
    (setAt dailyData (Z.to_nat (day - k))
       (DailyTrendData.mk (DailyTrendData.day entry)
                          (add (DailyTrendData.amount entry) (Expense.amount e))))
  = totalsFrom k (e :: es) dailyData.
Proof.
  intros Hday. revert k.
  induction dailyData as [|first rest IH]; intros k Hk Hn.
  - destruct (Z.to_nat (day - k)); discriminate Hn.
  - destruct (Z.to_nat (day - k)) as [|i] eqn:Hi.
    + assert (day = k) by lia. subst k.
      cbn [nth_error] in Hn. injection Hn as ->.
      cbn [setAt totalsFrom DailyTrendData.day DailyTrendData.amount].
      rewrite dayTotal_cons, Hday. cbn [sameNumber]. rewrite Z.eqb_refl.
      rewrite (@totalsFrom_later (day + 1) day e es rest Hday) by lia. reflexivity.
    + cbn [nth_error] in Hn. cbn [setAt totalsFrom].
      rewrite dayTotal_cons, Hday. cbn [sameNumber].
      destruct (day =? k) eqn:E; [apply Z.eqb_eq in E; lia|].
      f_equal.
      assert (Hi' : i = Z.to_nat (day - (k + 1))) by lia.
      rewrite Hi'. apply IH; [lia | rewrite <- Hi'; exact Hn].
Qed.

(** Expenses that all fall on a day of the array are added without a
    failure. *)
Lemma addExpenses_totals (es : list Expense.t) :
  forall dailyData,
    (forall e, In e es ->
               exists day, getDate (ofString (Expense.createdAt e)) = Some day
                           /\ 1 <= day <= Z.of_nat (List.length dailyData)) ->
    addExpenses es dailyData = Return (totalsFrom 1 es dailyData).
Proof.
  induction es as [|e es IH]; intros dailyData Hall.
  - cbn [addExpenses]. rewrite totalsFrom_nil. reflexivity.
  - destruct (Hall e (or_introl eq_refl)) as [day [Hday Hr]].
    cbn [addExpenses]. rewrite Hday. cbn [option_map].
    destruct (@addToDay_inside dailyData day (Expense.amount e) Hr) as [entry [Hn Hadd]].
    rewrite Hadd. cbn [bindR].
    rewrite IH.
    + f_equal. apply totalsFrom_step; [exact Hday | lia | exact Hn].
    + intros e' He'. rewrite length_setAt. apply Hall. right. exact He'.
Qed.

(** The additions fail when an expense has no day in the array, and
    only then. *)
Lemma addExpenses_throws (es : list Expense.t) :
  forall dailyData,
    addExpenses es dailyData = Throw
    <-> exists e, In e es
                  /\ match getDate (ofString (Expense.createdAt e)) with
                     | Some day => Z.of_nat (List.length dailyData) < day
                     | None => True
                     end.
Proof.
  induction es as [|e es IH]; intros dailyData.
  - cbn [addExpenses]. split; [discriminate | intros [e [[] _]]].
  - cbn [addExpenses].
    destruct (getDate (ofString (Expense.createdAt e))) as [day|] eqn:Hday.
    + cbn [option_map]. pose proof (getDate_range _ Hday) as Hpos.
      destruct (Z_lt_le_dec (Z.of_nat (List.length dailyData)) day) as [Hout | Hin].
      * rewrite addToDay_outside by exact Hout. cbn [bindR].
        split; [intros _ | reflexivity].
        exists e. split; [left; reflexivity | rewrite Hday; exact Hout].
      * destruct (@addToDay_inside dailyData day (Expense.amount e)) as [entry [Hn Hadd]];
          [lia|].
        rewrite Hadd. cbn [bindR]. rewrite IH, length_setAt.
        split.
        -- intros [e' [He' Hbad]]. exists e'. split; [right; exact He' | exact Hbad].
        -- intros [e' [[He' | He'] Hbad]].
           ++ subst e'. rewrite Hday in Hbad. lia.
           ++ exists e'. split; assumption.
    + cbn [option_map addToDay bindR]. split; [intros _ | reflexivity].
      exists e. split; [left; reflexivity | rewrite Hday; exact I].
Qed.

Lemma emptyDays_length (n : Z) : List.length (emptyDays (Some n)) = Z.to_nat n.
Proof. unfold emptyDays. rewrite length_map, length_seq. reflexivity. Qed.

Lemma totalsFrom_emptyDays (es : list Expense.t) (n : nat) :
  forall s,
    totalsFrom (Z.of_nat s + 1) es
      (List.map (fun i => DailyTrendData.mk (Z.of_nat i + 1) zero) (seq s n))
    = List.map (fun i => DailyTrendData.mk (Z.of_nat i + 1)
                           (dayTotal (Z.of_nat i + 1) es zero))
               (seq s n).
Proof.
  induction n as [|n IH]; intros s; [reflexivity|].
  cbn [seq List.map totalsFrom DailyTrendData.day DailyTrendData.amount].
  f_equal. replace (Z.of_nat s + 1 + 1) with (Z.of_nat (S s) + 1) by lia. apply IH.
Qed.

Lemma addExpenses_month (es : list Expense.t) (n : Z) :
  (forall e, In e es ->
             exists day, getDate (ofString (Expense.createdAt e)) = Some day /\ 1 <= day <= n) ->
  addExpenses es (emptyDays (Some n)) = Return (monthTotals n es).
Proof.
  intros Hall. rewrite addExpenses_totals.
  - unfold emptyDays, monthTotals. f_equal. apply (totalsFrom_emptyDays es (Z.to_nat n) 0).
  - intros e He. destruct (Hall e He) as [day [Hday Hr]].
    exists day. split; [exact Hday|]. rewrite emptyDays_length. lia.
Qed.

(** X23: the daily trend of the expenses that [filterExpensesByMonth]
    keeps.  For a viewing date in a year other than 0, from -271820 to
    275759, and a host less than a day away from UTC,
    [generateDailyTrendData] returns without a failure: one entry for
    each day of the viewing month, numbered from 1, and the entry of a day
    holds the amounts of the kept expenses of that day of the month (in
    the local time of the host), added in the order of the list to 0. *)
Theorem filtered_expenses_daily_trend :
  forall (expenses : list Expense.t) (t y m d : Z),
    civilFromDays (localDay t) = (y, m, d) ->
    y <> 0 -> - 271820 <= y <= 275759 -> - 1440 < tzOffset < 1440 ->
    generateDailyTrendData (filterExpensesByMonth expenses (Some t)) (Some t)
    = Return (monthTotals (daysInMonth y m) (filterExpensesByMonth expenses (Some t))).
Proof.
  intros expenses t y m d Hciv Hy0 Hy Htz.
  unfold generateDailyTrendData.
  rewrite (@daysInMonthOf_calendar t y m d Hciv Hy0 Hy Htz).
  apply addExpenses_month.
  intros e He. unfold filterExpensesByMonth in He. apply filter_In in He.
  destruct He as [_ Hsame].
  exact (@day_of_same_month _ t y m d Hciv Hsame).
Qed.

(** X24: [generateDailyTrendData] on expenses that were not filtered.
    For a viewing date as above, the call fails with a TypeError exactly
    when the createdAt of some expense is no date, or falls (in the local
    time of the host) on a day of the month that the viewing month does
    not have, whatever the month and the year of the expense.  Otherwise
    it returns one entry for each day of the viewing month, and the entry
    of a day holds the amounts of all the expenses of that day of the
    month, those of other months and years included. *)
Theorem daily_trend_fails_on_a_missing_day :
  forall (expenses : list Expense.t) (t y m d : Z),
    civilFromDays (localDay t) = (y, m, d) ->
    y <> 0 -> - 271820 <= y <= 275759 -> - 1440 < tzOffset < 1440 ->
    (generateDailyTrendData expenses (Some t) = Throw
     <-> exists e, In e expenses
                   /\ match getDate (ofString (Expense.createdAt e)) with
                      | Some day => daysInMonth y m < day
                      | None => True
                      end)
    /\ (generateDailyTrendData expenses (Some t) <> Throw ->
        generateDailyTrendData expenses (Some t)
        = Return (monthTotals (daysInMonth y m) expenses)).
Proof.
  intros expenses t y m d Hciv Hy0 Hy Htz.
  pose proof (civilFromDays_month (localDay t)) as Hm. rewrite Hciv in Hm.
  pose proof (@daysInMonth_range y m Hm) as Hrange.
  unfold generateDailyTrendData.
  rewrite (@daysInMonthOf_calendar t y m d Hciv Hy0 Hy Htz).
  assert (Hiff : addExpenses expenses (emptyDays (Some (daysInMonth y m))) = Throw
                 <-> exists e, In e expenses
                               /\ match getDate (ofString (Expense.createdAt e)) with
                                  | Some day => daysInMonth y m < day
                                  | None => True
                                  end).
  { rewrite addExpenses_throws. rewrite emptyDays_length.
    replace (Z.of_nat (Z.to_nat (daysInMonth y m))) with (daysInMonth y m) by lia.
    reflexivity. }
  split; [exact Hiff|].
  intros Hok. apply addExpenses_month. intros e He.
  destruct (getDate (ofString (Expense.createdAt e))) as [day|] eqn:Hday.
  - exists day. split; [reflexivity|].
    pose proof (getDate_range _ Hday) as Hpos.
    destruct (Z_lt_le_dec (daysInMonth y m) day) as [Hout | Hin]; [|lia].
    exfalso. apply Hok. apply Hiff. exists e. split; [exact He|].
    rewrite Hday. exact Hout.
  - exfalso. apply Hok. apply Hiff. exists e. split; [exact He|].
    rewrite Hday. exact I.
Qed.

End Trend.
Section TrendOfTransactions.

Local Open Scope Z_scope.
Import JSDate LocalDate CurrencyUtils ExpenseUtils.

Context {host : Host} {arith : Arithmetic}.

(** The expense made of a transaction carries its date and its amount in
    USD. *)
Lemma converted_transaction (transaction : Transaction.t) (rest : list Transaction.t) (date : Z) :
  ofString (Transaction.transactionDate transaction) = Some date ->
  exists e,
    convertTransactionsToExpenses (transaction :: rest) = e :: convertTransactionsToExpenses rest
    /\ ofString (Expense.createdAt e) = Some date
    /\ Expense.amount e = amountInUSD transaction.
Proof.
  intros Hdate. unfold convertTransactionsToExpenses. cbn [List.map]. rewrite Hdate.
  eexists. split; [reflexivity|]. cbn [Expense.createdAt Expense.amount].
  split; [|reflexivity].
  apply ofString_toISOString. exact (ofString_range _ Hdate).
Qed.

Lemma addTransactions_as_expenses (transactions : list Transaction.t) (viewingDate : option Z) :
  forall dailyData,
    addTransactions transactions viewingDate dailyData
    = addExpenses
        (filterExpensesByMonth (convertTransactionsToExpenses (dated transactions)) viewingDate)
        dailyData.
Proof.
  induction transactions as [|transaction rest IH]; intros dailyData; [reflexivity|].
  cbn [addTransactions]. unfold dated. cbn [filter]. fold (dated rest).
  destruct (ofString (Transaction.transactionDate transaction)) as [date|] eqn:Hdate.
  - destruct (@converted_transaction transaction (dated rest) date Hdate) as [e [Hc [Hd Ha]]].
    rewrite Hc. unfold filterExpensesByMonth. cbn [filter].
    fold (filterExpensesByMonth (convertTransactionsToExpenses (dated rest)) viewingDate).
    rewrite Hd.
    destruct (sameNumber (getMonth (Some date)) (getMonth viewingDate)
              && sameNumber (getFullYear (Some date)) (getFullYear viewingDate)).
    + cbn [addExpenses]. rewrite Hd, Ha.
      destruct (addToDay dailyData (option_map (fun d => d - 1) (getDate (Some date)))
                         (amountInUSD transaction)) as [dailyData'|]; [|reflexivity].
      cbn [bindR]. apply IH.
    + apply IH.
  - cbn [getMonth sameNumber andb]. apply IH.
Qed.

(** X25: the daily trend of transactions is that of the expenses made of
    them.  For every list of transactions and every viewing date, also an
    invalid one, [generateDailyTrendDataFromTransactions] gives what
    [generateDailyTrendData] gives for the expenses that
    [convertTransactionsToExpenses] makes of the transactions whose
    transactionDate is a date and that [filterExpensesByMonth] keeps: the
    same entries, or the same failure.  So a transaction without a
    readable date adds nothing to the trend. *)
Theorem transactions_trend_is_expenses_trend :
  forall (transactions : list Transaction.t) (viewingDate : option Z),
    generateDailyTrendDataFromTransactions transactions viewingDate
    = generateDailyTrendData
        (filterExpensesByMonth (convertTransactionsToExpenses (dated transactions)) viewingDate)
        viewingDate.
Proof.
  intros transactions viewingDate.
  unfold generateDailyTrendDataFromTransactions, generateDailyTrendData.
  apply addTransactions_as_expenses.
Qed.

(** X26: [generateDailyTrendDataFromTransactions] does not fail.  For a
    viewing date in a year other than 0, from -271820 to 275759, and a
    host less than a day away from UTC, it returns one entry for each day
    of the viewing month, and the entry of a day holds the amounts in USD
    of the transactions of that day of the viewing month, added in the
    order of the list to 0. *)
Theorem transactions_daily_trend :
  forall (transactions : list Transaction.t) (t y m d : Z),
    civilFromDays (localDay t) = (y, m, d) ->
    y <> 0 -> - 271820 <= y <= 275759 -> - 1440 < tzOffset < 1440 ->
    generateDailyTrendDataFromTransactions transactions (Some t)
    = Return (monthTotals (daysInMonth y m)
                (filterExpensesByMonth (convertTransactionsToExpenses (dated transactions))
                                       (Some t))).
Proof.
  intros transactions t y m d Hciv Hy0 Hy Htz.
  unfold generateDailyTrendDataFromTransactions.
  rewrite addTransactions_as_expenses.
  rewrite (@daysInMonthOf_calendar _ t y m d Hciv Hy0 Hy Htz).
  apply addExpenses_month.
  intros e He. unfold filterExpensesByMonth in He. apply filter_In in He.
  destruct He as [_ Hsame].
  exact (@day_of_same_month _ _ t y m d Hciv Hsame).
Qed.

Lemma addTransactions_invalid (transactions : list Transaction.t) :
  forall dailyData, addTransactions transactions None dailyData = Return dailyData.
Proof.
  induction transactions as [|transaction rest IH]; intros dailyData; [reflexivity|].
  cbn [addTransactions].
  destruct (getMonth (ofString (Transaction.transactionDate transaction))); apply IH.
Qed.

(** X27: an Invalid Date as the viewing date.  The array of the month is
    then empty: [generateDailyTrendDataFromTransactions] returns it as it
    is, whatever the transactions, and [generateDailyTrendData] fails
    with a TypeError as soon as there is one expense. *)
Theorem daily_trend_of_an_invalid_date :
  forall (transactions : list Transaction.t) (expenses : list Expense.t),
    generateDailyTrendDataFromTransactions transactions None = Return []
    /\ generateDailyTrendData expenses None
       = match expenses with [] => Return [] | _ :: _ => Throw end.
Proof.
  intros transactions expenses. split.
  - unfold generateDailyTrendDataFromTransactions. apply addTransactions_invalid.
  - unfold generateDailyTrendData. cbn [daysInMonthOf getFullYear emptyDays].
    destruct expenses as [|e es]; [reflexivity|].
    cbn [addExpenses].
    destruct (getDate (ofString (Expense.createdAt e))) as [day|]; [|reflexivity].
    cbn [option_map]. unfold addToDay.
    destruct (0 <=? day - 1); [|reflexivity].
    destruct (Z.to_nat (day - 1)); reflexivity.
Qed.

End TrendOfTransactions.
Lemma filtered_expenses_daily_trend_witness :
  JSDate.civilFromDays (@LocalDate.localDay ExpenseSamples.sanJose ExpenseSamples.october)
  = (2025, 10, 14)%Z
  /\ (2025 <> 0)%Z /\ (- 271820 <= 2025 <= 275759)%Z
  /\ (- 1440 < @tzOffset ExpenseSamples.sanJose < 1440)%Z
  /\ @ExpenseUtils.generateDailyTrendData ExpenseSamples.sanJose ExpenseSamples.exact
       (@ExpenseUtils.filterExpensesByMonth ExpenseSamples.sanJose ExpenseSamples.expenses
          (Some ExpenseSamples.october))
       (Some ExpenseSamples.october)
     = Return (@monthTotals ExpenseSamples.sanJose ExpenseSamples.exact
                 (JSDate.daysInMonth 2025 10)
                 (@ExpenseUtils.filterExpensesByMonth ExpenseSamples.sanJose
                    ExpenseSamples.expenses (Some ExpenseSamples.october))).
Proof.
  assert (Hciv : JSDate.civilFromDays
                   (@LocalDate.localDay ExpenseSamples.sanJose ExpenseSamples.october)
                 = (2025, 10, 14)%Z) by (vm_compute; reflexivity).
  assert (Htz : (- 1440 < @tzOffset ExpenseSamples.sanJose < 1440)%Z) by (vm_compute; split; reflexivity).
  split; [exact Hciv|]. split; [lia|]. split; [lia|]. split; [exact Htz|].
  apply (@filtered_expenses_daily_trend ExpenseSamples.sanJose ExpenseSamples.exact
           ExpenseSamples.expenses ExpenseSamples.october 2025 10 14 Hciv);
    [lia | lia | exact Htz].
Defined.

Lemma daily_trend_fails_on_a_missing_day_witness :
  let november := (ExpenseSamples.october + 30 * JSDate.msPerDay)%Z in
  JSDate.civilFromDays (@LocalDate.localDay ExpenseSamples.sanJose november) = (2025, 11, 13)%Z
  /\ (2025 <> 0)%Z /\ (- 271820 <= 2025 <= 275759)%Z
  /\ (- 1440 < @tzOffset ExpenseSamples.sanJose < 1440)%Z
  /\ @ExpenseUtils.generateDailyTrendData ExpenseSamples.sanJose ExpenseSamples.exact
       ExpenseSamples.expenses (Some november) = Throw
  /\ (@ExpenseUtils.generateDailyTrendData ExpenseSamples.sanJose ExpenseSamples.exact
        ExpenseSamples.expenses (Some november) = Throw
      <-> exists e, In e ExpenseSamples.expenses
                    /\ match @LocalDate.getDate ExpenseSamples.sanJose
                               (@JSDate.ofString ExpenseSamples.sanJose (Expense.createdAt e)) with
                       | Some day => (JSDate.daysInMonth 2025 11 < day)%Z
                       | None => True
                       end)
  /\ (@ExpenseUtils.generateDailyTrendData ExpenseSamples.sanJose ExpenseSamples.exact
        ExpenseSamples.expenses (Some november) <> Throw ->
      @ExpenseUtils.generateDailyTrendData ExpenseSamples.sanJose ExpenseSamples.exact
        ExpenseSamples.expenses (Some november)
      = Return (@monthTotals ExpenseSamples.sanJose ExpenseSamples.exact
                  (JSDate.daysInMonth 2025 11) ExpenseSamples.expenses)).
Proof.
  intros november.
  assert (Hciv : JSDate.civilFromDays (@LocalDate.localDay ExpenseSamples.sanJose november)
                 = (2025, 11, 13)%Z) by (vm_compute; reflexivity).
  assert (Htz : (- 1440 < @tzOffset ExpenseSamples.sanJose < 1440)%Z)
    by (vm_compute; split; reflexivity).
  split; [exact Hciv|]. split; [lia|]. split; [lia|]. split; [exact Htz|].
  split; [vm_compute; reflexivity|].
  apply (@daily_trend_fails_on_a_missing_day ExpenseSamples.sanJose ExpenseSamples.exact
           ExpenseSamples.expenses november 2025 11 13 Hciv);
    [lia | lia | exact Htz].
Defined.

Lemma transactions_daily_trend_witness :
  JSDate.civilFromDays (@LocalDate.localDay ExpenseSamples.sanJose ExpenseSamples.october)
  = (2025, 10, 14)%Z
  /\ (2025 <> 0)%Z /\ (- 271820 <= 2025 <= 275759)%Z
  /\ (- 1440 < @tzOffset ExpenseSamples.sanJose < 1440)%Z
  /\ @ExpenseUtils.generateDailyTrendDataFromTransactions ExpenseSamples.sanJose
       ExpenseSamples.exact ExpenseSamples.transactions (Some ExpenseSamples.october)
     = Return (@monthTotals ExpenseSamples.sanJose ExpenseSamples.exact
                 (JSDate.daysInMonth 2025 10)
                 (@ExpenseUtils.filterExpensesByMonth ExpenseSamples.sanJose
                    (@ExpenseUtils.convertTransactionsToExpenses ExpenseSamples.sanJose
                       ExpenseSamples.exact
                       (@dated ExpenseSamples.sanJose ExpenseSamples.transactions))
                    (Some ExpenseSamples.october))).
Proof.
  assert (Hciv : JSDate.civilFromDays
                   (@LocalDate.localDay ExpenseSamples.sanJose ExpenseSamples.october)
                 = (2025, 10, 14)%Z) by (vm_compute; reflexivity).
  assert (Htz : (- 1440 < @tzOffset ExpenseSamples.sanJose < 1440)%Z)
    by (vm_compute; split; reflexivity).
  split; [exact Hciv|]. split; [lia|]. split; [lia|]. split; [exact Htz|].
  apply (@transactions_daily_trend ExpenseSamples.sanJose ExpenseSamples.exact
           ExpenseSamples.transactions ExpenseSamples.october 2025 10 14 Hciv);
    [lia | lia | exact Htz].
Defined.
